(** * The CTA backtesting engine of vnpy: a shallow embedding

    Sources embedded here:
    - [vnpy/app/cta_strategy/backtesting.py]: [BacktestingEngine],
      [DailyResult], [OptimizationSetting] and the module functions;
    - [vnpy/app/cta_strategy/template.py]: the order-entry methods of
      [CtaTemplate].

    Conventions of the embedding.
    - A Python number is a rational ([Q]).  Comparison, [min] and [max] are
      exact on numbers; an arithmetic expression is embedded operator by
      operator, in the order in which Python evaluates it, and a division
      raises [ZeroDivisionError] on a zero divisor.
    - A method that mutates [self] is a computation in the monad [M St]:
      a function from the object's state to an outcome and the state left
      behind.  An exception keeps the mutations made before it was raised.
    - A strategy is a set of callbacks.  A callback is a program ([Action])
      over the operations [CtaTemplate] offers, run against the engine. *)

From Stdlib Require Import ZArith QArith Qround List String Bool Lia Lqa.
From Stdlib Require Import Sorted Permutation.
From stdpp Require Import base option list gmap.
Import ListNotations.

Set Default Proof Using "Type".
Open Scope Q_scope.

(* ================================================================= *)
(** * Part I: definitions *)
(* ================================================================= *)

(** ** Python values and exceptions *)

Inductive exn : Type :=
| ZeroDivisionError
| KeyError
| TypeError
| AttributeError
| IndexError
| RecursionError
| NameError (name : string)
| StrategyError (msg : string).

Inductive outcome (A : Type) : Type :=
| Ok (a : A)
| Raise (e : exn).
Arguments Ok {A} a.
Arguments Raise {A} e.

(** [a < b], [a <= b] and [a == b] on numbers, as booleans. *)
Definition Qltb (a b : Q) : bool := negb (Qle_bool b a).
Definition Qleb (a b : Q) : bool := Qle_bool a b.
Definition Qeqb (a b : Q) : bool := Qeq_bool a b.

(** Python's [min(a, b)] and [max(a, b)]: the first argument is kept unless
    the second is strictly smaller (larger). *)
Definition py_min (a b : Q) : Q := if Qltb b a then b else a.
Definition py_max (a b : Q) : Q := if Qltb a b then b else a.

(** Python's [a / b]. *)
Definition py_div (a b : Q) : outcome Q :=
  if Qeqb b 0 then Raise ZeroDivisionError else Ok (a / b).

(** Truth value of a number: [if x:] holds unless [x] is zero. *)
Definition truthy (x : Q) : bool := negb (Qeqb x 0).

(** ** The state-and-exception monad *)

Definition M (St A : Type) : Type := St -> outcome A * St.

Definition ret {St A} (a : A) : M St A := fun s => (Ok a, s).

Definition bind {St A B} (m : M St A) (f : A -> M St B) : M St B :=
  fun s => match m s with
           | (Ok a, s') => f a s'
           | (Raise e, s') => (Raise e, s')
           end.

Definition raise {St A} (e : exn) : M St A := fun s => (Raise e, s).

Definition get {St} : M St St := fun s => (Ok s, s).

Definition gets {St A} (f : St -> A) : M St A := fun s => (Ok (f s), s).

Definition modify {St} (f : St -> St) : M St unit := fun s => (Ok tt, f s).

Definition lift {St A} (o : outcome A) : M St A := fun s => (o, s).

(** [try: m except e: h] *)
Definition catch {St A} (m : M St A) (handles : exn -> bool) (h : M St A) : M St A :=
  fun s => match m s with
           | (Ok a, s') => (Ok a, s')
           | (Raise e, s') => if handles e then h s' else (Raise e, s')
           end.

Declare Scope monad_scope.
Delimit Scope monad_scope with monad.
Notation "x <- m ;; k" := (bind m (fun x => k))
  (at level 100, m at level 99, k at level 200, right associativity) : monad_scope.
Notation "m ;;; k" := (bind m (fun _ => k))
  (at level 100, k at level 200, right associativity) : monad_scope.
Open Scope monad_scope.

(** [for x in l: body x] *)
Fixpoint for_each {St A} (l : list A) (body : A -> M St unit) : M St unit :=
  match l with
  | [] => ret tt
  | x :: l' => body x ;;; for_each l' body
  end.

Definition when {St} (b : bool) (m : M St unit) : M St unit :=
  if b then m else ret tt.

(** ** Domain types *)

(** Modelled from the spec: the enumerations of [vnpy.trader.constant] and
    of [vnpy.app.cta_strategy.base], which are not among the sources
    (section 3 of the specification lists their members). *)
Inductive Direction : Type := LONG | SHORT.
Inductive Offset : Type := OFFSET_NONE | OPEN | CLOSE | CLOSETODAY.
Inductive Status : Type :=
| SUBMITTING | NOTTRADED | PARTTRADED | ALLTRADED | CANCELLED | REJECTED.
Inductive StopOrderStatus : Type := WAITING | TRIGGERED | STOP_CANCELLED.
Inductive RateType : Type := FIXED | FLOAT.
Inductive BacktestingMode : Type := BAR | TICK.

Definition Direction_eqb (a b : Direction) : bool :=
  match a, b with LONG, LONG | SHORT, SHORT => true | _, _ => false end.
Definition Offset_eqb (a b : Offset) : bool :=
  match a, b with
  | OFFSET_NONE, OFFSET_NONE | OPEN, OPEN | CLOSE, CLOSE
  | CLOSETODAY, CLOSETODAY => true
  | _, _ => false
  end.
Definition Status_eqb (a b : Status) : bool :=
  match a, b with
  | SUBMITTING, SUBMITTING | NOTTRADED, NOTTRADED | PARTTRADED, PARTTRADED
  | ALLTRADED, ALLTRADED | CANCELLED, CANCELLED | REJECTED, REJECTED => true
  | _, _ => false
  end.
Definition RateType_eqb (a b : RateType) : bool :=
  match a, b with FIXED, FIXED | FLOAT, FLOAT => true | _, _ => false end.

(** [datetime.datetime]: the fields the engine reads. *)
Record DateTime : Type := mkDateTime {
  dt_year : Z; dt_month : Z; dt_day : Z;
  dt_hour : Z; dt_minute : Z; dt_second : Z }.

(** [datetime.date()] *)
Definition Date : Type := (Z * Z * Z)%type.
Definition date_of (dt : DateTime) : Date := (dt_year dt, dt_month dt, dt_day dt).
Definition Date_eqb (a b : Date) : bool :=
  match a, b with
  | (y1, m1, d1), (y2, m2, d2) => (y1 =? y2)%Z && (m1 =? m2)%Z && (d1 =? d2)%Z
  end.

Record BarData : Type := mkBar {
  bar_datetime : DateTime;
  open_price : Q; high_price : Q; low_price : Q; bar_close_price : Q }.

Record TickData : Type := mkTick {
  tick_datetime : DateTime;
  last_price : Q; bid_price_1 : Q; ask_price_1 : Q }.

(** [TradeData]; [tradeid] and [orderid] are the sequence numbers from which
    the identifier strings are printed. *)
Record TradeData : Type := mkTrade {
  tradeid : N;
  trade_orderid : N;
  trade_direction : Direction;
  trade_offset : Offset;
  trade_price : Q;
  trade_volume : Q;
  trade_datetime : option DateTime }.

(** ** DailyResult *)

Record DailyResult : Type := mkDailyResult {
  dr_date : Date;
  close_price : Q;
  pre_close : Q;
  dr_trades : list TradeData;
  dr_trade_count : nat;
  start_pos : Q;
  end_pos : Q;
  turnover : Q;
  commission : Q;
  dr_slippage : Q;
  trading_pnl : Q;
  holding_pnl : Q;
  total_pnl : Q;
  net_pnl : Q }.

(** [DailyResult.__init__] *)
Definition DailyResult_init (d : Date) (close : Q) : DailyResult :=
  {| dr_date := d; close_price := close; pre_close := 0;
     dr_trades := []; dr_trade_count := 0%nat;
     start_pos := 0; end_pos := 0;
     turnover := 0; commission := 0; dr_slippage := 0;
     trading_pnl := 0; holding_pnl := 0; total_pnl := 0; net_pnl := 0 |}.

Definition set_close_price (v : Q) (r : DailyResult) : DailyResult :=
  {| dr_date := dr_date r; close_price := v; pre_close := pre_close r;
     dr_trades := dr_trades r; dr_trade_count := dr_trade_count r;
     start_pos := start_pos r; end_pos := end_pos r;
     turnover := turnover r; commission := commission r;
     dr_slippage := dr_slippage r; trading_pnl := trading_pnl r;
     holding_pnl := holding_pnl r; total_pnl := total_pnl r;
     net_pnl := net_pnl r |}.
Definition set_pre_close (v : Q) (r : DailyResult) : DailyResult :=
  {| dr_date := dr_date r; close_price := close_price r; pre_close := v;
     dr_trades := dr_trades r; dr_trade_count := dr_trade_count r;
     start_pos := start_pos r; end_pos := end_pos r;
     turnover := turnover r; commission := commission r;
     dr_slippage := dr_slippage r; trading_pnl := trading_pnl r;
     holding_pnl := holding_pnl r; total_pnl := total_pnl r;
     net_pnl := net_pnl r |}.
Definition set_dr_trades (v : list TradeData) (r : DailyResult) : DailyResult :=
  {| dr_date := dr_date r; close_price := close_price r; pre_close := pre_close r;
     dr_trades := v; dr_trade_count := dr_trade_count r;
     start_pos := start_pos r; end_pos := end_pos r;
     turnover := turnover r; commission := commission r;
     dr_slippage := dr_slippage r; trading_pnl := trading_pnl r;
     holding_pnl := holding_pnl r; total_pnl := total_pnl r;
     net_pnl := net_pnl r |}.
Definition set_dr_trade_count (v : nat) (r : DailyResult) : DailyResult :=
  {| dr_date := dr_date r; close_price := close_price r; pre_close := pre_close r;
     dr_trades := dr_trades r; dr_trade_count := v;
     start_pos := start_pos r; end_pos := end_pos r;
     turnover := turnover r; commission := commission r;
     dr_slippage := dr_slippage r; trading_pnl := trading_pnl r;
     holding_pnl := holding_pnl r; total_pnl := total_pnl r;
     net_pnl := net_pnl r |}.
Definition set_start_pos (v : Q) (r : DailyResult) : DailyResult :=
  {| dr_date := dr_date r; close_price := close_price r; pre_close := pre_close r;
     dr_trades := dr_trades r; dr_trade_count := dr_trade_count r;
     start_pos := v; end_pos := end_pos r;
     turnover := turnover r; commission := commission r;
     dr_slippage := dr_slippage r; trading_pnl := trading_pnl r;
     holding_pnl := holding_pnl r; total_pnl := total_pnl r;
     net_pnl := net_pnl r |}.
Definition set_end_pos (v : Q) (r : DailyResult) : DailyResult :=
  {| dr_date := dr_date r; close_price := close_price r; pre_close := pre_close r;
     dr_trades := dr_trades r; dr_trade_count := dr_trade_count r;
     start_pos := start_pos r; end_pos := v;
     turnover := turnover r; commission := commission r;
     dr_slippage := dr_slippage r; trading_pnl := trading_pnl r;
     holding_pnl := holding_pnl r; total_pnl := total_pnl r;
     net_pnl := net_pnl r |}.
Definition set_turnover (v : Q) (r : DailyResult) : DailyResult :=
  {| dr_date := dr_date r; close_price := close_price r; pre_close := pre_close r;
     dr_trades := dr_trades r; dr_trade_count := dr_trade_count r;
     start_pos := start_pos r; end_pos := end_pos r;
     turnover := v; commission := commission r;
     dr_slippage := dr_slippage r; trading_pnl := trading_pnl r;
     holding_pnl := holding_pnl r; total_pnl := total_pnl r;
     net_pnl := net_pnl r |}.
Definition set_commission (v : Q) (r : DailyResult) : DailyResult :=
  {| dr_date := dr_date r; close_price := close_price r; pre_close := pre_close r;
     dr_trades := dr_trades r; dr_trade_count := dr_trade_count r;
     start_pos := start_pos r; end_pos := end_pos r;
     turnover := turnover r; commission := v;
     dr_slippage := dr_slippage r; trading_pnl := trading_pnl r;
     holding_pnl := holding_pnl r; total_pnl := total_pnl r;
     net_pnl := net_pnl r |}.
Definition set_dr_slippage (v : Q) (r : DailyResult) : DailyResult :=
  {| dr_date := dr_date r; close_price := close_price r; pre_close := pre_close r;
     dr_trades := dr_trades r; dr_trade_count := dr_trade_count r;
     start_pos := start_pos r; end_pos := end_pos r;
     turnover := turnover r; commission := commission r;
     dr_slippage := v; trading_pnl := trading_pnl r;
     holding_pnl := holding_pnl r; total_pnl := total_pnl r;
     net_pnl := net_pnl r |}.
Definition set_trading_pnl (v : Q) (r : DailyResult) : DailyResult :=
  {| dr_date := dr_date r; close_price := close_price r; pre_close := pre_close r;
     dr_trades := dr_trades r; dr_trade_count := dr_trade_count r;
     start_pos := start_pos r; end_pos := end_pos r;
     turnover := turnover r; commission := commission r;
     dr_slippage := dr_slippage r; trading_pnl := v;
     holding_pnl := holding_pnl r; total_pnl := total_pnl r;
     net_pnl := net_pnl r |}.
Definition set_holding_pnl (v : Q) (r : DailyResult) : DailyResult :=
  {| dr_date := dr_date r; close_price := close_price r; pre_close := pre_close r;
     dr_trades := dr_trades r; dr_trade_count := dr_trade_count r;
     start_pos := start_pos r; end_pos := end_pos r;
     turnover := turnover r; commission := commission r;
     dr_slippage := dr_slippage r; trading_pnl := trading_pnl r;
     holding_pnl := v; total_pnl := total_pnl r;
     net_pnl := net_pnl r |}.
Definition set_total_pnl (v : Q) (r : DailyResult) : DailyResult :=
  {| dr_date := dr_date r; close_price := close_price r; pre_close := pre_close r;
     dr_trades := dr_trades r; dr_trade_count := dr_trade_count r;
     start_pos := start_pos r; end_pos := end_pos r;
     turnover := turnover r; commission := commission r;
     dr_slippage := dr_slippage r; trading_pnl := trading_pnl r;
     holding_pnl := holding_pnl r; total_pnl := v;
     net_pnl := net_pnl r |}.
Definition set_net_pnl (v : Q) (r : DailyResult) : DailyResult :=
  {| dr_date := dr_date r; close_price := close_price r; pre_close := pre_close r;
     dr_trades := dr_trades r; dr_trade_count := dr_trade_count r;
     start_pos := start_pos r; end_pos := end_pos r;
     turnover := turnover r; commission := commission r;
     dr_slippage := dr_slippage r; trading_pnl := trading_pnl r;
     holding_pnl := holding_pnl r; total_pnl := total_pnl r;
     net_pnl := v |}.

(** [DailyResult.add_trade] *)
Definition add_trade (t : TradeData) : M DailyResult unit :=
  modify (fun r => set_dr_trades (dr_trades r ++ [t]) r).

(** The body of the loop [for trade in self.trades] of [calculate_pnl]. *)
Definition calculate_pnl_trade (size : Q) (rate_type : RateType)
    (rate slippage : Q) (inverse : bool) (trade : TradeData)
  : M DailyResult unit :=
  let pos_change :=
    if Direction_eqb (trade_direction trade) LONG
    then trade_volume trade else - trade_volume trade in
  modify (fun r => set_end_pos (end_pos r + pos_change) r) ;;;
  turnover_ <-
    (if negb inverse then
       let turnover_ := trade_volume trade * size * trade_price trade in
       modify (fun r => set_trading_pnl
         (trading_pnl r
          + pos_change * (close_price r - trade_price trade) * size) r) ;;;
       when (RateType_eqb rate_type FIXED)
         (modify (fun r => set_commission
            (commission r + trade_volume trade * rate) r)) ;;;
       modify (fun r => set_dr_slippage
         (dr_slippage r + trade_volume trade * size * slippage) r) ;;;
       ret turnover_
     else
       turnover_ <- lift (py_div (trade_volume trade * size) (trade_price trade)) ;;
       a <- lift (py_div 1 (trade_price trade)) ;;
       close <- gets close_price ;;
       b <- lift (py_div 1 close) ;;
       modify (fun r => set_trading_pnl
         (trading_pnl r + pos_change * (a - b) * size) r) ;;;
       when (RateType_eqb rate_type FIXED)
         (modify (fun r => set_commission
            (commission r + trade_volume trade * rate) r)) ;;;
       s <- lift (py_div (trade_volume trade * size * slippage)
                         (trade_price trade ^ 2)) ;;
       modify (fun r => set_dr_slippage (dr_slippage r + s) r) ;;;
       ret turnover_) ;;
  modify (fun r => set_turnover (turnover r + turnover_) r) ;;;
  when (RateType_eqb rate_type FLOAT)
    (modify (fun r => set_commission (commission r + turnover_ * rate) r)).

(** [DailyResult.calculate_pnl] *)
Definition calculate_pnl (pre_close_ start_pos_ size : Q)
    (rate_type : RateType) (rate slippage : Q) (inverse : bool)
  : M DailyResult unit :=
  modify (set_pre_close (if truthy pre_close_ then pre_close_ else 1)) ;;;
  modify (set_start_pos start_pos_) ;;;
  modify (set_end_pos start_pos_) ;;;
  (if negb inverse then
     modify (fun r => set_holding_pnl
       (start_pos r * (close_price r - pre_close r) * size) r)
   else
     pc <- gets pre_close ;;
     a <- lift (py_div 1 pc) ;;
     close <- gets close_price ;;
     b <- lift (py_div 1 close) ;;
     modify (fun r => set_holding_pnl (start_pos r * (a - b) * size) r)) ;;;
  modify (fun r => set_dr_trade_count (length (dr_trades r)) r) ;;;
  trades <- gets dr_trades ;;
  for_each trades (calculate_pnl_trade size rate_type rate slippage inverse) ;;;
  modify (fun r => set_total_pnl (trading_pnl r + holding_pnl r) r) ;;;
  modify (fun r => set_net_pnl (total_pnl r - commission r - dr_slippage r) r).

(** *** The formulas of the specification for the daily accumulator *)

Definition spec_pos_change (t : TradeData) : Q :=
  match trade_direction t with
  | LONG => trade_volume t
  | SHORT => - trade_volume t
  end.

Definition spec_pre_close (pre_close_ : Q) : Q :=
  if Qeqb pre_close_ 0 then 1 else pre_close_.

Definition spec_holding_pnl (inverse : bool) (start_pos_ close pc size : Q) : Q :=
  if inverse then start_pos_ * (1 / pc - 1 / close) * size
  else start_pos_ * (close - pc) * size.

Definition spec_trade_pnl (inverse : bool) (close size : Q) (t : TradeData) : Q :=
  if inverse then spec_pos_change t * (1 / trade_price t - 1 / close) * size
  else spec_pos_change t * (close - trade_price t) * size.

(** "accumulates": the contributions are added one trade after the other. *)
Definition accumulate (f : TradeData -> Q) (trades : list TradeData) (init : Q) : Q :=
  fold_left (fun acc t => acc + f t) trades init.

(** The inputs on which an inverse-mode formula divides by zero. *)
Definition pnl_divides_by_zero (inverse : bool) (close : Q)
    (trades : list TradeData) : bool :=
  inverse && (Qeqb close 0 || existsb (fun t => Qeqb (trade_price t) 0) trades).

(** ** The round-trip ledger: [BacktestingEngine.calculate_trade_result] *)

(** The engine attributes the ledger reads.  [lg_daily_df] is the column
    [close_price] of [self.daily_df], [None] when no daily frame was
    computed. *)
Record LedgerConfig : Type := mkLedgerConfig {
  lg_size : Q;
  lg_rate_type : RateType;
  lg_rate : Q;
  lg_slippage : Q;
  lg_daily_df : option (list Q) }.

(** The columns [calculate_trade_result] adds to [trade_df], one entry per
    trade. *)
Record TradeColumns : Type := mkTradeColumns {
  trade_number_list : list N;
  trade_profit_list : list Q;
  trade_commission_list : list Q;
  trade_slippage_list : list Q }.

(** The three values appended for one row in the first loop.  A row of
    [trade_df] is a trade; its column [direction] holds the value of the
    enumeration member, and the test [row.direction == "多"] is the test
    for [LONG]. *)
Definition row_profit (c : LedgerConfig) (row : TradeData) : Q :=
  if Direction_eqb (trade_direction row) LONG
  then lg_size c * trade_price row * trade_volume row * (-1)
  else lg_size c * trade_price row * trade_volume row * 1.

Definition row_commission (c : LedgerConfig) (row : TradeData) : Q :=
  match lg_rate_type c with
  | FIXED => trade_volume row * lg_rate c
  | FLOAT => lg_size c * trade_price row * trade_volume row * lg_rate c
  end.

Definition row_slippage (c : LedgerConfig) (row : TradeData) : Q :=
  lg_size c * lg_slippage c.

(** The first loop: [trade_number_list], with the running [volume_count]
    and [trade_count].  [row.offset == "开"] is the test for [OPEN]. *)
Fixpoint number_rows (rows : list TradeData) (volume_count : Q) (trade_count : N)
  : list N * Q :=
  match rows with
  | [] => ([], volume_count)
  | row :: rows' =>
      let volume_count :=
        if Offset_eqb (trade_offset row) OPEN
        then volume_count + trade_volume row
        else volume_count - trade_volume row in
      let trade_count' :=
        if Qeqb volume_count 0 then (trade_count + 1)%N else trade_count in
      let '(numbers, v) := number_rows rows' volume_count trade_count' in
      (trade_count :: numbers, v)
  end.

(** [for count, offset in enumerate(offset_list_reverse): if offset == "平":
    break]: the value of [count] when the loop ends.  [ix] is the index of
    the head of [l], [count] the value bound by the previous iteration. *)
Fixpoint tail_count_loop (l : list Offset) (ix count : nat) : nat :=
  match l with
  | [] => count
  | offset :: l' =>
      if Offset_eqb offset CLOSE then ix
      else tail_count_loop l' (S ix) ix
  end.

(** The value of [count] after the statement that looks for a trailing run
    of opening trades. *)
Definition tail_count (rows : list TradeData) : outcome nat :=
  let offset_list_reverse := rev (map trade_offset rows) in
  match offset_list_reverse with
  | [] => Raise IndexError
  | first :: _ =>
      if Offset_eqb first OPEN
      then Ok (tail_count_loop offset_list_reverse 0 0)
      else Ok 0%nat
  end.

(** The values appended for one row in the second loop. *)
Definition modify_profit (c : LedgerConfig) (last_close_price : Q) (row : TradeData) : Q :=
  if Direction_eqb (trade_direction row) LONG
  then lg_size c * (last_close_price - trade_price row) * trade_volume row
  else lg_size c * (trade_price row - last_close_price) * trade_volume row.

Definition modify_commission (c : LedgerConfig) (last_close_price : Q) (row : TradeData) : Q :=
  match lg_rate_type c with
  | FIXED => 2 * trade_volume row * lg_rate c
  | FLOAT =>
      lg_size c * (last_close_price + trade_price row) * trade_volume row * lg_rate c
  end.

Definition modify_slippage (c : LedgerConfig) (row : TradeData) : Q :=
  2 * lg_size c * lg_slippage c.

(** [l[-count:]] and [l[-count:] = m], for [0 < count]. *)
Definition py_tail {A} (count : nat) (l : list A) : list A :=
  skipn (length l - count) l.
Definition py_set_tail {A} (count : nat) (l m : list A) : list A :=
  firstn (length l - count) l ++ m.

(** [self.daily_df.close_price.to_list()[-1]] *)
Definition last_close_price_of (c : LedgerConfig) : outcome Q :=
  match lg_daily_df c with
  | None => Raise AttributeError
  | Some closes =>
      match rev closes with
      | [] => Raise IndexError
      | x :: _ => Ok x
      end
  end.

(** [calculate_trade_result] called without a frame, up to the assignment
    of the columns [trade_number], [trade_profit], [trade_commission] and
    [trade_slippage]; the aggregation per round that follows is a group-by
    over these columns and is not embedded.  [rows] are the trades of the
    engine in ledger order: [get_trade_df] makes a frame of them, or returns
    [None] when there is none, and [reset_index] then fails. *)
Definition calculate_trade_result (c : LedgerConfig) (rows : list TradeData)
  : outcome TradeColumns :=
  let numbers := fst (number_rows rows 0 1%N) in
  let profits := map (row_profit c) rows in
  let commissions := map (row_commission c) rows in
  let slippages := map (row_slippage c) rows in
  match rows with [] => Raise AttributeError | _ :: _ =>
  match tail_count rows with
  | Raise e => Raise e
  | Ok count =>
      if Nat.eqb count 0 then
        Ok (mkTradeColumns numbers profits commissions slippages)
      else
        match last_close_price_of c with
        | Raise e => Raise e
        | Ok last_close_price =>
            let tail := py_tail count rows in
            Ok (mkTradeColumns numbers
                  (py_set_tail count profits (map (modify_profit c last_close_price) tail))
                  (py_set_tail count commissions
                     (map (modify_commission c last_close_price) tail))
                  (py_set_tail count slippages (map (modify_slippage c) tail)))
        end
  end end.

(** *** The ledger rule as the specification words it *)

(** The signed net volume [v] at the end of the sequence. *)
Definition final_volume (rows : list TradeData) : Q :=
  snd (number_rows rows 0 1%N).

(** The trades after the last closing trade. *)
Fixpoint after_last_close (rows : list TradeData) : list TradeData :=
  match rows with
  | [] => []
  | row :: rows' =>
      if existsb (fun r => Offset_eqb (trade_offset r) CLOSE) rows'
      then after_last_close rows'
      else if Offset_eqb (trade_offset row) CLOSE then rows' else rows
  end.

(** The columns in which exactly the last [n] trades are rewritten with the
    closing price [last_close_price]. *)
Definition rewritten_columns (c : LedgerConfig) (last_close_price : Q)
    (rows : list TradeData) (n : nat) : TradeColumns :=
  let keep := firstn (length rows - n) rows in
  let tail := skipn (length rows - n) rows in
  mkTradeColumns (fst (number_rows rows 0 1%N))
    (map (row_profit c) keep ++ map (modify_profit c last_close_price) tail)
    (map (row_commission c) keep ++ map (modify_commission c last_close_price) tail)
    (map (row_slippage c) keep ++ map (modify_slippage c) tail).

(** The columns in which no trade is rewritten. *)
Definition plain_columns (c : LedgerConfig) (rows : list TradeData) : TradeColumns :=
  mkTradeColumns (fst (number_rows rows 0 1%N))
    (map (row_profit c) rows) (map (row_commission c) rows)
    (map (row_slippage c) rows).

(** The rule of the specification: the tail is rewritten if and only if the
    sequence ends with a nonzero net volume. *)
Definition spec_trade_result (c : LedgerConfig) (last_close_price : Q)
    (rows : list TradeData) : TradeColumns :=
  if Qeqb (final_volume rows) 0 then plain_columns c rows
  else rewritten_columns c last_close_price rows (length (after_last_close rows)).

(** *** Example ledgers *)

Definition mk_row (d : Direction) (o : Offset) (price volume : Q) : TradeData :=
  mkTrade 0 0 d o price volume None.

Definition example_ledger_config : LedgerConfig :=
  mkLedgerConfig 10 FIXED (1 # 2) (1 # 5) (Some [110]).

(** Buy 1 to open, sell 2 to close, buy 1 to open: flat at the end. *)
Definition ledger_flat_open_last : list TradeData :=
  [mk_row LONG OPEN 100 1; mk_row SHORT CLOSE 105 2; mk_row LONG OPEN 103 1].

(** A single opening trade, never closed. *)
Definition ledger_single_open : list TradeData := [mk_row LONG OPEN 100 1].

(** A closed round followed by an opening trade. *)
Definition ledger_round_then_open : list TradeData :=
  [mk_row LONG OPEN 100 1; mk_row SHORT CLOSE 105 1; mk_row SHORT OPEN 103 1].

(** ** Grid search: [OptimizationSetting] and [run_optimization] *)

(** A setting is a dict from parameter names to values. *)
Definition Setting : Type := list (string * Q).

Record OptimizationSetting : Type := mkOptimizationSetting {
  params : list (string * list Q);
  target_name : string }.

(** [itertools.product], applied to the lists of values. *)
Fixpoint product (values : list (list Q)) : list (list Q) :=
  match values with
  | [] => [[]]
  | l :: values' => flat_map (fun x => map (cons x) (product values')) l
  end.

(** [OptimizationSetting.generate_setting] *)
Definition generate_setting (os : OptimizationSetting) : list Setting :=
  let keys := map fst (params os) in
  let values := map snd (params os) in
  map (fun p => combine keys p) (product values).

(** One result of the grid: [(str(setting), target_value, statistics)]. *)
Definition GridResult (Stats : Type) : Type := (string * Q * Stats)%type.
Definition target_value {Stats} (r : GridResult Stats) : Q := snd (fst r).

(** [result_values.sort(reverse=True, key=lambda result: result[1])].
    [list.sort] is stable, also with [reverse=True]: results with equal keys
    keep their order.  The stable arrangement is computed by insertion. *)
Fixpoint insert_desc {Stats} (x : GridResult Stats) (l : list (GridResult Stats))
  : list (GridResult Stats) :=
  match l with
  | [] => [x]
  | y :: l' =>
      if Qleb (target_value y) (target_value x) then x :: l
      else y :: insert_desc x l'
  end.

Definition sort_desc {Stats} (l : list (GridResult Stats)) : list (GridResult Stats) :=
  fold_right insert_desc [] l.

(** [[result.get() for result in results]]: the results of the workers in
    the order of the settings; the first exception is raised again. *)
Fixpoint collect {A B} (f : A -> outcome B) (l : list A) : outcome (list B) :=
  match l with
  | [] => Ok []
  | x :: l' =>
      match f x with
      | Raise e => Raise e
      | Ok y => match collect f l' with
                | Raise e => Raise e
                | Ok ys => Ok (y :: ys)
                end
      end
  end.

(** [BacktestingEngine.run_optimization].  [optimize target_name setting] is
    the work of one process of the pool: a backtest of the strategy under
    [setting].  The result is [None] when the method returns early. *)
Definition run_optimization {Stats}
    (optimize : string -> Setting -> outcome (GridResult Stats))
    (optimization_setting : OptimizationSetting)
  : outcome (option (list (GridResult Stats))) :=
  let settings := generate_setting optimization_setting in
  let target_name := target_name optimization_setting in
  match settings with
  | [] => Ok None
  | _ :: _ =>
      if String.eqb target_name EmptyString then Ok None
      else
        match collect (optimize target_name) settings with
        | Raise e => Raise e
        | Ok result_values => Ok (Some (sort_desc result_values))
        end
  end.

(** "sorted strictly descending by target_value" *)
Definition strictly_descending {Stats} (l : list (GridResult Stats)) : Prop :=
  StronglySorted (fun a b => target_value b < target_value a) l.

(** Sorted in descending order, equal values allowed. *)
Definition descending {Stats} (l : list (GridResult Stats)) : Prop :=
  StronglySorted (fun a b => target_value b <= target_value a) l.

(** The results of [l] whose target value is [v], in their order. *)
Definition with_target {Stats} (v : Q) (l : list (GridResult Stats))
  : list (GridResult Stats) :=
  List.filter (fun r => Qeqb (target_value r) v) l.

(** *** Example grids *)

(** A grid over one parameter with the values 1, 2 and 3. *)
Definition example_grid : OptimizationSetting :=
  mkOptimizationSetting [("window"%string, [1; 2; 3])] "sharpe_ratio"%string.

(** A worker whose target value is 1 whatever the setting. *)
Definition optimize_constant (target : string) (setting : Setting)
  : outcome (GridResult unit) :=
  Ok (match setting with
      | (_, v) :: _ => if Qeqb v 1 then "A"%string else if Qeqb v 2 then "B"%string else "C"%string
      | [] => "?"%string
      end, 1, tt).

(** The worker of scenario S6: target values A: 1, B: 3, C: 2. *)
Definition optimize_S6 (target : string) (setting : Setting)
  : outcome (GridResult unit) :=
  Ok (match setting with
      | (_, v) :: _ =>
          if Qeqb v 1 then ("A"%string, 1, tt)
          else if Qeqb v 2 then ("B"%string, 3, tt)
          else ("C"%string, 2, tt)
      | [] => ("?"%string, 0, tt)
      end).

(** ** Statistics: [BacktestingEngine.calculate_statistics] *)

(** The values bound to the local variables of [calculate_statistics]. *)
Inductive pyval : Type :=
| VNum (q : Q)
| VStr (s : string).

(** The local variables that are bound. *)
Definition Locals : Type := list (string * pyval).

(** [name = v] *)
Definition assign (name : string) (v : pyval) : M Locals unit :=
  modify (fun env => (name, v) :: env).

Fixpoint lookup_local (name : string) (env : Locals) : option pyval :=
  match env with
  | [] => None
  | (n, v) :: env' => if String.eqb n name then Some v else lookup_local name env'
  end.

(** Reading a local variable; an unbound one raises [UnboundLocalError], a
    subclass of [NameError]. *)
Definition read (name : string) : M Locals pyval :=
  env <- get ;;
  match lookup_local name env with
  | Some v => ret v
  | None => raise (NameError name)
  end.

(** The branch [if df is None]: "Set all statistics to 0 if no trade." *)
Definition statistics_without_frame : M Locals unit :=
  assign "start_date" (VStr EmptyString) ;;;
  assign "end_date" (VStr EmptyString) ;;;
  for_each
    ["total_days"; "profit_days"; "loss_days"; "end_balance"; "max_drawdown";
     "max_ddpercent"; "max_drawdown_duration"; "total_net_pnl";
     "daily_net_pnl"; "total_commission"; "daily_commission";
     "total_slippage"; "daily_slippage"; "total_turnover"; "daily_turnover";
     "total_trade_count"; "daily_trade_count"; "total_return";
     "annual_return"; "daily_return"; "return_std"; "sharpe_ratio";
     "return_drawdown_ratio";
     "total_trade"; "max_profit"; "max_loss"; "profit_times"; "loss_times";
     "rate_of_win"; "total_profit"; "total_loss"; "profit_loss_ratio";
     "trade_profit"; "trade_commission"; "trade_slippage"; "final_profit"]%string
    (fun name => assign name (VNum 0)).

(** The names the block [if output:] reads, in the order of its lines;
    [self.capital] is an attribute, not a local variable. *)
Definition output_names : list string :=
  ["start_date"; "end_date"; "total_days"; "profit_days"; "loss_days";
   "end_balance"; "total_return"; "annual_return"; "max_drawdown";
   "max_ddpercent"; "max_drawdown_duration"; "total_net_pnl";
   "total_commission"; "total_slippage"; "total_turnover";
   "total_trade_count"; "daily_net_pnl"; "daily_commission";
   "daily_slippage"; "daily_turnover"; "daily_trade_count"; "daily_return";
   "return_std"; "sharpe_ratio"; "return_drawdown_ratio"; "total_trade";
   "max_profit"; "max_loss"; "profit_times"; "loss_times"; "rate_of_win";
   "total_profit"; "total_loss"; "profit_loss_ratio"; "trade_profit";
   "trade_commission"; "trade_slippage"; "final_profit";
   "final_balance"]%string.

(** The keys of the dict [statistics], in the order of the display; each is
    bound to the local variable of the same name, except [capital]. *)
Definition statistics_keys : list string :=
  ["start_date"; "end_date"; "total_days"; "profit_days"; "loss_days";
   "capital"; "end_balance"; "max_drawdown"; "max_ddpercent";
   "max_drawdown_duration"; "total_net_pnl"; "daily_net_pnl";
   "total_commission"; "daily_commission"; "total_slippage";
   "daily_slippage"; "total_turnover"; "daily_turnover";
   "total_trade_count"; "daily_trade_count"; "total_return";
   "annual_return"; "daily_return"; "return_std"; "sharpe_ratio";
   "return_drawdown_ratio"; "total_trade"; "max_profit"; "max_loss";
   "profit_times"; "loss_times"; "rate_of_win"; "total_profit";
   "total_loss"; "profit_loss_ratio"; "trade_profit"; "trade_commission";
   "trade_slippage"; "final_profit"; "final_balance"]%string.

(** Evaluation of the dict display, entry by entry. *)
Fixpoint build_statistics (capital : Q) (keys : list string)
  : M Locals (list (string * pyval)) :=
  match keys with
  | [] => ret []
  | key :: keys' =>
      v <- (if String.eqb key "capital" then ret (VNum capital) else read key) ;;
      rest <- build_statistics capital keys' ;;
      ret ((key, v) :: rest)
  end.

(** [calculate_statistics].  [Frame] stands for a pandas frame and
    [statistics_of_frame] for the branch that computes the statistics of a
    frame, both outside the embedding.  A number of the embedding is finite,
    so the final loop that replaces infinities and NaN changes nothing. *)
Definition calculate_statistics {Frame : Type}
    (statistics_of_frame : Frame -> M Locals unit)
    (capital : Q) (daily_df : option Frame)
    (df : option Frame) (output : bool)
  : outcome (list (string * pyval)) :=
  let df := match df with None => daily_df | Some _ => df end in
  fst ((match df with
        | None => statistics_without_frame
        | Some frame => statistics_of_frame frame
        end ;;;
        when output (for_each output_names (fun name => read name ;;; ret tt)) ;;;
        statistics <- build_statistics capital statistics_keys ;;
        ret statistics) []).

(** ** Orders, stop orders and history data *)

Record OrderData : Type := mkOrder {
  orderid : N;
  direction : Direction;
  offset : Offset;
  price : Q;
  volume : Q;
  traded : Q;
  status : Status;
  order_datetime : option DateTime }.

Definition set_status (v : Status) (o : OrderData) : OrderData :=
  {| orderid := orderid o; direction := direction o; offset := offset o;
     price := price o; volume := volume o; traded := traded o;
     status := v; order_datetime := order_datetime o |}.
Definition set_traded (v : Q) (o : OrderData) : OrderData :=
  {| orderid := orderid o; direction := direction o; offset := offset o;
     price := price o; volume := volume o; traded := v;
     status := status o; order_datetime := order_datetime o |}.

(** Modelled from the spec: [StopOrder] of [vnpy.app.cta_strategy.base],
    which is not among the sources (section 3: identifier, direction,
    offset, price, volume, status, triggered order ids). *)
Record StopOrder : Type := mkStopOrder {
  stop_orderid : N;
  stop_direction : Direction;
  stop_offset : Offset;
  stop_price : Q;
  stop_volume : Q;
  vt_orderids : list N;
  stop_status : StopOrderStatus }.

Definition set_stop_status (v : StopOrderStatus) (s : StopOrder) : StopOrder :=
  {| stop_orderid := stop_orderid s; stop_direction := stop_direction s;
     stop_offset := stop_offset s; stop_price := stop_price s;
     stop_volume := stop_volume s; vt_orderids := vt_orderids s;
     stop_status := v |}.
Definition set_vt_orderids (v : list N) (s : StopOrder) : StopOrder :=
  {| stop_orderid := stop_orderid s; stop_direction := stop_direction s;
     stop_offset := stop_offset s; stop_price := stop_price s;
     stop_volume := stop_volume s; vt_orderids := v;
     stop_status := stop_status s |}.

(** Modelled from the spec: the identifier a strategy receives for an order.
    Section 4.A: a limit order is identified by the gateway name and its
    sequence number ([vt_orderid], printed "BACKTESTING.<n>"), a stop order
    by "STOP.<n>"; the prefix tells them apart.  [OrderData.vt_orderid] and
    [STOPORDER_PREFIX] are not among the sources. *)
Inductive OrderId : Type :=
| LimitId (n : N)
| StopId (n : N).

(** An element of [history_data]: a bar in bar mode, a tick in tick mode. *)
Inductive HistoryData : Type :=
| BarItem (b : BarData)
| TickItem (t : TickData).

Definition data_datetime (data : HistoryData) : DateTime :=
  match data with
  | BarItem b => bar_datetime b
  | TickItem t => tick_datetime t
  end.

(** ** Strategies *)

(** The body of a strategy callback: a program over the operations of
    [CtaTemplate].  [T] is the type of the attributes the strategy keeps for
    itself; [GetState]/[SetState] read and write them, [GetPos] reads
    [self.pos].  [LoadBar] is [load_bar] without a callback,
    [LoadBarCallback] with one.  Each operation is followed by the rest of
    the body. *)
Inductive Action (T : Type) : Type :=
| Done
| GetState (k : T -> Action T)
| SetState (s : T) (k : Action T)
| GetPos (k : Q -> Action T)
| SendOrder (direction : Direction) (offset : Offset) (price volume : Q)
    (stop lock : bool) (k : list OrderId -> Action T)
| CancelOrder (vt_orderid : OrderId) (k : Action T)
| CancelAll (k : Action T)
| LoadBar (days : Z) (k : Action T)
| LoadBarCallback (days : Z) (callback : HistoryData -> Action T) (k : Action T)
| LoadTick (days : Z) (k : Action T)
| Throw (e : exn).
Arguments Done {T}.
Arguments GetState {T} k.
Arguments SetState {T} s k.
Arguments GetPos {T} k.
Arguments SendOrder {T} direction offset price volume stop lock k.
Arguments CancelOrder {T} vt_orderid k.
Arguments CancelAll {T} k.
Arguments LoadBar {T} days k.
Arguments LoadBarCallback {T} days callback k.
Arguments LoadTick {T} days k.
Arguments Throw {T} e.

(** [CtaTemplate.buy], [sell], [short] and [cover]. *)
Definition buy {T} (price volume : Q) (stop lock : bool)
    (k : list OrderId -> Action T) : Action T :=
  SendOrder LONG OPEN price volume stop lock k.
Definition sell {T} (price volume : Q) (stop lock : bool)
    (k : list OrderId -> Action T) : Action T :=
  SendOrder SHORT CLOSE price volume stop lock k.
Definition short {T} (price volume : Q) (stop lock : bool)
    (k : list OrderId -> Action T) : Action T :=
  SendOrder SHORT OPEN price volume stop lock k.
Definition cover {T} (price volume : Q) (stop lock : bool)
    (k : list OrderId -> Action T) : Action T :=
  SendOrder LONG CLOSE price volume stop lock k.

(** The callbacks of a strategy class.  [x_second] reads the attribute of
    that name, [None] when the strategy has none. *)
Record Strategy (T : Type) : Type := mkStrategy {
  on_init : Action T;
  on_start : Action T;
  on_stop : Action T;
  on_tick : TickData -> Action T;
  on_bar : BarData -> Action T;
  on_second_bar : BarData -> Action T;
  on_trade : TradeData -> Action T;
  on_order : OrderData -> Action T;
  on_stop_order : StopOrder -> Action T;
  x_second : T -> option Q }.
Arguments mkStrategy {T}.
Arguments on_init {T} _.
Arguments on_start {T} _.
Arguments on_stop {T} _.
Arguments on_tick {T} _ _.
Arguments on_bar {T} _ _.
Arguments on_second_bar {T} _ _.
Arguments on_trade {T} _ _.
Arguments on_order {T} _ _.
Arguments on_stop_order {T} _ _.
Arguments x_second {T} _ _.

(** ** The engine *)

(** The state of a [BacktestingEngine] together with its strategy object
    ([strategy] is the class, [inited], [trading], [pos] and [self_state]
    are the attributes of the instance).

    Order objects are shared between the dicts of the engine.  They live in
    [limit_orders] ([stop_orders]), which the engine never deletes from; an
    active book is the list of the keys of [active_limit_orders]
    ([active_stop_orders]) in insertion order, each key standing for the
    object of that key.  [trades] is the ledger in insertion order; its keys
    are the values of [trade_count], which only grows.  The parameters of
    the engine that the embedded methods do not read are left out. *)
Record Engine (T : Type) : Type := mkEngine {
  mode : BacktestingMode;
  pricetick : Q;
  strategy : Strategy T;
  inited : bool;
  trading : bool;
  pos : Q;
  self_state : T;
  tick : option TickData;
  bar : option BarData;
  datetime : option DateTime;
  days : Z;
  callback : option (HistoryData -> Action T);
  history_data : list HistoryData;
  stop_order_count : N;
  stop_orders : gmap N StopOrder;
  active_stop_orders : list N;
  limit_order_count : N;
  limit_orders : gmap N OrderData;
  active_limit_orders : list N;
  trade_count : N;
  trades : list TradeData;
  daily_results : list (Date * DailyResult) }.
Arguments mode {T} _.
Arguments pricetick {T} _.
Arguments strategy {T} _.
Arguments inited {T} _.
Arguments trading {T} _.
Arguments pos {T} _.
Arguments self_state {T} _.
Arguments tick {T} _.
Arguments bar {T} _.
Arguments datetime {T} _.
Arguments days {T} _.
Arguments callback {T} _.
Arguments history_data {T} _.
Arguments stop_order_count {T} _.
Arguments stop_orders {T} _.
Arguments active_stop_orders {T} _.
Arguments limit_order_count {T} _.
Arguments limit_orders {T} _.
Arguments active_limit_orders {T} _.
Arguments trade_count {T} _.
Arguments trades {T} _.
Arguments daily_results {T} _.
Arguments mkEngine {T}.

Definition set_inited {T} (v : bool) (e : Engine T) : Engine T :=
  {| mode := mode e; pricetick := pricetick e; strategy := strategy e;
     inited := v; trading := trading e; pos := pos e;
     self_state := self_state e; tick := tick e; bar := bar e;
     datetime := datetime e; days := days e; callback := callback e;
     history_data := history_data e; stop_order_count := stop_order_count e;
     stop_orders := stop_orders e;
     active_stop_orders := active_stop_orders e;
     limit_order_count := limit_order_count e;
     limit_orders := limit_orders e;
     active_limit_orders := active_limit_orders e;
     trade_count := trade_count e; trades := trades e;
     daily_results := daily_results e |}.
Definition set_trading {T} (v : bool) (e : Engine T) : Engine T :=
  {| mode := mode e; pricetick := pricetick e; strategy := strategy e;
     inited := inited e; trading := v; pos := pos e;
     self_state := self_state e; tick := tick e; bar := bar e;
     datetime := datetime e; days := days e; callback := callback e;
     history_data := history_data e; stop_order_count := stop_order_count e;
     stop_orders := stop_orders e;
     active_stop_orders := active_stop_orders e;
     limit_order_count := limit_order_count e;
     limit_orders := limit_orders e;
     active_limit_orders := active_limit_orders e;
     trade_count := trade_count e; trades := trades e;
     daily_results := daily_results e |}.
Definition set_pos {T} (v : Q) (e : Engine T) : Engine T :=
  {| mode := mode e; pricetick := pricetick e; strategy := strategy e;
     inited := inited e; trading := trading e; pos := v;
     self_state := self_state e; tick := tick e; bar := bar e;
     datetime := datetime e; days := days e; callback := callback e;
     history_data := history_data e; stop_order_count := stop_order_count e;
     stop_orders := stop_orders e;
     active_stop_orders := active_stop_orders e;
     limit_order_count := limit_order_count e;
     limit_orders := limit_orders e;
     active_limit_orders := active_limit_orders e;
     trade_count := trade_count e; trades := trades e;
     daily_results := daily_results e |}.
Definition set_self_state {T} (v : T) (e : Engine T) : Engine T :=
  {| mode := mode e; pricetick := pricetick e; strategy := strategy e;
     inited := inited e; trading := trading e; pos := pos e; self_state := v;
     tick := tick e; bar := bar e; datetime := datetime e; days := days e;
     callback := callback e; history_data := history_data e;
     stop_order_count := stop_order_count e; stop_orders := stop_orders e;
     active_stop_orders := active_stop_orders e;
     limit_order_count := limit_order_count e;
     limit_orders := limit_orders e;
     active_limit_orders := active_limit_orders e;
     trade_count := trade_count e; trades := trades e;
     daily_results := daily_results e |}.
Definition set_tick {T} (v : option TickData) (e : Engine T) : Engine T :=
  {| mode := mode e; pricetick := pricetick e; strategy := strategy e;
     inited := inited e; trading := trading e; pos := pos e;
     self_state := self_state e; tick := v; bar := bar e;
     datetime := datetime e; days := days e; callback := callback e;
     history_data := history_data e; stop_order_count := stop_order_count e;
     stop_orders := stop_orders e;
     active_stop_orders := active_stop_orders e;
     limit_order_count := limit_order_count e;
     limit_orders := limit_orders e;
     active_limit_orders := active_limit_orders e;
     trade_count := trade_count e; trades := trades e;
     daily_results := daily_results e |}.
Definition set_bar {T} (v : option BarData) (e : Engine T) : Engine T :=
  {| mode := mode e; pricetick := pricetick e; strategy := strategy e;
     inited := inited e; trading := trading e; pos := pos e;
     self_state := self_state e; tick := tick e; bar := v;
     datetime := datetime e; days := days e; callback := callback e;
     history_data := history_data e; stop_order_count := stop_order_count e;
     stop_orders := stop_orders e;
     active_stop_orders := active_stop_orders e;
     limit_order_count := limit_order_count e;
     limit_orders := limit_orders e;
     active_limit_orders := active_limit_orders e;
     trade_count := trade_count e; trades := trades e;
     daily_results := daily_results e |}.
Definition set_datetime {T} (v : option DateTime) (e : Engine T) : Engine T :=
  {| mode := mode e; pricetick := pricetick e; strategy := strategy e;
     inited := inited e; trading := trading e; pos := pos e;
     self_state := self_state e; tick := tick e; bar := bar e; datetime := v;
     days := days e; callback := callback e; history_data := history_data e;
     stop_order_count := stop_order_count e; stop_orders := stop_orders e;
     active_stop_orders := active_stop_orders e;
     limit_order_count := limit_order_count e;
     limit_orders := limit_orders e;
     active_limit_orders := active_limit_orders e;
     trade_count := trade_count e; trades := trades e;
     daily_results := daily_results e |}.
Definition set_days {T} (v : Z) (e : Engine T) : Engine T :=
  {| mode := mode e; pricetick := pricetick e; strategy := strategy e;
     inited := inited e; trading := trading e; pos := pos e;
     self_state := self_state e; tick := tick e; bar := bar e;
     datetime := datetime e; days := v; callback := callback e;
     history_data := history_data e; stop_order_count := stop_order_count e;
     stop_orders := stop_orders e;
     active_stop_orders := active_stop_orders e;
     limit_order_count := limit_order_count e;
     limit_orders := limit_orders e;
     active_limit_orders := active_limit_orders e;
     trade_count := trade_count e; trades := trades e;
     daily_results := daily_results e |}.
Definition set_callback {T} (v : option (HistoryData -> Action T)) (e : Engine T) : Engine T :=
  {| mode := mode e; pricetick := pricetick e; strategy := strategy e;
     inited := inited e; trading := trading e; pos := pos e;
     self_state := self_state e; tick := tick e; bar := bar e;
     datetime := datetime e; days := days e; callback := v;
     history_data := history_data e; stop_order_count := stop_order_count e;
     stop_orders := stop_orders e;
     active_stop_orders := active_stop_orders e;
     limit_order_count := limit_order_count e;
     limit_orders := limit_orders e;
     active_limit_orders := active_limit_orders e;
     trade_count := trade_count e; trades := trades e;
     daily_results := daily_results e |}.
Definition set_stop_order_count {T} (v : N) (e : Engine T) : Engine T :=
  {| mode := mode e; pricetick := pricetick e; strategy := strategy e;
     inited := inited e; trading := trading e; pos := pos e;
     self_state := self_state e; tick := tick e; bar := bar e;
     datetime := datetime e; days := days e; callback := callback e;
     history_data := history_data e; stop_order_count := v;
     stop_orders := stop_orders e;
     active_stop_orders := active_stop_orders e;
     limit_order_count := limit_order_count e;
     limit_orders := limit_orders e;
     active_limit_orders := active_limit_orders e;
     trade_count := trade_count e; trades := trades e;
     daily_results := daily_results e |}.
Definition set_stop_orders {T} (v : gmap N StopOrder) (e : Engine T) : Engine T :=
  {| mode := mode e; pricetick := pricetick e; strategy := strategy e;
     inited := inited e; trading := trading e; pos := pos e;
     self_state := self_state e; tick := tick e; bar := bar e;
     datetime := datetime e; days := days e; callback := callback e;
     history_data := history_data e; stop_order_count := stop_order_count e;
     stop_orders := v; active_stop_orders := active_stop_orders e;
     limit_order_count := limit_order_count e;
     limit_orders := limit_orders e;
     active_limit_orders := active_limit_orders e;
     trade_count := trade_count e; trades := trades e;
     daily_results := daily_results e |}.
Definition set_active_stop_orders {T} (v : list N) (e : Engine T) : Engine T :=
  {| mode := mode e; pricetick := pricetick e; strategy := strategy e;
     inited := inited e; trading := trading e; pos := pos e;
     self_state := self_state e; tick := tick e; bar := bar e;
     datetime := datetime e; days := days e; callback := callback e;
     history_data := history_data e; stop_order_count := stop_order_count e;
     stop_orders := stop_orders e; active_stop_orders := v;
     limit_order_count := limit_order_count e;
     limit_orders := limit_orders e;
     active_limit_orders := active_limit_orders e;
     trade_count := trade_count e; trades := trades e;
     daily_results := daily_results e |}.
Definition set_limit_order_count {T} (v : N) (e : Engine T) : Engine T :=
  {| mode := mode e; pricetick := pricetick e; strategy := strategy e;
     inited := inited e; trading := trading e; pos := pos e;
     self_state := self_state e; tick := tick e; bar := bar e;
     datetime := datetime e; days := days e; callback := callback e;
     history_data := history_data e; stop_order_count := stop_order_count e;
     stop_orders := stop_orders e;
     active_stop_orders := active_stop_orders e; limit_order_count := v;
     limit_orders := limit_orders e;
     active_limit_orders := active_limit_orders e;
     trade_count := trade_count e; trades := trades e;
     daily_results := daily_results e |}.
Definition set_limit_orders {T} (v : gmap N OrderData) (e : Engine T) : Engine T :=
  {| mode := mode e; pricetick := pricetick e; strategy := strategy e;
     inited := inited e; trading := trading e; pos := pos e;
     self_state := self_state e; tick := tick e; bar := bar e;
     datetime := datetime e; days := days e; callback := callback e;
     history_data := history_data e; stop_order_count := stop_order_count e;
     stop_orders := stop_orders e;
     active_stop_orders := active_stop_orders e;
     limit_order_count := limit_order_count e; limit_orders := v;
     active_limit_orders := active_limit_orders e;
     trade_count := trade_count e; trades := trades e;
     daily_results := daily_results e |}.
Definition set_active_limit_orders {T} (v : list N) (e : Engine T) : Engine T :=
  {| mode := mode e; pricetick := pricetick e; strategy := strategy e;
     inited := inited e; trading := trading e; pos := pos e;
     self_state := self_state e; tick := tick e; bar := bar e;
     datetime := datetime e; days := days e; callback := callback e;
     history_data := history_data e; stop_order_count := stop_order_count e;
     stop_orders := stop_orders e;
     active_stop_orders := active_stop_orders e;
     limit_order_count := limit_order_count e;
     limit_orders := limit_orders e; active_limit_orders := v;
     trade_count := trade_count e; trades := trades e;
     daily_results := daily_results e |}.
Definition set_trade_count {T} (v : N) (e : Engine T) : Engine T :=
  {| mode := mode e; pricetick := pricetick e; strategy := strategy e;
     inited := inited e; trading := trading e; pos := pos e;
     self_state := self_state e; tick := tick e; bar := bar e;
     datetime := datetime e; days := days e; callback := callback e;
     history_data := history_data e; stop_order_count := stop_order_count e;
     stop_orders := stop_orders e;
     active_stop_orders := active_stop_orders e;
     limit_order_count := limit_order_count e;
     limit_orders := limit_orders e;
     active_limit_orders := active_limit_orders e; trade_count := v;
     trades := trades e; daily_results := daily_results e |}.
Definition set_trades {T} (v : list TradeData) (e : Engine T) : Engine T :=
  {| mode := mode e; pricetick := pricetick e; strategy := strategy e;
     inited := inited e; trading := trading e; pos := pos e;
     self_state := self_state e; tick := tick e; bar := bar e;
     datetime := datetime e; days := days e; callback := callback e;
     history_data := history_data e; stop_order_count := stop_order_count e;
     stop_orders := stop_orders e;
     active_stop_orders := active_stop_orders e;
     limit_order_count := limit_order_count e;
     limit_orders := limit_orders e;
     active_limit_orders := active_limit_orders e;
     trade_count := trade_count e; trades := v;
     daily_results := daily_results e |}.
Definition set_daily_results {T} (v : list (Date * DailyResult)) (e : Engine T) : Engine T :=
  {| mode := mode e; pricetick := pricetick e; strategy := strategy e;
     inited := inited e; trading := trading e; pos := pos e;
     self_state := self_state e; tick := tick e; bar := bar e;
     datetime := datetime e; days := days e; callback := callback e;
     history_data := history_data e; stop_order_count := stop_order_count e;
     stop_orders := stop_orders e;
     active_stop_orders := active_stop_orders e;
     limit_order_count := limit_order_count e;
     limit_orders := limit_orders e;
     active_limit_orders := active_limit_orders e;
     trade_count := trade_count e; trades := trades e; daily_results := v |}.

(** Modelled from the spec: [round_to] of [vnpy.trader.utility], which is
    not among the sources.  Section 4.E: [round_to(value, tick) =
    round(value / tick) * tick], "banker-free": rounding to the nearest
    integer, a half away from zero.  The division is Python's: with a zero
    tick, the value of [pricetick] that [BacktestingEngine.__init__] sets,
    it raises and [round_to] returns nothing. *)
Definition round_half_away (x : Q) : Z :=
  if Qleb 0 x then Qfloor (x + (1 # 2)) else Qceiling (x - (1 # 2)).
Definition round_to (value tick_ : Q) : outcome Q :=
  match py_div value tick_ with
  | Ok ratio => Ok (inject_Z (round_half_away ratio) * tick_)
  | Raise ex => Raise ex
  end.

(** Keys of a dict in insertion order: [key in d], [d.pop(key)] and
    [d[key] = v]. *)
Definition mem (n : N) (keys : list N) : bool := existsb (N.eqb n) keys.
Definition dict_pop (n : N) (keys : list N) : list N :=
  List.filter (fun m => negb (N.eqb m n)) keys.
Definition dict_add (n : N) (keys : list N) : list N :=
  if mem n keys then keys else keys ++ [n].

(** *** Order entry and cancellation: [BacktestingEngine] *)

Definition send_stop_order {T} (direction_ : Direction) (offset_ : Offset)
    (price_ volume_ : Q) : M (Engine T) OrderId :=
  modify (fun e => set_stop_order_count (stop_order_count e + 1)%N e) ;;;
  n <- gets stop_order_count ;;
  let stop_order := mkStopOrder n direction_ offset_ price_ volume_ [] WAITING in
  modify (fun e => set_active_stop_orders (dict_add n (active_stop_orders e)) e) ;;;
  modify (fun e => set_stop_orders (<[n := stop_order]> (stop_orders e)) e) ;;;
  ret (StopId n).

Definition send_limit_order {T} (direction_ : Direction) (offset_ : Offset)
    (price_ volume_ : Q) : M (Engine T) OrderId :=
  modify (fun e => set_limit_order_count (limit_order_count e + 1)%N e) ;;;
  n <- gets limit_order_count ;;
  now <- gets datetime ;;
  let order := mkOrder n direction_ offset_ price_ volume_ 0 SUBMITTING now in
  modify (fun e => set_active_limit_orders (dict_add n (active_limit_orders e)) e) ;;;
  modify (fun e => set_limit_orders (<[n := order]> (limit_orders e)) e) ;;;
  ret (LimitId n).

Definition send_order {T} (direction_ : Direction) (offset_ : Offset)
    (price_ volume_ : Q) (stop lock : bool) : M (Engine T) (list OrderId) :=
  tick_ <- gets pricetick ;;
  price_ <- lift (round_to price_ tick_) ;;
  vt_orderid <-
    (if stop then send_stop_order direction_ offset_ price_ volume_
     else send_limit_order direction_ offset_ price_ volume_) ;;
  ret [vt_orderid].

(** The object behind a key of an active book. *)
Definition limit_order_of {T} (n : N) : M (Engine T) OrderData :=
  e <- get ;;
  match limit_orders e !! n with
  | Some order => ret order
  | None => raise KeyError
  end.

Definition stop_order_of {T} (n : N) : M (Engine T) StopOrder :=
  e <- get ;;
  match stop_orders e !! n with
  | Some stop_order => ret stop_order
  | None => raise KeyError
  end.

(** Assignments to the attributes of an order object. *)
Definition write_limit_order {T} (n : N) (order : OrderData) : M (Engine T) unit :=
  modify (fun e => set_limit_orders (<[n := order]> (limit_orders e)) e).

Definition write_stop_order {T} (n : N) (stop_order : StopOrder) : M (Engine T) unit :=
  modify (fun e => set_stop_orders (<[n := stop_order]> (stop_orders e)) e).

(** In the methods below [invoke] runs a callback of the strategy. *)

Definition cancel_stop_order {T} (invoke : Action T -> M (Engine T) unit)
    (n : N) : M (Engine T) unit :=
  e <- get ;;
  if negb (mem n (active_stop_orders e)) then ret tt
  else
    stop_order <- stop_order_of n ;;
    modify (fun e => set_active_stop_orders (dict_pop n (active_stop_orders e)) e) ;;;
    let stop_order := set_stop_status STOP_CANCELLED stop_order in
    write_stop_order n stop_order ;;;
    invoke (on_stop_order (strategy e) stop_order).

Definition cancel_limit_order {T} (invoke : Action T -> M (Engine T) unit)
    (n : N) : M (Engine T) unit :=
  e <- get ;;
  if negb (mem n (active_limit_orders e)) then ret tt
  else
    order <- limit_order_of n ;;
    modify (fun e => set_active_limit_orders (dict_pop n (active_limit_orders e)) e) ;;;
    let order := set_status CANCELLED order in
    write_limit_order n order ;;;
    invoke (on_order (strategy e) order).

Definition cancel_order {T} (invoke : Action T -> M (Engine T) unit)
    (vt_orderid : OrderId) : M (Engine T) unit :=
  match vt_orderid with
  | StopId n => cancel_stop_order invoke n
  | LimitId n => cancel_limit_order invoke n
  end.

Definition cancel_all {T} (invoke : Action T -> M (Engine T) unit)
  : M (Engine T) unit :=
  vt_orderids <- gets active_limit_orders ;;
  for_each vt_orderids (cancel_limit_order invoke) ;;;
  stop_orderids <- gets active_stop_orders ;;
  for_each stop_orderids (cancel_stop_order invoke).

(** [BacktestingEngine.load_bar]; a callback of [None] has been replaced by
    [self.on_bar] in [CtaTemplate.load_bar]. *)
Definition load_bar {T} (days_ : Z) (callback_ : HistoryData -> Action T)
  : M (Engine T) unit :=
  modify (set_days days_) ;;;
  modify (set_callback (Some callback_)).

(** *** The methods of [CtaTemplate] a callback may use *)

Definition CtaTemplate_send_order {T} (direction_ : Direction) (offset_ : Offset)
    (price_ volume_ : Q) (stop lock : bool) : M (Engine T) (list OrderId) :=
  trading_ <- gets trading ;;
  if trading_ then send_order direction_ offset_ price_ volume_ stop lock
  else ret [].

Definition CtaTemplate_buy {T} (price_ volume_ : Q) (stop lock : bool)
  : M (Engine T) (list OrderId) :=
  CtaTemplate_send_order LONG OPEN price_ volume_ stop lock.
Definition CtaTemplate_sell {T} (price_ volume_ : Q) (stop lock : bool)
  : M (Engine T) (list OrderId) :=
  CtaTemplate_send_order SHORT CLOSE price_ volume_ stop lock.
Definition CtaTemplate_short {T} (price_ volume_ : Q) (stop lock : bool)
  : M (Engine T) (list OrderId) :=
  CtaTemplate_send_order SHORT OPEN price_ volume_ stop lock.
Definition CtaTemplate_cover {T} (price_ volume_ : Q) (stop lock : bool)
  : M (Engine T) (list OrderId) :=
  CtaTemplate_send_order LONG CLOSE price_ volume_ stop lock.

Definition CtaTemplate_cancel_order {T} (invoke : Action T -> M (Engine T) unit)
    (vt_orderid : OrderId) : M (Engine T) unit :=
  trading_ <- gets trading ;;
  when trading_ (cancel_order invoke vt_orderid).

Definition CtaTemplate_cancel_all {T} (invoke : Action T -> M (Engine T) unit)
  : M (Engine T) unit :=
  trading_ <- gets trading ;;
  when trading_ (cancel_all invoke).

(** [self.on_bar] used as the warm-up callback. *)
Definition on_bar_callback {T} (s : Strategy T) (data : HistoryData) : Action T :=
  match data with
  | BarItem b => on_bar s b
  | TickItem _ => Throw AttributeError
  end.

Definition CtaTemplate_load_bar {T} (days_ : Z)
    (callback_ : option (HistoryData -> Action T)) : M (Engine T) unit :=
  s <- gets strategy ;;
  load_bar days_
    (match callback_ with
     | Some c => c
     | None => on_bar_callback s
     end).

(** *** Running a callback *)

(** [call depth a] runs the body [a] of a callback.  A cancellation makes
    the engine call [on_order] or [on_stop_order] from within the callback
    that cancels; [depth] bounds the nesting of such calls and stands for
    the recursion limit of the interpreter.  [CtaTemplate.load_tick] passes
    four arguments to [BacktestingEngine.load_tick], which takes three: the
    call raises [TypeError]. *)
Fixpoint call {T} (depth : nat) : Action T -> M (Engine T) unit :=
  match depth with
  | O => fun _ => raise RecursionError
  | S depth' =>
      fix exec (a : Action T) : M (Engine T) unit :=
        match a with
        | Done => ret tt
        | GetState k => s <- gets self_state ;; exec (k s)
        | SetState s k => modify (set_self_state s) ;;; exec k
        | GetPos k => p <- gets pos ;; exec (k p)
        | SendOrder d o p v stop lock k =>
            vt_orderids <- CtaTemplate_send_order d o p v stop lock ;;
            exec (k vt_orderids)
        | CancelOrder vt_orderid k =>
            CtaTemplate_cancel_order (call depth') vt_orderid ;;; exec k
        | CancelAll k => CtaTemplate_cancel_all (call depth') ;;; exec k
        | LoadBar days_ k => CtaTemplate_load_bar days_ None ;;; exec k
        | LoadBarCallback days_ callback_ k =>
            CtaTemplate_load_bar days_ (Some callback_) ;;; exec k
        | LoadTick _ _ => raise TypeError
        | Throw e => raise e
        end
  end.

(** *** Matching *)

(** The four prices of a crossing: long cross, short cross, long best,
    short best. *)
Record CrossPrices : Type := mkCrossPrices {
  long_cross_price : Q;
  short_cross_price : Q;
  long_best_price : Q;
  short_best_price : Q }.

(** [self.bar] and [self.tick]; reading one that was not set fails. *)
Definition current_bar {T} : M (Engine T) BarData :=
  e <- get ;;
  match bar e with Some b => ret b | None => raise AttributeError end.
Definition current_tick {T} : M (Engine T) TickData :=
  e <- get ;;
  match tick e with Some t => ret t | None => raise AttributeError end.

Definition limit_cross_prices {T} : M (Engine T) CrossPrices :=
  mode_ <- gets mode ;;
  match mode_ with
  | BAR =>
      b <- current_bar ;;
      ret (mkCrossPrices (low_price b) (high_price b) (open_price b) (open_price b))
  | TICK =>
      t <- current_tick ;;
      ret (mkCrossPrices (ask_price_1 t) (bid_price_1 t) (ask_price_1 t) (bid_price_1 t))
  end.

Definition stop_cross_prices {T} : M (Engine T) CrossPrices :=
  mode_ <- gets mode ;;
  match mode_ with
  | BAR =>
      b <- current_bar ;;
      ret (mkCrossPrices (high_price b) (low_price b) (open_price b) (open_price b))
  | TICK =>
      t <- current_tick ;;
      ret (mkCrossPrices (last_price t) (last_price t) (last_price t) (last_price t))
  end.

(** The tests of [cross_limit_order]. *)
Definition limit_long_cross (p : CrossPrices) (order : OrderData) : bool :=
  Direction_eqb (direction order) LONG
  && Qleb (long_cross_price p) (price order)
  && Qltb 0 (long_cross_price p).

Definition limit_short_cross (p : CrossPrices) (order : OrderData) : bool :=
  Direction_eqb (direction order) SHORT
  && Qleb (price order) (short_cross_price p)
  && Qltb 0 (short_cross_price p).

(** [self.active_limit_orders.pop(order.vt_orderid)] *)
Definition pop_active_limit_order {T} (n : N) : M (Engine T) unit :=
  e <- get ;;
  if mem n (active_limit_orders e)
  then modify (set_active_limit_orders (dict_pop n (active_limit_orders e)))
  else raise KeyError.

(** First part of the loop body of [cross_limit_order]: "Push order update
    with status not traded (pending)". *)
Definition cross_limit_notify {T} (invoke : Action T -> M (Engine T) unit)
    (n : N) : M (Engine T) unit :=
  order <- limit_order_of n ;;
  when (Status_eqb (status order) SUBMITTING)
    (let order := set_status NOTTRADED order in
     write_limit_order n order ;;;
     s <- gets strategy ;;
     invoke (on_order s order)).

(** Second part of the loop body: the test and the fill. *)
Definition cross_limit_match {T} (invoke : Action T -> M (Engine T) unit)
    (p : CrossPrices) (n : N) : M (Engine T) unit :=
  order <- limit_order_of n ;;
  let long_cross := limit_long_cross p order in
  let short_cross := limit_short_cross p order in
  if negb long_cross && negb short_cross then ret tt
  else
    let order := set_status ALLTRADED (set_traded (volume order) order) in
    write_limit_order n order ;;;
    s <- gets strategy ;;
    invoke (on_order s order) ;;;
    pop_active_limit_order n ;;;
    modify (fun e => set_trade_count (trade_count e + 1)%N e) ;;;
    let trade_price_ :=
      if long_cross then py_min (price order) (long_best_price p)
      else py_max (price order) (short_best_price p) in
    let pos_change := if long_cross then volume order else - volume order in
    e <- get ;;
    let trade :=
      mkTrade (trade_count e) (orderid order) (direction order) (offset order)
        trade_price_ (volume order) (datetime e) in
    modify (fun e => set_trades (trades e ++ [trade]) e) ;;;
    modify (fun e => set_pos (pos e + pos_change) e) ;;;
    invoke (on_trade s trade).

Definition cross_limit_one {T} (invoke : Action T -> M (Engine T) unit)
    (p : CrossPrices) (n : N) : M (Engine T) unit :=
  cross_limit_notify invoke n ;;;
  cross_limit_match invoke p n.

(** [BacktestingEngine.cross_limit_order]; the loop runs over a copy of the
    active book taken before the first iteration. *)
Definition cross_limit_order {T} (invoke : Action T -> M (Engine T) unit)
  : M (Engine T) unit :=
  p <- limit_cross_prices ;;
  snapshot <- gets active_limit_orders ;;
  for_each snapshot (cross_limit_one invoke p).

(** The tests of [cross_stop_order]. *)
Definition stop_long_cross (p : CrossPrices) (stop_order : StopOrder) : bool :=
  Direction_eqb (stop_direction stop_order) LONG
  && Qleb (stop_price stop_order) (long_cross_price p).

Definition stop_short_cross (p : CrossPrices) (stop_order : StopOrder) : bool :=
  Direction_eqb (stop_direction stop_order) SHORT
  && Qleb (short_cross_price p) (stop_price stop_order).

(** The loop body of [cross_stop_order].  The order made for a triggered
    stop order keeps [traded] at 0, the default of [OrderData]. *)
Definition cross_stop_one {T} (invoke : Action T -> M (Engine T) unit)
    (p : CrossPrices) (n : N) : M (Engine T) unit :=
  stop_order <- stop_order_of n ;;
  let long_cross := stop_long_cross p stop_order in
  let short_cross := stop_short_cross p stop_order in
  if negb long_cross && negb short_cross then ret tt
  else
    modify (fun e => set_limit_order_count (limit_order_count e + 1)%N e) ;;;
    e <- get ;;
    let order :=
      mkOrder (limit_order_count e) (stop_direction stop_order)
        (stop_offset stop_order) (stop_price stop_order)
        (stop_volume stop_order) 0 ALLTRADED (datetime e) in
    write_limit_order (limit_order_count e) order ;;;
    let trade_price_ :=
      if long_cross then py_max (stop_price stop_order) (long_best_price p)
      else py_min (stop_price stop_order) (short_best_price p) in
    let pos_change := if long_cross then volume order else - volume order in
    modify (fun e => set_trade_count (trade_count e + 1)%N e) ;;;
    e <- get ;;
    let trade :=
      mkTrade (trade_count e) (orderid order) (direction order) (offset order)
        trade_price_ (volume order) (datetime e) in
    modify (fun e => set_trades (trades e ++ [trade]) e) ;;;
    let stop_order :=
      set_stop_status TRIGGERED
        (set_vt_orderids (vt_orderids stop_order ++ [orderid order]) stop_order) in
    write_stop_order n stop_order ;;;
    modify (fun e =>
      if mem n (active_stop_orders e)
      then set_active_stop_orders (dict_pop n (active_stop_orders e)) e
      else e) ;;;
    s <- gets strategy ;;
    invoke (on_stop_order s stop_order) ;;;
    invoke (on_order s order) ;;;
    modify (fun e => set_pos (pos e + pos_change) e) ;;;
    invoke (on_trade s trade).

(** [BacktestingEngine.cross_stop_order] *)
Definition cross_stop_order {T} (invoke : Action T -> M (Engine T) unit)
  : M (Engine T) unit :=
  p <- stop_cross_prices ;;
  snapshot <- gets active_stop_orders ;;
  for_each snapshot (cross_stop_one invoke p).

(** *** The replay loop *)

(** [self.daily_results.get(d)] followed by the update or the insertion. *)
Fixpoint update_close (d : Date) (price_ : Q) (results : list (Date * DailyResult))
  : list (Date * DailyResult) :=
  match results with
  | [] => [(d, DailyResult_init d price_)]
  | (d', r) :: results' =>
      if Date_eqb d' d then (d', set_close_price price_ r) :: results'
      else (d', r) :: update_close d price_ results'
  end.

(** [BacktestingEngine.update_daily_close] *)
Definition update_daily_close {T} (price_ : Q) : M (Engine T) unit :=
  e <- get ;;
  match datetime e with
  | None => raise AttributeError
  | Some now =>
      modify (set_daily_results (update_close (date_of now) price_ (daily_results e)))
  end.

Definition is_AttributeError (e : exn) : bool :=
  match e with AttributeError => true | _ => false end.

(** The statement [try: ... except AttributeError: ...] of [new_bar]. *)
Definition bar_callback {T} (invoke : Action T -> M (Engine T) unit)
    (b : BarData) : M (Engine T) unit :=
  catch
    (e <- get ;;
     match x_second (strategy e) (self_state e) with
     | None => raise AttributeError
     | Some x =>
         if Qltb x 60 then invoke (on_second_bar (strategy e) b)
         else if Qeqb x 60 then invoke (on_bar (strategy e) b)
         else ret tt
     end)
    is_AttributeError
    (s <- gets strategy ;; invoke (on_bar s b)).

(** [BacktestingEngine.new_bar] *)
Definition new_bar {T} (invoke : Action T -> M (Engine T) unit) (b : BarData)
  : M (Engine T) unit :=
  modify (set_bar (Some b)) ;;;
  modify (set_datetime (Some (bar_datetime b))) ;;;
  cross_limit_order invoke ;;;
  cross_stop_order invoke ;;;
  bar_callback invoke b ;;;
  update_daily_close (bar_close_price b).

(** [BacktestingEngine.new_tick] *)
Definition new_tick {T} (invoke : Action T -> M (Engine T) unit) (t : TickData)
  : M (Engine T) unit :=
  modify (set_tick (Some t)) ;;;
  modify (set_datetime (Some (tick_datetime t))) ;;;
  cross_limit_order invoke ;;;
  cross_stop_order invoke ;;;
  s <- gets strategy ;;
  invoke (on_tick s t) ;;;
  update_daily_close (last_price t).

(** [func(data)], where [func] is [new_bar] in bar mode and [new_tick] in
    tick mode; a datum of the other kind lacks the attributes read. *)
Definition new_data {T} (invoke : Action T -> M (Engine T) unit)
    (mode_ : BacktestingMode) (data : HistoryData) : M (Engine T) unit :=
  match mode_, data with
  | BAR, BarItem b => new_bar invoke b
  | TICK, TickItem t => new_tick invoke t
  | _, _ => raise AttributeError
  end.

(** [try: m except Exception: ...]: the outcome of [m] as a value. *)
Definition attempt {St A} (m : M St A) : M St (outcome A) :=
  fun s => let '(o, s') := m s in (Ok o, s').

(** How the first loop of [run_backtesting] ends: at index [ix] (by [break]
    or at the end of the data), or by [return] after an exception. *)
Inductive WarmUp : Type :=
| WarmUpDone (ix : nat)
| WarmUpAborted.

(** The first loop of [run_backtesting].  [ix] is the index of the head of
    [history], [last_ix] the value of the variable [ix] so far. *)
Fixpoint warm_up {T} (invoke : Action T -> M (Engine T) unit)
    (history : list HistoryData) (ix last_ix : nat) (day_count : Z)
  : M (Engine T) WarmUp :=
  match history with
  | [] => ret (WarmUpDone last_ix)
  | data :: history' =>
      e <- get ;;
      let new_day :=
        match datetime e with
        | Some now => negb (dt_day (data_datetime data) =? dt_day now)%Z
        | None => false
        end in
      let day_count := if new_day then (day_count + 1)%Z else day_count in
      if new_day && (days e <=? day_count)%Z then ret (WarmUpDone ix)
      else
        modify (set_datetime (Some (data_datetime data))) ;;;
        r <- attempt
               (match callback e with
                | Some callback_ => invoke (callback_ data)
                | None => raise TypeError
                end) ;;
        match r with
        | Raise _ => ret WarmUpAborted
        | Ok _ => warm_up invoke history' (S ix) ix day_count
        end
  end.

(** The second loop of [run_backtesting]. *)
Fixpoint replay {T} (invoke : Action T -> M (Engine T) unit)
    (mode_ : BacktestingMode) (history : list HistoryData) : M (Engine T) unit :=
  match history with
  | [] => ret tt
  | data :: history' =>
      r <- attempt (new_data invoke mode_ data) ;;
      match r with
      | Raise _ => ret tt
      | Ok _ => replay invoke mode_ history'
      end
  end.

(** [BacktestingEngine.run_backtesting] *)
Definition run_backtesting {T} (depth : nat) : M (Engine T) unit :=
  let invoke := call depth in
  mode_ <- gets mode ;;
  s <- gets strategy ;;
  invoke (on_init s) ;;;
  history <- gets history_data ;;
  w <- warm_up invoke history 0 0 0 ;;
  match w with
  | WarmUpAborted => ret tt
  | WarmUpDone ix =>
      modify (set_inited true) ;;;
      invoke (on_start s) ;;;
      modify (set_trading true) ;;;
      history <- gets history_data ;;
      replay invoke mode_ (skipn ix history)
  end.

(** [BacktestingEngine.__init__], [set_parameters] and [add_strategy]. *)
Definition new_engine {T} (mode_ : BacktestingMode) (pricetick_ : Q)
    (s : Strategy T) (init : T) (history : list HistoryData) : Engine T :=
  {| mode := mode_; pricetick := pricetick_; strategy := s;
     inited := false; trading := false; pos := 0; self_state := init;
     tick := None; bar := None; datetime := None;
     days := 0; callback := None; history_data := history;
     stop_order_count := 0; stop_orders := ∅; active_stop_orders := [];
     limit_order_count := 0; limit_orders := ∅; active_limit_orders := [];
     trade_count := 0; trades := []; daily_results := [] |}.

(** *** Example strategies and data *)

(** A strategy whose callbacks do nothing. *)
Definition idle_strategy : Strategy unit :=
  mkStrategy Done Done Done (fun _ => Done) (fun _ => Done) (fun _ => Done)
    (fun _ => Done) (fun _ => Done) (fun _ => Done) (fun _ => None).

(** A strategy that asks for one day of warm-up and counts the data points
    it is given during the warm-up. *)
Definition counting_strategy : Strategy nat :=
  mkStrategy
    (LoadBarCallback 1 (fun _ => GetState (fun n => SetState (S n) Done)) Done)
    Done Done (fun _ => Done) (fun _ => Done) (fun _ => Done)
    (fun _ => Done) (fun _ => Done) (fun _ => Done) (fun _ => None).

(** A strategy that cancels every order as soon as it hears of it. *)
Definition cancelling_strategy : Strategy unit :=
  mkStrategy Done Done Done (fun _ => Done) (fun _ => Done) (fun _ => Done)
    (fun _ => Done)
    (fun order => CancelOrder (LimitId (orderid order)) Done)
    (fun _ => Done) (fun _ => None).

Definition at_day (year month day : Z) : DateTime :=
  mkDateTime year month day 9 0 0.

Definition bar_S1 : BarData := mkBar (at_day 2020 1 2) 10 12 9 11.
Definition bar_S2 : BarData := mkBar (at_day 2020 1 2) 8 9 7 8.
Definition bar_S3 : BarData := mkBar (at_day 2020 1 3) 11 12 10 11.

(** An engine in the run phase, with no order yet. *)
Definition trading_engine {T} (s : Strategy T) (init : T) : Engine T :=
  set_trading true (set_inited true (new_engine BAR 1 s init [])).

(** An engine in the run phase with the price tick that
    [BacktestingEngine.__init__] sets, zero. *)
Definition engine_zero_tick : Engine unit :=
  set_trading true (set_inited true (new_engine BAR 0 idle_strategy tt [])).

(** The engine after the strategy has run [body] in a callback. *)
Definition after {T} (body : Action T) (e : Engine T) : Engine T :=
  snd (call 2 body e).

(** ** Specification vocabulary for the engine *)

(** [m] keeps the invariant [I] and relates the states before and after by
    [R], whatever its outcome. *)
Definition step {St A} (I : St -> Prop) (R : St -> St -> Prop) (m : M St A) : Prop :=
  forall s, I s -> I (snd (m s)) /\ R s (snd (m s)).

(** The invariant that always holds. *)
Definition always {T} (e : Engine T) : Prop := True.

(** What no callback can touch: the parameters, the flags and the position
    of the strategy, the current data, the ledger and the daily results. *)
Record frame {T} (e e' : Engine T) : Prop := mkFrame {
  fr_mode : mode e' = mode e;
  fr_pricetick : pricetick e' = pricetick e;
  fr_strategy : strategy e' = strategy e;
  fr_inited : inited e' = inited e;
  fr_trading : trading e' = trading e;
  fr_pos : pos e' = pos e;
  fr_tick : tick e' = tick e;
  fr_bar : bar e' = bar e;
  fr_datetime : datetime e' = datetime e;
  fr_history_data : history_data e' = history_data e;
  fr_trade_count : trade_count e' = trade_count e;
  fr_trades : trades e' = trades e;
  fr_daily_results : daily_results e' = daily_results e }.

(** The representation invariant of a book: the keys of the store are
    sequence numbers already handed out, an object is stored under its own
    number, and the active keys are distinct keys of the store. *)
Definition book_wf {A} (key : A -> N) (count : N) (store : gmap N A)
    (active : list N) : Prop :=
  (forall n a, store !! n = Some a -> (n <= count)%N /\ key a = n) /\
  (forall n, In n active -> is_Some (store !! n)) /\
  List.NoDup active.

Definition books_wf {T} (e : Engine T) : Prop :=
  book_wf orderid (limit_order_count e) (limit_orders e) (active_limit_orders e) /\
  book_wf stop_orderid (stop_order_count e) (stop_orders e) (active_stop_orders e).

(** What a callback can do to a book: leave an object as it is, cancel an
    active one, or add new ones, which are active as sent or else
    cancelled. *)
Definition book_evolves {A} (cancelled : A -> A) (sent : A -> Prop)
    (count : N) (store : gmap N A) (active : list N)
    (count' : N) (store' : gmap N A) (active' : list N) : Prop :=
  (count <= count')%N /\
  (forall n a, store !! n = Some a ->
     (store' !! n = Some a /\ (In n active' <-> In n active)) \/
     (store' !! n = Some (cancelled a) /\ In n active /\ ~ In n active')) /\
  (forall n a, store !! n = None -> store' !! n = Some a ->
     (count < n)%N /\
     ((In n active' /\ sent a) \/
      (~ In n active' /\ exists a0, sent a0 /\ a = cancelled a0))).

Definition books_evolve {T} (e e' : Engine T) : Prop :=
  book_evolves (set_status CANCELLED) (fun o => status o = SUBMITTING)
    (limit_order_count e) (limit_orders e) (active_limit_orders e)
    (limit_order_count e') (limit_orders e') (active_limit_orders e') /\
  book_evolves (set_stop_status STOP_CANCELLED) (fun s => stop_status s = WAITING)
    (stop_order_count e) (stop_orders e) (active_stop_orders e)
    (stop_order_count e') (stop_orders e') (active_stop_orders e').

(** The change of position a trade stands for. *)
Definition signed_volume (t : TradeData) : Q :=
  match trade_direction t with
  | LONG => trade_volume t
  | SHORT => - trade_volume t
  end.

Definition sum_signed_volume (ts : list TradeData) (init : Q) : Q :=
  fold_left (fun acc t => acc + signed_volume t) ts init.

(** What the specification promises of an order-entry method [method] with
    direction [d] and offset [o], called in the state [e]: without the
    trading flag the empty list and no change; with it, a list with the
    identifier of one new order, of the snapped price, added to the stop
    book or to the limit book.  With a zero tick [round_to] raises and
    there is no snapped price: the method raises [ZeroDivisionError] and
    makes no order. *)
Definition order_entry_spec {T}
    (method : Q -> Q -> bool -> bool -> M (Engine T) (list OrderId))
    (d : Direction) (o : Offset) (e : Engine T)
    (price_ volume_ : Q) (stop lock : bool) : Prop :=
  if trading e then
    if Qeqb (pricetick e) 0 then
      method price_ volume_ stop lock e = (Raise ZeroDivisionError, e)
    else
    exists snapped, round_to price_ (pricetick e) = Ok snapped /\
    exists e', frame e e' /\
      if stop then
        let n := (stop_order_count e + 1)%N in
        method price_ volume_ stop lock e = (Ok [StopId n], e') /\
        stop_orders e !! n = None /\
        stop_orders e' = <[n := mkStopOrder n d o snapped volume_ [] WAITING]> (stop_orders e) /\
        active_stop_orders e' = active_stop_orders e ++ [n] /\
        stop_order_count e' = n /\
        limit_orders e' = limit_orders e /\
        active_limit_orders e' = active_limit_orders e /\
        limit_order_count e' = limit_order_count e
      else
        let n := (limit_order_count e + 1)%N in
        method price_ volume_ stop lock e = (Ok [LimitId n], e') /\
        limit_orders e !! n = None /\
        limit_orders e' =
          <[n := mkOrder n d o snapped volume_ 0 SUBMITTING (datetime e)]> (limit_orders e) /\
        active_limit_orders e' = active_limit_orders e ++ [n] /\
        limit_order_count e' = n /\
        stop_orders e' = stop_orders e /\
        active_stop_orders e' = active_stop_orders e /\
        stop_order_count e' = stop_order_count e
  else method price_ volume_ stop lock e = (Ok [], e).

(** The attributes of an order that the engine never assigns after the
    order is made. *)
Definition same_order (o o' : OrderData) : Prop :=
  orderid o' = orderid o /\ direction o' = direction o /\
  offset o' = offset o /\ price o' = price o /\ volume o' = volume o.

(** Scenario S2: a buy order at 10 rests in the book when a bar that opens
    at 8 arrives. *)
Definition engine_S2 : Engine unit :=
  after (buy 10 1 false false (fun _ => Done)) (trading_engine idle_strategy tt).
Definition order_S2 : OrderData := mkOrder 1 LONG OPEN 10 1 0 SUBMITTING None.

(** The buy order of scenario S2 in the hands of a strategy that cancels
    every order it hears of. *)
Definition engine_cancelling : Engine unit :=
  after (buy 10 1 false false (fun _ => Done)) (trading_engine cancelling_strategy tt).
Definition prices_S2 : CrossPrices := mkCrossPrices 7 9 8 8.

(** Scenario S3: a buy stop order at 11 waits when a bar with high 12 and
    open 11 arrives. *)
Definition engine_S3 : Engine unit :=
  after (buy 11 1 true false (fun _ => Done)) (trading_engine idle_strategy tt).
Definition stop_order_S3 : StopOrder := mkStopOrder 1 LONG OPEN 11 1 [] WAITING.
Definition prices_S3 : CrossPrices := mkCrossPrices 12 10 11 11.

(** "An order only becomes AllTraded or Cancelled from the NotTraded state",
    said of the engine operation [op] and the order of key [n] in the state
    [e]. *)
Definition only_from_nottraded {T} (op : M (Engine T) unit) (n : N) (e : Engine T)
  : Prop :=
  forall o o',
    limit_orders e !! n = Some o ->
    limit_orders (snd (op e)) !! n = Some o' ->
    status o' <> status o ->
    status o' = ALLTRADED \/ status o' = CANCELLED ->
    status o = NOTTRADED.

(** [m], when it returns, keeps the invariant [I] and relates the states
    before and after by [R]. *)
Definition ok_step {St A} (I : St -> Prop) (R : St -> St -> Prop) (m : M St A) : Prop :=
  forall s a s', I s -> m s = (Ok a, s') -> I s' /\ R s s'.

(** What a crossing does to the ledger and to the position: trades that
    satisfy [P] are appended, and the position moves by their signed
    volumes. *)
Definition ledger {T} (P : TradeData -> Prop) (e e' : Engine T) : Prop :=
  (limit_order_count e <= limit_order_count e')%N /\
  exists fills,
    trades e' = trades e ++ fills /\
    pos e' = sum_signed_volume fills (pos e) /\
    Forall P fills.

(** A buy order at 10 and a buy stop order at 11 wait for the bar of
    scenario S3 (open 11, high 12, low 10). *)
Definition engine_limit_and_stop : Engine unit :=
  after (buy 10 1 false false (fun _ => buy 11 1 true false (fun _ => Done)))
    (trading_engine idle_strategy tt).

(** Two daily bars one month apart, and two daily bars one day apart. *)
Definition history_month_apart : list HistoryData :=
  [BarItem (mkBar (at_day 2020 1 15) 10 12 9 11);
   BarItem (mkBar (at_day 2020 2 15) 11 12 10 11)].
Definition history_day_apart : list HistoryData :=
  [BarItem (mkBar (at_day 2020 1 15) 10 12 9 11);
   BarItem (mkBar (at_day 2020 1 16) 11 12 10 11)].

(** What a callback does while the trading flag is false: nothing to the
    books, to the ledger or to the position. *)
Record quiet {T} (e e' : Engine T) : Prop := mkQuiet {
  qu_trading : trading e' = trading e;
  qu_pos : pos e' = pos e;
  qu_trade_count : trade_count e' = trade_count e;
  qu_trades : trades e' = trades e;
  qu_daily_results : daily_results e' = daily_results e;
  qu_limit_order_count : limit_order_count e' = limit_order_count e;
  qu_limit_orders : limit_orders e' = limit_orders e;
  qu_active_limit_orders : active_limit_orders e' = active_limit_orders e;
  qu_stop_order_count : stop_order_count e' = stop_order_count e;
  qu_stop_orders : stop_orders e' = stop_orders e;
  qu_active_stop_orders : active_stop_orders e' = active_stop_orders e }.

Definition not_trading {T} (e : Engine T) : Prop := trading e = false.

(** [triple P m Q E]: from a state that satisfies [P], [m] either returns a
    value and a state that satisfy [Q], or raises an exception in a state
    that satisfies [E]. *)
Definition triple {St A} (P : St -> Prop) (m : M St A)
    (Q : A -> St -> Prop) (E : St -> Prop) : Prop :=
  forall s, P s ->
    match m s with
    | (Ok a, s') => Q a s'
    | (Raise _, s') => E s'
    end.

(** An order that waits in the book. *)
Definition pending (o : OrderData) : Prop :=
  status o = SUBMITTING \/ status o = NOTTRADED.

(** Every order of the active book waits, but for the order [x] that the
    engine is filling. *)
Definition active_pending {T} (x : option N) (e : Engine T) : Prop :=
  forall n o,
    In n (active_limit_orders e) -> Some n <> x ->
    limit_orders e !! n = Some o -> pending o.

(** The invariant of the engine between two iterations of a crossing. *)
Definition engine_inv {T} (x : option N) (e : Engine T) : Prop :=
  books_wf e /\ active_pending x e.

(** ** Daily accounting: [BacktestingEngine.calculate_result] *)

(** The attributes of the engine that [calculate_result] hands to
    [DailyResult.calculate_pnl]; [set_parameters] assigns them and a run
    leaves them alone. *)
Record EngineParameters : Type := mkEngineParameters {
  ep_size : Q;
  ep_rate_type : RateType;
  ep_rate : Q;
  ep_slippage : Q;
  ep_inverse : bool }.

(** A computation on the dict [self.daily_results], run on the engine. *)
Definition on_daily_results {T A} (m : M (list (Date * DailyResult)) A)
  : M (Engine T) A :=
  fun e => let '(o, results) := m (daily_results e) in (o, set_daily_results results e).

(** [self.daily_results[d]] followed by a method call on the object found;
    a date that is not a key raises [KeyError]. *)
Fixpoint with_daily_result (d : Date) (method : M DailyResult unit)
    (results : list (Date * DailyResult))
  : outcome unit * list (Date * DailyResult) :=
  match results with
  | [] => (Raise KeyError, [])
  | (d', r) :: results' =>
      if Date_eqb d' d then
        let '(o, r') := method r in (o, (d', r') :: results')
      else
        let '(o, results'') := with_daily_result d method results' in
        (o, (d', r) :: results'')
  end.

(** The body of the first loop of [calculate_result]. *)
Definition book_trade (trade : TradeData) : M (list (Date * DailyResult)) unit :=
  match trade_datetime trade with
  | None => raise AttributeError
  | Some dt => with_daily_result (date_of dt) (add_trade trade)
  end.

(** The second loop of [calculate_result], with its variables [pre_close]
    and [start_pos]. *)
Fixpoint calculate_daily (c : EngineParameters) (pre_close_ start_pos_ : Q)
    (results : list (Date * DailyResult))
  : outcome unit * list (Date * DailyResult) :=
  match results with
  | [] => (Ok tt, [])
  | (d, r) :: results' =>
      match calculate_pnl pre_close_ start_pos_ (ep_size c) (ep_rate_type c)
              (ep_rate c) (ep_slippage c) (ep_inverse c) r with
      | (Ok _, r') =>
          let '(o, results'') :=
            calculate_daily c (close_price r') (end_pos r') results' in
          (o, (d, r') :: results'')
      | (Raise e, r') => (Raise e, (d, r') :: results')
      end
  end.

(** [BacktestingEngine.calculate_result].  The frame returned has one row
    for each daily result, in the order of the dict, and one column for
    each attribute: it is given as the list of the rows.  Without a trade the
    method returns [None]. *)
Definition calculate_result {T} (c : EngineParameters)
  : M (Engine T) (option (list DailyResult)) :=
  trades_ <- gets trades ;;
  match trades_ with
  | [] => ret None
  | _ :: _ =>
      on_daily_results (for_each trades_ book_trade) ;;;
      on_daily_results (calculate_daily c 0 0) ;;;
      results <- gets daily_results ;;
      ret (Some (map snd results))
  end.

(** The trades of the ledger dated [d], in the order of the ledger. *)
Definition trades_of_day (d : Date) (ts : list TradeData) : list TradeData :=
  List.filter
    (fun t => match trade_datetime t with
              | Some dt => Date_eqb (date_of dt) d
              | None => false
              end) ts.

(** A daily result as [update_daily_close] makes it: nothing but the date
    and the close price is set. *)
Definition unused_result (r : DailyResult) : Prop :=
  set_close_price 0 r = DailyResult_init (dr_date r) 0.

(** Every trade of the ledger is dated, and on a day that has a daily
    result. *)
Definition dated_in (days_ : list Date) (t : TradeData) : Prop :=
  exists dt, trade_datetime t = Some dt /\ In (date_of dt) days_.

(** The rows of the frame are chained: a day starts from the position at
    which the day before ended, and its previous close is the close of the
    day before, or 1 where that is 0. *)
Fixpoint chained (pre_close_ start_pos_ : Q) (rows : list DailyResult) : Prop :=
  match rows with
  | [] => True
  | r :: rows' =>
      pre_close r = spec_pre_close pre_close_ /\
      start_pos r = start_pos_ /\
      chained (close_price r) (end_pos r) rows'
  end.

(** Sum of a column of the frame. *)
Definition column_sum (f : DailyResult -> Q) (rows : list DailyResult) : Q :=
  fold_left (fun acc r => acc + f r) rows 0.

(** [self.daily_results.get(d)]: the daily result stored for the date [d]. *)
Definition daily_result_of (d : Date) (results : list (Date * DailyResult))
  : option DailyResult :=
  option_map snd (List.find (fun dr => Date_eqb (fst dr) d) results).

(** The dict of the daily results after the trades [ts] have been added to
    the days they are dated. *)
Definition booked (ts : list TradeData) (results : list (Date * DailyResult))
  : list (Date * DailyResult) :=
  map (fun dr =>
         (fst dr,
          set_dr_trades (dr_trades (snd dr) ++ trades_of_day (fst dr) ts) (snd dr)))
      results.

(** What [calculate_pnl] makes of the daily result [r] in the second loop
    of [calculate_result]: the figures of [r'] in terms of the close price
    and the trades of [r] and of the two values handed over by the loop. *)
Definition day_result (c : EngineParameters) (r r' : DailyResult) : Prop :=
  close_price r' = close_price r /\
  dr_trades r' = dr_trades r /\
  dr_trade_count r' = length (dr_trades r) /\
  holding_pnl r' =
    spec_holding_pnl (ep_inverse c) (start_pos r') (close_price r) (pre_close r')
      (ep_size c) /\
  end_pos r' = accumulate spec_pos_change (dr_trades r) (start_pos r') /\
  trading_pnl r' =
    accumulate (spec_trade_pnl (ep_inverse c) (close_price r) (ep_size c))
      (dr_trades r) (trading_pnl r) /\
  total_pnl r' = trading_pnl r' + holding_pnl r' /\
  net_pnl r' = total_pnl r' - commission r' - dr_slippage r'.

(** Sum of a list of numbers. *)
Definition Qsum (l : list Q) : Q := fold_right Qplus 0 l.

(** The value at the price [mark] of the trades [ts], for a contract of
    size [size]: what the position they built is worth, less what it cost. *)
Definition marked_to (mark size : Q) (ts : list TradeData) : Q :=
  Qsum (map (fun t => signed_volume t * (mark - trade_price t) * size) ts).

(** The close price of the last row of the frame, [default] without rows. *)
Definition last_close (rows : list DailyResult) (default : Q) : Q :=
  fold_left (fun _ r => close_price r) rows default.

(** The end position of the last row of the frame. *)
Definition last_end_pos (rows : list DailyResult) (default : Q) : Q :=
  fold_left (fun _ r => end_pos r) rows default.

(** What a row of the frame says of its day, for a contract that is not
    inverse: the total pnl is the pnl of the position held from the day
    before plus the value of the trades of the day at the close. *)
Definition normal_day (size : Q) (r : DailyResult) : Prop :=
  total_pnl r
  == start_pos r * (close_price r - pre_close r) * size
     + marked_to (close_price r) size (dr_trades r) /\
  end_pos r == start_pos r + Qsum (map signed_volume (dr_trades r)).

(** *** Example runs for the daily accounting *)

(** A strategy whose [on_bar] fails. *)
Definition failing_strategy : Strategy unit :=
  mkStrategy Done Done Done (fun _ => Done)
    (fun _ => Throw (StrategyError "on_bar"%string)) (fun _ => Done)
    (fun _ => Done) (fun _ => Done) (fun _ => Done) (fun _ => None).

(** Two days: a buy order at 10 is filled on the bar of scenario S2, a sell
    order at 11 on the bar of scenario S3. *)
Definition engine_two_days : Engine unit :=
  let e1 := snd (new_data (call 3) BAR (BarItem bar_S2) engine_S2) in
  let e2 := after (sell 11 1 false false (fun _ => Done)) e1 in
  snd (new_data (call 3) BAR (BarItem bar_S3) e2).

(** A buy order is filled on the first bar of a day and the callback of the
    strategy fails on that bar. *)
Definition engine_failed_bar : Engine unit :=
  let e0 := after (buy 10 1 false false (fun _ => Done))
              (trading_engine failing_strategy tt) in
  snd (new_data (call 3) BAR (BarItem bar_S2) e0).

Definition example_parameters : EngineParameters :=
  mkEngineParameters 10 FLOAT (1 # 1000) (1 # 5) false.

(** A strategy that sends a buy order in [on_init], in the warm-up callback
    and in [on_start]. *)
Definition eager_strategy : Strategy unit :=
  mkStrategy
    (LoadBarCallback 1 (fun _ => buy 10 1 false false (fun _ => Done))
       (buy 10 1 false false (fun _ => Done)))
    (buy 10 1 false false (fun _ => Done))
    Done (fun _ => Done) (fun _ => Done) (fun _ => Done)
    (fun _ => Done) (fun _ => Done) (fun _ => Done) (fun _ => None).

(** A strategy whose [on_start] fails. *)
Definition failing_start_strategy : Strategy unit :=
  mkStrategy (LoadBar 1 Done) (Throw (StrategyError "on_start"%string))
    Done (fun _ => Done) (fun _ => Done) (fun _ => Done)
    (fun _ => Done) (fun _ => Done) (fun _ => Done) (fun _ => None).

(** The representation invariant of the ledger: the trades are numbered
    1, 2, ... in the order in which they were made, by [trade_count]; no two
    trades come from the same order; the order of a trade has a number
    already handed out and is not in the active book. *)
Definition ledger_wf {T} (e : Engine T) : Prop :=
  trade_count e = N.of_nat (length (trades e)) /\
  map tradeid (trades e) = map N.of_nat (seq 1 (length (trades e))) /\
  List.NoDup (map trade_orderid (trades e)) /\
  Forall (fun t => (trade_orderid t <= limit_order_count e)%N /\
                   ~ In (trade_orderid t) (active_limit_orders e))
         (trades e).

Definition run_inv {T} (e : Engine T) : Prop := books_wf e /\ ledger_wf e.

(** No condition on the states before and after. *)
Definition any_change {St} (s s' : St) : Prop := True.

(** ** [OptimizationSetting.add_parameter] *)

(** [d[key] = value] on a dict kept in insertion order: the value of a key
    that is present is replaced where it stands, a new key goes last. *)
Fixpoint dict_set {V} (key : string) (value : V) (d : list (string * V))
  : list (string * V) :=
  match d with
  | [] => [(key, value)]
  | (k, v) :: d' =>
      if String.eqb k key then (k, value) :: d' else (k, v) :: dict_set key value d'
  end.

(** [d.get(key)] *)
Definition dict_get {V} (key : string) (d : list (string * V)) : option V :=
  option_map snd (List.find (fun kv => String.eqb (fst kv) key) d).

(** Truth value of an optional number: [None] and 0 are false. *)
Definition truthy_opt (x : option Q) : bool :=
  match x with
  | None => false
  | Some x => truthy x
  end.

(** The arguments of [add_parameter] are Python numbers of any type.  Every
    finite number is a rational and the comparisons of the source are exact
    on them; what depends on the type is the sum [value += step]: exact for
    [int] and [Fraction] arguments, rounded for [float] arguments.  The model
    takes it as the parameter [add]. *)

(** [while value <= end: value_list.append(value); value += step].  The
    loop need not end (a step that rounding absorbs leaves [value] where it
    is): the result is [None] when the loop is still running after [fuel]
    tests. *)
Fixpoint value_loop (add : Q -> Q -> Q) (fuel : nat) (value end_ step : Q)
    (value_list : list Q) : option (list Q) :=
  match fuel with
  | O => None
  | S fuel' =>
      if Qleb value end_
      then value_loop add fuel' (add value step) end_ step (value_list ++ [value])
      else Some value_list
  end.

(** A number of tests within which the loop ends when the sums are exact. *)
Definition loop_bound (start end_ step : Q) : nat :=
  S (S (Z.to_nat (Qfloor ((end_ - start) / step)))).

Definition set_params (v : list (string * list Q)) (os : OptimizationSetting)
  : OptimizationSetting :=
  {| params := v; target_name := target_name os |}.

(** [OptimizationSetting.add_parameter]; the messages printed before the two
    early returns are left out.  Comparing a number with [None] raises
    [TypeError].  The result is [None] when the call has not returned after
    [fuel] tests of its loop. *)
Definition add_parameter (add : Q -> Q -> Q) (fuel : nat)
    (name : string) (start : Q) (end_ step : option Q) (os : OptimizationSetting)
  : option (outcome unit * OptimizationSetting) :=
  if negb (truthy_opt end_) && negb (truthy_opt step) then
    Some (modify (fun os => set_params (dict_set name [start] (params os)) os) os)
  else
    match end_ with
    | None => Some (raise TypeError os)
    | Some end_ =>
        if Qleb end_ start then Some (ret tt os)
        else
          match step with
          | None => Some (raise TypeError os)
          | Some step =>
              if Qleb step 0 then Some (ret tt os)
              else
                match value_loop add fuel start end_ step [] with
                | None => None
                | Some value_list =>
                    Some (modify (fun os =>
                            set_params (dict_set name value_list (params os)) os) os)
                end
          end
    end.

(** The values [start], [start + step], ... of [n] iterations. *)
Fixpoint steps_from (n : nat) (value step : Q) : list Q :=
  match n with
  | O => []
  | S n' => value :: steps_from n' (value + step) step
  end.

(** The representation invariant of [OptimizationSetting.params]: the names
    are distinct, as the keys of a dict are, and no list of values is
    empty. *)
Definition params_wf (os : OptimizationSetting) : Prop :=
  List.NoDup (map fst (params os)) /\
  Forall (fun kv => snd kv <> []) (params os).

(** ** [CtaTemplate]: settings and bookkeeping of a strategy *)

(** The attributes of a strategy object that [update_setting] and
    [get_parameters] deal with: the class attributes [parameters] and
    [variables], two lists of names, and the values [getattr] finds under a
    name (in the instance or in its class).  The names [parameters] and
    [variables] themselves are taken not to be declared as parameters. *)
Record StrategyObject (V : Type) : Type := mkStrategyObject {
  parameters : list string;
  variables : list string;
  attributes : list (string * V) }.
Arguments mkStrategyObject {V}.
Arguments parameters {V} _.
Arguments variables {V} _.
Arguments attributes {V} _.

Definition getattr {V} (name : string) : M (StrategyObject V) V :=
  obj <- get ;;
  match dict_get name (attributes obj) with
  | Some v => ret v
  | None => raise AttributeError
  end.

Definition setattr {V} (name : string) (value : V) : M (StrategyObject V) unit :=
  modify (fun obj =>
    mkStrategyObject (parameters obj) (variables obj)
      (dict_set name value (attributes obj))).

(** [CtaTemplate.update_setting] *)
Definition update_setting {V} (setting : list (string * V))
  : M (StrategyObject V) unit :=
  names <- gets parameters ;;
  for_each names (fun name =>
    match dict_get name setting with
    | Some value => setattr name value
    | None => ret tt
    end).

(** [d = {}; for name in names: d[name] = getattr(self, name)] *)
Fixpoint collect_attributes {V} (names : list string) (d : list (string * V))
  : M (StrategyObject V) (list (string * V)) :=
  match names with
  | [] => ret d
  | name :: names' =>
      value <- getattr name ;;
      collect_attributes names' (dict_set name value d)
  end.

(** [CtaTemplate.get_parameters] and [CtaTemplate.get_variables] *)
Definition get_parameters {V} : M (StrategyObject V) (list (string * V)) :=
  names <- gets parameters ;;
  collect_attributes names [].

Definition get_variables {V} : M (StrategyObject V) (list (string * V)) :=
  names <- gets variables ;;
  collect_attributes names [].

(** [name in names] *)
Definition name_in (name : string) (names : list string) : bool :=
  existsb (String.eqb name) names.

(** A strategy object with the parameters [fast] and [slow]. *)
Definition example_object : StrategyObject Q :=
  mkStrategyObject ["fast"%string; "slow"%string] ["inited"%string]
    [("fast"%string, 5); ("slow"%string, 20); ("inited"%string, 0)].

(** The attributes of a strategy that [record_price_and_status] reads and
    writes. *)
Record Tracking : Type := mkTracking {
  tr_pos : Q;
  track_highest : Q;
  track_lowest : Q;
  entry_minute : Z;
  exit_minute : Z }.

(** [CtaTemplate.record_price_and_status] *)
Definition record_price_and_status (b : BarData) : M Tracking unit :=
  s <- get ;;
  if Qeqb (tr_pos s) 0 then
    modify (fun s => mkTracking (tr_pos s) (high_price b) (low_price b) 0
                       (exit_minute s + 1))
  else if Qltb 0 (tr_pos s) then
    modify (fun s => mkTracking (tr_pos s) (py_max (track_highest s) (high_price b))
                       (track_lowest s) (entry_minute s + 1) 0)
  else if Qltb (tr_pos s) 0 then
    modify (fun s => mkTracking (tr_pos s) (track_highest s)
                       (py_min (track_lowest s) (low_price b))
                       (entry_minute s + 1) 0)
  else ret tt.

(** The engine sets the position, then the strategy records the bar: the
    call of [record_price_and_status] in [on_bar], bar after bar. *)
Definition record_bars (steps : list (Q * BarData)) : M Tracking unit :=
  for_each steps (fun step =>
    modify (fun s => mkTracking (fst step) (track_highest s) (track_lowest s)
                       (entry_minute s) (exit_minute s)) ;;;
    record_price_and_status (snd step)).

(** A strategy that warms up with [load_tick]. *)
Definition tick_strategy : Strategy unit :=
  mkStrategy (LoadTick 1 Done) Done Done (fun _ => Done) (fun _ => Done)
    (fun _ => Done) (fun _ => Done) (fun _ => Done) (fun _ => Done) (fun _ => None).

(** A step that leaves the clock and the daily results of the engine
    alone. *)
Definition same_clock {T} (e e' : Engine T) : Prop :=
  datetime e' = datetime e /\ daily_results e' = daily_results e.

(** The engine is ready for [calculate_result]: the daily results have
    distinct dates and were not used yet, and every trade of the ledger is
    dated on a day that has a daily result. *)
Definition accounts_ready {T} (e : Engine T) : Prop :=
  List.NoDup (map fst (daily_results e)) /\
  Forall (fun dr => unused_result (snd dr)) (daily_results e) /\
  Forall (dated_in (map fst (daily_results e))) (trades e).

(* ----------------------------------------------------------------- *)
(** ** Loading the history: [BacktestingEngine.load_data] *)

(** In [load_data] a [datetime] is a point of the time line and a
    [timedelta] a length of time, both counted in microseconds, the
    resolution of the two Python types: the sums and comparisons of the
    source are exact on these numbers. *)
Definition Instant : Type := Z.

(** [timedelta(days=30)] *)
Definition progress_delta : Z := (30 * 86400 * 1000000)%Z.

(** The fields of the engine that [load_data] reads and writes; [ld_end] is
    [None] when [set_parameters] was given no end. *)
Record Loading (D : Type) : Type := mkLoading {
  ld_start : Instant;
  ld_end : option Instant;
  ld_mode : BacktestingMode;
  ld_history_data : list D }.
Arguments mkLoading {D} _ _ _ _.
Arguments ld_start {D} _.
Arguments ld_end {D} _.
Arguments ld_mode {D} _.
Arguments ld_history_data {D} _.

(** The [while start < self.end] loop of [load_data].  [load_bar_data] and
    [load_tick_data] are the two cached queries of the database, which is
    not part of the sources: they are taken as functions of the window, the
    symbol, exchange and interval being fixed during a call.  The progress
    bar only feeds [output].  [bound] counts the iterations left. *)
Fixpoint load_loop {D} (bound : nat) (mode : BacktestingMode)
    (load_bar_data load_tick_data : Instant -> Instant -> list D)
    (self_end interval_delta : Z) (start end_ : Instant) (history_data : list D)
  : list D :=
  match bound with
  | O => history_data
  | S bound' =>
      if (start <? self_end)%Z then
        let end_ := Z.min end_ self_end in
        let data :=
          match mode with
          | BAR => load_bar_data start end_
          | TICK => load_tick_data start end_
          end in
        load_loop bound' mode load_bar_data load_tick_data self_end interval_delta
          (end_ + interval_delta)%Z (end_ + (progress_delta + interval_delta))%Z
          (history_data ++ data)
      else history_data
  end.

(** A number of iterations that the loop of [load_data] cannot reach when
    [interval_delta] is not negative. *)
Definition load_bound (start self_end interval_delta : Z) : nat :=
  S (S (Z.to_nat ((self_end - start) / (progress_delta + interval_delta)))).

(** [BacktestingEngine.load_data]; [now] is the value of [datetime.now()]
    and [interval_delta] the entry of [INTERVAL_DELTA_MAP] for the interval
    of the engine. *)
Definition load_data {D} (now : Instant) (interval_delta : Z)
    (load_bar_data load_tick_data : Instant -> Instant -> list D)
    (self : Loading D) : Loading D :=
  let self_end := default now (ld_end self) in
  if (self_end <=? ld_start self)%Z then
    mkLoading (ld_start self) (Some self_end) (ld_mode self) (ld_history_data self)
  else
    mkLoading (ld_start self) (Some self_end) (ld_mode self)
      (load_loop (load_bound (ld_start self) self_end interval_delta) (ld_mode self)
         load_bar_data load_tick_data self_end interval_delta
         (ld_start self) (ld_start self + progress_delta)%Z []).

(** The [k]-th window of a load from [start] to [self_end]. *)
Definition window (start self_end interval_delta : Z) (k : nat) : Instant * Instant :=
  let s := (start + Z.of_nat k * (progress_delta + interval_delta))%Z in
  (s, Z.min (s + progress_delta) self_end).

(** The number of windows whose start lies before [self_end]. *)
Definition window_count (start self_end interval_delta : Z) : nat :=
  Z.to_nat ((self_end - start + progress_delta + interval_delta - 1)
            / (progress_delta + interval_delta)).

(** The query of the engine's mode. *)
Definition query {D} (mode : BacktestingMode)
    (load_bar_data load_tick_data : Instant -> Instant -> list D)
    (w : Instant * Instant) : list D :=
  match mode with
  | BAR => load_bar_data (fst w) (snd w)
  | TICK => load_tick_data (fst w) (snd w)
  end.

(** An example store of ticks, given by their times, and the query that
    returns the ticks of a window, bounds included. *)
Definition stored_between (store : list Instant) (s e : Instant) : list Instant :=
  List.filter (fun t => (s <=? t)%Z && (t <=? e)%Z) store.

(** The example of a load of ticks: ninety days from the origin, one minute
    as interval, and a store with a tick thirty seconds after the end of
    the first window. *)
Definition one_minute : Z := 60000000%Z.
Definition example_store : list Instant :=
  [0; progress_delta; progress_delta + 30000000; progress_delta + one_minute;
   3 * progress_delta]%Z.
Definition example_loading : Loading Instant :=
  mkLoading 0%Z (Some (3 * progress_delta)%Z) TICK [7%Z].

(* ================================================================= *)
(** * Part II: lemmas and theorems *)
(* ================================================================= *)

Lemma bind_Ok {St A B} (m : M St A) (f : A -> M St B) s a s' :
  m s = (Ok a, s') -> bind m f s = f a s'.
Proof. intros H. unfold bind. now rewrite H. Qed.

Lemma bind_Raise {St A B} (m : M St A) (f : A -> M St B) s e s' :
  m s = (Raise e, s') -> bind m f s = (Raise e, s').
Proof. intros H. unfold bind. now rewrite H. Qed.

Lemma bind_ret {St A B} (a : A) (f : A -> M St B) s : bind (ret a) f s = f a s.
Proof. reflexivity. Qed.

Lemma bind_modify {St B} (g : St -> St) (f : unit -> M St B) s :
  bind (modify g) f s = f tt (g s).
Proof. reflexivity. Qed.

Lemma bind_gets {St A B} (g : St -> A) (f : A -> M St B) s :
  bind (gets g) f s = f (g s) s.
Proof. reflexivity. Qed.

Lemma bind_get {St B} (f : St -> M St B) s : bind get f s = f s s.
Proof. reflexivity. Qed.

Lemma bind_raise {St A B} (e : exn) (f : A -> M St B) s :
  bind (raise e) f s = (Raise e, s).
Proof. reflexivity. Qed.

Lemma bind_lift_Ok {St A B} (a : A) (f : A -> M St B) s :
  bind (lift (Ok a)) f s = f a s.
Proof. reflexivity. Qed.

Lemma bind_lift_Raise {St A B} (e : exn) (f : A -> M St B) s :
  bind (lift (@Raise A e)) f s = (Raise e, s).
Proof. reflexivity. Qed.

Lemma bind_bind {St A B C} (m : M St A) (f : A -> M St B) (g : B -> M St C) s :
  bind (bind m f) g s = bind m (fun a => bind (f a) g) s.
Proof. unfold bind. destruct (m s) as [[a|e] s']; reflexivity. Qed.

Lemma when_true {St} (m : M St unit) : when true m = m.
Proof. reflexivity. Qed.

Lemma when_false {St} (m : M St unit) : when false m = ret tt.
Proof. reflexivity. Qed.

Create Rewrite HintDb mstep.
#[global] Hint Rewrite @bind_ret @bind_modify @bind_gets @bind_get @bind_raise
  @bind_lift_Ok @bind_lift_Raise @when_true @when_false @bind_bind : mstep.

(** Run the straight-line prefix of a monadic computation. *)
Ltac mstep := repeat (progress (autorewrite with mstep; cbn beta iota)).

(** ** Numbers *)

Lemma Qeqb_true (a b : Q) : Qeqb a b = true <-> a == b.
Proof. apply Qeq_bool_iff. Qed.

Lemma Qeqb_false (a b : Q) : Qeqb a b = false <-> ~ a == b.
Proof.
  split.
  - intros H E. apply Qeqb_true in E. congruence.
  - intros H. destruct (Qeqb a b) eqn:E; [|reflexivity].
    apply Qeqb_true in E. contradiction.
Qed.

Lemma Qleb_true (a b : Q) : Qleb a b = true <-> a <= b.
Proof. apply Qle_bool_iff. Qed.

Lemma Qltb_true (a b : Q) : Qltb a b = true <-> a < b.
Proof.
  unfold Qltb. rewrite negb_true_iff. split.
  - intros H. apply Qnot_le_lt. intros L.
    apply Qle_bool_iff in L. congruence.
  - intros H. destruct (Qle_bool b a) eqn:E; [|reflexivity].
    apply Qle_bool_iff in E. apply Qle_not_lt in E. contradiction.
Qed.

Lemma Qltb_false (a b : Q) : Qltb a b = false <-> b <= a.
Proof.
  unfold Qltb. rewrite negb_false_iff. apply Qle_bool_iff.
Qed.

Lemma py_min_le_l (a b : Q) : py_min a b <= a.
Proof.
  unfold py_min. destruct (Qltb b a) eqn:E.
  - apply Qltb_true in E. now apply Qlt_le_weak.
  - apply Qle_refl.
Qed.

Lemma py_max_ge_l (a b : Q) : a <= py_max a b.
Proof.
  unfold py_max. destruct (Qltb a b) eqn:E.
  - apply Qltb_true in E. now apply Qlt_le_weak.
  - apply Qle_refl.
Qed.

Lemma Qeqb_square (p : Q) : Qeqb (p ^ 2) 0 = Qeqb p 0.
Proof.
  destruct (Qeqb p 0) eqn:E.
  - apply Qeqb_true in E. apply Qeqb_true. rewrite E. reflexivity.
  - apply Qeqb_false in E. apply Qeqb_false. intros H. apply E.
    simpl in H. destruct (Qmult_integral _ _ H); assumption.
Qed.

(** ** The daily accumulator *)

(** The fields of a [DailyResult] that the loop over the trades leaves alone. *)
Definition dr_frame (r r' : DailyResult) : Prop :=
  close_price r' = close_price r /\ pre_close r' = pre_close r /\
  start_pos r' = start_pos r /\ holding_pnl r' = holding_pnl r /\
  dr_trades r' = dr_trades r /\ dr_trade_count r' = dr_trade_count r.

Lemma dr_frame_refl r : dr_frame r r.
Proof. repeat split. Qed.

Lemma dr_frame_trans r1 r2 r3 : dr_frame r1 r2 -> dr_frame r2 r3 -> dr_frame r1 r3.
Proof. unfold dr_frame. intuition congruence. Qed.

Lemma calculate_pnl_trade_normal size rt rate slip t r :
  exists r', calculate_pnl_trade size rt rate slip false t r = (Ok tt, r') /\
    dr_frame r r' /\
    end_pos r' = end_pos r + spec_pos_change t /\
    trading_pnl r' = trading_pnl r + spec_trade_pnl false (close_price r) size t.
Proof.
  unfold calculate_pnl_trade, spec_trade_pnl, spec_pos_change.
  destruct rt, (trade_direction t); simpl;
    (eexists; split; [reflexivity | repeat split]).
Qed.

Lemma calculate_pnl_trade_inverse size rt rate slip t r :
  Qeqb (trade_price t) 0 = false -> Qeqb (close_price r) 0 = false ->
  exists r', calculate_pnl_trade size rt rate slip true t r = (Ok tt, r') /\
    dr_frame r r' /\
    end_pos r' = end_pos r + spec_pos_change t /\
    trading_pnl r' = trading_pnl r + spec_trade_pnl true (close_price r) size t.
Proof.
  intros Hp Hc.
  unfold calculate_pnl_trade, spec_trade_pnl, spec_pos_change, py_div, bind, lift, gets.
  cbn [negb]. rewrite Qeqb_square, Hp. cbn [set_end_pos close_price modify].
  rewrite Hc.
  destruct rt, (trade_direction t); simpl;
    (eexists; split; [reflexivity | repeat split]).
Qed.

Lemma calculate_pnl_trade_inverse_raise size rt rate slip t r :
  Qeqb (trade_price t) 0 = true ->
  fst (calculate_pnl_trade size rt rate slip true t r) = Raise ZeroDivisionError.
Proof.
  intros Hp.
  unfold calculate_pnl_trade, py_div, bind, lift, gets.
  cbn [negb]. rewrite Hp. reflexivity.
Qed.

Lemma calculate_pnl_loop inverse size rt rate slip trades : forall r,
  pnl_divides_by_zero inverse (close_price r) trades = false ->
  exists r',
    for_each trades (calculate_pnl_trade size rt rate slip inverse) r = (Ok tt, r') /\
    dr_frame r r' /\
    end_pos r' = accumulate spec_pos_change trades (end_pos r) /\
    trading_pnl r' =
      accumulate (spec_trade_pnl inverse (close_price r) size) trades (trading_pnl r).
Proof.
  induction trades as [|t trades IH]; intros r Hz.
  - exists r. simpl. repeat split.
  - assert (Hstep : exists r1,
        calculate_pnl_trade size rt rate slip inverse t r = (Ok tt, r1) /\
        dr_frame r r1 /\
        end_pos r1 = end_pos r + spec_pos_change t /\
        trading_pnl r1 = trading_pnl r + spec_trade_pnl inverse (close_price r) size t).
    { destruct inverse.
      - unfold pnl_divides_by_zero in Hz. cbn in Hz.
        apply orb_false_iff in Hz as [Hc Hz].
        apply orb_false_iff in Hz as [Hp _].
        now apply calculate_pnl_trade_inverse.
      - apply calculate_pnl_trade_normal. }
    destruct Hstep as (r1 & Hrun & Hfr & Hend & Htr).
    assert (Hc1 : close_price r1 = close_price r) by apply Hfr.
    destruct (IH r1) as (r' & Hrun' & Hfr' & Hend' & Htr').
    { rewrite Hc1. unfold pnl_divides_by_zero in *. cbn in Hz.
      destruct inverse; [|reflexivity]. cbn in *.
      apply orb_false_iff in Hz as [Hc Hz].
      apply orb_false_iff in Hz as [_ Hz]. now rewrite Hc, Hz. }
    exists r'. split; [|split; [|split]].
    + cbn [for_each]. erewrite bind_Ok by exact Hrun. exact Hrun'.
    + eapply dr_frame_trans; eassumption.
    + rewrite Hend', Hend. reflexivity.
    + rewrite Htr', Htr, Hc1. reflexivity.
Qed.

Lemma calculate_pnl_loop_raise size rt rate slip trades : forall r,
  Qeqb (close_price r) 0 = false ->
  existsb (fun t => Qeqb (trade_price t) 0) trades = true ->
  fst (for_each trades (calculate_pnl_trade size rt rate slip true) r)
  = Raise ZeroDivisionError.
Proof.
  induction trades as [|t trades IH]; intros r Hc Hz; [discriminate|].
  cbn [existsb] in Hz. cbn [for_each]. unfold bind.
  destruct (Qeqb (trade_price t) 0) eqn:Hp.
  - pose proof (calculate_pnl_trade_inverse_raise size rt rate slip t r Hp) as H.
    destruct (calculate_pnl_trade size rt rate slip true t r) as [[[]|e] r1];
      cbn in H; [discriminate|]. cbn. congruence.
  - destruct (calculate_pnl_trade_inverse size rt rate slip t r Hp Hc)
      as (r1 & Hrun & Hfr & _).
    rewrite Hrun. apply IH; [|exact Hz].
    destruct Hfr as [-> _]. exact Hc.
Qed.

Lemma spec_pre_close_nonzero (x : Q) : Qeqb (spec_pre_close x) 0 = false.
Proof.
  unfold spec_pre_close. destruct (Qeqb x 0) eqn:E; [reflexivity | exact E].
Qed.

(** C4. [DailyResult.calculate_pnl] computes the formulas of the daily
    accumulator on every input: a supplied [pre_close] of 0 is replaced by 1;
    [holding_pnl] is [start_pos * (close - pre_close) * size], or
    [start_pos * (1/pre_close - 1/close) * size] in inverse mode; [end_pos]
    accumulates [+volume] for a long trade and [-volume] otherwise, from
    [start_pos]; [trading_pnl] accumulates
    [pos_change * (close - price) * size], or
    [pos_change * (1/price - 1/close) * size] in inverse mode.  Where an
    inverse-mode formula divides by zero the call raises
    [ZeroDivisionError]. *)
Theorem calculate_pnl_formulas (r : DailyResult) (pre_close_ start_pos_ size : Q)
    (rate_type : RateType) (rate slippage : Q) (inverse : bool) :
  let close := close_price r in
  let pc := spec_pre_close pre_close_ in
  let run := calculate_pnl pre_close_ start_pos_ size rate_type rate slippage inverse r in
  if pnl_divides_by_zero inverse close (dr_trades r)
  then fst run = Raise ZeroDivisionError
  else exists r', run = (Ok tt, r') /\
    pre_close r' = pc /\
    start_pos r' = start_pos_ /\
    holding_pnl r' = spec_holding_pnl inverse start_pos_ close pc size /\
    end_pos r' = accumulate spec_pos_change (dr_trades r) start_pos_ /\
    trading_pnl r' =
      accumulate (spec_trade_pnl inverse close size) (dr_trades r) (trading_pnl r) /\
    total_pnl r' = trading_pnl r' + holding_pnl r' /\
    net_pnl r' = total_pnl r' - commission r' - dr_slippage r'.
Proof.
  intros close pc run.
  assert (Hpc : (if truthy pre_close_ then pre_close_ else 1) = pc).
  { unfold pc, spec_pre_close, truthy. now destruct (Qeqb pre_close_ 0). }
  assert (Hpc0 : Qeqb pc 0 = false) by apply spec_pre_close_nonzero.
  subst run. unfold calculate_pnl. rewrite Hpc. mstep.
  set (r0 := set_end_pos start_pos_ (set_start_pos start_pos_ (set_pre_close pc r))).
  assert (Hclose0 : close_price r0 = close) by reflexivity.
  assert (Htrades0 : dr_trades r0 = dr_trades r) by reflexivity.
  destruct (pnl_divides_by_zero inverse close (dr_trades r)) eqn:Hz.
  - (* a division by zero *)
    unfold pnl_divides_by_zero in Hz. destruct inverse; [|discriminate].
    cbn in Hz. cbn [negb]. mstep.
    change (pre_close r0) with pc. unfold py_div at 1. rewrite Hpc0.
    mstep. mstep.
    rewrite Hclose0. unfold py_div at 1.
    destruct (Qeqb close 0) eqn:Hc; [reflexivity|].
    cbn [orb] in Hz. mstep.
    match goal with |- context [bind (for_each ?l ?f) ?k ?s] =>
      pose proof (calculate_pnl_loop_raise size rate_type rate slippage l s Hc) as HR;
      unfold bind at 1;
      destruct (for_each l f s) as [[[]|e] r1] end.
    + cbn in HR. specialize (HR Hz). discriminate.
    + cbn in HR. specialize (HR Hz). cbn. exact HR.
  - (* no division by zero *)
    assert (Hhold :
      (if negb inverse
       then modify (fun r => set_holding_pnl
              (start_pos r * (close_price r - pre_close r) * size) r)
       else pc <- gets pre_close ;;
            a <- lift (py_div 1 pc) ;;
            close <- gets close_price ;;
            b <- lift (py_div 1 close) ;;
            modify (fun r => set_holding_pnl (start_pos r * (a - b) * size) r)) r0
      = (Ok tt,
         set_holding_pnl (spec_holding_pnl inverse start_pos_ close pc size) r0)).
    { destruct inverse; cbn [negb]; [|reflexivity].
      unfold pnl_divides_by_zero in Hz. cbn in Hz.
      apply orb_false_iff in Hz as [Hc _]. mstep.
      change (pre_close r0) with pc. unfold py_div at 1. rewrite Hpc0. mstep.
      rewrite Hclose0. unfold py_div. rewrite Hc. reflexivity. }
    erewrite bind_Ok by exact Hhold. mstep.
    match goal with |- context [bind (for_each ?l ?f) ?k ?s] =>
      destruct (calculate_pnl_loop inverse size rate_type rate slippage l s)
        as (r2 & Hrun2 & Hfr & Hend & Htr) end.
    { exact Hz. }
    erewrite bind_Ok by exact Hrun2. mstep.
    eexists. split; [reflexivity|].
    destruct Hfr as (Hclose & Hpre & Hstart & Hhold' & _).
    cbn in *. repeat split; assumption.
Qed.

(** ** The round-trip ledger *)

Lemma tail_count_loop_spec (l1 l2 : list Offset) : forall ix count,
  Forall (fun o => Offset_eqb o CLOSE = false) l1 ->
  tail_count_loop (l1 ++ CLOSE :: l2) ix count = (ix + length l1)%nat.
Proof.
  induction l1 as [|o l1 IH]; intros ix count Hno; cbn.
  - lia.
  - inversion Hno as [|? ? Ho Hno']; subst. rewrite Ho.
    rewrite IH by assumption. lia.
Qed.

Lemma tail_count_loop_no_close (l : list Offset) : forall ix count,
  Forall (fun o => Offset_eqb o CLOSE = false) l ->
  tail_count_loop l ix count = (match l with [] => count | _ => ix + length l - 1 end)%nat.
Proof.
  induction l as [|o l IH]; intros ix count Hno; cbn; [reflexivity|].
  inversion Hno as [|? ? Ho Hno']; subst. rewrite Ho.
  rewrite IH by assumption. destruct l; cbn; lia.
Qed.

Lemma tail_count_not_open (pre : list TradeData) (last : TradeData) :
  Offset_eqb (trade_offset last) OPEN = false ->
  tail_count (pre ++ [last]) = Ok 0%nat.
Proof.
  intros H. unfold tail_count.
  rewrite map_app, rev_app_distr. cbn. now rewrite H.
Qed.

Lemma tail_count_after_close (pre mid : list TradeData) (cl last : TradeData) :
  trade_offset cl = CLOSE ->
  Forall (fun r => Offset_eqb (trade_offset r) CLOSE = false) mid ->
  trade_offset last = OPEN ->
  tail_count (pre ++ cl :: mid ++ [last]) = Ok (S (length mid)).
Proof.
  intros Hcl Hmid Hlast. unfold tail_count.
  replace (rev (map trade_offset (pre ++ cl :: mid ++ [last])))
    with ((OPEN :: rev (map trade_offset mid)) ++ CLOSE :: rev (map trade_offset pre)).
  2:{ rewrite map_app. cbn [map]. rewrite map_app. cbn [map].
      rewrite rev_app_distr. cbn [rev]. rewrite rev_app_distr. cbn [rev app].
      rewrite Hcl, Hlast. rewrite <- !app_assoc. reflexivity. }
  cbn [app Offset_eqb].
  change (OPEN :: rev (map trade_offset mid) ++ CLOSE :: rev (map trade_offset pre))
    with ((OPEN :: rev (map trade_offset mid)) ++ CLOSE :: rev (map trade_offset pre)).
  rewrite tail_count_loop_spec.
  - cbn [length]. rewrite length_rev, length_map. reflexivity.
  - constructor; [reflexivity|].
    apply Forall_rev. apply Forall_map. exact Hmid.
Qed.

Lemma py_set_tail_map {A B} (f g : A -> B) (count : nat) (l : list A) :
  py_set_tail count (map f l) (map g (py_tail count l))
  = map f (firstn (length l - count) l) ++ map g (skipn (length l - count) l).
Proof.
  unfold py_set_tail, py_tail. rewrite length_map, firstn_map. reflexivity.
Qed.

(** C6, as stated, fails: the ledger below ends flat ([v = 0]), and yet the
    entries of its last trade are rewritten with the closing price. *)
Lemma tail_rewrite_not_by_volume :
  Qeqb (final_volume ledger_flat_open_last) 0 = true /\
  calculate_trade_result example_ledger_config ledger_flat_open_last
  <> Ok (spec_trade_result example_ledger_config 110 ledger_flat_open_last).
Proof.
  split; [reflexivity|].
  intros H. vm_compute in H. discriminate H.
Qed.

(** A sequence with no closing trade at all: the loop that looks for the
    last closing trade ends with [count] one short of the length, so the
    first trade keeps its entries (here the only trade is not rewritten). *)
Lemma tail_rewrite_single_open :
  Qeqb (final_volume ledger_single_open) 0 = false /\
  calculate_trade_result example_ledger_config ledger_single_open
  = Ok (plain_columns example_ledger_config ledger_single_open).
Proof. split; reflexivity. Qed.

(** C6 (amended). The tail rewrite is decided by the offsets.  When the last
    trade is not an opening trade, no entry is rewritten.  When the last
    trade is an opening trade and an earlier trade has offset Close, exactly
    the trades after the last Close trade are rewritten: profit
    [size * (close_last - price) * volume] for Long and
    [size * (price - close_last) * volume] for Short, commission
    [2 * volume * rate] under Fixed and
    [size * (close_last + price) * volume * rate] under Float, slippage
    [2 * size * slippage]. *)
Theorem tail_rewrite_by_offset (c : LedgerConfig) :
  (forall (pre : list TradeData) (last : TradeData),
     trade_offset last <> OPEN ->
     calculate_trade_result c (pre ++ [last]) = Ok (plain_columns c (pre ++ [last]))) /\
  (forall (pre mid : list TradeData) (cl last : TradeData)
          (closes : list Q) (close_last : Q),
     trade_offset cl = CLOSE ->
     Forall (fun r => trade_offset r <> CLOSE) mid ->
     trade_offset last = OPEN ->
     lg_daily_df c = Some (closes ++ [close_last]) ->
     let rows := pre ++ cl :: mid ++ [last] in
     let tail := mid ++ [last] in
     calculate_trade_result c rows
     = Ok (mkTradeColumns (fst (number_rows rows 0 1%N))
             (map (row_profit c) (pre ++ [cl]) ++ map (modify_profit c close_last) tail)
             (map (row_commission c) (pre ++ [cl])
                ++ map (modify_commission c close_last) tail)
             (map (row_slippage c) (pre ++ [cl]) ++ map (modify_slippage c) tail))).
Proof.
  split.
  - intros pre last Hlast. unfold calculate_trade_result.
    rewrite tail_count_not_open
      by (destruct (trade_offset last) eqn:E; cbn; congruence).
    destruct (pre ++ [last]) eqn:E; [|reflexivity].
    destruct pre; discriminate.
  - intros pre mid cl last closes close_last Hcl Hmid Hlast Hdf rows tail.
    assert (Hmid' : Forall (fun r => Offset_eqb (trade_offset r) CLOSE = false) mid).
    { eapply List.Forall_impl; [|exact Hmid]. cbn. intros r Hr.
      destruct (trade_offset r) eqn:E; cbn; congruence. }
    unfold calculate_trade_result. fold rows.
    assert (Hcount : tail_count rows = Ok (S (length mid))).
    { unfold rows. now apply tail_count_after_close. }
    rewrite Hcount. cbn [Nat.eqb].
    unfold last_close_price_of. rewrite Hdf, rev_app_distr. cbn [rev app].
    rewrite !py_set_tail_map.
    assert (Hlen : (length rows - S (length mid) = length (pre ++ [cl]))%nat).
    { unfold rows. rewrite !length_app. cbn. rewrite length_app. cbn. lia. }
    assert (Hrows : rows = (pre ++ [cl]) ++ tail).
    { unfold rows, tail. rewrite <- app_assoc. reflexivity. }
    assert (Htake : firstn (length rows - S (length mid)) rows = pre ++ [cl]).
    { rewrite Hlen, Hrows.
      now rewrite firstn_app, firstn_all, Nat.sub_diag, firstn_0, app_nil_r. }
    assert (Hdrop : skipn (length rows - S (length mid)) rows = tail).
    { rewrite Hlen, Hrows.
      now rewrite skipn_app, skipn_all, Nat.sub_diag, skipn_0. }
    rewrite Htake, Hdrop.
    destruct rows eqn:E; [|reflexivity].
    destruct pre; discriminate.
Qed.

Lemma tail_rewrite_by_offset_witness :
  calculate_trade_result example_ledger_config ledger_round_then_open
  = Ok (mkTradeColumns [1; 1; 2]%N
          [10 * 100 * 1 * (-1); 10 * 105 * 1 * 1; 10 * (103 - 110) * 1]
          [1 * (1 # 2); 1 * (1 # 2); 2 * 1 * (1 # 2)]
          [10 * (1 # 5); 10 * (1 # 5); 2 * 10 * (1 # 5)]).
Proof.
  exact (proj2 (tail_rewrite_by_offset example_ledger_config)
    [mk_row LONG OPEN 100 1] [] (mk_row SHORT CLOSE 105 1)
    (mk_row SHORT OPEN 103 1) [] 110
    eq_refl (List.Forall_nil _) eq_refl eq_refl).
Defined.

(** ** Grid search *)

Lemma insert_desc_perm {Stats} (x : GridResult Stats) (l : list (GridResult Stats)) :
  Permutation (x :: l) (insert_desc x l).
Proof.
  induction l as [|y l IH]; cbn; [reflexivity|].
  destruct (Qleb (target_value y) (target_value x)); [reflexivity|].
  rewrite perm_swap. now apply perm_skip.
Qed.

Lemma sort_desc_perm {Stats} (l : list (GridResult Stats)) :
  Permutation l (sort_desc l).
Proof.
  induction l as [|x l IH]; cbn; [reflexivity|].
  rewrite <- insert_desc_perm. now apply perm_skip.
Qed.

Lemma insert_desc_descending {Stats} (x : GridResult Stats) (l : list (GridResult Stats)) :
  descending l -> descending (insert_desc x l).
Proof.
  unfold descending. induction l as [|y l IH]; intros Hl; cbn.
  - repeat constructor.
  - apply StronglySorted_inv in Hl as [Hl Hy].
    destruct (Qleb (target_value y) (target_value x)) eqn:E.
    + apply Qleb_true in E. constructor; [constructor; assumption|].
      constructor; [exact E|].
      eapply List.Forall_impl; [|exact Hy]. cbn. intros z Hz.
      eapply Qle_trans; eassumption.
    + constructor; [now apply IH|].
      apply (Permutation_Forall (insert_desc_perm x l)).
      constructor; [|exact Hy].
      assert (Hlt : Qltb (target_value x) (target_value y) = true).
      { unfold Qltb, Qleb in *. now rewrite E. }
      apply Qltb_true in Hlt. now apply Qlt_le_weak.
Qed.

Lemma sort_desc_descending {Stats} (l : list (GridResult Stats)) :
  descending (sort_desc l).
Proof.
  induction l as [|x l IH]; cbn.
  - constructor.
  - now apply insert_desc_descending.
Qed.

(** Results with equal keys keep their order: an already descending list is
    left as it is. *)
Lemma sort_desc_stable {Stats} (l : list (GridResult Stats)) :
  descending l -> sort_desc l = l.
Proof.
  unfold descending. induction l as [|x l IH]; intros Hl; [reflexivity|].
  apply StronglySorted_inv in Hl as [Hl Hx].
  change (sort_desc (x :: l)) with (insert_desc x (sort_desc l)).
  rewrite IH by assumption.
  destruct l as [|y l]; cbn; [reflexivity|].
  inversion Hx as [|? ? Hy _]; subst.
  apply Qleb_true in Hy. now rewrite Hy.
Qed.

(** The sort is stable: the results of any one target value come out in
    the order in which they went in. *)
Lemma insert_desc_with_target {Stats} (v : Q) (x : GridResult Stats)
    (l : list (GridResult Stats)) :
  with_target v (insert_desc x l) = with_target v (x :: l).
Proof.
  unfold with_target. induction l as [|y l IH]; [reflexivity|].
  cbn [insert_desc].
  destruct (Qleb (target_value y) (target_value x)) eqn:E; [reflexivity|].
  cbn [List.filter] in *.
  destruct (Qeqb (target_value y) v) eqn:Ey.
  - destruct (Qeqb (target_value x) v) eqn:Ex.
    + apply Qeqb_true in Ex, Ey.
      assert (Hle : Qleb (target_value y) (target_value x) = true).
      { apply Qleb_true. rewrite Ex, Ey. apply Qle_refl. }
      congruence.
    + now rewrite IH.
  - exact IH.
Qed.

Lemma sort_desc_with_target {Stats} (v : Q) (l : list (GridResult Stats)) :
  with_target v (sort_desc l) = with_target v l.
Proof.
  induction l as [|x l IH]; [reflexivity|].
  change (sort_desc (x :: l)) with (insert_desc x (sort_desc l)).
  rewrite insert_desc_with_target. unfold with_target in *. cbn [List.filter].
  now rewrite IH.
Qed.

Lemma sort_desc_S6 {Stats} (a b c : GridResult Stats) :
  target_value a == 1 -> target_value b == 3 -> target_value c == 2 ->
  sort_desc [a; b; c] = [b; c; a].
Proof.
  intros Ha Hb Hc. cbn.
  assert (Hcb : Qleb (target_value c) (target_value b) = true).
  { apply Qleb_true. rewrite Hb, Hc. discriminate. }
  assert (Hca : Qleb (target_value c) (target_value a) = false).
  { destruct (Qleb (target_value c) (target_value a)) eqn:E; [|reflexivity].
    apply Qleb_true in E. rewrite Ha, Hc in E. now contradiction E. }
  assert (Hba : Qleb (target_value b) (target_value a) = false).
  { destruct (Qleb (target_value b) (target_value a)) eqn:E; [|reflexivity].
    apply Qleb_true in E. rewrite Ha, Hb in E. now contradiction E. }
  rewrite Hcb. cbn. now rewrite Hba, Hca.
Qed.

(** C9, as stated, fails: when two settings reach the same target value the
    returned list is not strictly descending. *)
Lemma run_optimization_not_strict :
  exists results,
    run_optimization optimize_constant example_grid = Ok (Some results) /\
    ~ strictly_descending results.
Proof.
  eexists. split; [reflexivity|].
  intros H. cbn in H. apply StronglySorted_inv in H as [_ H].
  inversion H as [|? ? Hlt _]; subst. now apply Qlt_irrefl in Hlt.
Qed.

(** C9 (amended). [run_optimization] returns the results of the workers
    sorted in descending order of [target_value], equal values allowed:
    the returned list is a rearrangement of the results of the settings in
    which, for every target value, the results with that value keep the
    order of the settings; in particular three results with the target
    values A: 1, B: 3, C: 2 come back as [B, C, A]. *)
Theorem run_optimization_descending {Stats}
    (optimize : string -> Setting -> outcome (GridResult Stats))
    (os : OptimizationSetting) (results : list (GridResult Stats)) :
  run_optimization optimize os = Ok (Some results) ->
  descending results /\
  (exists result_values,
     collect (optimize (target_name os)) (generate_setting os) = Ok result_values /\
     Permutation result_values results /\
     forall v, with_target v results = with_target v result_values) /\
  (forall a b c : GridResult Stats,
     target_value a == 1 -> target_value b == 3 -> target_value c == 2 ->
     sort_desc [a; b; c] = [b; c; a]).
Proof.
  intros H. unfold run_optimization in H.
  destruct (generate_setting os) as [|s settings] eqn:Hs; [discriminate|].
  destruct (String.eqb (target_name os) EmptyString); [discriminate|].
  destruct (collect (optimize (target_name os)) (s :: settings))
    as [result_values|e] eqn:Hc; [|discriminate].
  injection H as <-. split; [|split].
  - apply sort_desc_descending.
  - exists result_values. split; [reflexivity|]. split; [apply sort_desc_perm|].
    intros v. apply sort_desc_with_target.
  - intros a b c. apply sort_desc_S6.
Qed.

Lemma run_optimization_descending_witness :
  descending [("B"%string, 3, tt); ("C"%string, 2, tt); ("A"%string, 1, tt)].
Proof.
  exact (proj1 (run_optimization_descending optimize_S6 example_grid _ eq_refl)).
Defined.

(** ** Statistics *)

(** Every statistic but [final_balance] is bound on the branch without a
    frame: once it is bound too, the dict is built. *)
Lemma statistics_without_frame_bound (capital : Q) :
  exists statistics,
    fst ((statistics_without_frame ;;;
          assign "final_balance" (VNum 0) ;;;
          for_each output_names (fun name => read name ;;; ret tt) ;;;
          build_statistics capital statistics_keys) [])
    = Ok statistics.
Proof. eexists. vm_compute. reflexivity. Qed.

(** C10. Without a daily frame [calculate_statistics] returns no statistics
    map: [final_balance] is not assigned on that branch, and reading it
    raises a [NameError]. *)
Theorem calculate_statistics_no_frame {Frame : Type}
    (statistics_of_frame : Frame -> M Locals unit) (capital : Q) (output : bool) :
  calculate_statistics statistics_of_frame capital None None output
  = Raise (NameError "final_balance") /\
  lookup_local "final_balance" (snd (statistics_without_frame [])) = None /\
  (forall statistics,
     calculate_statistics statistics_of_frame capital None None output
     <> Ok statistics).
Proof.
  assert (H : calculate_statistics statistics_of_frame capital None None output
              = Raise (NameError "final_balance")).
  { destruct output; vm_compute; reflexivity. }
  split; [exact H|]. split; [reflexivity|].
  intros statistics H'. rewrite H in H'. discriminate.
Qed.

(** ** Steps of the engine *)

Section Step.
Context {St : Type} (I : St -> Prop) (R : St -> St -> Prop).
Hypothesis R_refl : forall s, R s s.
Hypothesis R_trans : forall s1 s2 s3, R s1 s2 -> R s2 s3 -> R s1 s3.

Lemma step_ret {A} (a : A) : step I R (ret a).
Proof using R_refl. intros s Hs. cbn. auto. Qed.

Lemma step_raise {A} (e : exn) : step I R (@raise St A e).
Proof using R_refl. intros s Hs. cbn. auto. Qed.

Lemma step_get : step I R get.
Proof using R_refl. intros s Hs. cbn. auto. Qed.

Lemma step_gets {A} (f : St -> A) : step I R (gets f).
Proof using R_refl. intros s Hs. cbn. auto. Qed.

Lemma step_lift {A} (o : outcome A) : step I R (lift o).
Proof using R_refl. intros s Hs. cbn. auto. Qed.

Lemma step_modify (f : St -> St) :
  (forall s, I s -> I (f s) /\ R s (f s)) -> step I R (modify f).
Proof using Type. intros H s Hs. cbn. auto. Qed.

Lemma step_bind {A B} (m : M St A) (f : A -> M St B) :
  step I R m -> (forall a, step I R (f a)) -> step I R (bind m f).
Proof using R_trans.
  intros Hm Hf s Hs. unfold bind.
  destruct (Hm s Hs) as [HI HR].
  destruct (m s) as [[a|e] s1]; cbn in *; [|auto].
  destruct (Hf a s1 HI) as [HI' HR']. eauto.
Qed.

Lemma step_when (b : bool) (m : M St unit) :
  step I R m -> step I R (when b m).
Proof using R_refl. destruct b; cbn; [auto | intros _; apply step_ret]. Qed.

Lemma step_for_each {A} (l : list A) (body : A -> M St unit) :
  (forall x, step I R (body x)) -> step I R (for_each l body).
Proof using R_refl R_trans.
  intros H. induction l as [|x l IH]; cbn.
  - apply step_ret.
  - apply step_bind; auto.
Qed.

Lemma step_catch {A} (m h : M St A) (handles : exn -> bool) :
  step I R m -> step I R h -> step I R (catch m handles h).
Proof using R_trans.
  intros Hm Hh s Hs. unfold catch.
  destruct (Hm s Hs) as [HI HR].
  destruct (m s) as [[a|e] s1]; cbn in *; [auto|].
  destruct (handles e); cbn; [|auto].
  destruct (Hh s1 HI) as [HI' HR']. eauto.
Qed.

Lemma step_attempt {A} (m : M St A) : step I R m -> step I R (attempt m).
Proof using Type.
  intros Hm s Hs. unfold attempt.
  destruct (Hm s Hs) as [HI HR].
  destruct (m s) as [o s1]; cbn in *. auto.
Qed.

End Step.

(** The step lemmas, applied to the shape of the computation. *)
Ltac step_tac refl trans :=
  repeat match goal with
    | |- step _ _ (ret _) => apply (step_ret _ _ refl)
    | |- step _ _ (raise _) => apply (step_raise _ _ refl)
    | |- step _ _ get => apply (step_get _ _ refl)
    | |- step _ _ (gets _) => apply (step_gets _ _ refl)
    | |- step _ _ (lift _) => apply (step_lift _ _ refl)
    | |- step _ _ (when _ _) => apply (step_when _ _ refl)
    | |- step _ _ (for_each _ _) => apply (step_for_each _ _ refl trans); intros ?
    | |- step _ _ (catch _ _ _) => apply (step_catch _ _ trans)
    | |- step _ _ (attempt _) => apply (step_attempt _ _)
    | |- step _ _ (bind _ _) => apply (step_bind _ _ trans); [|intros ?]
    | |- step _ _ (if ?b then _ else _) => destruct b
    | |- step _ _ (match ?x with _ => _ end) => destruct x
    end.

Section CallStep.
Context {T : Type} (I : Engine T -> Prop) (R : Engine T -> Engine T -> Prop).
Hypothesis R_refl : forall e, R e e.
Hypothesis R_trans : forall e1 e2 e3, R e1 e2 -> R e2 e3 -> R e1 e3.
Hypothesis H_self_state : forall s, step I R (modify (set_self_state s)).
Hypothesis H_load_bar : forall days_ callback_, step I R (@load_bar T days_ callback_).
Hypothesis H_send_order :
  forall d o p v stop lock, step I R (@send_order T d o p v stop lock).
Hypothesis H_cancel_limit : forall invoke,
  (forall a, step I R (invoke a)) ->
  forall n, step I R (cancel_limit_order invoke n).
Hypothesis H_cancel_stop : forall invoke,
  (forall a, step I R (invoke a)) ->
  forall n, step I R (cancel_stop_order invoke n).

Lemma CtaTemplate_send_order_step d o p v stop lock :
  step I R (@CtaTemplate_send_order T d o p v stop lock).
Proof using R_refl R_trans H_send_order.
  unfold CtaTemplate_send_order. step_tac R_refl R_trans. apply H_send_order.
Qed.

Lemma cancel_order_step invoke vt_orderid :
  (forall a, step I R (invoke a)) -> step I R (cancel_order invoke vt_orderid).
Proof using H_cancel_limit H_cancel_stop.
  intros H. destruct vt_orderid; cbn; auto.
Qed.

Lemma cancel_all_step invoke :
  (forall a, step I R (invoke a)) -> step I R (cancel_all invoke).
Proof using R_refl R_trans H_cancel_limit H_cancel_stop.
  intros H. unfold cancel_all. step_tac R_refl R_trans; auto.
Qed.

Lemma CtaTemplate_load_bar_step days_ callback_ :
  step I R (@CtaTemplate_load_bar T days_ callback_).
Proof using R_refl R_trans H_load_bar.
  unfold CtaTemplate_load_bar. step_tac R_refl R_trans; apply H_load_bar.
Qed.

Lemma call_step (depth : nat) : forall a : Action T, step I R (call depth a).
Proof using All.
  induction depth as [|depth IH]; intros a.
  - cbn. apply step_raise, R_refl.
  - induction a as [|k IHk|s k IHk|k IHk|d o p v stop lock k IHk
                   |vt_orderid k IHk|k IHk|days_ k IHk|days_ callback_ IHc k IHk
                   |days_ k IHk|e].
    + apply step_ret, R_refl.
    + apply (step_bind _ _ R_trans); [apply step_gets, R_refl | intros s; apply IHk].
    + apply (step_bind _ _ R_trans); [apply H_self_state | intros _; apply IHk].
    + apply (step_bind _ _ R_trans); [apply step_gets, R_refl | intros p; apply IHk].
    + apply (step_bind _ _ R_trans);
        [apply CtaTemplate_send_order_step | intros ids; apply IHk].
    + apply (step_bind _ _ R_trans); [|intros _; apply IHk].
      unfold CtaTemplate_cancel_order. step_tac R_refl R_trans.
      now apply cancel_order_step.
    + apply (step_bind _ _ R_trans); [|intros _; apply IHk].
      unfold CtaTemplate_cancel_all. step_tac R_refl R_trans.
      now apply cancel_all_step.
    + apply (step_bind _ _ R_trans);
        [apply CtaTemplate_load_bar_step | intros _; apply IHk].
    + apply (step_bind _ _ R_trans);
        [apply CtaTemplate_load_bar_step | intros _; apply IHk].
    + apply step_raise, R_refl.
    + apply step_raise, R_refl.
Qed.

End CallStep.

(** Projections of updated engine states. *)
Ltac esimpl :=
  cbn [mode pricetick strategy inited trading
       pos self_state tick bar datetime
       days callback history_data stop_order_count stop_orders
       active_stop_orders limit_order_count limit_orders active_limit_orders trade_count
       trades daily_results set_inited set_trading set_pos
       set_self_state set_tick set_bar set_datetime set_days
       set_callback set_stop_order_count set_stop_orders set_active_stop_orders set_limit_order_count
       set_limit_orders set_active_limit_orders set_trade_count set_trades set_daily_results
       orderid direction offset price volume traded status
       snd fst] in *.

(** ** What callbacks leave alone *)

Lemma frame_refl {T} (e : Engine T) : frame e e.
Proof. constructor; reflexivity. Qed.

Lemma frame_trans {T} (e1 e2 e3 : Engine T) : frame e1 e2 -> frame e2 e3 -> frame e1 e3.
Proof. intros [] []. constructor; congruence. Qed.

Ltac frame_modify :=
  match goal with
  | |- step _ _ (modify _) =>
      apply step_modify; intros ? _; split; [exact Logic.I | constructor; reflexivity]
  end.

Ltac frame_step :=
  match goal with
  | |- @step (Engine ?T) _ _ _ _ => step_tac (@frame_refl T) (@frame_trans T)
  end;
  try frame_modify.

Lemma set_self_state_frame {T} (s : T) : step always frame (modify (set_self_state s)).
Proof. frame_modify. Qed.

Lemma load_bar_frame {T} days_ (callback_ : HistoryData -> Action T) :
  step always frame (load_bar days_ callback_).
Proof. unfold load_bar. frame_step. Qed.

Lemma send_order_frame {T} d o p v stop lock :
  step always frame (@send_order T d o p v stop lock).
Proof. unfold send_order, send_stop_order, send_limit_order. frame_step. Qed.

Lemma cancel_limit_order_frame {T} (invoke : Action T -> M (Engine T) unit) :
  (forall a, step always frame (invoke a)) ->
  forall n, step always frame (cancel_limit_order invoke n).
Proof.
  intros H n. unfold cancel_limit_order, limit_order_of, write_limit_order.
  frame_step. apply H.
Qed.

Lemma cancel_stop_order_frame {T} (invoke : Action T -> M (Engine T) unit) :
  (forall a, step always frame (invoke a)) ->
  forall n, step always frame (cancel_stop_order invoke n).
Proof.
  intros H n. unfold cancel_stop_order, stop_order_of, write_stop_order.
  frame_step. apply H.
Qed.

Lemma call_frame_step {T} (depth : nat) (a : Action T) :
  step always frame (call depth a).
Proof.
  apply call_step.
  - apply @frame_refl.
  - apply @frame_trans.
  - apply @set_self_state_frame.
  - apply @load_bar_frame.
  - apply @send_order_frame.
  - apply @cancel_limit_order_frame.
  - apply @cancel_stop_order_frame.
Qed.

Lemma call_frame {T} (depth : nat) (a : Action T) (e e' : Engine T) out :
  call depth a e = (out, e') -> frame e e'.
Proof.
  intros H. pose proof (call_frame_step depth a e Logic.I) as [_ Hf].
  now rewrite H in Hf.
Qed.

(** ** Books *)

Lemma mem_In (n : N) (l : list N) : mem n l = true <-> In n l.
Proof.
  unfold mem. rewrite existsb_exists. split.
  - intros (m & Hm & E). apply N.eqb_eq in E. now subst.
  - intros H. exists n. split; [exact H | apply N.eqb_refl].
Qed.

Lemma mem_not_In (n : N) (l : list N) : mem n l = false <-> ~ In n l.
Proof.
  rewrite <- mem_In. destruct (mem n l); split; intros; congruence.
Qed.

Lemma dict_pop_In (n m : N) (l : list N) : In m (dict_pop n l) <-> In m l /\ m <> n.
Proof.
  unfold dict_pop. rewrite filter_In, negb_true_iff, N.eqb_neq. reflexivity.
Qed.

Lemma dict_pop_NoDup (n : N) (l : list N) :
  List.NoDup l -> List.NoDup (dict_pop n l).
Proof. apply List.NoDup_filter. Qed.

Lemma dict_add_fresh (n : N) (l : list N) : ~ In n l -> dict_add n l = l ++ [n].
Proof. intros H. unfold dict_add. apply mem_not_In in H. now rewrite H. Qed.

Lemma book_wf_fresh {A} (key : A -> N) count store active (n : N) :
  book_wf key count store active -> (count < n)%N ->
  store !! n = None /\ ~ In n active.
Proof.
  intros (Hkeys & Hact & _) Hn.
  assert (Hnone : store !! n = None).
  { destruct (store !! n) as [a|] eqn:E; [|reflexivity].
    apply Hkeys in E as [E _]. lia. }
  split; [exact Hnone|]. intros Hin. apply Hact in Hin as [a Ha]. congruence.
Qed.

Lemma books_wf_fresh_limit {T} (e : Engine T) :
  books_wf e ->
  limit_orders e !! (limit_order_count e + 1)%N = None /\
  ~ In (limit_order_count e + 1)%N (active_limit_orders e).
Proof. intros [H _]. eapply book_wf_fresh; [exact H | lia]. Qed.

Lemma books_wf_fresh_stop {T} (e : Engine T) :
  books_wf e ->
  stop_orders e !! (stop_order_count e + 1)%N = None /\
  ~ In (stop_order_count e + 1)%N (active_stop_orders e).
Proof. intros [_ H]. eapply book_wf_fresh; [exact H | lia]. Qed.

(** ** Order entry *)

Lemma round_to_Ok (value tick_ : Q) :
  Qeqb tick_ 0 = false ->
  round_to value tick_ = Ok (inject_Z (round_half_away (value / tick_)) * tick_).
Proof. intros H. unfold round_to, py_div. now rewrite H. Qed.

Lemma round_to_zero_tick (value tick_ : Q) :
  Qeqb tick_ 0 = true -> round_to value tick_ = Raise ZeroDivisionError.
Proof. intros H. unfold round_to, py_div. now rewrite H. Qed.

Lemma CtaTemplate_send_order_spec {T} (d : Direction) (o : Offset) (e : Engine T)
    (price_ volume_ : Q) (stop lock : bool) :
  books_wf e ->
  order_entry_spec (CtaTemplate_send_order d o) d o e price_ volume_ stop lock.
Proof.
  intros Hwf. unfold order_entry_spec.
  destruct (trading e) eqn:Htr.
  - assert (Hrun : CtaTemplate_send_order d o price_ volume_ stop lock e
                   = send_order d o price_ volume_ stop lock e).
    { unfold CtaTemplate_send_order. mstep. now rewrite Htr. }
    rewrite Hrun.
    assert (Hsend : send_order d o price_ volume_ stop lock e
                    = (price_ <- lift (round_to price_ (pricetick e)) ;;
                       vt_orderid <-
                         (if stop then send_stop_order d o price_ volume_
                          else send_limit_order d o price_ volume_) ;;
                       ret [vt_orderid]) e) by reflexivity.
    rewrite Hsend.
    destruct (Qeqb (pricetick e) 0) eqn:Htick.
    { now rewrite (round_to_zero_tick _ _ Htick). }
    rewrite (round_to_Ok _ _ Htick).
    eexists. split; [reflexivity|].
    rewrite bind_lift_Ok. destruct stop.
    + destruct (books_wf_fresh_stop e Hwf) as [Hnone Hnotin].
      eexists. split; [|split; [lazy [send_stop_order send_limit_order bind gets modify ret]; reflexivity|]].
      * constructor; reflexivity.
      * cbn. repeat split; [exact Hnone | now apply dict_add_fresh].
    + destruct (books_wf_fresh_limit e Hwf) as [Hnone Hnotin].
      eexists. split; [|split; [lazy [send_stop_order send_limit_order bind gets modify ret]; reflexivity|]].
      * constructor; reflexivity.
      * cbn. repeat split; [exact Hnone | now apply dict_add_fresh].
  - unfold CtaTemplate_send_order. mstep. now rewrite Htr.
Qed.

(** With the price tick left at zero an order entry raises and makes no
    order. *)
Lemma order_entry_zero_tick :
  CtaTemplate_buy 10 1 false false engine_zero_tick
  = (Raise ZeroDivisionError, engine_zero_tick).
Proof. reflexivity. Qed.

(** In the body of a callback, [buy] hands the list returned by
    [CtaTemplate.buy] to the rest of the body; likewise for the other
    three. *)
Lemma call_buy {T} (depth : nat) (price_ volume_ : Q) (stop lock : bool)
    (k : list OrderId -> Action T) :
  call (S depth) (buy price_ volume_ stop lock k)
  = (vt_orderids <- CtaTemplate_buy price_ volume_ stop lock ;;
     call (S depth) (k vt_orderids)) /\
  call (S depth) (sell price_ volume_ stop lock k)
  = (vt_orderids <- CtaTemplate_sell price_ volume_ stop lock ;;
     call (S depth) (k vt_orderids)) /\
  call (S depth) (short price_ volume_ stop lock k)
  = (vt_orderids <- CtaTemplate_short price_ volume_ stop lock ;;
     call (S depth) (k vt_orderids)) /\
  call (S depth) (cover price_ volume_ stop lock k)
  = (vt_orderids <- CtaTemplate_cover price_ volume_ stop lock ;;
     call (S depth) (k vt_orderids)).
Proof. repeat split. Qed.

(** C8. [buy], [sell], [short] and [cover] return the empty list and submit
    nothing when the trading flag of the strategy is false; when it is true
    they snap the price with [round_to] and return the list of the
    identifier of the one order added to the corresponding book, with
    direction and offset Long/Open for [buy], Short/Close for [sell],
    Short/Open for [short] and Long/Close for [cover].  With a price tick
    of zero, for which [round_to] has no value, they raise
    [ZeroDivisionError] and add no order. *)
Theorem order_entry {T} (e : Engine T) (price_ volume_ : Q) (stop lock : bool) :
  books_wf e ->
  order_entry_spec CtaTemplate_buy LONG OPEN e price_ volume_ stop lock /\
  order_entry_spec CtaTemplate_sell SHORT CLOSE e price_ volume_ stop lock /\
  order_entry_spec CtaTemplate_short SHORT OPEN e price_ volume_ stop lock /\
  order_entry_spec CtaTemplate_cover LONG CLOSE e price_ volume_ stop lock.
Proof.
  intros Hwf. repeat split; now apply CtaTemplate_send_order_spec.
Qed.

(** ** How callbacks change the books *)

Section Book.
Context {A : Type} (key : A -> N) (cancelled : A -> A) (sent : A -> Prop).

Lemma book_evolves_refl count store active :
  book_evolves cancelled sent count store active count store active.
Proof using Type.
  split; [lia|]. split.
  - intros n a Ha. left. split; [exact Ha | reflexivity].
  - intros n a Hnone Ha. congruence.
Qed.

Lemma book_evolves_trans c1 s1 a1 c2 s2 a2 c3 s3 a3 :
  book_evolves cancelled sent c1 s1 a1 c2 s2 a2 ->
  book_evolves cancelled sent c2 s2 a2 c3 s3 a3 ->
  book_evolves cancelled sent c1 s1 a1 c3 s3 a3.
Proof using Type.
  intros (Hc12 & Hold12 & Hnew12) (Hc23 & Hold23 & Hnew23).
  split; [lia|]. split.
  - intros n a Ha.
    destruct (Hold12 n a Ha) as [[Hs2 Hact2]|(Hs2 & Hin1 & Hnin2)].
    + destruct (Hold23 n a Hs2) as [[Hs3 Hact3]|(Hs3 & Hin2 & Hnin3)].
      * left. split; [exact Hs3 | now rewrite Hact3].
      * right. split; [exact Hs3|]. split; [now apply Hact2 | exact Hnin3].
    + destruct (Hold23 n _ Hs2) as [[Hs3 Hact3]|(Hs3 & Hin2 & Hnin3)].
      * right. split; [exact Hs3|]. split; [exact Hin1|]. now rewrite Hact3.
      * contradiction.
  - intros n a Hnone Ha.
    destruct (s2 !! n) as [a'|] eqn:Hs2.
    + destruct (Hnew12 n a' Hnone Hs2) as [Hlt Hcase]. split; [exact Hlt|].
      destruct (Hold23 n a' Hs2) as [[Hs3 Hact3]|(Hs3 & Hin2 & Hnin3)].
      * assert (a = a') by congruence. subst a'.
        destruct Hcase as [[Hin Hsent]|[Hnin Hc]].
        -- left. split; [now apply Hact3 | exact Hsent].
        -- right. split; [now rewrite Hact3 | exact Hc].
      * assert (a = cancelled a') by congruence. subst a.
        destruct Hcase as [[Hin Hsent]|[Hnin Hc]]; [|contradiction].
        right. split; [exact Hnin3|]. now exists a'.
    + destruct (Hnew23 n a Hs2 Ha) as [Hlt Hcase]. split; [lia | exact Hcase].
Qed.

Lemma book_send count store active (a : A) :
  book_wf key count store active ->
  key a = (count + 1)%N -> sent a ->
  book_wf key (count + 1)%N (<[(count + 1)%N := a]> store)
    (dict_add (count + 1)%N active) /\
  book_evolves cancelled sent count store active
    (count + 1)%N (<[(count + 1)%N := a]> store) (dict_add (count + 1)%N active).
Proof using Type.
  intros Hwf Hkey Hsent.
  destruct (book_wf_fresh key count store active (count + 1)%N Hwf) as [Hnone Hnin];
    [lia|].
  destruct Hwf as (Hkeys & Hact & Hnd).
  rewrite (dict_add_fresh _ _ Hnin).
  split; [split; [|split]|split; [|split]].
  - intros n b Hb. destruct (decide (n = (count + 1)%N)) as [->|Hne].
    + rewrite lookup_insert_eq in Hb. injection Hb as <-. split; [lia | exact Hkey].
    + rewrite lookup_insert_ne in Hb by congruence.
      apply Hkeys in Hb as [Hle Hk]. split; [lia | exact Hk].
  - intros n Hin. apply in_app_or in Hin as [Hin|[<-|[]]].
    + destruct (decide (n = (count + 1)%N)) as [->|Hne]; [contradiction|].
      rewrite lookup_insert_ne by congruence. now apply Hact.
    + rewrite lookup_insert_eq. eauto.
  - apply List.NoDup_app; [exact Hnd | repeat constructor; cbn; tauto |].
    intros n Hin [<-|[]]. contradiction.
  - lia.
  - intros n b Hb. left.
    assert (Hne : n <> (count + 1)%N) by (intros ->; congruence).
    split; [now rewrite lookup_insert_ne by congruence|].
    rewrite in_app_iff. cbn. split; [|tauto].
    intros [Hin|[E|[]]]; [exact Hin | congruence].
  - intros n b Hnone' Hb. destruct (decide (n = (count + 1)%N)) as [->|Hne].
    + rewrite lookup_insert_eq in Hb. injection Hb as <-.
      split; [lia|]. left. split; [|exact Hsent].
      apply in_or_app. right. now left.
    + rewrite lookup_insert_ne in Hb by congruence. congruence.
Qed.

Lemma book_cancel count store active (n : N) (a : A) :
  book_wf key count store active ->
  (forall a, key (cancelled a) = key a) ->
  In n active -> store !! n = Some a ->
  book_wf key count (<[n := cancelled a]> store) (dict_pop n active) /\
  book_evolves cancelled sent count store active
    count (<[n := cancelled a]> store) (dict_pop n active).
Proof using Type.
  intros (Hkeys & Hact & Hnd) Hkey Hin Ha.
  split; [split; [|split]|split; [|split]].
  - intros m b Hb. destruct (decide (m = n)) as [->|Hne].
    + rewrite lookup_insert_eq in Hb. injection Hb as <-.
      rewrite Hkey. now apply Hkeys.
    + rewrite lookup_insert_ne in Hb by congruence. now apply Hkeys.
  - intros m Hm. apply dict_pop_In in Hm as [Hm Hne].
    rewrite lookup_insert_ne by congruence. now apply Hact.
  - now apply dict_pop_NoDup.
  - lia.
  - intros m b Hb. destruct (decide (m = n)) as [->|Hne].
    + right. assert (b = a) by congruence. subst b.
      split; [apply lookup_insert_eq|]. split; [exact Hin|].
      rewrite dict_pop_In. tauto.
    + left. split; [now rewrite lookup_insert_ne by congruence|].
      rewrite dict_pop_In. tauto.
  - intros m b Hnone Hb. destruct (decide (m = n)) as [->|Hne]; [congruence|].
    rewrite lookup_insert_ne in Hb by congruence. congruence.
Qed.

End Book.

Lemma books_evolve_refl {T} (e : Engine T) : books_evolve e e.
Proof. split; apply book_evolves_refl. Qed.

Lemma books_evolve_trans {T} (e1 e2 e3 : Engine T) :
  books_evolve e1 e2 -> books_evolve e2 e3 -> books_evolve e1 e3.
Proof. intros [] []. split; eapply book_evolves_trans; eassumption. Qed.

(** A change outside the books. *)
Lemma books_same {T} (e e' : Engine T) :
  limit_order_count e' = limit_order_count e ->
  limit_orders e' = limit_orders e ->
  active_limit_orders e' = active_limit_orders e ->
  stop_order_count e' = stop_order_count e ->
  stop_orders e' = stop_orders e ->
  active_stop_orders e' = active_stop_orders e ->
  books_wf e -> books_wf e' /\ books_evolve e e'.
Proof.
  unfold books_wf, books_evolve. intros -> -> -> -> -> -> Hwf.
  split; [exact Hwf|]. split; apply book_evolves_refl.
Qed.

Ltac books_modify :=
  match goal with
  | |- step _ _ (modify _) => apply step_modify; intros ? ?; apply books_same; auto
  end.

Ltac books_step :=
  match goal with
  | |- @step (Engine ?T) _ _ _ _ =>
      step_tac (@books_evolve_refl T) (@books_evolve_trans T)
  end;
  try books_modify.

Lemma set_self_state_books {T} (s : T) :
  step books_wf books_evolve (modify (set_self_state s)).
Proof. books_modify. Qed.

Lemma load_bar_books {T} days_ (callback_ : HistoryData -> Action T) :
  step books_wf books_evolve (load_bar days_ callback_).
Proof. unfold load_bar. books_step. Qed.

Lemma send_order_books {T} d o p v stop lock :
  step books_wf books_evolve (@send_order T d o p v stop lock).
Proof.
  intros e [Hl Hs].
  assert (Hsend : send_order d o p v stop lock e
                  = (price_ <- lift (round_to p (pricetick e)) ;;
                     vt_orderid <-
                       (if stop then send_stop_order d o price_ v
                        else send_limit_order d o price_ v) ;;
                     ret [vt_orderid]) e) by reflexivity.
  rewrite Hsend.
  destruct (round_to p (pricetick e)) as [snapped|ex].
  2:{ rewrite bind_lift_Raise. cbn [snd].
      split; [split; assumption | apply books_evolve_refl]. }
  rewrite bind_lift_Ok.
  destruct stop;
    lazy [send_stop_order send_limit_order bind gets modify ret snd];
    unfold books_wf, books_evolve; cbn.
  - destruct (book_send stop_orderid (set_stop_status STOP_CANCELLED)
      (fun s => stop_status s = WAITING) _ _ _
      (mkStopOrder (stop_order_count e + 1) d o snapped v [] WAITING)
      Hs eq_refl eq_refl) as [Hwf' Hev'].
    split; split; auto using book_evolves_refl.
  - destruct (book_send orderid (set_status CANCELLED)
      (fun o => status o = SUBMITTING) _ _ _
      (mkOrder (limit_order_count e + 1) d o snapped v 0
         SUBMITTING (datetime e))
      Hl eq_refl eq_refl) as [Hwf' Hev'].
    split; split; auto using book_evolves_refl.
Qed.

Lemma cancel_limit_order_books {T} (invoke : Action T -> M (Engine T) unit) :
  (forall a, step books_wf books_evolve (invoke a)) ->
  forall n, step books_wf books_evolve (cancel_limit_order invoke n).
Proof.
  intros H n e Hwf. unfold cancel_limit_order, limit_order_of, write_limit_order.
  mstep. destruct (mem n (active_limit_orders e)) eqn:Hmem; cbn [negb].
  2:{ cbn. split; [exact Hwf | apply books_evolve_refl]. }
  mstep. destruct (limit_orders e !! n) as [order|] eqn:Ho.
  2:{ cbn. split; [exact Hwf | apply books_evolve_refl]. }
  mstep.
  match goal with |- context [invoke ?a ?e1] =>
    assert (H1 : books_wf e1 /\ books_evolve e e1) end.
  { destruct Hwf as [Hl Hs]. apply mem_In in Hmem.
    destruct (book_cancel orderid (set_status CANCELLED)
      (fun o => status o = SUBMITTING) _ _ _ n order Hl (fun _ => eq_refl) Hmem Ho)
      as [Hwf' Hev'].
    split; split; cbn; auto using book_evolves_refl. }
  destruct H1 as [Hwf1 Hev1].
  match goal with |- context [invoke ?a ?e1] =>
    destruct (H a e1 Hwf1) as [Hwf2 Hev2] end.
  split; [exact Hwf2 | eapply books_evolve_trans; eassumption].
Qed.

Lemma cancel_stop_order_books {T} (invoke : Action T -> M (Engine T) unit) :
  (forall a, step books_wf books_evolve (invoke a)) ->
  forall n, step books_wf books_evolve (cancel_stop_order invoke n).
Proof.
  intros H n e Hwf. unfold cancel_stop_order, stop_order_of, write_stop_order.
  mstep. destruct (mem n (active_stop_orders e)) eqn:Hmem; cbn [negb].
  2:{ cbn. split; [exact Hwf | apply books_evolve_refl]. }
  mstep. destruct (stop_orders e !! n) as [stop_order|] eqn:Ho.
  2:{ cbn. split; [exact Hwf | apply books_evolve_refl]. }
  mstep.
  match goal with |- context [invoke ?a ?e1] =>
    assert (H1 : books_wf e1 /\ books_evolve e e1) end.
  { destruct Hwf as [Hl Hs]. apply mem_In in Hmem.
    destruct (book_cancel stop_orderid (set_stop_status STOP_CANCELLED)
      (fun s => stop_status s = WAITING) _ _ _ n stop_order Hs (fun _ => eq_refl) Hmem Ho)
      as [Hwf' Hev'].
    split; split; cbn; auto using book_evolves_refl. }
  destruct H1 as [Hwf1 Hev1].
  match goal with |- context [invoke ?a ?e1] =>
    destruct (H a e1 Hwf1) as [Hwf2 Hev2] end.
  split; [exact Hwf2 | eapply books_evolve_trans; eassumption].
Qed.

Lemma call_books_step {T} (depth : nat) (a : Action T) :
  step books_wf books_evolve (call depth a).
Proof.
  apply call_step.
  - apply @books_evolve_refl.
  - apply @books_evolve_trans.
  - apply @set_self_state_books.
  - apply @load_bar_books.
  - apply @send_order_books.
  - apply @cancel_limit_order_books.
  - apply @cancel_stop_order_books.
Qed.

Lemma call_books {T} (depth : nat) (a : Action T) (e e' : Engine T) out :
  books_wf e -> call depth a e = (out, e') -> books_wf e' /\ books_evolve e e'.
Proof.
  intros Hwf H. pose proof (call_books_step depth a e Hwf) as Hs.
  now rewrite H in Hs.
Qed.

(** ** Crossing of limit orders *)

Lemma bind_inv_Ok {St A B} (m : M St A) (f : A -> M St B) s b s' :
  bind m f s = (Ok b, s') ->
  exists a s1, m s = (Ok a, s1) /\ f a s1 = (Ok b, s').
Proof.
  unfold bind. destruct (m s) as [[a|e] s1]; intros H; [eauto | discriminate].
Qed.

Lemma same_order_refl o : same_order o o.
Proof. repeat split. Qed.

Lemma same_order_trans o1 o2 o3 :
  same_order o1 o2 -> same_order o2 o3 -> same_order o1 o3.
Proof. unfold same_order. intuition congruence. Qed.

Lemma same_order_set_status v o : same_order o (set_status v o).
Proof. repeat split. Qed.

Lemma limit_long_cross_same p o o' :
  same_order o o' -> limit_long_cross p o' = limit_long_cross p o.
Proof. intros (_ & Hd & _ & Hp & _). unfold limit_long_cross. now rewrite Hd, Hp. Qed.

Lemma limit_short_cross_same p o o' :
  same_order o o' -> limit_short_cross p o' = limit_short_cross p o.
Proof. intros (_ & Hd & _ & Hp & _). unfold limit_short_cross. now rewrite Hd, Hp. Qed.

Lemma limit_long_cross_iff p o :
  limit_long_cross p o = true <->
  direction o = LONG /\ long_cross_price p <= price o /\ 0 < long_cross_price p.
Proof.
  unfold limit_long_cross. rewrite !andb_true_iff, Qleb_true, Qltb_true.
  destruct (direction o); cbn; intuition congruence.
Qed.

Lemma limit_short_cross_iff p o :
  limit_short_cross p o = true <->
  direction o = SHORT /\ price o <= short_cross_price p /\ 0 < short_cross_price p.
Proof.
  unfold limit_short_cross. rewrite !andb_true_iff, Qleb_true, Qltb_true.
  destruct (direction o); cbn; intuition congruence.
Qed.

(** Writing an attribute of an object of the store keeps the books well
    formed. *)
Lemma write_limit_order_wf {T} (e : Engine T) n o o' :
  books_wf e -> limit_orders e !! n = Some o -> orderid o' = orderid o ->
  books_wf (set_limit_orders (<[n := o']> (limit_orders e)) e).
Proof.
  intros [(Hkeys & Hact & Hnd) Hs] Ho Hid. split; [|exact Hs].
  split; [|split]; cbn.
  - intros m a Ha. destruct (decide (m = n)) as [->|Hne].
    + rewrite lookup_insert_eq in Ha. injection Ha as <-.
      rewrite Hid. now apply Hkeys.
    + rewrite lookup_insert_ne in Ha by congruence. now apply Hkeys.
  - intros m Hm. destruct (decide (m = n)) as [->|Hne].
    + rewrite lookup_insert_eq. eauto.
    + rewrite lookup_insert_ne by congruence. now apply Hact.
  - exact Hnd.
Qed.

(** After the notification part of the loop body the order is no longer
    [SUBMITTING]: it is [NOTTRADED], or [CANCELLED] when the strategy
    cancelled it from [on_order]. *)
Lemma cross_limit_notify_spec {T} (depth : nat) (n : N) (e e1 : Engine T) o out :
  books_wf e -> limit_orders e !! n = Some o ->
  cross_limit_notify (call depth) n e = (out, e1) ->
  books_wf e1 /\ frame e e1 /\
  (limit_order_count e <= limit_order_count e1)%N /\
  (In n (active_limit_orders e1) -> In n (active_limit_orders e)) /\
  exists o1, limit_orders e1 !! n = Some o1 /\ same_order o o1 /\
    (status o = SUBMITTING ->
       (status o1 = NOTTRADED /\
        (In n (active_limit_orders e1) <-> In n (active_limit_orders e))) \/
       (status o1 = CANCELLED /\ ~ In n (active_limit_orders e1))) /\
    (status o <> SUBMITTING -> e1 = e /\ o1 = o).
Proof.
  intros Hwf Ho Hrun. unfold cross_limit_notify, limit_order_of in Hrun.
  revert Hrun. mstep. rewrite Ho. mstep.
  destruct (Status_eqb (status o) SUBMITTING) eqn:Hst.
  - rewrite when_true. unfold write_limit_order. mstep. intros Hrun.
    set (e0 := set_limit_orders (<[n := set_status NOTTRADED o]> (limit_orders e)) e) in *.
    assert (Hwf0 : books_wf e0) by (eapply write_limit_order_wf; eauto).
    destruct (call_books _ _ _ _ _ Hwf0 Hrun) as [Hwf1 [(Hc & Hold & _) _]].
    pose proof (call_frame _ _ _ _ _ Hrun) as Hfr.
    split; [exact Hwf1|]. split.
    { eapply frame_trans; [|exact Hfr]. constructor; reflexivity. }
    split; [exact Hc|].
    destruct (Hold n (set_status NOTTRADED o)) as [[Hs1 Hact]|(Hs1 & Hin & Hnin)].
    { apply lookup_insert_eq. }
    + split; [now apply Hact|].
      exists (set_status NOTTRADED o). split; [exact Hs1|].
      split; [apply same_order_set_status|]. split.
      * intros _. left. split; [reflexivity | exact Hact].
      * intros Hne. destruct (status o); cbn in Hst; congruence.
    + split; [contradiction|].
      exists (set_status CANCELLED (set_status NOTTRADED o)).
      split; [exact Hs1|]. split; [repeat split|]. split.
      * intros _. right. split; [reflexivity | exact Hnin].
      * intros Hne. destruct (status o); cbn in Hst; congruence.
  - rewrite when_false. cbn. intros H. injection H as <- <-.
    split; [exact Hwf|]. split; [apply frame_refl|]. split; [lia|]. split; [tauto|].
    exists o. split; [exact Ho|]. split; [apply same_order_refl|]. split.
    + intros E. rewrite E in Hst. discriminate.
    + auto.
Qed.

Lemma dict_pop_wf {T} (e : Engine T) n :
  books_wf e ->
  books_wf (set_active_limit_orders (dict_pop n (active_limit_orders e)) e).
Proof.
  intros [(Hkeys & Hact & Hnd) Hs]. split; [|exact Hs].
  split; [exact Hkeys|]. split; cbn.
  - intros m Hm. apply dict_pop_In in Hm as [Hm _]. now apply Hact.
  - now apply dict_pop_NoDup.
Qed.

(** The test and the fill: an order that crosses and is still in the book
    is filled in full at the price of the specification. *)
Lemma cross_limit_match_spec {T} (depth : nat) (p : CrossPrices) (n : N)
    (e1 e' : Engine T) o1 :
  books_wf e1 -> limit_orders e1 !! n = Some o1 ->
  cross_limit_match (call depth) p n e1 = (Ok tt, e') ->
  let long_cross := limit_long_cross p o1 in
  let short_cross := limit_short_cross p o1 in
  if long_cross || short_cross then
    let t :=
      mkTrade (trade_count e1 + 1) (orderid o1) (direction o1) (offset o1)
        (if long_cross then py_min (price o1) (long_best_price p)
         else py_max (price o1) (short_best_price p))
        (volume o1) (datetime e1) in
    In n (active_limit_orders e1) /\ books_wf e' /\
    (limit_order_count e1 <= limit_order_count e')%N /\
    trades e' = trades e1 ++ [t] /\
    trade_count e' = (trade_count e1 + 1)%N /\
    pos e' = pos e1 + (if long_cross then volume o1 else - volume o1) /\
    limit_orders e' !! n = Some (set_status ALLTRADED (set_traded (volume o1) o1)) /\
    ~ In n (active_limit_orders e')
  else e' = e1.
Proof.
  intros Hwf Ho1 Hrun long_cross short_cross.
  unfold cross_limit_match, limit_order_of in Hrun. revert Hrun. mstep.
  rewrite Ho1. mstep. fold long_cross short_cross.
  replace (negb long_cross && negb short_cross) with (negb (long_cross || short_cross))
    by (now destruct long_cross, short_cross).
  destruct (long_cross || short_cross); cbn [negb].
  2:{ cbn. intros H. now injection H. }
  unfold write_limit_order. mstep. intros Hrun.
  set (filled := set_status ALLTRADED (set_traded (volume o1) o1)) in *.
  set (e1a := set_limit_orders (<[n := filled]> (limit_orders e1)) e1) in *.
  assert (Hwf1a : books_wf e1a) by (eapply write_limit_order_wf; eauto).
  apply bind_inv_Ok in Hrun as ([] & e2 & Hcall & Hrun).
  destruct (call_books _ _ _ _ _ Hwf1a Hcall) as [Hwf2 [(Hc2 & Hold & _) _]].
  pose proof (call_frame _ _ _ _ _ Hcall) as Hfr2.
  unfold pop_active_limit_order in Hrun. revert Hrun. mstep.
  destruct (mem n (active_limit_orders e2)) eqn:Hmem; [|discriminate].
  apply mem_In in Hmem. mstep. intros Hrun.
  destruct (Hold n filled) as [[Hs2 Hact2]|(_ & _ & Hnin)];
    [apply lookup_insert_eq | | contradiction].
  match type of Hrun with call _ _ ?e3' = _ => set (e3 := e3') in * end.
  assert (Hwf3 : books_wf e3).
  { destruct (dict_pop_wf e2 n Hwf2) as [Hl Hs]. split; assumption. }
  destruct (call_books _ _ _ _ _ Hwf3 Hrun) as [Hwf4 [(Hc4 & Hold4 & _) _]].
  pose proof (call_frame _ _ _ _ _ Hrun) as Hfr4.
  destruct Hfr2 as [? ? Hstrat2 ? ? Hpos2 ? ? Hdt2 ? Htc2 Htr2 ?].
  destruct Hfr4 as [? ? ? ? ? Hpos4 ? ? ? ? Htc4 Htr4 ?].
  assert (Hnin3 : ~ In n (active_limit_orders e3)).
  { cbn. rewrite dict_pop_In. tauto. }
  destruct (Hold4 n filled) as [[Hs4 Hact4]|(_ & Hin3 & _)];
    [exact Hs2 | | contradiction].
  split; [now apply Hact2|]. split; [exact Hwf4|].
  split; [subst e3 e1a; esimpl; lia|].
  split; [rewrite Htr4; cbn; now rewrite Htr2, Htc2, Hdt2|].
  split; [rewrite Htc4; cbn; now rewrite Htc2|].
  split; [rewrite Hpos4; cbn; now rewrite Hpos2|].
  split; [exact Hs4|]. now rewrite Hact4.
Qed.

Lemma books_wf_new_engine {T} mode_ pricetick_ (s : Strategy T) init history :
  books_wf (new_engine mode_ pricetick_ s init history).
Proof.
  split; (split; [|split]); cbn.
  - intros n a H. rewrite lookup_empty in H. discriminate.
  - intros n [].
  - constructor.
  - intros n a H. rewrite lookup_empty in H. discriminate.
  - intros n [].
  - constructor.
Qed.

Lemma books_wf_trading_engine {T} (s : Strategy T) init :
  books_wf (trading_engine s init).
Proof. exact (books_wf_new_engine BAR 1 s init []). Qed.

Lemma books_wf_after {T} (body : Action T) (e : Engine T) :
  books_wf e -> books_wf (after body e).
Proof.
  intros Hwf. unfold after.
  destruct (call 2 body e) as [out e'] eqn:H.
  now destruct (call_books _ _ _ _ _ Hwf H).
Qed.

Lemma limit_cross_prices_bar {T} (e : Engine T) b :
  mode e = BAR -> bar e = Some b ->
  limit_cross_prices e
  = (Ok (mkCrossPrices (low_price b) (high_price b) (open_price b) (open_price b)), e).
Proof.
  intros Hm Hb. unfold limit_cross_prices, current_bar. mstep.
  rewrite Hm. mstep. now rewrite Hb.
Qed.

Lemma limit_cross_prices_tick {T} (e : Engine T) t :
  mode e = TICK -> tick e = Some t ->
  limit_cross_prices e
  = (Ok (mkCrossPrices (ask_price_1 t) (bid_price_1 t) (ask_price_1 t) (bid_price_1 t)), e).
Proof.
  intros Hm Ht. unfold limit_cross_prices, current_tick. mstep.
  rewrite Hm. mstep. now rewrite Ht.
Qed.

(** C1. An active limit order scanned on a data point fills if and only if
    it crosses: a Long order when its price is at least the long-cross
    reference and that reference is positive, a Short order symmetrically.
    The reference is [bar.low] (Long) and [bar.high] (Short) in bar mode,
    [ask_1] and [bid_1] in tick mode.  The fill is a trade of the whole
    volume at [min(order.price, long_best)] for Long and
    [max(order.price, short_best)] for Short, so a Long fill is at most the
    order price and a Short fill at least the order price. *)
Theorem limit_order_fill {T} (depth : nat) (p : CrossPrices) (n : N)
    (e e' : Engine T) (o : OrderData) :
  books_wf e -> In n (active_limit_orders e) -> limit_orders e !! n = Some o ->
  cross_limit_one (call depth) p n e = (Ok tt, e') ->
  let long_cross := limit_long_cross p o in
  let short_cross := limit_short_cross p o in
  (long_cross = true <->
   direction o = LONG /\ long_cross_price p <= price o /\ 0 < long_cross_price p) /\
  (short_cross = true <->
   direction o = SHORT /\ price o <= short_cross_price p /\ 0 < short_cross_price p) /\
  (if long_cross || short_cross then
     exists t o',
       trades e' = trades e ++ [t] /\
       trade_orderid t = orderid o /\ trade_direction t = direction o /\
       trade_offset t = offset o /\ trade_volume t = volume o /\
       trade_price t =
         (if long_cross then py_min (price o) (long_best_price p)
          else py_max (price o) (short_best_price p)) /\
       (direction o = LONG -> trade_price t <= price o) /\
       (direction o = SHORT -> price o <= trade_price t) /\
       pos e' = pos e + (if long_cross then volume o else - volume o) /\
       limit_orders e' !! n = Some o' /\
       status o' = ALLTRADED /\ traded o' = volume o /\
       ~ In n (active_limit_orders e')
   else trades e' = trades e /\ pos e' = pos e) /\
  (forall (e0 : Engine T) b, mode e0 = BAR -> bar e0 = Some b ->
     limit_cross_prices e0
     = (Ok (mkCrossPrices (low_price b) (high_price b) (open_price b) (open_price b)),
        e0)) /\
  (forall (e0 : Engine T) t, mode e0 = TICK -> tick e0 = Some t ->
     limit_cross_prices e0
     = (Ok (mkCrossPrices (ask_price_1 t) (bid_price_1 t)
              (ask_price_1 t) (bid_price_1 t)), e0)).
Proof.
  intros Hwf Hin Ho Hrun long_cross short_cross.
  split; [apply limit_long_cross_iff|]. split; [apply limit_short_cross_iff|].
  split; [|split; [apply @limit_cross_prices_bar | apply @limit_cross_prices_tick]].
  unfold cross_limit_one in Hrun.
  apply bind_inv_Ok in Hrun as ([] & e1 & Hnotify & Hmatch).
  destruct (cross_limit_notify_spec _ _ _ _ _ _ Hwf Ho Hnotify)
    as (Hwf1 & Hfr1 & _ & _ & o1 & Ho1 & Hsame & _).
  pose proof (cross_limit_match_spec _ _ _ _ _ _ Hwf1 Ho1 Hmatch) as H.
  cbn zeta in H.
  rewrite (limit_long_cross_same p o o1 Hsame) in H.
  rewrite (limit_short_cross_same p o o1 Hsame) in H.
  fold long_cross short_cross in H.
  destruct Hfr1 as [? ? ? ? ? Hpos1 ? ? ? ? ? Htr1 ?].
  destruct Hsame as (Hid & Hd & Hoff & Hp & Hv).
  destruct (long_cross || short_cross) eqn:Hcross.
  - destruct H as (_ & _ & _ & Htr & _ & Hpos & Hs & Hnin).
    eexists. eexists. split; [rewrite Htr, Htr1; reflexivity|].
    cbn [trade_orderid trade_direction trade_offset trade_volume trade_price].
    rewrite Hid, Hd, Hoff, Hp, Hv in *.
    repeat split; try reflexivity.
    + intros Hlong. destruct long_cross eqn:Hl; [apply py_min_le_l|].
      cbn in Hcross. apply limit_short_cross_iff in Hcross as [Hshort _]. congruence.
    + intros Hshort. destruct long_cross eqn:Hl; [|apply py_max_ge_l].
      apply limit_long_cross_iff in Hl as [Hlong _]. congruence.
    + now rewrite Hpos, Hpos1.
    + exact Hs.
    + reflexivity.
    + reflexivity.
    + exact Hnin.
  - subst e'. split; assumption.
Qed.

Lemma limit_order_fill_witness :
  exists t,
    trades (snd (cross_limit_one (call 3) prices_S2 1 engine_S2)) = [t] /\
    trade_price t = py_min 10 8.
Proof.
  destruct (limit_order_fill 3 prices_S2 1 engine_S2
              (snd (cross_limit_one (call 3) prices_S2 1 engine_S2)) order_S2)
    as (_ & _ & H & _).
  - apply books_wf_after, books_wf_trading_engine.
  - vm_compute. left. reflexivity.
  - vm_compute. reflexivity.
  - vm_compute. reflexivity.
  - change (limit_long_cross prices_S2 order_S2 || limit_short_cross prices_S2 order_S2)
      with true in H.
    destruct H as (t & o' & Htr & _ & _ & _ & _ & Hp & _).
    exists t. split; [exact Htr | exact Hp].
Defined.

(** ** Crossing of stop orders *)

Lemma book_write {A} (key : A -> N) count store active (n : N) (a a' : A) :
  book_wf key count store active -> store !! n = Some a -> key a' = key a ->
  book_wf key count (<[n := a']> store) active.
Proof.
  intros (Hkeys & Hact & Hnd) Ha Hkey. split; [|split].
  - intros m b Hb. destruct (decide (m = n)) as [->|Hne].
    + rewrite lookup_insert_eq in Hb. injection Hb as <-.
      rewrite Hkey. now apply Hkeys.
    + rewrite lookup_insert_ne in Hb by congruence. now apply Hkeys.
  - intros m Hm. destruct (decide (m = n)) as [->|Hne].
    + rewrite lookup_insert_eq. eauto.
    + rewrite lookup_insert_ne by congruence. now apply Hact.
  - exact Hnd.
Qed.

Lemma book_pop {A} (key : A -> N) count store active (n : N) :
  book_wf key count store active ->
  book_wf key count store (dict_pop n active).
Proof.
  intros (Hkeys & Hact & Hnd). split; [exact Hkeys|]. split.
  - intros m Hm. apply dict_pop_In in Hm as [Hm _]. now apply Hact.
  - now apply dict_pop_NoDup.
Qed.

Lemma book_new {A} (key : A -> N) count store active (a : A) :
  book_wf key count store active -> key a = (count + 1)%N ->
  book_wf key (count + 1)%N (<[(count + 1)%N := a]> store) active.
Proof.
  intros Hwf Hkey.
  destruct (book_wf_fresh key count store active (count + 1)%N Hwf) as [Hnone Hnin];
    [lia|].
  destruct Hwf as (Hkeys & Hact & Hnd). split; [|split].
  - intros m b Hb. destruct (decide (m = (count + 1)%N)) as [->|Hne].
    + rewrite lookup_insert_eq in Hb. injection Hb as <-. split; [lia | exact Hkey].
    + rewrite lookup_insert_ne in Hb by congruence.
      apply Hkeys in Hb as [Hle Hk]. split; [lia | exact Hk].
  - intros m Hm. destruct (decide (m = (count + 1)%N)) as [->|Hne]; [contradiction|].
    rewrite lookup_insert_ne by congruence. now apply Hact.
  - exact Hnd.
Qed.

Lemma stop_long_cross_iff p so :
  stop_long_cross p so = true <->
  stop_direction so = LONG /\ stop_price so <= long_cross_price p.
Proof.
  unfold stop_long_cross. rewrite andb_true_iff, Qleb_true.
  destruct (stop_direction so); cbn; intuition congruence.
Qed.

Lemma stop_short_cross_iff p so :
  stop_short_cross p so = true <->
  stop_direction so = SHORT /\ short_cross_price p <= stop_price so.
Proof.
  unfold stop_short_cross. rewrite andb_true_iff, Qleb_true.
  destruct (stop_direction so); cbn; intuition congruence.
Qed.

Lemma stop_cross_prices_bar {T} (e : Engine T) b :
  mode e = BAR -> bar e = Some b ->
  stop_cross_prices e
  = (Ok (mkCrossPrices (high_price b) (low_price b) (open_price b) (open_price b)), e).
Proof.
  intros Hm Hb. unfold stop_cross_prices, current_bar. mstep.
  rewrite Hm. mstep. now rewrite Hb.
Qed.

Lemma stop_cross_prices_tick {T} (e : Engine T) t :
  mode e = TICK -> tick e = Some t ->
  stop_cross_prices e
  = (Ok (mkCrossPrices (last_price t) (last_price t) (last_price t) (last_price t)), e).
Proof.
  intros Hm Ht. unfold stop_cross_prices, current_tick. mstep.
  rewrite Hm. mstep. now rewrite Ht.
Qed.

(** The loop body of [cross_stop_order] on a stop order that triggers. *)
Lemma cross_stop_one_spec {T} (depth : nat) (p : CrossPrices) (n : N)
    (e e' : Engine T) so :
  books_wf e -> stop_orders e !! n = Some so ->
  cross_stop_one (call depth) p n e = (Ok tt, e') ->
  let long_cross := stop_long_cross p so in
  let short_cross := stop_short_cross p so in
  if long_cross || short_cross then
    let m := (limit_order_count e + 1)%N in
    let order :=
      mkOrder m (stop_direction so) (stop_offset so) (stop_price so)
        (stop_volume so) 0 ALLTRADED (datetime e) in
    let t :=
      mkTrade (trade_count e + 1) m (stop_direction so) (stop_offset so)
        (if long_cross then py_max (stop_price so) (long_best_price p)
         else py_min (stop_price so) (short_best_price p))
        (stop_volume so) (datetime e) in
    books_wf e' /\
    (m <= limit_order_count e')%N /\
    limit_orders e !! m = None /\
    limit_orders e' !! m = Some order /\
    ~ In m (active_limit_orders e') /\
    trades e' = trades e ++ [t] /\
    trade_count e' = (trade_count e + 1)%N /\
    pos e' = pos e + (if long_cross then stop_volume so else - stop_volume so) /\
    stop_orders e' !! n
    = Some (set_stop_status TRIGGERED (set_vt_orderids (vt_orderids so ++ [m]) so)) /\
    ~ In n (active_stop_orders e')
  else e' = e.
Proof.
  intros Hwf Hso Hrun long_cross short_cross.
  unfold cross_stop_one, stop_order_of in Hrun. revert Hrun. mstep.
  rewrite Hso. mstep. fold long_cross short_cross.
  replace (negb long_cross && negb short_cross) with (negb (long_cross || short_cross))
    by (now destruct long_cross, short_cross).
  destruct (long_cross || short_cross); cbn [negb].
  2:{ cbn. intros H. now injection H. }
  unfold write_limit_order, write_stop_order. mstep. esimpl.
  intros Hrun.
  destruct (books_wf_fresh_limit e Hwf) as [Hfresh Hninm].
  set (m := (limit_order_count e + 1)%N) in *.
  set (order := mkOrder m (stop_direction so) (stop_offset so) (stop_price so)
                  (stop_volume so) 0 ALLTRADED (datetime e)) in *.
  set (so' := set_stop_status TRIGGERED (set_vt_orderids (vt_orderids so ++ [m]) so)) in *.
  apply bind_inv_Ok in Hrun as ([] & e4 & Hcall1 & Hrun).
  apply bind_inv_Ok in Hrun as ([] & e5 & Hcall2 & Hrun).
  revert Hrun. mstep. intros Hcall3. esimpl.
  match type of Hcall1 with call _ _ ?e3' = _ => set (e3 := e3') in * end.
  assert (Hwf3 : books_wf e3 /\ limit_orders e3 !! m = Some order /\
                 ~ In m (active_limit_orders e3) /\
                 stop_orders e3 !! n = Some so' /\
                 ~ In n (active_stop_orders e3) /\
                 trades e3 = trades e ++
                   [mkTrade (trade_count e + 1) m (stop_direction so) (stop_offset so)
                      (if long_cross then py_max (stop_price so) (long_best_price p)
                       else py_min (stop_price so) (short_best_price p))
                      (stop_volume so) (datetime e)] /\
                 trade_count e3 = (trade_count e + 1)%N /\ pos e3 = pos e).
  { destruct Hwf as [Hl Hs].
    assert (Hnin : ~ In n (dict_pop n (active_stop_orders e))).
    { rewrite dict_pop_In. tauto. }
    assert (Hl' : book_wf orderid m (<[m := order]> (limit_orders e))
                    (active_limit_orders e)) by now apply book_new.
    assert (Hs' : book_wf stop_orderid (stop_order_count e)
                    (<[n := so']> (stop_orders e)) (active_stop_orders e))
      by (eapply book_write; eauto).
    subst e3. destruct (mem n (active_stop_orders e)) eqn:Hmem; esimpl.
    - split; [split; [exact Hl' | now apply book_pop]|].
      rewrite !lookup_insert_eq. auto 10.
    - apply mem_not_In in Hmem.
      split; [split; [exact Hl' | exact Hs']|].
      rewrite !lookup_insert_eq. auto 10. }
  destruct Hwf3 as (Hwf3 & Hm3 & Hnm3 & Hs3 & Hn3 & Htr3 & Htc3 & Hpos3).
  destruct (call_books _ _ _ _ _ Hwf3 Hcall1) as [Hwf4 [(Hc4 & Hl4 & _) (_ & Hs4 & _)]].
  destruct (call_books _ _ _ _ _ Hwf4 Hcall2) as [Hwf5 [(Hc5 & Hl5 & _) (_ & Hs5 & _)]].
  match type of Hcall3 with call _ _ ?e6' = _ => set (e6 := e6') in * end.
  assert (Hwf6 : books_wf e6) by (destruct Hwf5; split; assumption).
  destruct (call_books _ _ _ _ _ Hwf6 Hcall3) as [Hwf7 [(Hc7 & Hl7 & _) (_ & Hs7 & _)]].
  destruct (call_frame _ _ _ _ _ Hcall1) as [? ? ? ? ? Hpos4 ? ? ? ? Htc4 Htr4 ?].
  destruct (call_frame _ _ _ _ _ Hcall2) as [? ? ? ? ? Hpos5 ? ? ? ? Htc5 Htr5 ?].
  destruct (call_frame _ _ _ _ _ Hcall3) as [? ? ? ? ? Hpos7 ? ? ? ? Htc7 Htr7 ?].
  destruct (Hl4 m order Hm3) as [[Hm4 Ha4]|(_ & Hin & _)]; [|contradiction].
  destruct (Hl5 m order Hm4) as [[Hm5 Ha5]|(_ & Hin & _)]; [|tauto].
  destruct (Hl7 m order Hm5) as [[Hm7 Ha7]|(_ & Hin & _)]; [|cbn in Hin; tauto].
  destruct (Hs4 n so' Hs3) as [[Hn4 Hb4]|(_ & Hin & _)]; [|contradiction].
  destruct (Hs5 n so' Hn4) as [[Hn5 Hb5]|(_ & Hin & _)]; [|tauto].
  destruct (Hs7 n so' Hn5) as [[Hn7 Hb7]|(_ & Hin & _)]; [|cbn in Hin; tauto].
  split; [exact Hwf7|].
  split; [assert (limit_order_count e3 = m) by (subst e3;
            destruct (mem n (active_stop_orders e)); reflexivity);
          subst e6; esimpl; lia|].
  split; [exact Hfresh|]. split; [exact Hm7|].
  split; [cbn in Ha7; tauto|].
  split; [rewrite Htr7; cbn; now rewrite Htr5, Htr4|].
  split; [rewrite Htc7; cbn; now rewrite Htc5, Htc4|].
  split; [rewrite Hpos7; cbn; now rewrite Hpos5, Hpos4, Hpos3|].
  split; [exact Hn7|]. cbn in Hb7. tauto.
Qed.

(** C2. An active stop order scanned on a data point triggers if and only if
    it crosses: a Long stop when its price is at most the long-cross
    reference, a Short stop when its price is at least the short-cross
    reference ([bar.high] and [bar.low] in bar mode, [last_price] in tick
    mode).  On trigger the engine makes an order with a fresh identifier and
    status AllTraded, emits a trade at [max(stop.price, long_best)] for Long
    and [min(stop.price, short_best)] for Short, marks the stop order
    Triggered and removes it from the active stop book. *)
Theorem stop_order_trigger {T} (depth : nat) (p : CrossPrices) (n : N)
    (e e' : Engine T) (so : StopOrder) :
  books_wf e -> In n (active_stop_orders e) -> stop_orders e !! n = Some so ->
  cross_stop_one (call depth) p n e = (Ok tt, e') ->
  let long_cross := stop_long_cross p so in
  let short_cross := stop_short_cross p so in
  (long_cross = true <->
   stop_direction so = LONG /\ stop_price so <= long_cross_price p) /\
  (short_cross = true <->
   stop_direction so = SHORT /\ short_cross_price p <= stop_price so) /\
  (if long_cross || short_cross then
     let m := (limit_order_count e + 1)%N in
     exists order t so',
       limit_orders e !! m = None /\
       limit_orders e' !! m = Some order /\
       orderid order = m /\ status order = ALLTRADED /\
       direction order = stop_direction so /\ offset order = stop_offset so /\
       price order = stop_price so /\ volume order = stop_volume so /\
       trades e' = trades e ++ [t] /\
       trade_orderid t = m /\ trade_direction t = stop_direction so /\
       trade_offset t = stop_offset so /\ trade_volume t = stop_volume so /\
       trade_price t =
         (if long_cross then py_max (stop_price so) (long_best_price p)
          else py_min (stop_price so) (short_best_price p)) /\
       (stop_direction so = LONG -> stop_price so <= trade_price t) /\
       (stop_direction so = SHORT -> trade_price t <= stop_price so) /\
       pos e' = pos e + (if long_cross then stop_volume so else - stop_volume so) /\
       stop_orders e' !! n = Some so' /\
       stop_status so' = TRIGGERED /\ vt_orderids so' = vt_orderids so ++ [m] /\
       ~ In n (active_stop_orders e')
   else e' = e) /\
  (forall (e0 : Engine T) b, mode e0 = BAR -> bar e0 = Some b ->
     stop_cross_prices e0
     = (Ok (mkCrossPrices (high_price b) (low_price b) (open_price b) (open_price b)),
        e0)) /\
  (forall (e0 : Engine T) t, mode e0 = TICK -> tick e0 = Some t ->
     stop_cross_prices e0
     = (Ok (mkCrossPrices (last_price t) (last_price t)
              (last_price t) (last_price t)), e0)).
Proof.
  intros Hwf Hin Hso Hrun long_cross short_cross.
  split; [apply stop_long_cross_iff|]. split; [apply stop_short_cross_iff|].
  split; [|split; [apply @stop_cross_prices_bar | apply @stop_cross_prices_tick]].
  pose proof (cross_stop_one_spec _ _ _ _ _ _ Hwf Hso Hrun) as H.
  cbn zeta in H. fold long_cross short_cross in H.
  destruct (long_cross || short_cross) eqn:Hcross; [|exact H].
  destruct H as (_ & _ & Hfresh & Hm & _ & Htr & _ & Hpos & Hn & Hnin).
  eexists. eexists. eexists.
  split; [exact Hfresh|]. split; [exact Hm|].
  do 6 (split; [reflexivity|]).
  split; [exact Htr|]. do 5 (split; [reflexivity|]).
  cbn [trade_price].
  split; [|split; [|split; [exact Hpos|split; [exact Hn|repeat split; exact Hnin]]]].
  - intros Hlong. destruct long_cross eqn:Hl; [apply py_max_ge_l|].
    cbn in Hcross. apply stop_short_cross_iff in Hcross as [Hshort _]. congruence.
  - intros Hshort. destruct long_cross eqn:Hl; [|apply py_min_le_l].
    apply stop_long_cross_iff in Hl as [Hlong _]. congruence.
Qed.

Lemma stop_order_trigger_witness :
  exists t,
    trades (snd (cross_stop_one (call 3) prices_S3 1 engine_S3)) = [t] /\
    trade_price t = py_max 11 11.
Proof.
  destruct (stop_order_trigger 3 prices_S3 1 engine_S3
              (snd (cross_stop_one (call 3) prices_S3 1 engine_S3)) stop_order_S3)
    as (_ & _ & H & _).
  - apply books_wf_after, books_wf_trading_engine.
  - vm_compute. left. reflexivity.
  - vm_compute. reflexivity.
  - vm_compute. reflexivity.
  - change (stop_long_cross prices_S3 stop_order_S3
            || stop_short_cross prices_S3 stop_order_S3) with true in H.
    destruct H as (order & t & so' & _ & _ & _ & _ & _ & _ & _ & _ & Htr &
                   _ & _ & _ & _ & Hp & _).
    exists t. split; [exact Htr | exact Hp].
Defined.

(** ** Status transitions of limit orders *)

Lemma cancel_limit_order_spec {T} (depth : nat) (n : N) (e e' : Engine T) o out :
  books_wf e -> In n (active_limit_orders e) -> limit_orders e !! n = Some o ->
  cancel_limit_order (call depth) n e = (out, e') ->
  books_wf e' /\
  limit_orders e' !! n = Some (set_status CANCELLED o) /\
  ~ In n (active_limit_orders e').
Proof.
  intros Hwf Hin Ho Hrun.
  unfold cancel_limit_order, limit_order_of, write_limit_order in Hrun.
  revert Hrun. mstep. apply mem_In in Hin. rewrite Hin. cbn [negb]. mstep.
  rewrite Ho. mstep. esimpl. intros Hrun.
  match type of Hrun with call _ _ ?e1' = _ => set (e1 := e1') in * end.
  assert (Hwf1 : books_wf e1).
  { destruct Hwf as [Hl Hs]. split; [|exact Hs]. subst e1. esimpl.
    eapply book_pop, book_write; eauto. }
  destruct (call_books _ _ _ _ _ Hwf1 Hrun) as [Hwf' [(_ & Hold & _) _]].
  split; [exact Hwf'|].
  destruct (Hold n (set_status CANCELLED o)) as [[Hs' Hact]|(_ & Hin1 & _)].
  - subst e1. esimpl. apply lookup_insert_eq.
  - split; [exact Hs'|]. rewrite Hact. subst e1. esimpl.
    rewrite dict_pop_In. tauto.
  - subst e1. esimpl. apply dict_pop_In in Hin1. tauto.
Qed.

(** C7, as stated, fails: an order that is cancelled before the next data
    point goes from Submitting to Cancelled. *)
Lemma cancel_from_submitting :
  ~ only_from_nottraded (cancel_limit_order (call 2) 1) 1 engine_S2.
Proof.
  intros H.
  specialize (H order_S2 (set_status CANCELLED order_S2)).
  assert (E : status order_S2 = NOTTRADED).
  { apply H.
    - vm_compute. reflexivity.
    - vm_compute. reflexivity.
    - discriminate.
    - right. reflexivity. }
  discriminate E.
Qed.

(** The slip that the amended C7 leaves out: when the [on_order] callback of
    the NotTraded notification cancels the order and the order crosses, the
    loop body sets AllTraded over Cancelled and [pop] raises [KeyError]
    ([cross_stop_order] tests the membership before it goes on). *)
Lemma cross_limit_cancelled_in_callback :
  exists e' o',
    cross_limit_one (call 3) prices_S2 1 engine_cancelling = (Raise KeyError, e') /\
    limit_orders e' !! 1%N = Some o' /\ status o' = ALLTRADED.
Proof. eexists. eexists. vm_compute. repeat split. Qed.

(** C7 (amended). For an order in the active book, Submitting or NotTraded:
    [cross_limit_order] moves it from Submitting to NotTraded before it
    tests it, so that in every iteration, however it ends, the order is
    NotTraded, or Cancelled by the strategy from [on_order], when the fill
    is tested, never Submitting; in an iteration that returns the order is
    filled only from NotTraded; [cancel_limit_order] sets it to Cancelled
    whatever its status, so an order cancelled before its first scan goes
    from Submitting directly to Cancelled. *)
Theorem limit_order_status_steps {T} (depth : nat) (p : CrossPrices) (n : N)
    (e : Engine T) (o : OrderData) :
  books_wf e -> In n (active_limit_orders e) -> limit_orders e !! n = Some o ->
  status o = SUBMITTING \/ status o = NOTTRADED ->
  (forall out e', cross_limit_one (call depth) p n e = (out, e') ->
     exists out1 e1 o1,
       cross_limit_notify (call depth) n e = (out1, e1) /\
       limit_orders e1 !! n = Some o1 /\
       (status o1 = NOTTRADED \/ status o1 = CANCELLED) /\
       match out1 with
       | Ok _ => cross_limit_match (call depth) p n e1 = (out, e')
       | Raise ex => out = Raise ex /\ e' = e1
       end) /\
  (forall e', cross_limit_one (call depth) p n e = (Ok tt, e') ->
     exists e1 o1,
       cross_limit_notify (call depth) n e = (Ok tt, e1) /\
       cross_limit_match (call depth) p n e1 = (Ok tt, e') /\
       limit_orders e1 !! n = Some o1 /\
       if limit_long_cross p o || limit_short_cross p o
       then status o1 = NOTTRADED /\
            exists o', limit_orders e' !! n = Some o' /\ status o' = ALLTRADED
       else (status o1 = NOTTRADED \/ status o1 = CANCELLED) /\ e' = e1) /\
  (forall out e', cancel_limit_order (call depth) n e = (out, e') ->
     exists o', limit_orders e' !! n = Some o' /\ status o' = CANCELLED /\
       same_order o o' /\ ~ In n (active_limit_orders e')).
Proof.
  intros Hwf Hin Ho Hpending. split; [|split].
  - intros out e' Hrun. unfold cross_limit_one in Hrun.
    destruct (cross_limit_notify (call depth) n e) as [out1 e1] eqn:Hnotify.
    destruct (cross_limit_notify_spec _ _ _ _ _ _ Hwf Ho Hnotify)
      as (_ & _ & _ & _ & o1 & Ho1 & _ & Hsub & Hnot).
    exists out1, e1, o1. split; [reflexivity|]. split; [exact Ho1|]. split.
    + destruct Hpending as [Hs|Hs].
      * destruct (Hsub Hs) as [[H1 _]|[H1 _]]; auto.
      * destruct Hnot as [_ ->]; [congruence|]. left. exact Hs.
    + unfold bind in Hrun. rewrite Hnotify in Hrun.
      destruct out1 as [[]|ex]; [exact Hrun|].
      injection Hrun as <- <-. split; reflexivity.
  - intros e' Hrun. unfold cross_limit_one in Hrun.
    apply bind_inv_Ok in Hrun as ([] & e1 & Hnotify & Hmatch).
    destruct (cross_limit_notify_spec _ _ _ _ _ _ Hwf Ho Hnotify)
      as (Hwf1 & _ & _ & _ & o1 & Ho1 & Hsame & Hsub & Hnot).
    exists e1, o1. split; [exact Hnotify|]. split; [exact Hmatch|].
    split; [exact Ho1|].
    assert (Hst : (status o1 = NOTTRADED /\
                   (In n (active_limit_orders e1) -> status o1 = NOTTRADED)) \/
                  (status o1 = CANCELLED /\ ~ In n (active_limit_orders e1))).
    { destruct Hpending as [Hs|Hs].
      - destruct (Hsub Hs) as [[H1 _]|[H1 H2]]; [left | right]; auto.
      - destruct Hnot as [_ ->]; [congruence|]. left. auto. }
    pose proof (cross_limit_match_spec _ _ _ _ _ _ Hwf1 Ho1 Hmatch) as H.
    cbn zeta in H.
    rewrite (limit_long_cross_same p o o1 Hsame) in H.
    rewrite (limit_short_cross_same p o o1 Hsame) in H.
    destruct (limit_long_cross p o || limit_short_cross p o).
    + destruct H as (Hin1 & _ & _ & _ & _ & _ & Hs' & _).
      split; [destruct Hst as [[? _]|[_ ?]]; [assumption | contradiction]|].
      eexists. split; [exact Hs' | reflexivity].
    + split; [|exact H]. destruct Hst as [[? _]|[? _]]; auto.
  - intros out e' Hrun.
    destruct (cancel_limit_order_spec _ _ _ _ _ _ Hwf Hin Ho Hrun) as (_ & Hs & Hnin).
    eexists. split; [exact Hs|]. split; [reflexivity|].
    split; [apply same_order_set_status | exact Hnin].
Qed.

Lemma limit_order_status_steps_witness :
  exists o',
    limit_orders (snd (cross_limit_one (call 3) prices_S2 1 engine_S2)) !! 1%N = Some o' /\
    status o' = ALLTRADED.
Proof.
  destruct (limit_order_status_steps 3 prices_S2 1 engine_S2 order_S2) as (_ & H & _).
  - apply books_wf_after, books_wf_trading_engine.
  - vm_compute. left. reflexivity.
  - vm_compute. reflexivity.
  - left. reflexivity.
  - destruct (H (snd (cross_limit_one (call 3) prices_S2 1 engine_S2)))
      as (e1 & o1 & _ & _ & _ & H').
    + vm_compute. reflexivity.
    + change (limit_long_cross prices_S2 order_S2
              || limit_short_cross prices_S2 order_S2) with true in H'.
      exact (proj2 H').
Defined.

(** ** The order of the steps on a data point *)

Section OkStep.
Context {St : Type} (I : St -> Prop) (R : St -> St -> Prop).
Hypothesis R_refl : forall s, R s s.
Hypothesis R_trans : forall s1 s2 s3, R s1 s2 -> R s2 s3 -> R s1 s3.

Lemma ok_step_ret {A} (a : A) : ok_step I R (ret a).
Proof using R_refl. intros s b s' Hs H. injection H as _ <-. auto. Qed.

Lemma ok_step_bind {A B} (m : M St A) (f : A -> M St B) :
  ok_step I R m -> (forall a, ok_step I R (f a)) -> ok_step I R (bind m f).
Proof using R_trans.
  intros Hm Hf s b s' Hs H.
  apply bind_inv_Ok in H as (a & s1 & H1 & H2).
  destruct (Hm _ _ _ Hs H1) as [HI HR].
  destruct (Hf a _ _ _ HI H2) as [HI' HR']. eauto.
Qed.

Lemma ok_step_for_each {A} (l : list A) (body : A -> M St unit) :
  (forall x, ok_step I R (body x)) -> ok_step I R (for_each l body).
Proof using R_refl R_trans.
  intros H. induction l as [|x l IH]; cbn.
  - apply ok_step_ret.
  - apply ok_step_bind; auto.
Qed.

End OkStep.

Lemma sum_signed_volume_app (l1 l2 : list TradeData) (init : Q) :
  sum_signed_volume (l1 ++ l2) init
  = sum_signed_volume l2 (sum_signed_volume l1 init).
Proof. unfold sum_signed_volume. apply fold_left_app. Qed.

Lemma ledger_refl {T} P (e : Engine T) : ledger P e e.
Proof.
  split; [lia|]. exists []. rewrite app_nil_r. repeat split. constructor.
Qed.

Lemma ledger_trans {T} P (e1 e2 e3 : Engine T) :
  ledger P e1 e2 -> ledger P e2 e3 -> ledger P e1 e3.
Proof.
  intros (Hc1 & f1 & Ht1 & Hp1 & HP1) (Hc2 & f2 & Ht2 & Hp2 & HP2).
  split; [lia|]. exists (f1 ++ f2).
  rewrite Ht2, Ht1, Hp2, Hp1, sum_signed_volume_app, app_assoc.
  repeat split. apply Forall_app. auto.
Qed.

Lemma ledger_weaken {T} (P P' : TradeData -> Prop) (e e' : Engine T) :
  (forall t, P t -> P' t) -> ledger P e e' -> ledger P' e e'.
Proof.
  intros H (Hc & f & Ht & Hp & HP). split; [exact Hc|]. exists f.
  repeat split; try assumption. eapply List.Forall_impl; eauto.
Qed.

(** A callback neither trades nor takes back a sequence number. *)
Lemma call_ledger {T} P (depth : nat) (a : Action T) (e e' : Engine T) out :
  books_wf e -> call depth a e = (out, e') -> ledger P e e'.
Proof.
  intros Hwf H.
  destruct (call_books _ _ _ _ _ Hwf H) as [_ [(Hc & _) _]].
  destruct (call_frame _ _ _ _ _ H) as [? ? ? ? ? Hpos ? ? ? ? ? Htr ?].
  split; [exact Hc|]. exists []. rewrite app_nil_r. repeat split; auto.
Qed.

Lemma cross_limit_one_ledger {T} (depth : nat) (p : CrossPrices) (n : N) :
  ok_step books_wf (@ledger T (fun t => trade_orderid t = n))
    (cross_limit_one (call depth) p n).
Proof.
  intros e [] e' Hwf Hrun.
  destruct (limit_orders e !! n) as [o|] eqn:Ho.
  2:{ unfold cross_limit_one, cross_limit_notify, limit_order_of in Hrun.
      revert Hrun. mstep. rewrite Ho. mstep. discriminate. }
  unfold cross_limit_one in Hrun.
  apply bind_inv_Ok in Hrun as ([] & e1 & Hnotify & Hmatch).
  destruct (cross_limit_notify_spec _ _ _ _ _ _ Hwf Ho Hnotify)
    as (Hwf1 & Hfr1 & Hc1 & _ & o1 & Ho1 & Hsame & _).
  pose proof (cross_limit_match_spec _ _ _ _ _ _ Hwf1 Ho1 Hmatch) as H.
  cbn zeta in H.
  destruct Hfr1 as [? ? ? ? ? Hpos1 ? ? ? ? ? Htr1 ?].
  destruct (limit_long_cross p o1 || limit_short_cross p o1) eqn:Hcross.
  - destruct H as (_ & Hwf' & Hc' & Htr & _ & Hpos & _ & _).
    split; [exact Hwf'|]. split; [lia|].
    eexists. split; [rewrite Htr, Htr1; reflexivity|]. split.
    + rewrite Hpos, Hpos1. unfold sum_signed_volume, signed_volume. cbn.
      destruct (limit_long_cross p o1) eqn:Hl.
      * apply limit_long_cross_iff in Hl as [-> _]. reflexivity.
      * cbn in Hcross. apply limit_short_cross_iff in Hcross as [-> _]. reflexivity.
    + constructor; [|constructor]. cbn.
      destruct Hwf1 as [(Hkeys & _) _]. now apply Hkeys in Ho1.
  - subst e'. split; [exact Hwf1|]. split; [exact Hc1|].
    exists []. rewrite app_nil_r. repeat split; auto.
Qed.

Lemma ok_step_for_each_In {St A} (I : St -> Prop) (R : St -> St -> Prop)
    (l : list A) (body : A -> M St unit) :
  (forall s, R s s) -> (forall s1 s2 s3, R s1 s2 -> R s2 s3 -> R s1 s3) ->
  (forall x, In x l -> ok_step I R (body x)) -> ok_step I R (for_each l body).
Proof.
  intros Hrefl Htrans. induction l as [|x l IH]; intros H; cbn.
  - now apply ok_step_ret.
  - apply ok_step_bind; [exact Htrans | apply H; now left |].
    intros _. apply IH. intros y Hy. apply H. now right.
Qed.

Lemma limit_cross_prices_state {T} (e e' : Engine T) out :
  limit_cross_prices e = (out, e') -> e' = e.
Proof.
  unfold limit_cross_prices, current_bar, current_tick. mstep.
  destruct (mode e); mstep; [destruct (bar e) | destruct (tick e)];
    cbn; intros H; now injection H.
Qed.

Lemma stop_cross_prices_state {T} (e e' : Engine T) out :
  stop_cross_prices e = (out, e') -> e' = e.
Proof.
  unfold stop_cross_prices, current_bar, current_tick. mstep.
  destruct (mode e); mstep; [destruct (bar e) | destruct (tick e)];
    cbn; intros H; now injection H.
Qed.

(** The fills of [cross_limit_order] are fills of orders of the book. *)
Lemma cross_limit_order_ledger {T} (depth : nat) (e e1 : Engine T) :
  books_wf e -> cross_limit_order (call depth) e = (Ok tt, e1) ->
  books_wf e1 /\
  ledger (fun t => In (trade_orderid t) (active_limit_orders e)) e e1.
Proof.
  intros Hwf Hrun. unfold cross_limit_order in Hrun.
  apply bind_inv_Ok in Hrun as (p & e0 & Hp & Hrun).
  apply limit_cross_prices_state in Hp. subst e0.
  revert Hrun. mstep. intros Hrun.
  eapply (ok_step_for_each_In books_wf); [| | |exact Hwf|exact Hrun].
  - apply ledger_refl.
  - apply ledger_trans.
  - intros n Hn s [] s' Hs Hone.
    destruct (cross_limit_one_ledger depth p n s tt s' Hs Hone) as [Hwf' Hl].
    split; [exact Hwf'|]. eapply ledger_weaken; [|exact Hl].
    cbn. intros t ->. exact Hn.
Qed.

Lemma cross_stop_one_ledger {T} (depth : nat) (p : CrossPrices) (n c0 : N) :
  ok_step (fun e : Engine T => books_wf e /\ (c0 <= limit_order_count e)%N)
    (ledger (fun t => (c0 < trade_orderid t)%N))
    (cross_stop_one (call depth) p n).
Proof.
  intros e [] e' [Hwf Hc0] Hrun.
  destruct (stop_orders e !! n) as [so|] eqn:Hso.
  2:{ unfold cross_stop_one, stop_order_of in Hrun.
      revert Hrun. mstep. rewrite Hso. mstep. discriminate. }
  pose proof (cross_stop_one_spec _ _ _ _ _ _ Hwf Hso Hrun) as H.
  cbn zeta in H.
  destruct (stop_long_cross p so || stop_short_cross p so) eqn:Hcross.
  - destruct H as (Hwf' & Hc' & _ & _ & _ & Htr & _ & Hpos & _ & _).
    split; [split; [exact Hwf' | lia]|]. split; [lia|].
    eexists. split; [exact Htr|]. split.
    + rewrite Hpos. unfold sum_signed_volume, signed_volume. cbn.
      destruct (stop_long_cross p so) eqn:Hl.
      * apply stop_long_cross_iff in Hl as [-> _]. reflexivity.
      * cbn in Hcross. apply stop_short_cross_iff in Hcross as [-> _]. reflexivity.
    + constructor; [|constructor]. cbn. lia.
  - subst e'. split; [split; assumption|]. apply ledger_refl.
Qed.

(** The fills of [cross_stop_order] are fills of orders made during the
    scan. *)
Lemma cross_stop_order_ledger {T} (depth : nat) (e e2 : Engine T) :
  books_wf e -> cross_stop_order (call depth) e = (Ok tt, e2) ->
  books_wf e2 /\
  ledger (fun t => (limit_order_count e < trade_orderid t)%N) e e2.
Proof.
  intros Hwf Hrun. unfold cross_stop_order in Hrun.
  apply bind_inv_Ok in Hrun as (p & e0 & Hp & Hrun).
  apply stop_cross_prices_state in Hp. subst e0.
  revert Hrun. mstep. intros Hrun.
  destruct (ok_step_for_each_In
              (fun e0 : Engine T => books_wf e0 /\ (limit_order_count e <= limit_order_count e0)%N)
              (ledger (fun t => (limit_order_count e < trade_orderid t)%N))
              (active_stop_orders e) (cross_stop_one (call depth) p)
              (ledger_refl _) (ledger_trans _)
              (fun n _ => cross_stop_one_ledger depth p n (limit_order_count e))
              e tt e2 (conj Hwf (N.le_refl _)) Hrun) as [[Hwf2 _] Hl].
  split; assumption.
Qed.

Lemma bar_callback_frame {T} (depth : nat) (b : BarData) :
  step always (@frame T) (bar_callback (call depth) b).
Proof. unfold bar_callback. frame_step; apply call_frame_step. Qed.

Lemma bar_callback_books {T} (depth : nat) (b : BarData) :
  step books_wf (@books_evolve T) (bar_callback (call depth) b).
Proof. unfold bar_callback. books_step; apply call_books_step. Qed.

Lemma update_daily_close_spec {T} (price_ : Q) (e e' : Engine T) out :
  update_daily_close price_ e = (out, e') ->
  trades e' = trades e /\ pos e' = pos e /\
  (books_wf e -> books_wf e').
Proof.
  unfold update_daily_close. mstep.
  destruct (datetime e); cbn; intros H; injection H as _ <-; auto.
Qed.

(** The steps of [new_bar] and [new_tick], after the datum has been stored
    by [setup], with the strategy callback [cb]. *)
Lemma data_point_steps {T} (depth : nat) (setup : Engine T -> Engine T)
    (cb : M (Engine T) unit) (close : Q) (e e' : Engine T) :
  books_wf e ->
  (forall e, limit_order_count (setup e) = limit_order_count e /\
             limit_orders (setup e) = limit_orders e /\
             active_limit_orders (setup e) = active_limit_orders e /\
             stop_order_count (setup e) = stop_order_count e /\
             stop_orders (setup e) = stop_orders e /\
             active_stop_orders (setup e) = active_stop_orders e /\
             trades (setup e) = trades e /\ pos (setup e) = pos e) ->
  step always frame cb ->
  (modify setup ;;;
   cross_limit_order (call depth) ;;;
   cross_stop_order (call depth) ;;;
   cb ;;;
   update_daily_close close) e = (Ok tt, e') ->
  exists e1 e2 e3 limit_fills stop_fills,
    cross_limit_order (call depth) (setup e) = (Ok tt, e1) /\
    cross_stop_order (call depth) e1 = (Ok tt, e2) /\
    cb e2 = (Ok tt, e3) /\
    update_daily_close close e3 = (Ok tt, e') /\
    trades e1 = trades e ++ limit_fills /\
    Forall (fun t => In (trade_orderid t) (active_limit_orders e)) limit_fills /\
    trades e2 = trades e1 ++ stop_fills /\
    Forall (fun t => (limit_order_count e1 < trade_orderid t)%N) stop_fills /\
    pos e2 = sum_signed_volume (limit_fills ++ stop_fills) (pos e) /\
    pos e3 = pos e2 /\ trades e3 = trades e2 /\
    pos e' = pos e2 /\ trades e' = trades e2.
Proof.
  intros Hwf Hsetup Hcb. mstep. intros Hrun.
  destruct (Hsetup e) as (Hs1 & Hs2 & Hs3 & Hs4 & Hs5 & Hs6 & Hs7 & Hs8).
  assert (Hwf0 : books_wf (setup e)) by (eapply books_same; eauto).
  apply bind_inv_Ok in Hrun as ([] & e1 & Hlimit & Hrun).
  apply bind_inv_Ok in Hrun as ([] & e2 & Hstop & Hrun).
  apply bind_inv_Ok in Hrun as ([] & e3 & Hcall & Hclose).
  destruct (cross_limit_order_ledger _ _ _ Hwf0 Hlimit)
    as (Hwf1 & _ & f1 & Ht1 & Hp1 & HP1).
  destruct (cross_stop_order_ledger _ _ _ Hwf1 Hstop)
    as (Hwf2 & _ & f2 & Ht2 & Hp2 & HP2).
  pose proof (Hcb e2 Logic.I) as [_ Hfr]. rewrite Hcall in Hfr. cbn in Hfr.
  destruct Hfr as [? ? ? ? ? Hpos3 ? ? ? ? ? Htr3 ?].
  destruct (update_daily_close_spec _ _ _ _ Hclose) as (Htr4 & Hpos4 & _).
  exists e1, e2, e3, f1, f2.
  rewrite Hs3 in HP1. rewrite Hs7 in Ht1. rewrite Hs8 in Hp1.
  repeat split; try assumption.
  - rewrite sum_signed_volume_app, <- Hp1. exact Hp2.
  - congruence.
  - congruence.
Qed.



Lemma order_entry_witness :
  order_entry_spec CtaTemplate_buy LONG OPEN (trading_engine idle_strategy tt)
    10 1 false false.
Proof.
  exact (proj1 (order_entry (trading_engine idle_strategy tt) 10 1 false false
                  (books_wf_trading_engine idle_strategy tt))).
Defined.

(** ** The warm-up *)

Lemma quiet_refl {T} (e : Engine T) : quiet e e.
Proof. constructor; reflexivity. Qed.

Lemma quiet_trans {T} (e1 e2 e3 : Engine T) : quiet e1 e2 -> quiet e2 e3 -> quiet e1 e3.
Proof. intros [] []. constructor; congruence. Qed.

Ltac quiet_modify :=
  match goal with
  | |- step _ _ (modify _) =>
      apply step_modify; intros ? Hq; split; [exact Hq | constructor; reflexivity]
  end.

Ltac quiet_step :=
  match goal with
  | |- @step (Engine ?T) _ _ _ _ => step_tac (@quiet_refl T) (@quiet_trans T)
  end;
  try quiet_modify.

(** While the trading flag is false [CtaTemplate] submits and cancels
    nothing. *)
Lemma CtaTemplate_send_order_quiet {T} d o p v stop lock :
  step not_trading quiet (@CtaTemplate_send_order T d o p v stop lock).
Proof.
  intros e Hq. unfold CtaTemplate_send_order. mstep. rewrite Hq. cbn.
  split; [exact Hq | apply quiet_refl].
Qed.

Lemma CtaTemplate_cancel_order_quiet {T} (invoke : Action T -> M (Engine T) unit) id :
  step not_trading quiet (CtaTemplate_cancel_order invoke id).
Proof.
  intros e Hq. unfold CtaTemplate_cancel_order. mstep. rewrite Hq. cbn.
  split; [exact Hq | apply quiet_refl].
Qed.

Lemma CtaTemplate_cancel_all_quiet {T} (invoke : Action T -> M (Engine T) unit) :
  step not_trading quiet (CtaTemplate_cancel_all invoke).
Proof.
  intros e Hq. unfold CtaTemplate_cancel_all. mstep. rewrite Hq. cbn.
  split; [exact Hq | apply quiet_refl].
Qed.

Lemma call_quiet_step {T} (depth : nat) : forall a : Action T,
  step not_trading quiet (call depth a).
Proof.
  induction depth as [|depth IH]; intros a.
  - cbn. quiet_step.
  - induction a; cbn [call]; quiet_step; auto.
    + apply CtaTemplate_send_order_quiet.
    + apply CtaTemplate_cancel_order_quiet.
    + apply CtaTemplate_cancel_all_quiet.
    + unfold CtaTemplate_load_bar, load_bar. quiet_step.
    + unfold CtaTemplate_load_bar, load_bar. quiet_step.
Qed.

(** During the warm-up no order is matched: the callback recorded by
    [load_bar] is the only thing that runs, with the trading flag false, and
    the books, the ledger, the position and the daily results stay as they
    are. *)
Lemma warm_up_quiet {T} (depth : nat) (history : list HistoryData) :
  forall ix last_ix day_count,
    step not_trading (@quiet T) (warm_up (call depth) history ix last_ix day_count).
Proof.
  induction history as [|data history IH]; intros ix last_ix day_count; cbn [warm_up].
  - quiet_step.
  - quiet_step; try apply call_quiet_step; apply IH.
Qed.

(** C5, at a failing input.  The two bars are dated 2020-01-15 and
    2020-02-15: their dates differ, their days of the month do not.  With
    one day of warm-up asked for, [run_backtesting] sees no day boundary and
    hands both bars to the warm-up callback; on bars one day apart it hands
    over the first only. *)
Lemma warm_up_same_day_of_month :
  let run history :=
    run_backtesting 5 (new_engine BAR 1 counting_strategy 0%nat history) in
  map (fun d => date_of (data_datetime d)) history_month_apart
  = [(2020, 1, 15); (2020, 2, 15)]%Z /\
  fst (run history_month_apart) = Ok tt /\
  self_state (snd (run history_month_apart)) = 2%nat /\
  self_state (snd (run history_day_apart)) = 1%nat.
Proof. vm_compute. repeat split. Qed.

(** ** The invariant of the run *)

Section Triple.
Context {St : Type}.

Lemma triple_conseq {A} (P P' : St -> Prop) (m : M St A)
    (Q Q' : A -> St -> Prop) (E E' : St -> Prop) :
  triple P m Q E ->
  (forall s, P' s -> P s) -> (forall a s, Q a s -> Q' a s) ->
  (forall s, E s -> E' s) ->
  triple P' m Q' E'.
Proof.
  intros H HP HQ HE s Hs. specialize (H s (HP s Hs)).
  destruct (m s) as [[a|e] s']; auto.
Qed.

Lemma triple_ret {A} (P : St -> Prop) (a : A) (Q : A -> St -> Prop) E :
  (forall s, P s -> Q a s) -> triple P (ret a) Q E.
Proof. intros H s Hs. cbn. auto. Qed.

Lemma triple_raise {A} (P : St -> Prop) (e : exn) (Q : A -> St -> Prop) (E : St -> Prop) :
  (forall s, P s -> E s) -> triple P (raise e) Q E.
Proof. intros H s Hs. cbn. auto. Qed.

Lemma triple_gets {A} (P : St -> Prop) (f : St -> A) E :
  triple P (gets f) (fun a s => P s /\ a = f s) E.
Proof. intros s Hs. cbn. auto. Qed.

Lemma triple_get (P : St -> Prop) E :
  triple P get (fun a s => P s /\ a = s) E.
Proof. intros s Hs. cbn. auto. Qed.

Lemma triple_modify (P : St -> Prop) (f : St -> St) (Q : unit -> St -> Prop) E :
  (forall s, P s -> Q tt (f s)) -> triple P (modify f) Q E.
Proof. intros H s Hs. cbn. auto. Qed.

Lemma triple_bind {A B} (P : St -> Prop) (m : M St A) (f : A -> M St B)
    (Q' : A -> St -> Prop) (Q : B -> St -> Prop) (E : St -> Prop) :
  triple P m Q' E -> (forall a, triple (Q' a) (f a) Q E) ->
  triple P (bind m f) Q E.
Proof.
  intros Hm Hf s Hs. unfold bind. specialize (Hm s Hs).
  destruct (m s) as [[a|e] s1]; [|exact Hm]. exact (Hf a s1 Hm).
Qed.

Lemma triple_for_each {A} (I E : St -> Prop) (l : list A) (body : A -> M St unit) :
  (forall x, In x l -> triple I (body x) (fun _ => I) E) ->
  triple I (for_each l body) (fun _ => I) E.
Proof.
  induction l as [|x l IH]; intros H; cbn [for_each].
  - apply triple_ret. auto.
  - eapply triple_bind; [apply H; now left|].
    intros ?. apply IH. intros y Hy. apply H. now right.
Qed.

Lemma triple_catch {A} (P E1 E : St -> Prop) (m h : M St A)
    (handles : exn -> bool) (Q : A -> St -> Prop) :
  triple P m Q E1 -> triple E1 h Q E -> (forall s, E1 s -> E s) ->
  triple P (catch m handles h) Q E.
Proof.
  intros Hm Hh HE s Hs. unfold catch. specialize (Hm s Hs).
  destruct (m s) as [[a|e] s1]; [exact Hm|].
  destruct (handles e); [exact (Hh s1 Hm) | auto].
Qed.

Lemma triple_attempt {A} (P E E' : St -> Prop) (m : M St A) (Q : A -> St -> Prop) :
  triple P m Q E ->
  triple P (attempt m)
    (fun o s => match o with Ok a => Q a s | Raise _ => E s end) E'.
Proof.
  intros Hm s Hs. unfold attempt. specialize (Hm s Hs).
  destruct (m s) as [[a|e] s1]; exact Hm.
Qed.

Lemma triple_of_step {A} (I : St -> Prop) (R : St -> St -> Prop) (m : M St A) :
  step I R m -> triple I m (fun _ => I) I.
Proof.
  intros H s Hs. destruct (H s Hs) as [HI _].
  destruct (m s) as [[a|e] s1]; exact HI.
Qed.

End Triple.

Lemma evolve_pending {T} (x : option N) (e e' : Engine T) :
  books_evolve e e' -> active_pending x e -> active_pending x e'.
Proof.
  intros [(_ & Hold & Hnew) _] Hp n o' Hin Hx Ho'.
  destruct (limit_orders e !! n) as [o|] eqn:Ho.
  - destruct (Hold n o Ho) as [[Hs Hact]|(_ & _ & Hnin)]; [|contradiction].
    assert (o' = o) by congruence. subst o'.
    apply (Hp n o); [now apply Hact | exact Hx | exact Ho].
  - destruct (Hnew n o' Ho Ho') as [_ [[_ Hsent]|[Hnin _]]]; [|contradiction].
    left. exact Hsent.
Qed.

Lemma call_inv {T} (x : option N) (E : Engine T -> Prop) (depth : nat) (a : Action T) :
  (forall e, engine_inv x e -> E e) ->
  triple (engine_inv x) (call depth a) (fun _ => engine_inv x) E.
Proof.
  intros HE e [Hwf Hp].
  destruct (call_books_step depth a e Hwf) as [Hwf' Hev].
  destruct (call depth a e) as [[[]|ex] e']; cbn in *; [|apply HE];
    (split; [exact Hwf' | eapply evolve_pending; eassumption]).
Qed.

Lemma engine_inv_weaken {T} (x : option N) (e : Engine T) :
  engine_inv None e -> engine_inv x e.
Proof.
  intros [Hwf Hp]. split; [exact Hwf|].
  intros n o Hin _ Ho. apply (Hp n o); [exact Hin | discriminate | exact Ho].
Qed.

Lemma limit_order_of_triple {T} (P E : Engine T -> Prop) (n : N) :
  (forall e, P e -> E e) ->
  triple P (limit_order_of n) (fun o e => P e /\ limit_orders e !! n = Some o) E.
Proof.
  intros HE e He. unfold limit_order_of. mstep.
  destruct (limit_orders e !! n) eqn:Ho; cbn; auto.
Qed.

Lemma stop_order_of_triple {T} (P E : Engine T -> Prop) (n : N) :
  (forall e, P e -> E e) ->
  triple P (stop_order_of n) (fun so e => P e /\ stop_orders e !! n = Some so) E.
Proof.
  intros HE e He. unfold stop_order_of. mstep.
  destruct (stop_orders e !! n) eqn:Ho; cbn; auto.
Qed.

(** Writing a status to the order [n] keeps the invariant when the new
    status waits, or when [n] is the order let off. *)
Lemma write_status_inv {T} (x : option N) (n : N) (o o' : OrderData) (e : Engine T) :
  engine_inv None e -> limit_orders e !! n = Some o -> orderid o' = orderid o ->
  pending o' \/ x = Some n ->
  engine_inv x (set_limit_orders (<[n := o']> (limit_orders e)) e).
Proof.
  intros [Hwf Hp] Ho Hid Hcase. split; [eapply write_limit_order_wf; eauto|].
  intros m a Hin Hx Ha. esimpl.
  destruct (decide (m = n)) as [->|Hne].
  - rewrite lookup_insert_eq in Ha. injection Ha as <-.
    destruct Hcase as [H|H]; [exact H | congruence].
  - rewrite lookup_insert_ne in Ha by congruence.
    apply (Hp m a); [exact Hin | discriminate | exact Ha].
Qed.

Lemma cross_limit_notify_inv {T} (depth : nat) (n : N) :
  triple (@engine_inv T None) (cross_limit_notify (call depth) n)
    (fun _ => engine_inv None) (engine_inv None).
Proof.
  unfold cross_limit_notify.
  eapply triple_bind; [apply limit_order_of_triple; auto|]. intros o.
  destruct (Status_eqb (status o) SUBMITTING); cbn [when].
  - unfold write_limit_order.
    eapply triple_bind with (Q' := fun _ => engine_inv None).
    + apply triple_modify. intros e [Hinv Ho].
      eapply write_status_inv; eauto. left. right. reflexivity.
    + intros ?. eapply triple_bind; [apply triple_gets|]. intros s.
      intros e [He _]. revert e He. apply call_inv. auto.
  - apply triple_ret. tauto.
Qed.

Lemma books_wf_of_inv {T} (x : option N) (e : Engine T) : engine_inv x e -> books_wf e.
Proof. intros [H _]. exact H. Qed.

Lemma cross_limit_match_inv {T} (depth : nat) (p : CrossPrices) (n : N) :
  triple (@engine_inv T None) (cross_limit_match (call depth) p n)
    (fun _ => engine_inv None) books_wf.
Proof.
  unfold cross_limit_match.
  eapply triple_bind; [apply limit_order_of_triple, books_wf_of_inv|].
  intros o. cbn beta.
  destruct (negb (limit_long_cross p o) && negb (limit_short_cross p o)).
  { apply triple_ret. tauto. }
  unfold write_limit_order, pop_active_limit_order.
  eapply triple_bind with (Q' := fun _ => engine_inv (Some n)).
  { apply triple_modify. intros e [Hinv Ho].
    eapply write_status_inv; eauto. }
  intros ?. eapply triple_bind; [apply triple_gets|]. intros s.
  eapply triple_bind with (Q' := fun _ => engine_inv (Some n)).
  { intros e [He _]. revert e He. apply call_inv, books_wf_of_inv. }
  intros ?. eapply triple_bind with (Q' := fun _ => engine_inv None).
  { eapply triple_bind; [apply triple_get|]. intros e0. cbn beta.
    destruct (mem n (active_limit_orders e0)).
    - apply triple_modify. intros e [[Hwf Hp] ->].
      split; [now apply dict_pop_wf|].
      intros m o0 Hin _ Ho0. esimpl. apply dict_pop_In in Hin as [Hin Hne].
      apply (Hp m o0); [exact Hin | congruence | exact Ho0].
    - apply triple_raise. intros e [[Hwf _] _]. exact Hwf. }
  intros ?. eapply triple_bind with (Q' := fun _ => engine_inv None).
  { apply triple_modify. intros e H. exact H. }
  intros ?. eapply triple_bind; [apply triple_get|]. intros e0. cbn beta.
  eapply triple_bind with (Q' := fun _ => engine_inv None).
  { apply triple_modify. intros e [H _]. exact H. }
  intros ?. eapply triple_bind with (Q' := fun _ => engine_inv None).
  { apply triple_modify. intros e H. exact H. }
  intros ?. apply call_inv, books_wf_of_inv.
Qed.


Lemma cross_limit_one_inv {T} (depth : nat) (p : CrossPrices) (n : N) :
  triple (@engine_inv T None) (cross_limit_one (call depth) p n)
    (fun _ => engine_inv None) books_wf.
Proof.
  unfold cross_limit_one.
  eapply triple_bind with (Q' := fun _ => engine_inv None).
  - eapply triple_conseq; [apply cross_limit_notify_inv | | |]; cbn; auto.
    apply books_wf_of_inv.
  - intros ?. apply cross_limit_match_inv.
Qed.

Lemma limit_cross_prices_triple {T} (P E : Engine T -> Prop) :
  (forall e, P e -> E e) ->
  triple P limit_cross_prices (fun _ => P) E.
Proof.
  intros HE e He. destruct (limit_cross_prices e) as [[p|ex] e'] eqn:H;
    apply limit_cross_prices_state in H; subst e'; auto.
Qed.

Lemma stop_cross_prices_triple {T} (P E : Engine T -> Prop) :
  (forall e, P e -> E e) ->
  triple P stop_cross_prices (fun _ => P) E.
Proof.
  intros HE e He. destruct (stop_cross_prices e) as [[p|ex] e'] eqn:H;
    apply stop_cross_prices_state in H; subst e'; auto.
Qed.

Lemma cross_limit_order_inv {T} (depth : nat) :
  triple (@engine_inv T None) (cross_limit_order (call depth))
    (fun _ => engine_inv None) books_wf.
Proof.
  unfold cross_limit_order.
  eapply triple_bind; [apply limit_cross_prices_triple, books_wf_of_inv|].
  intros p. eapply triple_bind; [apply triple_gets|]. intros snapshot.
  eapply triple_conseq with (P := engine_inv None) (E := books_wf);
    [apply triple_for_each; intros n _; apply cross_limit_one_inv | ..]; cbn; tauto.
Qed.

(** A change outside the limit book and the store of the stop orders. *)
Lemma engine_inv_same {T} (x : option N) (e e' : Engine T) :
  limit_order_count e' = limit_order_count e ->
  limit_orders e' = limit_orders e ->
  active_limit_orders e' = active_limit_orders e ->
  stop_order_count e' = stop_order_count e ->
  stop_orders e' = stop_orders e ->
  active_stop_orders e' = active_stop_orders e ->
  engine_inv x e -> engine_inv x e'.
Proof.
  intros H1 H2 H3 H4 H5 H6 [Hwf Hp].
  split; [eapply books_same; eauto|].
  unfold active_pending. rewrite H2, H3. exact Hp.
Qed.

Lemma cross_stop_one_inv {T} (depth : nat) (p : CrossPrices) (n : N) :
  triple (@engine_inv T None) (cross_stop_one (call depth) p n)
    (fun _ => engine_inv None) books_wf.
Proof.
  unfold cross_stop_one.
  eapply triple_bind; [apply stop_order_of_triple, books_wf_of_inv|].
  intros so. cbn beta.
  destruct (negb (stop_long_cross p so) && negb (stop_short_cross p so)).
  { apply triple_ret. tauto. }
  unfold write_limit_order, write_stop_order.
  eapply triple_bind with
    (Q' := fun _ e => exists e0, engine_inv None e0 /\ stop_orders e0 !! n = Some so /\
                       e = set_limit_order_count (limit_order_count e0 + 1) e0).
  { apply triple_modify. intros e [He Hso]. eauto. }
  intros ?. eapply triple_bind; [apply triple_get|]. intros e1. cbn beta.
  eapply triple_bind with
    (Q' := fun _ e => engine_inv None e /\ stop_orders e !! n = Some so).
  { apply triple_modify. intros e [(e0 & [[Hl Hs] Hp] & Hso & ->) ->]. esimpl.
    destruct (book_wf_fresh orderid _ _ _ (limit_order_count e0 + 1)%N Hl)
      as [Hnone Hnin]; [lia|].
    split; [split; [split; [|exact Hs]|]|exact Hso]; esimpl.
    - now apply book_new.
    - intros m o0 Hin _ Ho0. esimpl.
      destruct (decide (m = (limit_order_count e0 + 1)%N)) as [->|Hne];
        [contradiction|].
      rewrite lookup_insert_ne in Ho0 by congruence.
      apply (Hp m o0); [exact Hin | discriminate | exact Ho0]. }
  intros ?. eapply triple_bind with
    (Q' := fun _ e => engine_inv None e /\ stop_orders e !! n = Some so).
  { apply triple_modify. intros e H. exact H. }
  intros ?. eapply triple_bind; [apply triple_get|]. intros e2. cbn beta.
  eapply triple_bind with
    (Q' := fun _ e => engine_inv None e /\ stop_orders e !! n = Some so).
  { apply triple_modify. intros e [H _]. exact H. }
  intros ?. eapply triple_bind with (Q' := fun _ => engine_inv None).
  { apply triple_modify. intros e [[[Hl Hs] Hp] Hso].
    split; [split; [exact Hl|]|exact Hp]. esimpl.
    eapply book_write; eauto. }
  intros ?. eapply triple_bind with (Q' := fun _ => engine_inv None).
  { apply triple_modify. intros e [[Hl Hs] Hp].
    destruct (mem n (active_stop_orders e)); [|split; [split|]; assumption].
    split; [split; [exact Hl | now apply book_pop]|exact Hp]. }
  intros ?. eapply triple_bind; [apply triple_gets|]. intros s.
  eapply triple_bind with (Q' := fun _ => engine_inv None).
  { intros e [He _]. revert e He. apply call_inv, books_wf_of_inv. }
  intros ?. eapply triple_bind; [apply call_inv, books_wf_of_inv|].
  intros ?. eapply triple_bind with (Q' := fun _ => engine_inv None).
  { apply triple_modify. intros e H. exact H. }
  intros ?. apply call_inv, books_wf_of_inv.
Qed.

Lemma cross_stop_order_inv {T} (depth : nat) :
  triple (@engine_inv T None) (cross_stop_order (call depth))
    (fun _ => engine_inv None) books_wf.
Proof.
  unfold cross_stop_order.
  eapply triple_bind; [apply stop_cross_prices_triple, books_wf_of_inv|].
  intros p. eapply triple_bind; [apply triple_gets|]. intros snapshot.
  eapply triple_conseq with (P := engine_inv None) (E := books_wf);
    [apply triple_for_each; intros n _; apply cross_stop_one_inv | ..]; cbn; tauto.
Qed.

Lemma bar_callback_inv {T} (depth : nat) (b : BarData) :
  triple (@engine_inv T None) (bar_callback (call depth) b)
    (fun _ => engine_inv None) books_wf.
Proof.
  unfold bar_callback.
  eapply triple_catch with (E1 := engine_inv None); [| |apply books_wf_of_inv].
  - eapply triple_bind; [apply triple_get|]. intros e0. cbn beta.
    destruct (x_second (strategy e0) (self_state e0)) as [x|].
    + destruct (Qltb x 60); [|destruct (Qeqb x 60)].
      * intros e [He _]. revert e He. apply call_inv. auto.
      * intros e [He _]. revert e He. apply call_inv. auto.
      * apply triple_ret. tauto.
    + apply triple_raise. tauto.
  - eapply triple_bind; [apply triple_gets|]. intros s.
    intros e [He _]. revert e He. apply call_inv, books_wf_of_inv.
Qed.

Lemma update_daily_close_inv {T} (price_ : Q) :
  triple (@engine_inv T None) (update_daily_close price_)
    (fun _ => engine_inv None) books_wf.
Proof.
  unfold update_daily_close.
  eapply triple_bind; [apply triple_get|]. intros e0. cbn beta.
  destruct (datetime e0).
  - apply triple_modify. intros e [H _]. exact H.
  - apply triple_raise. intros e [[H _] _]. exact H.
Qed.

(** A data point processed from a state that satisfies the invariant leaves
    a state that satisfies it, unless an exception ends the run. *)
Lemma new_data_inv {T} (depth : nat) (mode_ : BacktestingMode) (data : HistoryData) :
  triple (@engine_inv T None) (new_data (call depth) mode_ data)
    (fun _ => engine_inv None) books_wf.
Proof.
  unfold new_data. destruct mode_, data as [b|t];
    try (apply triple_raise; apply books_wf_of_inv).
  - unfold new_bar.
    eapply triple_bind with (Q' := fun _ => engine_inv None);
      [apply triple_modify; intros e H; exact H|]. intros ?.
    eapply triple_bind with (Q' := fun _ => engine_inv None);
      [apply triple_modify; intros e H; exact H|]. intros ?.
    eapply triple_bind; [apply cross_limit_order_inv|]. intros ?.
    eapply triple_bind; [apply cross_stop_order_inv|]. intros ?.
    eapply triple_bind; [apply bar_callback_inv|]. intros ?.
    apply update_daily_close_inv.
  - unfold new_tick.
    eapply triple_bind with (Q' := fun _ => engine_inv None);
      [apply triple_modify; intros e H; exact H|]. intros ?.
    eapply triple_bind with (Q' := fun _ => engine_inv None);
      [apply triple_modify; intros e H; exact H|]. intros ?.
    eapply triple_bind; [apply cross_limit_order_inv|]. intros ?.
    eapply triple_bind; [apply cross_stop_order_inv|]. intros ?.
    eapply triple_bind; [apply triple_gets|]. intros s.
    eapply triple_bind with (Q' := fun _ => engine_inv None);
      [intros e [He _]; revert e He; apply call_inv, books_wf_of_inv|]. intros ?.
    apply update_daily_close_inv.
Qed.

Lemma replay_inv {T} (depth : nat) (mode_ : BacktestingMode) (history : list HistoryData) :
  triple (@engine_inv T None) (replay (call depth) mode_ history)
    (fun _ => books_wf) books_wf.
Proof.
  induction history as [|data history IH]; cbn [replay].
  - apply triple_ret. apply books_wf_of_inv.
  - eapply triple_bind; [apply triple_attempt, new_data_inv|].
    intros [[]|ex]; cbn beta iota.
    + exact IH.
    + apply triple_ret. auto.
Qed.

Lemma warm_up_inv {T} (depth : nat) (history : list HistoryData) :
  forall ix last_ix day_count,
    triple (@engine_inv T None) (warm_up (call depth) history ix last_ix day_count)
      (fun _ => engine_inv None) (engine_inv None).
Proof.
  induction history as [|data history IH]; intros ix last_ix day_count; cbn [warm_up].
  - apply triple_ret. auto.
  - eapply triple_bind; [apply triple_get|]. intros e0. cbn beta zeta.
    match goal with |- triple _ (if ?c then _ else _) _ _ => destruct c end.
    { apply triple_ret. tauto. }
    eapply triple_bind with (Q' := fun _ => engine_inv None);
      [apply triple_modify; intros e [H _]; exact H|]. intros ?.
    eapply triple_bind with (Q' := fun _ => engine_inv None).
    { eapply triple_conseq with (E := engine_inv None);
        [apply triple_attempt with (Q := fun _ => engine_inv None) (E := engine_inv None);
         destruct (callback e0); [apply call_inv; auto | apply triple_raise; auto]
        | auto | intros [|] s H; exact H | auto]. }
    intros [[]|ex].
    + apply IH.
    + apply triple_ret. auto.
Qed.

Lemma engine_inv_new_engine {T} mode_ pricetick_ (s : Strategy T) init history :
  engine_inv None (new_engine mode_ pricetick_ s init history).
Proof.
  split; [apply books_wf_new_engine|].
  intros n o Hin. cbn in Hin. contradiction.
Qed.

(** The books stay well formed throughout [run_backtesting], and every data
    point of the run phase is processed from a state in which the orders of
    the active limit book are Submitting or NotTraded. *)
Lemma run_backtesting_inv {T} (depth : nat) :
  triple (@engine_inv T None) (run_backtesting depth) (fun _ => books_wf) books_wf.
Proof.
  unfold run_backtesting.
  eapply triple_bind; [apply triple_gets|]. intros mode_.
  eapply triple_bind; [apply triple_gets|]. intros s.
  eapply triple_bind with (Q' := fun _ => engine_inv None);
    [intros e [[He _] _]; revert e He; apply call_inv, books_wf_of_inv|]. intros ?.
  eapply triple_bind; [apply triple_gets|]. intros history.
  eapply triple_bind with (Q' := fun _ => engine_inv None).
  { eapply triple_conseq; [apply warm_up_inv | | |]; cbn; try tauto.
    apply books_wf_of_inv. }
  intros [ix|].
  - eapply triple_bind with (Q' := fun _ => engine_inv None);
      [apply triple_modify; intros e H; exact H|]. intros ?.
    eapply triple_bind; [apply call_inv, books_wf_of_inv|]. intros ?.
    eapply triple_bind with (Q' := fun _ => engine_inv None);
      [apply triple_modify; intros e H; exact H|]. intros ?.
    eapply triple_bind; [apply triple_gets|]. intros history'.
    intros e [He _]. revert e He. apply replay_inv.
  - apply triple_ret. apply books_wf_of_inv.
Qed.


(** From a fresh engine the books are well formed when the run ends,
    whichever way it ends. *)
Lemma run_backtesting_books_wf {T} (depth : nat) mode_ pricetick_
    (s : Strategy T) init history :
  books_wf (snd (run_backtesting depth (new_engine mode_ pricetick_ s init history))).
Proof.
  pose proof (run_backtesting_inv depth _
                (engine_inv_new_engine mode_ pricetick_ s init history)) as H.
  destruct (run_backtesting depth _) as [[[]|ex] e']; exact H.
Qed.


(** ** Iterations that return *)

(** With a strategy that does nothing when it hears of an order or of a
    trade, the body of either crossing loop returns on every order of the
    active book. *)
Lemma cross_limit_one_returns {T} (depth : nat) (p : CrossPrices) (n : N)
    (e : Engine T) (o : OrderData) :
  (forall o, on_order (strategy e) o = Done) ->
  (forall t, on_trade (strategy e) t = Done) ->
  In n (active_limit_orders e) -> limit_orders e !! n = Some o ->
  exists e', cross_limit_one (call (S depth)) p n e = (Ok tt, e').
Proof.
  intros Hon_order Hon_trade Hin Ho. apply mem_In in Hin.
  assert (Hdone : call (S depth) Done = @ret (Engine T) _ tt) by reflexivity.
  unfold cross_limit_one, cross_limit_notify, cross_limit_match, limit_order_of,
    write_limit_order, pop_active_limit_order.
  mstep. rewrite Ho. mstep.
  destruct (Status_eqb (status o) SUBMITTING).
  - mstep. esimpl. rewrite Hon_order, Hdone. mstep. esimpl.
    rewrite lookup_insert_eq. mstep.
    destruct (negb _ && negb _); [eexists; reflexivity|].
    mstep. esimpl. rewrite Hon_order, Hdone. mstep. esimpl. rewrite Hin. mstep.
    esimpl. rewrite Hon_trade, Hdone. eexists. reflexivity.
  - mstep. rewrite Ho. mstep.
    destruct (negb _ && negb _); [eexists; reflexivity|].
    mstep. esimpl. rewrite Hon_order, Hdone. mstep. esimpl. rewrite Hin. mstep.
    esimpl. rewrite Hon_trade, Hdone. eexists. reflexivity.
Qed.

Lemma cross_stop_one_returns {T} (depth : nat) (p : CrossPrices) (n : N)
    (e : Engine T) (so : StopOrder) :
  (forall o, on_order (strategy e) o = Done) ->
  (forall t, on_trade (strategy e) t = Done) ->
  (forall so, on_stop_order (strategy e) so = Done) ->
  stop_orders e !! n = Some so ->
  exists e', cross_stop_one (call (S depth)) p n e = (Ok tt, e').
Proof.
  intros Hon_order Hon_trade Hon_stop Hso.
  assert (Hdone : call (S depth) Done = @ret (Engine T) _ tt) by reflexivity.
  unfold cross_stop_one, stop_order_of, write_limit_order, write_stop_order.
  mstep. rewrite Hso. mstep.
  destruct (negb _ && negb _); [eexists; reflexivity|].
  mstep. esimpl.
  match goal with
  | |- context [mem n ?l] => destruct (mem n l)
  end; esimpl; rewrite Hon_stop, Hdone; mstep; esimpl;
    rewrite Hon_order, Hdone; mstep; esimpl;
    rewrite Hon_trade, Hdone; eexists; reflexivity.
Qed.


(** ** Daily accounting *)

Lemma Date_eqb_eq (a b : Date) : Date_eqb a b = true <-> a = b.
Proof.
  destruct a as [[y1 m1] d1], b as [[y2 m2] d2]. unfold Date_eqb.
  rewrite !andb_true_iff, !Z.eqb_eq. split.
  - intros [[-> ->] ->]. reflexivity.
  - intros H. injection H as -> -> ->. auto.
Qed.

Lemma Date_eqb_refl (a : Date) : Date_eqb a a = true.
Proof. now apply Date_eqb_eq. Qed.

Lemma Date_eqb_neq (a b : Date) : Date_eqb a b = false <-> a <> b.
Proof.
  rewrite <- Date_eqb_eq. destruct (Date_eqb a b); split; congruence.
Qed.

(** *** [update_daily_close] *)

Lemma update_close_keys d p results :
  map fst (update_close d p results)
  = if existsb (Date_eqb d) (map fst results) then map fst results
    else map fst results ++ [d].
Proof.
  induction results as [|[d' r] results IH]; cbn; [reflexivity|].
  destruct (Date_eqb d' d) eqn:E.
  - apply Date_eqb_eq in E. subst d'. now rewrite Date_eqb_refl.
  - assert (E' : Date_eqb d d' = false).
    { apply Date_eqb_neq. apply Date_eqb_neq in E. congruence. }
    rewrite E'. cbn. rewrite IH. now destruct (existsb _ _).
Qed.

Lemma existsb_Date_In d l : existsb (Date_eqb d) l = true <-> In d l.
Proof.
  rewrite existsb_exists. split.
  - intros (x & Hx & E). apply Date_eqb_eq in E. now subst.
  - intros H. exists d. split; [exact H | apply Date_eqb_refl].
Qed.

Lemma update_close_NoDup d p results :
  List.NoDup (map fst results) -> List.NoDup (map fst (update_close d p results)).
Proof.
  intros H. rewrite update_close_keys.
  destruct (existsb (Date_eqb d) (map fst results)) eqn:E; [exact H|].
  apply List.NoDup_app; repeat split; auto.
  - constructor; [intros []|constructor].
  - intros x Hx [<-|[]]. apply existsb_Date_In in Hx. congruence.
Qed.

Lemma update_close_lookup d p results d' :
  daily_result_of d' (update_close d p results)
  = if Date_eqb d d' then
      Some (match daily_result_of d results with
            | Some r => set_close_price p r
            | None => DailyResult_init d p
            end)
    else daily_result_of d' results.
Proof.
  unfold daily_result_of.
  induction results as [|[d0 r] results IH]; cbn.
  - destruct (Date_eqb d d'); reflexivity.
  - destruct (Date_eqb d0 d) eqn:E0; cbn.
    + apply Date_eqb_eq in E0. subst d0.
      destruct (Date_eqb d d'); reflexivity.
    + destruct (Date_eqb d0 d') eqn:E1; cbn.
      * apply Date_eqb_eq in E1. subst d0.
        assert (E' : Date_eqb d d' = false).
        { apply Date_eqb_neq. apply Date_eqb_neq in E0. congruence. }
        now rewrite E'.
      * exact IH.
Qed.


(** *** The first loop of [calculate_result] *)

Lemma set_dr_trades_same (r : DailyResult) : set_dr_trades (dr_trades r) r = r.
Proof. now destruct r. Qed.

Lemma Date_eqb_sym (a b : Date) : Date_eqb a b = Date_eqb b a.
Proof.
  destruct (Date_eqb b a) eqn:E.
  - apply Date_eqb_eq in E. subst. apply Date_eqb_refl.
  - apply Date_eqb_neq. apply Date_eqb_neq in E. congruence.
Qed.

Lemma booked_keys ts results : map fst (booked ts results) = map fst results.
Proof. unfold booked. rewrite map_map. reflexivity. Qed.

Lemma booked_none ts results :
  (forall d, In d (map fst results) -> trades_of_day d ts = []) ->
  booked ts results = results.
Proof.
  induction results as [|[d r] results IH]; intros H; [reflexivity|].
  cbn. rewrite (H d) by now left. rewrite app_nil_r, set_dr_trades_same.
  f_equal. apply IH. intros d' Hd'. apply H. now right.
Qed.

Lemma booked_nil results : booked [] results = results.
Proof. apply booked_none. reflexivity. Qed.

Lemma trades_of_day_app d ts1 ts2 :
  trades_of_day d (ts1 ++ ts2) = trades_of_day d ts1 ++ trades_of_day d ts2.
Proof. apply List.filter_app. Qed.

Lemma booked_app ts1 ts2 results :
  booked ts2 (booked ts1 results) = booked (ts1 ++ ts2) results.
Proof.
  unfold booked. rewrite map_map. apply map_ext. intros [d r]. cbn.
  now rewrite trades_of_day_app, app_assoc.
Qed.

Lemma with_daily_result_missing d (method : M DailyResult unit) results :
  ~ In d (map fst results) ->
  with_daily_result d method results = (Raise KeyError, results).
Proof.
  induction results as [|[d' r] results IH]; intros H; [reflexivity|].
  cbn in *. destruct (Date_eqb d' d) eqn:E.
  - apply Date_eqb_eq in E. tauto.
  - rewrite IH by tauto. reflexivity.
Qed.

Lemma booked_cons ts d r results :
  booked ts ((d, r) :: results)
  = (d, set_dr_trades (dr_trades r ++ trades_of_day d ts) r) :: booked ts results.
Proof. reflexivity. Qed.

Lemma trades_of_day_single d t dt :
  trade_datetime t = Some dt ->
  trades_of_day d [t] = if Date_eqb (date_of dt) d then [t] else [].
Proof. intros Ht. unfold trades_of_day. cbn [List.filter]. now rewrite Ht. Qed.

Lemma book_trade_dated t dt results :
  trade_datetime t = Some dt ->
  In (date_of dt) (map fst results) -> List.NoDup (map fst results) ->
  book_trade t results = (Ok tt, booked [t] results).
Proof.
  intros Ht Hin Hnd. unfold book_trade. rewrite Ht.
  induction results as [|[d r] results IH]; [destruct Hin|].
  cbn [map fst] in Hnd, Hin. apply List.NoDup_cons_iff in Hnd as [Hnin Hnd].
  rewrite booked_cons, (trades_of_day_single d t dt Ht).
  cbn [with_daily_result]. rewrite (Date_eqb_sym (date_of dt) d).
  destruct (Date_eqb d (date_of dt)) eqn:E.
  - apply Date_eqb_eq in E. subst d. cbn. f_equal. f_equal.
    symmetry. apply booked_none. intros d' Hd'.
    rewrite (trades_of_day_single d' t dt Ht).
    destruct (Date_eqb (date_of dt) d') eqn:E'; [|reflexivity].
    apply Date_eqb_eq in E'. subst d'. contradiction.
  - destruct Hin as [Hin|Hin]; [apply Date_eqb_neq in E; congruence|].
    rewrite (IH Hin Hnd). rewrite app_nil_r, set_dr_trades_same. reflexivity.
Qed.

Lemma book_trades_dated ts : forall results,
  List.NoDup (map fst results) ->
  Forall (dated_in (map fst results)) ts ->
  for_each ts book_trade results = (Ok tt, booked ts results).
Proof.
  induction ts as [|t ts IH]; intros results Hnd Hall; cbn [for_each].
  - cbn. now rewrite booked_nil.
  - apply Forall_cons_iff in Hall as [(dt & Ht & Hin) Hall].
    erewrite bind_Ok by (eapply book_trade_dated; eauto).
    rewrite IH.
    + now rewrite booked_app.
    + now rewrite booked_keys.
    + now rewrite booked_keys.
Qed.

(** The first trade that is not dated on a day with a daily result stops
    the loop. *)
Lemma book_trades_undated ts1 t ts2 results :
  List.NoDup (map fst results) ->
  Forall (dated_in (map fst results)) ts1 ->
  ~ dated_in (map fst results) t ->
  exists ex,
    for_each (ts1 ++ t :: ts2) book_trade results = (Raise ex, booked ts1 results) /\
    ex = match trade_datetime t with Some _ => KeyError | None => AttributeError end.
Proof.
  revert results. induction ts1 as [|t1 ts1 IH]; intros results Hnd Hall Hnot.
  - cbn [app for_each]. rewrite booked_nil. unfold book_trade.
    destruct (trade_datetime t) as [dt|] eqn:Ht.
    + exists KeyError. split; [|reflexivity].
      rewrite (bind_Raise _ _ _ KeyError results); [reflexivity|].
      apply with_daily_result_missing. intros Hin. apply Hnot. now exists dt.
    + exists AttributeError. split; reflexivity.
  - apply Forall_cons_iff in Hall as [(dt & Ht & Hin) Hall].
    cbn [app for_each].
    erewrite bind_Ok by (eapply book_trade_dated; eauto).
    destruct (IH (booked [t1] results)) as (ex & Hrun & Hex).
    + now rewrite booked_keys.
    + now rewrite booked_keys.
    + now rewrite booked_keys.
    + exists ex. rewrite Hrun, booked_app. split; [reflexivity | exact Hex].
Qed.


(** *** The second loop of [calculate_result] *)

Lemma truthy_spec_pre_close (x : Q) :
  (if truthy x then x else 1) = spec_pre_close x.
Proof. unfold spec_pre_close, truthy. now destruct (Qeqb x 0). Qed.

(** A call of [calculate_pnl] that divides by nothing that is zero. *)
Lemma calculate_pnl_returns (r : DailyResult) (pre_close_ start_pos_ : Q)
    (c : EngineParameters) :
  pnl_divides_by_zero (ep_inverse c) (close_price r) (dr_trades r) = false ->
  exists r',
    calculate_pnl pre_close_ start_pos_ (ep_size c) (ep_rate_type c) (ep_rate c)
      (ep_slippage c) (ep_inverse c) r = (Ok tt, r') /\
    pre_close r' = spec_pre_close pre_close_ /\
    start_pos r' = start_pos_ /\
    day_result c r r'.
Proof.
  intros Hz. destruct c as [size rate_type rate slippage inverse]. cbn in *.
  set (close := close_price r). set (pc := spec_pre_close pre_close_).
  assert (Hpc0 : Qeqb pc 0 = false) by apply spec_pre_close_nonzero.
  unfold calculate_pnl. rewrite truthy_spec_pre_close. fold pc. mstep.
  set (r0 := set_end_pos start_pos_ (set_start_pos start_pos_ (set_pre_close pc r))).
  assert (Hclose0 : close_price r0 = close) by reflexivity.
  assert (Hhold :
    (if negb inverse
     then modify (fun r => set_holding_pnl
            (start_pos r * (close_price r - pre_close r) * size) r)
     else pc <- gets pre_close ;;
          a <- lift (py_div 1 pc) ;;
          close <- gets close_price ;;
          b <- lift (py_div 1 close) ;;
          modify (fun r => set_holding_pnl (start_pos r * (a - b) * size) r)) r0
    = (Ok tt,
       set_holding_pnl (spec_holding_pnl inverse start_pos_ close pc size) r0)).
  { destruct inverse; cbn [negb]; [|reflexivity].
    unfold pnl_divides_by_zero in Hz. cbn in Hz.
    apply orb_false_iff in Hz as [Hc _]. mstep.
    change (pre_close r0) with pc. unfold py_div at 1. rewrite Hpc0. mstep.
    rewrite Hclose0. unfold py_div. fold close in Hc. rewrite Hc. reflexivity. }
  erewrite bind_Ok by exact Hhold. mstep.
  match goal with |- context [bind (for_each ?l ?f) ?k ?s] =>
    destruct (calculate_pnl_loop inverse size rate_type rate slippage l s)
      as (r2 & Hrun2 & Hfr & Hend & Htr) end.
  { exact Hz. }
  erewrite bind_Ok by exact Hrun2. mstep.
  eexists. split; [reflexivity|].
  destruct Hfr as (Hclose & Hpre & Hstart & Hhold' & Htrades & Hcount).
  unfold day_result. cbn in *.
  rewrite Hpre, Hstart, Hclose, Htrades, Hcount, Hhold'.
  repeat split; assumption.
Qed.

Lemma calculate_daily_returns (c : EngineParameters) : forall results pc sp,
  Forall (fun dr => pnl_divides_by_zero (ep_inverse c) (close_price (snd dr))
                      (dr_trades (snd dr)) = false) results ->
  exists rows,
    calculate_daily c pc sp results = (Ok tt, combine (map fst results) rows) /\
    chained pc sp rows /\
    Forall2 (fun dr r' => day_result c (snd dr) r') results rows.
Proof.
  induction results as [|[d r] results IH]; intros pc sp Hz.
  - exists []. cbn. repeat split. constructor.
  - apply Forall_cons_iff in Hz as [Hz0 Hz]. cbn [fst snd] in Hz0.
    destruct (calculate_pnl_returns r pc sp c Hz0) as (r' & Hrun & Hpc & Hsp & Hday).
    destruct (IH (close_price r') (end_pos r') Hz) as (rows & Hrun' & Hch & Hall).
    exists (r' :: rows). cbn [calculate_daily]. rewrite Hrun, Hrun'.
    split; [reflexivity|]. split; [cbn; auto|]. constructor; assumption.
Qed.


(** *** [calculate_result] *)

Lemma on_daily_results_run {T A} (m : M (list (Date * DailyResult)) A)
    (e : Engine T) o results :
  m (daily_results e) = (o, results) ->
  on_daily_results m e = (o, set_daily_results results e).
Proof. intros H. unfold on_daily_results. now rewrite H. Qed.

Lemma combine_keys {A B} (l : list (A * B)) (rows : list B) :
  length rows = length l -> map fst (combine (map fst l) rows) = map fst l.
Proof.
  revert rows. induction l as [|[a b] l IH]; intros [|r rows] H;
    try discriminate; [reflexivity|].
  cbn. f_equal. apply IH. now injection H.
Qed.

Lemma combine_values {A B} (l : list (A * B)) (rows : list B) :
  length rows = length l -> map snd (combine (map fst l) rows) = rows.
Proof.
  revert rows. induction l as [|[a b] l IH]; intros [|r rows] H;
    try discriminate; [reflexivity|].
  cbn. f_equal. apply IH. now injection H.
Qed.

Lemma calculate_result_returns {T} (c : EngineParameters) (e : Engine T) :
  trades e <> [] ->
  List.NoDup (map fst (daily_results e)) ->
  Forall (dated_in (map fst (daily_results e))) (trades e) ->
  Forall (fun dr => pnl_divides_by_zero (ep_inverse c) (close_price (snd dr))
                      (dr_trades (snd dr)) = false)
         (booked (trades e) (daily_results e)) ->
  exists rows,
    calculate_result c e
    = (Ok (Some rows),
       set_daily_results (combine (map fst (daily_results e)) rows) e) /\
    chained 0 0 rows /\
    Forall2 (fun dr r' => day_result c (snd dr) r')
      (booked (trades e) (daily_results e)) rows.
Proof.
  intros Hne Hnd Hdated Hz.
  destruct (calculate_daily_returns c _ 0 0 Hz) as (rows & Hrun & Hch & Hall).
  exists rows. split; [|split; assumption].
  assert (Hlen : length rows = length (daily_results e)).
  { apply Forall2_length in Hall. unfold booked in Hall.
    rewrite length_map in Hall. congruence. }
  unfold calculate_result. mstep.
  destruct (trades e) as [|t ts] eqn:Hts; [congruence|].
  erewrite bind_Ok
    by (apply on_daily_results_run, book_trades_dated; assumption).
  erewrite bind_Ok by (apply on_daily_results_run; exact Hrun).
  mstep. rewrite booked_keys.
  cbn [daily_results set_daily_results].
  rewrite combine_values by exact Hlen. reflexivity.
Qed.


(** *** Sums *)

Lemma Qsum_nil : Qsum [] = 0.
Proof. reflexivity. Qed.

Lemma Qsum_cons (x : Q) (l : list Q) : Qsum (x :: l) = x + Qsum l.
Proof. reflexivity. Qed.

Lemma Qsum_app (l1 l2 : list Q) : Qsum (l1 ++ l2) == Qsum l1 + Qsum l2.
Proof.
  induction l1 as [|x l1 IH]; cbn [app].
  - rewrite Qsum_nil. ring.
  - rewrite !Qsum_cons, IH. ring.
Qed.

Lemma fold_left_Qsum {A} (f : A -> Q) (l : list A) : forall init,
  fold_left (fun acc x => acc + f x) l init == init + Qsum (map f l).
Proof.
  induction l as [|x l IH]; intros init; cbn [fold_left map].
  - rewrite Qsum_nil. ring.
  - rewrite IH, Qsum_cons. ring.
Qed.

Lemma accumulate_Qsum (f : TradeData -> Q) ts init :
  accumulate f ts init == init + Qsum (map f ts).
Proof. apply fold_left_Qsum. Qed.

Lemma sum_signed_volume_Qsum ts init :
  sum_signed_volume ts init == init + Qsum (map signed_volume ts).
Proof. apply fold_left_Qsum. Qed.

Lemma column_sum_Qsum f rows : column_sum f rows == Qsum (map f rows).
Proof. unfold column_sum. rewrite fold_left_Qsum. ring. Qed.

Lemma Qsum_flat_map_app {A B} (f : B -> Q) (g h : A -> list B) (l : list A) :
  Qsum (map f (flat_map (fun a => g a ++ h a) l))
  == Qsum (map f (flat_map g l)) + Qsum (map f (flat_map h l)).
Proof.
  induction l as [|a l IH]; cbn [flat_map map].
  - rewrite Qsum_nil. ring.
  - rewrite !map_app, !Qsum_app, IH. ring.
Qed.

Lemma Qsum_flat_map_one (f : TradeData -> Q) (t : TradeData) (d : Date)
    (days_ : list Date) :
  In d days_ -> List.NoDup days_ ->
  Qsum (map f (flat_map (fun d' => if Date_eqb d d' then [t] else []) days_)) == f t.
Proof.
  induction days_ as [|d0 days_ IH]; intros Hin Hnd; [destruct Hin|].
  apply List.NoDup_cons_iff in Hnd as [Hnin Hnd]. cbn [flat_map].
  rewrite map_app, Qsum_app.
  destruct (Date_eqb d d0) eqn:E.
  - apply Date_eqb_eq in E. subst d0.
    assert (H0 : flat_map (fun d' => if Date_eqb d d' then [t] else []) days_ = []).
    { clear IH Hin Hnd. induction days_ as [|d1 days_ IH]; [reflexivity|].
      cbn. destruct (Date_eqb d d1) eqn:E1.
      - apply Date_eqb_eq in E1. subst d1. exfalso. apply Hnin. now left.
      - apply IH. intros H. apply Hnin. now right. }
    rewrite H0. cbn [map]. rewrite Qsum_cons, !Qsum_nil. ring.
  - destruct Hin as [Hin|Hin]; [apply Date_eqb_neq in E; congruence|].
    rewrite (IH Hin Hnd). cbn [map]. rewrite Qsum_nil. ring.
Qed.

(** The trades of the ledger, taken day by day, add up to the same as taken
    in the order of the ledger. *)
Lemma Qsum_by_day (f : TradeData -> Q) (days_ : list Date) (ts : list TradeData) :
  List.NoDup days_ -> Forall (dated_in days_) ts ->
  Qsum (map f (flat_map (fun d => trades_of_day d ts) days_)) == Qsum (map f ts).
Proof.
  intros Hnd. induction ts as [|t ts IH]; intros Hall.
  - assert (H0 : flat_map (fun d => trades_of_day d []) days_ = []).
    { clear. induction days_ as [|d days_ IHd]; [reflexivity|].
      cbn. exact IHd. }
    rewrite H0. reflexivity.
  - apply Forall_cons_iff in Hall as [(dt & Ht & Hin) Hall].
    assert (Hsplit : flat_map (fun d => trades_of_day d (t :: ts)) days_
                     = flat_map (fun d => (if Date_eqb (date_of dt) d then [t] else [])
                                          ++ trades_of_day d ts) days_).
    { apply flat_map_ext. intros d.
      change (t :: ts) with ([t] ++ ts).
      now rewrite trades_of_day_app, (trades_of_day_single d t dt Ht). }
    rewrite Hsplit, Qsum_flat_map_app, (Qsum_flat_map_one f t _ _ Hin Hnd), (IH Hall).
    cbn [map]. rewrite Qsum_cons. reflexivity.
Qed.


(** *** The frame of the daily results adds up *)

Lemma marked_to_app mark size ts1 ts2 :
  marked_to mark size (ts1 ++ ts2)
  == marked_to mark size ts1 + marked_to mark size ts2.
Proof. unfold marked_to. now rewrite map_app, Qsum_app. Qed.

(** Marking the same trades at another price moves their value by the
    position they add up to. *)
Lemma marked_to_move mark mark' size ts :
  marked_to mark' size ts
  == marked_to mark size ts + Qsum (map signed_volume ts) * (mark' - mark) * size.
Proof.
  unfold marked_to. induction ts as [|t ts IH]; cbn [map].
  - rewrite !Qsum_nil. ring.
  - rewrite !Qsum_cons, IH. ring.
Qed.

Lemma chained_telescope (size : Q) (rows : list DailyResult) : forall pc sp,
  chained pc sp rows ->
  Forall (fun r => Qeqb (close_price r) 0 = false) rows ->
  Forall (normal_day size) rows ->
  let mark := last_close rows (spec_pre_close pc) in
  Qsum (map total_pnl rows)
  == sp * (mark - spec_pre_close pc) * size
     + marked_to mark size (flat_map dr_trades rows) /\
  last_end_pos rows sp == sp + Qsum (map signed_volume (flat_map dr_trades rows)).
Proof.
  induction rows as [|r rows IH]; intros pc sp Hch Hnz Hday mark.
  - subst mark. unfold marked_to. cbn [map flat_map last_close last_end_pos fold_left].
    rewrite !Qsum_nil. split; ring.
  - destruct Hch as (Hpc & Hsp & Hch).
    apply Forall_cons_iff in Hnz as [Hc Hnz].
    apply Forall_cons_iff in Hday as [[Htotal Hend] Hday].
    destruct (IH (close_price r) (end_pos r) Hch Hnz Hday) as [IHt IHe].
    assert (Hsame : spec_pre_close (close_price r) = close_price r).
    { unfold spec_pre_close. now rewrite Hc. }
    rewrite Hsame in IHt.
    assert (Hmark : mark = last_close rows (close_price r)) by reflexivity.
    rewrite <- Hmark in IHt.
    cbn [map flat_map]. rewrite Qsum_cons, marked_to_app, map_app, Qsum_app.
    change (last_end_pos (r :: rows) sp) with (last_end_pos rows (end_pos r)).
    split.
    + rewrite IHt, Htotal, Hend, Hpc, Hsp.
      rewrite (marked_to_move (close_price r) mark size (dr_trades r)). ring.
    + rewrite IHe, Hend, Hsp. ring.
Qed.


Lemma chained_end_pos (rows : list DailyResult) : forall pc sp,
  chained pc sp rows ->
  Forall (fun r => end_pos r == start_pos r + Qsum (map signed_volume (dr_trades r)))
    rows ->
  last_end_pos rows sp == sp + Qsum (map signed_volume (flat_map dr_trades rows)).
Proof.
  induction rows as [|r rows IH]; intros pc sp Hch Hday.
  - cbn [map flat_map last_end_pos fold_left]. rewrite Qsum_nil. ring.
  - destruct Hch as (_ & Hsp & Hch).
    apply Forall_cons_iff in Hday as [Hend Hday].
    change (last_end_pos (r :: rows) sp) with (last_end_pos rows (end_pos r)).
    cbn [flat_map]. rewrite map_app, Qsum_app, (IH _ _ Hch Hday), Hend, Hsp. ring.
Qed.

Lemma day_result_end_pos c r r' :
  day_result c r r' ->
  end_pos r' == start_pos r' + Qsum (map signed_volume (dr_trades r')).
Proof.
  intros (_ & Htr & _ & _ & Hend & _). rewrite Hend, Htr.
  apply (accumulate_Qsum spec_pos_change).
Qed.

Lemma day_result_normal c r r' :
  ep_inverse c = false -> trading_pnl r = 0 ->
  day_result c r r' -> normal_day (ep_size c) r'.
Proof.
  intros Hinv H0 Hday. split; [|exact (day_result_end_pos c r r' Hday)].
  destruct Hday as (Hc & Htr & _ & Hhold & _ & Htrading & Htotal & _).
  rewrite Htotal, Hhold, Htrading, Htr, Hc, Hinv, H0.
  unfold spec_holding_pnl. rewrite accumulate_Qsum. unfold marked_to.
  change (spec_trade_pnl false (close_price r) (ep_size c))
    with (fun t => signed_volume t * (close_price r - trade_price t) * ep_size c).
  ring.
Qed.

Lemma unused_result_fields r :
  unused_result r ->
  dr_trades r = [] /\ trading_pnl r = 0 /\ turnover r = 0 /\ commission r = 0 /\
  dr_slippage r = 0.
Proof.
  intros H. unfold unused_result in H.
  repeat split.
  - exact (f_equal dr_trades H).
  - exact (f_equal trading_pnl H).
  - exact (f_equal turnover H).
  - exact (f_equal commission H).
  - exact (f_equal dr_slippage H).
Qed.

(** The trades of the rows, when the days had no trade before. *)
Lemma booked_rows_trades c ts results rows :
  Forall (fun dr => dr_trades (snd dr) = []) results ->
  Forall2 (fun dr r' => day_result c (snd dr) r') (booked ts results) rows ->
  flat_map dr_trades rows = flat_map (fun d => trades_of_day d ts) (map fst results).
Proof.
  revert rows. induction results as [|[d r] results IH]; intros rows Hun Hall.
  - inversion Hall. reflexivity.
  - rewrite booked_cons in Hall. inversion Hall as [|? r' ? rows' Hday Hall']. subst.
    apply Forall_cons_iff in Hun as [Hr Hun]. cbn [fst snd] in *.
    cbn [map flat_map fst]. rewrite (IH rows' Hun Hall').
    destruct Hday as (_ & Htr & _). rewrite Htr. cbn. now rewrite Hr.
Qed.

Lemma booked_rows_Forall c ts results rows (P : DailyResult -> Prop)
    (I : Date * DailyResult -> Prop) :
  (forall dr r', I dr ->
     day_result c (set_dr_trades (dr_trades (snd dr) ++ trades_of_day (fst dr) ts)
                     (snd dr)) r' -> P r') ->
  Forall I results ->
  Forall2 (fun dr r' => day_result c (snd dr) r') (booked ts results) rows ->
  Forall P rows.
Proof.
  intros HP. revert rows. induction results as [|[d r] results IH]; intros rows HI Hall.
  - inversion Hall. constructor.
  - rewrite booked_cons in Hall. inversion Hall as [|? r' ? rows' Hday Hall']. subst.
    apply Forall_cons_iff in HI as [Hr HI]. constructor.
    + exact (HP (d, r) r' Hr Hday).
    + exact (IH rows' HI Hall').
Qed.


(** X1. [update_daily_close] keeps one daily result for each date: called
    while a datum dated [now] is current, it sets the close price of the
    result of that date and leaves its other attributes and the results of
    the other dates alone, or adds a new result at the end when the date has
    none; the dates stay distinct, and of two calls for the same date the
    second one decides the close. *)
Theorem update_daily_close_one_row_a_day {T} (price_ : Q) (e : Engine T)
    (now : DateTime) :
  datetime e = Some now ->
  List.NoDup (map fst (daily_results e)) ->
  exists e',
    update_daily_close price_ e = (Ok tt, e') /\
    List.NoDup (map fst (daily_results e')) /\
    (forall d,
       daily_result_of d (daily_results e')
       = if Date_eqb (date_of now) d then
           Some (match daily_result_of (date_of now) (daily_results e) with
                 | Some r => set_close_price price_ r
                 | None => DailyResult_init (date_of now) price_
                 end)
         else daily_result_of d (daily_results e)) /\
    (forall price',
       update_daily_close price' e' = update_daily_close price' e).
Proof.
  intros Hnow Hnd. unfold update_daily_close. mstep. rewrite Hnow.
  eexists. split; [reflexivity|]. cbn [daily_results set_daily_results].
  split; [now apply update_close_NoDup|]. split; [apply update_close_lookup|].
  intros price'. mstep. cbn [datetime set_daily_results daily_results].
  rewrite Hnow. unfold modify. f_equal.
  assert (Hlast : update_close (date_of now) price'
                    (update_close (date_of now) price_ (daily_results e))
                  = update_close (date_of now) price' (daily_results e)).
  { clear Hnd. induction (daily_results e) as [|[d r] results IH]; cbn [update_close].
    - now rewrite Date_eqb_refl.
    - destruct (Date_eqb d (date_of now)) eqn:E; cbn [update_close]; rewrite E;
        [reflexivity|].
      f_equal. apply IH. }
  rewrite Hlast. reflexivity.
Qed.

Lemma update_daily_close_one_row_a_day_witness :
  exists e',
    update_daily_close 12 engine_two_days = (Ok tt, e') /\
    map (fun dr => close_price (snd dr)) (daily_results e') = [8; 12].
Proof.
  destruct (update_daily_close_one_row_a_day 12 engine_two_days (at_day 2020 1 3))
    as (e' & Hrun & _).
  - vm_compute. reflexivity.
  - vm_compute. repeat constructor; intros H; vm_compute in H; intuition discriminate.
  - exists e'. split; [exact Hrun|].
    vm_compute in Hrun. injection Hrun as <-. vm_compute. reflexivity.
Defined.


Lemma NoDup_two_days : List.NoDup (map fst (daily_results engine_two_days)).
Proof.
  vm_compute. repeat constructor; intros H; vm_compute in H; intuition discriminate.
Qed.

Lemma dated_two_days :
  Forall (dated_in (map fst (daily_results engine_two_days))) (trades engine_two_days).
Proof.
  vm_compute. repeat constructor.
  - eexists. split; [reflexivity|]. vm_compute. left. reflexivity.
  - eexists. split; [reflexivity|]. vm_compute. right. left. reflexivity.
Qed.

Lemma Forall2_map_left {A B C} (P : B -> C -> Prop) (f : A -> B) l l' :
  Forall2 P (map f l) l' -> Forall2 (fun a => P (f a)) l l'.
Proof.
  revert l'. induction l as [|a l IH]; intros l' H; inversion H; subst;
    constructor; auto.
Qed.

(** X2. With at least one trade, every trade dated on a day that has a daily
    result, and no division by zero (inverse mode), [calculate_result]
    returns a frame with one row for each daily result, in their order, and
    stores the rows: the trades of the ledger dated on the day are added to
    the trades of the row, each row starts from the end position of the row
    before and takes its close as previous close (1 where that close is 0;
    position 0 and previous close 1 for the first row), and the figures of a
    row follow from its close, its trades and these two values. *)
Theorem calculate_result_frame {T} (c : EngineParameters) (e : Engine T) :
  trades e <> [] ->
  List.NoDup (map fst (daily_results e)) ->
  Forall (dated_in (map fst (daily_results e))) (trades e) ->
  Forall (fun dr =>
            pnl_divides_by_zero (ep_inverse c) (close_price (snd dr))
              (dr_trades (snd dr) ++ trades_of_day (fst dr) (trades e)) = false)
         (daily_results e) ->
  exists rows,
    calculate_result c e
    = (Ok (Some rows),
       set_daily_results (combine (map fst (daily_results e)) rows) e) /\
    chained 0 0 rows /\
    Forall2 (fun dr r' =>
               day_result c
                 (set_dr_trades
                    (dr_trades (snd dr) ++ trades_of_day (fst dr) (trades e)) (snd dr))
                 r')
      (daily_results e) rows.
Proof.
  intros Hne Hnd Hdated Hz.
  destruct (calculate_result_returns c e Hne Hnd Hdated) as (rows & Hrun & Hch & Hall).
  { unfold booked. rewrite Forall_map. exact Hz. }
  exists rows. split; [exact Hrun|]. split; [exact Hch|].
  unfold booked in Hall. apply Forall2_map_left in Hall. exact Hall.
Qed.

Lemma calculate_result_frame_witness :
  exists rows,
    fst (calculate_result example_parameters engine_two_days) = Ok (Some rows) /\
    chained 0 0 rows.
Proof.
  destruct (calculate_result_frame example_parameters engine_two_days)
    as (rows & Hrun & Hch & _).
  - vm_compute. discriminate.
  - exact NoDup_two_days.
  - exact dated_two_days.
  - vm_compute. repeat constructor.
  - exists rows. rewrite Hrun. split; [reflexivity | exact Hch].
Defined.

(** X3. [calculate_result] raises [KeyError] at the first trade of the
    ledger that is dated on a day without a daily result ([AttributeError]
    if the trade has no datetime).  The trades before it stay added to their
    days. *)
Theorem calculate_result_undated {T} (c : EngineParameters) (e : Engine T)
    (ts1 ts2 : list TradeData) (t : TradeData) :
  trades e = ts1 ++ t :: ts2 ->
  List.NoDup (map fst (daily_results e)) ->
  Forall (dated_in (map fst (daily_results e))) ts1 ->
  ~ dated_in (map fst (daily_results e)) t ->
  calculate_result c e
  = (Raise (match trade_datetime t with
            | Some _ => KeyError
            | None => AttributeError
            end),
     set_daily_results (booked ts1 (daily_results e)) e).
Proof.
  intros Hts Hnd Hdated Hnot.
  destruct (book_trades_undated ts1 t ts2 _ Hnd Hdated Hnot) as (ex & Hrun & ->).
  unfold calculate_result. mstep. rewrite Hts.
  assert (E : exists t0 l, ts1 ++ t :: ts2 = t0 :: l) by (destruct ts1; cbn; eauto).
  destruct E as (t0 & l & E). rewrite E in *.
  erewrite bind_Raise by (apply on_daily_results_run; exact Hrun).
  reflexivity.
Qed.

Lemma calculate_result_undated_witness :
  fst (calculate_result example_parameters engine_failed_bar) = Raise KeyError.
Proof.
  destruct (trades engine_failed_bar) as [|t ts] eqn:Hts; [discriminate|].
  rewrite (calculate_result_undated example_parameters engine_failed_bar [] ts t).
  - vm_compute in Hts. injection Hts as <- <-. reflexivity.
  - exact Hts.
  - vm_compute. constructor.
  - constructor.
  - vm_compute in Hts. injection Hts as <- <-.
    intros (dt & _ & Hin). vm_compute in Hin. exact Hin.
Defined.


Lemma unused_two_days :
  Forall (fun dr => unused_result (snd dr)) (daily_results engine_two_days).
Proof. vm_compute. repeat constructor. Qed.

(** X4. For a contract that is not inverse, on daily results that were not
    used before and whose close prices are not 0: the total pnl of the days
    adds up to the value of all trades of the ledger at the close of the
    last day, that is the sum of
    [signed volume * (last close - trade price) * size] over the trades. *)
Theorem daily_pnl_adds_up {T} (c : EngineParameters) (e : Engine T) :
  ep_inverse c = false ->
  trades e <> [] ->
  List.NoDup (map fst (daily_results e)) ->
  Forall (dated_in (map fst (daily_results e))) (trades e) ->
  Forall (fun dr => unused_result (snd dr) /\ Qeqb (close_price (snd dr)) 0 = false)
    (daily_results e) ->
  exists rows e',
    calculate_result c e = (Ok (Some rows), e') /\
    column_sum total_pnl rows
    == marked_to (last_close rows 1) (ep_size c) (trades e).
Proof.
  intros Hinv Hne Hnd Hdated Hun.
  destruct (calculate_result_returns c e Hne Hnd Hdated) as (rows & Hrun & Hch & Hall).
  { apply Forall_forall. intros dr _. unfold pnl_divides_by_zero. now rewrite Hinv. }
  exists rows. eexists. split; [exact Hrun|].
  assert (Hrows : Forall (fun r => normal_day (ep_size c) r /\
                                   Qeqb (close_price r) 0 = false) rows).
  { eapply booked_rows_Forall; [|exact Hun|exact Hall].
    intros [d r] r' [Hu Hc] Hday. cbn [fst snd] in *. split.
    - eapply day_result_normal; [exact Hinv| |exact Hday].
      cbn. apply (unused_result_fields r Hu).
    - destruct Hday as [-> _]. exact Hc. }
  apply Forall_and_inv in Hrows as [Hnormal Hnz].
  destruct (chained_telescope (ep_size c) rows 0 0 Hch Hnz Hnormal) as [Htel _].
  change (spec_pre_close 0) with 1 in Htel.
  rewrite column_sum_Qsum, Htel.
  rewrite (booked_rows_trades c (trades e) (daily_results e) rows); [|
    eapply List.Forall_impl; [|exact Hun]; cbn; intros dr [Hu _];
    apply (unused_result_fields _ Hu) | exact Hall].
  unfold marked_to. rewrite (Qsum_by_day _ _ _ Hnd Hdated). ring.
Qed.

Lemma daily_pnl_adds_up_witness :
  exists rows,
    fst (calculate_result example_parameters engine_two_days) = Ok (Some rows) /\
    column_sum total_pnl rows == 30.
Proof.
  destruct (daily_pnl_adds_up example_parameters engine_two_days)
    as (rows & e' & Hrun & Hsum).
  - reflexivity.
  - vm_compute. discriminate.
  - exact NoDup_two_days.
  - exact dated_two_days.
  - vm_compute. repeat constructor.
  - exists rows. rewrite Hrun. split; [reflexivity|]. rewrite Hsum.
    vm_compute in Hrun. injection Hrun as <- _. vm_compute. reflexivity.
Defined.

(** X5. On daily results that were not used before, the end position of
    the last row of the frame is the net signed volume of all trades of the
    ledger: the volumes of the long trades less those of the short trades. *)
Theorem last_end_pos_is_net_volume {T} (c : EngineParameters) (e : Engine T) :
  trades e <> [] ->
  List.NoDup (map fst (daily_results e)) ->
  Forall (dated_in (map fst (daily_results e))) (trades e) ->
  Forall (fun dr =>
            unused_result (snd dr) /\
            pnl_divides_by_zero (ep_inverse c) (close_price (snd dr))
              (trades_of_day (fst dr) (trades e)) = false)
    (daily_results e) ->
  exists rows e',
    calculate_result c e = (Ok (Some rows), e') /\
    last_end_pos rows 0 == sum_signed_volume (trades e) 0.
Proof.
  intros Hne Hnd Hdated Hun.
  assert (Hnil : Forall (fun dr => dr_trades (snd dr) = []) (daily_results e)).
  { eapply List.Forall_impl; [|exact Hun]. cbn. intros dr [Hu _].
    apply (unused_result_fields _ Hu). }
  destruct (calculate_result_returns c e Hne Hnd Hdated) as (rows & Hrun & Hch & Hall).
  { unfold booked. rewrite Forall_map.
    eapply List.Forall_impl; [|exact Hun]. cbn. intros dr [Hu Hz].
    destruct (unused_result_fields _ Hu) as [-> _]. exact Hz. }
  exists rows. eexists. split; [exact Hrun|].
  assert (Hrows : Forall (fun r => end_pos r
                                   == start_pos r
                                      + Qsum (map signed_volume (dr_trades r))) rows).
  { eapply booked_rows_Forall with (I := fun _ => True); [| |exact Hall].
    - intros dr r' _ Hday. exact (day_result_end_pos _ _ _ Hday).
    - apply Forall_forall. auto. }
  rewrite (chained_end_pos rows 0 0 Hch Hrows).
  rewrite (booked_rows_trades c (trades e) (daily_results e) rows Hnil Hall).
  rewrite (Qsum_by_day _ _ _ Hnd Hdated), sum_signed_volume_Qsum. reflexivity.
Qed.

Lemma last_end_pos_is_net_volume_witness :
  exists rows,
    fst (calculate_result example_parameters engine_two_days) = Ok (Some rows) /\
    last_end_pos rows 0 == 0.
Proof.
  destruct (last_end_pos_is_net_volume example_parameters engine_two_days)
    as (rows & e' & Hrun & Hend).
  - vm_compute. discriminate.
  - exact NoDup_two_days.
  - exact dated_two_days.
  - vm_compute. repeat constructor.
  - exists rows. rewrite Hrun. split; [reflexivity|]. rewrite Hend.
    vm_compute. reflexivity.
Defined.


Lemma twice_rows c ts : forall results rows rows2,
  Forall (fun dr => dr_trades (snd dr) = []) results ->
  Forall2 (fun dr r' => day_result c (snd dr) r') (booked ts results) rows ->
  Forall2 (fun dr r' => day_result c (snd dr) r')
    (booked ts (combine (map fst results) rows)) rows2 ->
  Forall2 (fun r r2 => dr_trades r2 = dr_trades r ++ dr_trades r) rows rows2.
Proof.
  induction results as [|[d r] results IH]; intros rows rows2 Hun H1 H2.
  - inversion H1. subst. inversion H2. constructor.
  - rewrite booked_cons in H1. inversion H1 as [|? r1 ? rows1 Hday1 Hall1]. subst.
    cbn [map fst combine] in H2. rewrite booked_cons in H2.
    inversion H2 as [|? r2 ? rows2' Hday2 Hall2]. subst.
    apply Forall_cons_iff in Hun as [Hr Hun]. cbn [fst snd] in *.
    constructor; [|exact (IH _ _ Hun Hall1 Hall2)].
    destruct Hday1 as (_ & Htr1 & _). destruct Hday2 as (_ & Htr2 & _).
    cbn in Htr1, Htr2. rewrite Hr in Htr1. cbn in Htr1.
    rewrite Htr2, Htr1. reflexivity.
Qed.

Lemma Qsum_twice (f : TradeData -> Q) rows rows2 :
  Forall2 (fun r r2 => dr_trades r2 = dr_trades r ++ dr_trades r) rows rows2 ->
  Qsum (map f (flat_map dr_trades rows2))
  == 2 * Qsum (map f (flat_map dr_trades rows)).
Proof.
  induction 1 as [|r r2 rows rows2 Hr _ IH]; cbn [flat_map map].
  - rewrite Qsum_nil. ring.
  - rewrite Hr, !map_app, !Qsum_app, IH. ring.
Qed.

(** X6. [calculate_result] is not to be called twice: a second call adds
    every trade of the ledger to its day again, so that each row holds its
    trades twice and the end position of the last row is twice the net
    volume of the ledger. *)
Theorem calculate_result_twice {T} (c : EngineParameters) (e : Engine T) :
  ep_inverse c = false ->
  trades e <> [] ->
  List.NoDup (map fst (daily_results e)) ->
  Forall (dated_in (map fst (daily_results e))) (trades e) ->
  Forall (fun dr => unused_result (snd dr)) (daily_results e) ->
  exists rows e1 rows2 e2,
    calculate_result c e = (Ok (Some rows), e1) /\
    calculate_result c e1 = (Ok (Some rows2), e2) /\
    Forall2 (fun r r2 => dr_trades r2 = dr_trades r ++ dr_trades r) rows rows2 /\
    last_end_pos rows 0 == sum_signed_volume (trades e) 0 /\
    last_end_pos rows2 0 == 2 * sum_signed_volume (trades e) 0.
Proof.
  intros Hinv Hne Hnd Hdated Hun.
  assert (Hnil : Forall (fun dr => dr_trades (snd dr) = []) (daily_results e)).
  { eapply List.Forall_impl; [|exact Hun]. cbn. intros dr Hu.
    apply (unused_result_fields _ Hu). }
  assert (Hz : forall results : list (Date * DailyResult),
             Forall (fun dr => pnl_divides_by_zero (ep_inverse c)
                                 (close_price (snd dr)) (dr_trades (snd dr)) = false)
               results).
  { intros results. apply Forall_forall. intros dr _.
    unfold pnl_divides_by_zero. now rewrite Hinv. }
  destruct (calculate_result_returns c e Hne Hnd Hdated (Hz _))
    as (rows & Hrun & Hch & Hall).
  set (e1 := set_daily_results (combine (map fst (daily_results e)) rows) e) in *.
  assert (Hlen : length rows = length (daily_results e)).
  { apply Forall2_length in Hall. unfold booked in Hall.
    rewrite length_map in Hall. congruence. }
  assert (Hkeys : map fst (daily_results e1) = map fst (daily_results e)).
  { subst e1. cbn [daily_results set_daily_results]. now apply combine_keys. }
  destruct (calculate_result_returns c e1) as (rows2 & Hrun2 & Hch2 & Hall2).
  { exact Hne. }
  { now rewrite Hkeys. }
  { rewrite Hkeys. exact Hdated. }
  { apply Hz. }
  exists rows, e1, rows2. eexists.
  split; [exact Hrun|]. split; [exact Hrun2|].
  assert (Htwice : Forall2 (fun r r2 => dr_trades r2 = dr_trades r ++ dr_trades r)
                     rows rows2).
  { eapply twice_rows; [exact Hnil | exact Hall | exact Hall2]. }
  split; [exact Htwice|].
  assert (Hend : forall rows' : list (Date * DailyResult),
             Forall2 (fun dr r' => day_result c (snd dr) r') rows' rows ->
             Forall (fun r => end_pos r
                              == start_pos r + Qsum (map signed_volume (dr_trades r)))
               rows).
  { intros rows' H. clear -H. induction H; constructor; auto.
    eapply day_result_end_pos; eassumption. }
  assert (Hend2 : Forall (fun r => end_pos r
                              == start_pos r + Qsum (map signed_volume (dr_trades r)))
               rows2).
  { clear -Hall2. induction Hall2; constructor; auto.
    eapply day_result_end_pos; eassumption. }
  assert (Hnet : Qsum (map signed_volume (flat_map dr_trades rows))
                 == sum_signed_volume (trades e) 0).
  { rewrite (booked_rows_trades c (trades e) (daily_results e) rows Hnil Hall).
    rewrite (Qsum_by_day _ _ _ Hnd Hdated), sum_signed_volume_Qsum. ring. }
  split.
  - rewrite (chained_end_pos rows 0 0 Hch (Hend _ Hall)), Hnet. ring.
  - rewrite (chained_end_pos rows2 0 0 Hch2 Hend2), (Qsum_twice _ _ _ Htwice), Hnet.
    ring.
Qed.

Lemma calculate_result_twice_witness :
  exists rows e1 rows2,
    calculate_result example_parameters engine_two_days = (Ok (Some rows), e1) /\
    fst (calculate_result example_parameters e1) = Ok (Some rows2) /\
    map dr_trade_count rows = [1; 1]%nat /\ map dr_trade_count rows2 = [2; 2]%nat.
Proof.
  destruct (calculate_result_twice example_parameters engine_two_days)
    as (rows & e1 & rows2 & e2 & Hrun & Hrun2 & _).
  - reflexivity.
  - vm_compute. discriminate.
  - exact NoDup_two_days.
  - exact dated_two_days.
  - exact unused_two_days.
  - exists rows, e1, rows2. split; [exact Hrun|]. rewrite Hrun2.
    split; [reflexivity|].
    vm_compute in Hrun. injection Hrun as <- <-.
    vm_compute in Hrun2. injection Hrun2 as <- _.
    split; reflexivity.
Defined.


(** ** The run as a whole *)

(** X7. A strategy that has not called [load_bar] when [on_init] returns
    never trades: on a fresh engine with data, [run_backtesting] calls the
    missing warm-up callback on the first data point, takes the [TypeError]
    for a fault of the strategy and returns, before [on_start] and with the
    flags [inited] and [trading] as they were. *)
Theorem run_without_load_bar {T} (depth : nat) (e e1 : Engine T)
    (data : HistoryData) (history : list HistoryData) :
  datetime e = None ->
  history_data e = data :: history ->
  call depth (on_init (strategy e)) e = (Ok tt, e1) ->
  callback e1 = None ->
  run_backtesting depth e = (Ok tt, set_datetime (Some (data_datetime data)) e1).
Proof.
  intros Hnow Hdata Hinit Hcb.
  destruct (call_frame _ _ _ _ _ Hinit) as [? ? ? ? ? ? ? ? Hnow1 Hdata1 ? ? ?].
  unfold run_backtesting. mstep.
  erewrite bind_Ok by exact Hinit. mstep.
  rewrite Hdata1, Hdata. cbn [warm_up]. mstep.
  rewrite Hnow1, Hnow. cbn [andb]. mstep.
  unfold attempt. rewrite Hcb. reflexivity.
Qed.

Lemma run_without_load_bar_witness :
  let e := new_engine BAR 1 idle_strategy tt [BarItem bar_S1; BarItem bar_S3] in
  run_backtesting 3 e = (Ok tt, set_datetime (Some (bar_datetime bar_S1)) e).
Proof.
  intros e.
  apply (run_without_load_bar 3 e e (BarItem bar_S1) [BarItem bar_S3]);
    reflexivity.
Defined.


Lemma attempt_inv {St A} (m : M St A) s o s' :
  attempt m s = (o, s') -> exists r, o = Ok r /\ m s = (r, s').
Proof.
  unfold attempt. destruct (m s) as [r s1]. intros H. injection H as <- <-. eauto.
Qed.

(** One iteration of the first loop of [run_backtesting] that goes on to
    the next data point. *)
Lemma warm_up_cons {T} (depth : nat) (data : HistoryData) history ix last_ix day_count
    (e e' : Engine T) k :
  warm_up (call depth) (data :: history) ix last_ix day_count e
  = (Ok (WarmUpDone k), e') ->
  (k = ix /\ e' = e /\
   exists now, datetime e = Some now /\
               dt_day (data_datetime data) <> dt_day now) \/
  (exists e1 day_count',
     datetime e1 = Some (data_datetime data) /\
     warm_up (call depth) history (S ix) ix day_count' e1 = (Ok (WarmUpDone k), e')).
Proof.
  cbn [warm_up]. mstep.
  match goal with |- context [if ?c then _ else _] => destruct c eqn:Hbreak end.
  - intros H. injection H as <- <-. left. split; [reflexivity|]. split; [reflexivity|].
    apply andb_true_iff in Hbreak as [Hday _].
    destruct (datetime e) as [now|]; [|discriminate].
    exists now. split; [reflexivity|].
    apply negb_true_iff, Z.eqb_neq in Hday. exact Hday.
  - mstep. intros H. apply bind_inv_Ok in H as (r & e1 & Hcall & H).
    apply attempt_inv in Hcall as (r0 & Heq & Hcall). injection Heq as ->.
    destruct r0 as [[]|ex]; [|discriminate].
    right. exists e1. eexists. split; [|exact H].
    assert (Hframe : frame (set_datetime (Some (data_datetime data)) e) e1).
    { destruct (callback e) as [cb|].
      - eapply call_frame. exact Hcall.
      - discriminate. }
    destruct Hframe as [? ? ? ? ? ? ? ? Hnow ? ? ? ?]. exact Hnow.
Qed.

Lemma warm_up_index {T} (depth : nat) (history : list HistoryData) :
  forall ix last_ix day_count (e e' : Engine T) k,
    history <> [] ->
    warm_up (call depth) history ix last_ix day_count e = (Ok (WarmUpDone k), e') ->
    (ix <= k < ix + length history)%nat.
Proof.
  induction history as [|data history IH]; intros ix last_ix day_count e e' k Hne Hrun;
    [congruence|].
  apply warm_up_cons in Hrun as [(-> & _)|(e1 & dc & _ & Hrun)]; [cbn; lia|].
  destruct history as [|data' history'].
  - cbn in Hrun. injection Hrun as <- _. cbn. lia.
  - apply IH in Hrun; [|discriminate]. cbn [length] in *. lia.
Qed.

Lemma last_cons_default {A} (x d : A) (l : list A) :
  List.last (x :: l) d = List.last l x.
Proof.
  revert x d. induction l as [|y l IH]; intros x d; [reflexivity|].
  change (List.last (x :: y :: l) d) with (List.last (y :: l) d).
  rewrite !IH. reflexivity.
Qed.

Lemma warm_up_same_day {T} (depth : nat) (day : Z) (history : list HistoryData) :
  forall ix last_ix day_count (e e' : Engine T) k data0,
    datetime e = Some (data_datetime data0) ->
    dt_day (data_datetime data0) = day ->
    Forall (fun d => dt_day (data_datetime d) = day) history ->
    warm_up (call depth) history ix last_ix day_count e = (Ok (WarmUpDone k), e') ->
    k = (match history with [] => last_ix | _ :: _ => ix + length history - 1 end)%nat /\
    datetime e' = Some (data_datetime (List.last history data0)).
Proof.
  induction history as [|data history IH];
    intros ix last_ix day_count e e' k data0 Hnow Hday Hall Hrun.
  - cbn in Hrun. injection Hrun as <- <-. auto.
  - apply Forall_cons_iff in Hall as [Hd Hall].
    apply warm_up_cons in Hrun as [(_ & _ & now & Hnow' & Hneq)|(e1 & dc & Hnow1 & Hrun)].
    + rewrite Hnow in Hnow'. injection Hnow' as <-. congruence.
    + destruct (IH _ _ _ _ _ _ data Hnow1 Hd Hall Hrun) as [Hk Hlast].
      split.
      * rewrite Hk. destruct history; cbn [length]; lia.
      * rewrite Hlast, last_cons_default. reflexivity.
Qed.

(** X8. The first loop of [run_backtesting] on a fresh engine: the first
    data point always goes to the warm-up callback, whatever number of days
    was asked for, and the index at which the run phase starts is an index
    of the data, so that the run phase is never empty.  When no data point
    starts a new day (of the month) the warm-up takes all the data and the
    run phase consists of the last data point, which is processed a second
    time. *)
Theorem warm_up_leaves_the_last {T} (depth : nat) (history : list HistoryData)
    (e e' : Engine T) (k : nat) (data0 : HistoryData) :
  datetime e = None ->
  history <> [] ->
  warm_up (call depth) history 0 0 0 e = (Ok (WarmUpDone k), e') ->
  (k < length history)%nat /\
  (2 <= length history -> 1 <= k)%nat /\
  (Forall (fun d => dt_day (data_datetime d)
                    = dt_day (data_datetime (hd data0 history))) history ->
   skipn k history = [List.last history data0] /\
   datetime e' = Some (data_datetime (List.last history data0))).
Proof.
  intros Hnow Hne Hrun.
  split; [apply warm_up_index in Hrun; [lia | exact Hne]|].
  destruct history as [|data history]; [congruence|]. clear Hne.
  apply warm_up_cons in Hrun as [(_ & _ & now & Hnow' & _)|(e1 & dc & Hnow1 & Hrun)];
    [congruence|].
  split.
  - intros Hlen. destruct history as [|data' history']; [cbn in Hlen; lia|].
    apply warm_up_index in Hrun; [lia | discriminate].
  - intros Hall. cbn [hd] in Hall. apply Forall_cons_iff in Hall as [_ Hall].
    destruct (warm_up_same_day depth _ history _ _ _ _ _ _ data Hnow1 eq_refl Hall Hrun)
      as [Hk Hlast].
    rewrite last_cons_default. split; [|exact Hlast].
    subst k. clear. destruct history as [|d h]; [reflexivity|].
    cbn [length]. replace (1 + S (length h) - 1)%nat with (S (length h)) by lia.
    cbn [skipn]. revert d. induction h as [|d' h IH]; intros d; [reflexivity|].
    cbn [length skipn List.last] in *. apply IH.
Qed.

Lemma warm_up_leaves_the_last_witness :
  let e := snd (call 3 (on_init counting_strategy)
                  (new_engine BAR 1 counting_strategy 0%nat history_month_apart)) in
  fst (warm_up (call 3) history_month_apart 0 0 0 e) = Ok (WarmUpDone 1) /\
  skipn 1 history_month_apart = [BarItem (mkBar (at_day 2020 2 15) 11 12 10 11)].
Proof.
  intros e. split; [vm_compute; reflexivity|].
  refine (proj1 (proj2 (proj2
    (warm_up_leaves_the_last 3 history_month_apart e
       (snd (warm_up (call 3) history_month_apart 0 0 0 e)) 1 (BarItem bar_S1)
       _ _ _)) _)).
  - vm_compute. reflexivity.
  - discriminate.
  - vm_compute. reflexivity.
  - vm_compute. repeat constructor.
Defined.


Lemma step_run {St A} (I : St -> Prop) (R : St -> St -> Prop) (m : M St A) s o s' :
  step I R m -> I s -> m s = (o, s') -> I s' /\ R s s'.
Proof. intros H Hs Hrun. specialize (H s Hs). now rewrite Hrun in H. Qed.

(** X9. Nothing the strategy does before the run phase reaches the books.
    [on_init], the warm-up callbacks and [on_start] all run while the flag
    [trading] is false: the orders they send are dropped and their
    cancellations ignored.  Either the run ends there, or the run phase
    starts with the books, the ledger, the position and the daily results
    the engine had before the run. *)
Theorem orders_before_the_run_phase_are_dropped {T} (depth : nat) (e : Engine T) :
  trading e = false ->
  exists e2,
    quiet e e2 /\
    ((exists out, run_backtesting depth e = (out, e2)) \/
     (exists ix,
        run_backtesting depth e
        = replay (call depth) (mode e) (skipn ix (history_data e2))
            (set_trading true e2))).
Proof.
  intros Hq. unfold run_backtesting. mstep.
  destruct (call depth (on_init (strategy e)) e) as [[[]|ex] e1] eqn:Hinit;
    destruct (step_run _ _ _ _ _ _ (call_quiet_step depth _) Hq Hinit) as [Hq1 Hquiet1].
  2:{ exists e1. split; [exact Hquiet1|]. left. eexists.
      erewrite bind_Raise by exact Hinit. reflexivity. }
  erewrite bind_Ok by exact Hinit. mstep.
  destruct (warm_up (call depth) (history_data e1) 0 0 0 e1) as [[w|ex] ea] eqn:Hw;
    destruct (step_run _ _ _ _ _ _ (warm_up_quiet depth _ _ _ _) Hq1 Hw)
      as [Hqa Hquieta].
  2:{ exists ea. split; [eapply quiet_trans; eassumption|]. left. eexists.
      erewrite bind_Raise by exact Hw. reflexivity. }
  erewrite bind_Ok by exact Hw.
  destruct w as [ix|].
  2:{ exists ea. split; [eapply quiet_trans; eassumption|]. left. eexists. reflexivity. }
  mstep.
  assert (Hqi : not_trading (set_inited true ea)) by exact Hqa.
  destruct (call depth (on_start (strategy e)) (set_inited true ea))
    as [[[]|ex] e2] eqn:Hstart;
    destruct (step_run _ _ _ _ _ _ (call_quiet_step depth _) Hqi Hstart) as [Hq2 Hquiet2].
  - exists e2. split.
    + eapply quiet_trans; [eassumption|]. eapply quiet_trans; [eassumption|].
      eapply quiet_trans; [|exact Hquiet2]. constructor; reflexivity.
    + right. exists ix. erewrite bind_Ok by exact Hstart. mstep. reflexivity.
  - exists e2. split.
    + eapply quiet_trans; [eassumption|]. eapply quiet_trans; [eassumption|].
      eapply quiet_trans; [|exact Hquiet2]. constructor; reflexivity.
    + left. eexists. erewrite bind_Raise by exact Hstart. reflexivity.
Qed.

Lemma orders_before_the_run_phase_are_dropped_witness :
  exists e2,
    quiet (new_engine BAR 1 eager_strategy tt [BarItem bar_S1; BarItem bar_S3]) e2 /\
    limit_orders e2 = ∅ /\ active_limit_orders e2 = [].
Proof.
  destruct (orders_before_the_run_phase_are_dropped 3
              (new_engine BAR 1 eager_strategy tt [BarItem bar_S1; BarItem bar_S3]))
    as (e2 & Hquiet & _).
  - reflexivity.
  - exists e2. split; [exact Hquiet|]. now destruct Hquiet.
Defined.


Lemma replay_returns {T} (invoke : Action T -> M (Engine T) unit)
    (mode_ : BacktestingMode) (history : list HistoryData) :
  forall e, fst (replay invoke mode_ history e) = Ok tt.
Proof.
  induction history as [|data history IH]; intros e; [reflexivity|].
  cbn [replay]. unfold bind, attempt.
  destruct (new_data invoke mode_ data e) as [[[]|ex] e1]; [apply IH | reflexivity].
Qed.

Lemma warm_up_returns {T} (invoke : Action T -> M (Engine T) unit)
    (history : list HistoryData) :
  forall ix last_ix day_count e,
    exists w, fst (warm_up invoke history ix last_ix day_count e) = Ok w.
Proof.
  induction history as [|data history IH]; intros ix last_ix day_count e.
  - eexists. reflexivity.
  - cbn [warm_up]. mstep.
    match goal with |- context [if ?c then _ else _] => destruct c end.
    + eexists. reflexivity.
    + mstep.
      match goal with |- context [bind (attempt ?m) ?k ?s] =>
        destruct (attempt_inv m s _ _ (surjective_pairing (attempt m s)))
          as (r & Hr & Hm);
        rewrite (bind_Ok (attempt m) k s r (snd (attempt m s)))
          by (rewrite <- Hr; apply surjective_pairing)
      end.
      destruct r as [[]|ex]; [apply IH | eexists; reflexivity].
Qed.

(** X10. [run_backtesting] raises only what [on_init] or [on_start] raise.
    The two loops never raise: an exception from a warm-up callback or from
    a data point of the run phase ends the run with a normal return, and the
    data points after it are not processed. *)
Theorem run_backtesting_raises {T} (depth : nat) (e : Engine T) (ex : exn) :
  fst (run_backtesting depth e) = Raise ex ->
  fst (call depth (on_init (strategy e)) e) = Raise ex \/
  exists e1, inited e1 = true /\
             fst (call depth (on_start (strategy e)) e1) = Raise ex.
Proof.
  unfold run_backtesting. mstep.
  destruct (call depth (on_init (strategy e)) e) as [[[]|ex0] e1] eqn:Hinit.
  2:{ erewrite bind_Raise by exact Hinit. cbn. auto. }
  erewrite bind_Ok by exact Hinit. mstep.
  destruct (warm_up_returns (call depth) (history_data e1) 0 0 0 e1) as (w & Hw).
  destruct (warm_up (call depth) (history_data e1) 0 0 0 e1) as [o ea] eqn:Hrun.
  cbn in Hw. subst o. erewrite bind_Ok by exact Hrun.
  destruct w as [ix|]; [|discriminate]. mstep.
  destruct (call depth (on_start (strategy e)) (set_inited true ea))
    as [[[]|ex1] e2] eqn:Hstart.
  - erewrite bind_Ok by exact Hstart. mstep. rewrite replay_returns. discriminate.
  - erewrite bind_Raise by exact Hstart. cbn. intros H. right.
    exists (set_inited true ea). rewrite Hstart. split; [reflexivity | exact H].
Qed.

Lemma run_backtesting_raises_witness :
  let e := new_engine BAR 1 failing_start_strategy tt [BarItem bar_S1; BarItem bar_S3] in
  fst (call 3 (on_init (strategy e)) e) = Raise (StrategyError "on_start"%string) \/
  exists e1, inited e1 = true /\
             fst (call 3 (on_start (strategy e)) e1)
             = Raise (StrategyError "on_start"%string).
Proof.
  intros e. apply (run_backtesting_raises 3 e). vm_compute. reflexivity.
Defined.


(** ** Cancellation *)

Section BookFacts.
Context {A : Type} (cancelled : A -> A) (sent : A -> Prop).

(** An object that stays in a book and is not active is left as it is. *)
Lemma book_evolves_inactive count store active count' store' active' (n : N) (a : A) :
  book_evolves cancelled sent count store active count' store' active' ->
  store !! n = Some a -> ~ In n active ->
  store' !! n = Some a /\ ~ In n active'.
Proof using Type.
  intros (_ & Hold & _) Ha Hnin.
  destruct (Hold n a Ha) as [[Hs Hact]|(_ & Hin & _)]; [|contradiction].
  split; [exact Hs | now rewrite Hact].
Qed.

(** An object that was active and is not any more has been cancelled. *)
Lemma book_evolves_cancelled count store active count' store' active' (n : N) (a : A) :
  book_evolves cancelled sent count store active count' store' active' ->
  store !! n = Some a -> In n active -> ~ In n active' ->
  store' !! n = Some (cancelled a).
Proof using Type.
  intros (_ & Hold & _) Ha Hin Hnin.
  destruct (Hold n a Ha) as [[Hs Hact]|(Hs & _)]; [|exact Hs].
  apply Hact in Hin. contradiction.
Qed.

Lemma book_evolves_stays count store active count' store' active' (n : N) :
  book_evolves cancelled sent count store active count' store' active' ->
  is_Some (store !! n) -> is_Some (store' !! n).
Proof using Type.
  intros (_ & Hold & _) [a Ha].
  destruct (Hold n a Ha) as [[Hs _]|(Hs & _)]; rewrite Hs; eauto.
Qed.

End BookFacts.

Lemma cancel_limit_order_inactive {T} (depth : nat) (n : N) (e e' : Engine T) out :
  books_wf e -> cancel_limit_order (call depth) n e = (out, e') ->
  ~ In n (active_limit_orders e') /\
  (~ In n (active_limit_orders e) -> out = Ok tt /\ e' = e).
Proof.
  intros Hwf Hrun. destruct (mem n (active_limit_orders e)) eqn:Hmem.
  - apply mem_In in Hmem. split; [|contradiction].
    destruct (proj1 (proj2 (proj1 Hwf)) n Hmem) as [o Ho].
    now destruct (cancel_limit_order_spec _ _ _ _ _ _ Hwf Hmem Ho Hrun) as (_ & _ & H).
  - unfold cancel_limit_order in Hrun. revert Hrun. mstep. rewrite Hmem. cbn.
    intros H. injection H as <- <-. apply mem_not_In in Hmem. auto.
Qed.

Lemma cancel_stop_order_inactive {T} (depth : nat) (n : N) (e e' : Engine T) out :
  books_wf e -> cancel_stop_order (call depth) n e = (out, e') ->
  ~ In n (active_stop_orders e') /\
  (~ In n (active_stop_orders e) -> out = Ok tt /\ e' = e).
Proof.
  intros Hwf Hrun. destruct (mem n (active_stop_orders e)) eqn:Hmem.
  - apply mem_In in Hmem. split; [|contradiction].
    destruct Hwf as [Hl (Hkeys & Hact & Hnd)].
    destruct (Hact n Hmem) as [so Hso].
    unfold cancel_stop_order, stop_order_of, write_stop_order in Hrun.
    revert Hrun. mstep. pose proof Hmem as Hmem'. apply mem_In in Hmem'.
    rewrite Hmem'. cbn [negb]. mstep. rewrite Hso. mstep. esimpl. intros Hrun.
    match type of Hrun with call _ _ ?e1' = _ => set (e1 := e1') in * end.
    assert (Hwf1 : books_wf e1).
    { split; [exact Hl|]. subst e1. esimpl.
      eapply book_pop, book_write; eauto. split; [|split]; assumption. }
    destruct (call_books _ _ _ _ _ Hwf1 Hrun) as [Hwf' [_ Hev]].
    eapply (book_evolves_inactive _ _ _ _ _ _ _ _ n) in Hev as [_ Hnin];
      [exact Hnin | subst e1; esimpl; apply lookup_insert_eq |].
    subst e1. esimpl. rewrite dict_pop_In. tauto.
  - unfold cancel_stop_order in Hrun. revert Hrun. mstep. rewrite Hmem. cbn.
    intros H. injection H as <- <-. apply mem_not_In in Hmem. auto.
Qed.

(** X11. Cancelling an order that is not in its active book (an identifier
    never handed out, an order filled or cancelled before) does nothing and
    calls no callback, and after a [cancel_order], however it ended, the
    order is out of its active book: a second [cancel_order] of the same
    identifier does nothing. *)
Theorem cancel_order_once {T} (depth : nat) (vt_orderid : OrderId)
    (e e' : Engine T) (out : outcome unit) :
  books_wf e ->
  cancel_order (call depth) vt_orderid e = (out, e') ->
  cancel_order (call depth) vt_orderid e' = (Ok tt, e') /\
  match vt_orderid with
  | LimitId n =>
      ~ In n (active_limit_orders e') /\
      (~ In n (active_limit_orders e) -> out = Ok tt /\ e' = e)
  | StopId n =>
      ~ In n (active_stop_orders e') /\
      (~ In n (active_stop_orders e) -> out = Ok tt /\ e' = e)
  end.
Proof.
  intros Hwf Hrun. destruct vt_orderid as [n|n]; cbn [cancel_order] in *.
  - destruct (cancel_limit_order_inactive _ _ _ _ _ Hwf Hrun) as [Hnin Hnop].
    split; [|split; assumption].
    unfold cancel_limit_order. mstep. apply mem_not_In in Hnin. now rewrite Hnin.
  - destruct (cancel_stop_order_inactive _ _ _ _ _ Hwf Hrun) as [Hnin Hnop].
    split; [|split; assumption].
    unfold cancel_stop_order. mstep. apply mem_not_In in Hnin. now rewrite Hnin.
Qed.

Lemma cancel_order_once_witness :
  let e' := snd (cancel_order (call 3) (LimitId 1) engine_S2) in
  cancel_order (call 3) (LimitId 1) e' = (Ok tt, e') /\
  ~ In 1%N (active_limit_orders e').
Proof.
  intros e'.
  destruct (cancel_order_once 3 (LimitId 1) engine_S2 e'
              (fst (cancel_order (call 3) (LimitId 1) engine_S2)))
    as (H1 & H2 & _).
  - apply books_wf_after, books_wf_trading_engine.
  - apply surjective_pairing.
  - split; assumption.
Defined.


Lemma cancel_limit_loop {T} (depth : nat) (l : list N) : forall e e' : Engine T,
  books_wf e ->
  (forall n, In n l -> is_Some (limit_orders e !! n)) ->
  for_each l (cancel_limit_order (call depth)) e = (Ok tt, e') ->
  books_wf e' /\ books_evolve e e' /\
  forall n, In n l -> ~ In n (active_limit_orders e').
Proof.
  induction l as [|n l IH]; intros e e' Hwf Hstore Hrun.
  - cbn in Hrun. injection Hrun as <-.
    split; [exact Hwf|]. split; [apply books_evolve_refl | intros n []].
  - cbn [for_each] in Hrun. apply bind_inv_Ok in Hrun as ([] & e1 & Hone & Hrun).
    destruct (step_run _ _ _ _ _ _
                (cancel_limit_order_books _ (call_books_step depth) n) Hwf Hone)
      as [Hwf1 Hev1].
    destruct (cancel_limit_order_inactive _ _ _ _ _ Hwf Hone) as [Hnin1 _].
    assert (Hstore1 : forall m, In m (n :: l) -> is_Some (limit_orders e1 !! m)).
    { intros m Hm. eapply book_evolves_stays; [exact (proj1 Hev1) | auto]. }
    destruct (IH e1 e' Hwf1 (fun m Hm => Hstore1 m (or_intror Hm)) Hrun)
      as (Hwf' & Hev' & Hall).
    split; [exact Hwf'|]. split; [eapply books_evolve_trans; eassumption|].
    intros m [<-|Hm]; [|now apply Hall].
    destruct (Hstore1 n (or_introl eq_refl)) as [o Ho].
    eapply book_evolves_inactive; [exact (proj1 Hev') | exact Ho | exact Hnin1].
Qed.

Lemma cancel_stop_loop {T} (depth : nat) (l : list N) : forall e e' : Engine T,
  books_wf e ->
  (forall n, In n l -> is_Some (stop_orders e !! n)) ->
  for_each l (cancel_stop_order (call depth)) e = (Ok tt, e') ->
  books_wf e' /\ books_evolve e e' /\
  forall n, In n l -> ~ In n (active_stop_orders e').
Proof.
  induction l as [|n l IH]; intros e e' Hwf Hstore Hrun.
  - cbn in Hrun. injection Hrun as <-.
    split; [exact Hwf|]. split; [apply books_evolve_refl | intros n []].
  - cbn [for_each] in Hrun. apply bind_inv_Ok in Hrun as ([] & e1 & Hone & Hrun).
    destruct (step_run _ _ _ _ _ _
                (cancel_stop_order_books _ (call_books_step depth) n) Hwf Hone)
      as [Hwf1 Hev1].
    destruct (cancel_stop_order_inactive _ _ _ _ _ Hwf Hone) as [Hnin1 _].
    assert (Hstore1 : forall m, In m (n :: l) -> is_Some (stop_orders e1 !! m)).
    { intros m Hm. eapply book_evolves_stays; [exact (proj2 Hev1) | auto]. }
    destruct (IH e1 e' Hwf1 (fun m Hm => Hstore1 m (or_intror Hm)) Hrun)
      as (Hwf' & Hev' & Hall).
    split; [exact Hwf'|]. split; [eapply books_evolve_trans; eassumption|].
    intros m [<-|Hm]; [|now apply Hall].
    destruct (Hstore1 n (or_introl eq_refl)) as [o Ho].
    eapply book_evolves_inactive; [exact (proj2 Hev') | exact Ho | exact Hnin1].
Qed.

(** X12. A [cancel_all] that returns has cancelled every limit order and
    every stop order that was active when it was called: each is out of its
    active book and its status is Cancelled, whatever the callbacks did
    meanwhile.  Only orders that a callback sends during the cancellation
    can be active afterwards. *)
Theorem cancel_all_cancels_the_active_orders {T} (depth : nat) (e e' : Engine T) :
  books_wf e ->
  cancel_all (call depth) e = (Ok tt, e') ->
  (forall n o, In n (active_limit_orders e) -> limit_orders e !! n = Some o ->
     limit_orders e' !! n = Some (set_status CANCELLED o) /\
     ~ In n (active_limit_orders e')) /\
  (forall n so, In n (active_stop_orders e) -> stop_orders e !! n = Some so ->
     stop_orders e' !! n = Some (set_stop_status STOP_CANCELLED so) /\
     ~ In n (active_stop_orders e')) /\
  (forall n, In n (active_limit_orders e') -> (limit_order_count e < n)%N) /\
  (forall n, In n (active_stop_orders e') -> (stop_order_count e < n)%N).
Proof.
  intros Hwf Hrun. unfold cancel_all in Hrun. revert Hrun. mstep. intros Hrun.
  apply bind_inv_Ok in Hrun as ([] & e1 & Hlimit & Hrun). revert Hrun. mstep.
  intros Hstop.
  destruct (cancel_limit_loop depth _ e e1 Hwf (proj1 (proj2 (proj1 Hwf))) Hlimit)
    as (Hwf1 & Hev1 & Hall1).
  destruct (cancel_stop_loop depth _ e1 e' Hwf1 (proj1 (proj2 (proj2 Hwf1))) Hstop)
    as (Hwf' & Hev' & Hall').
  pose proof (books_evolve_trans _ _ _ Hev1 Hev') as Hev.
  assert (Hlim : forall n o, In n (active_limit_orders e) ->
                             limit_orders e !! n = Some o ->
                             ~ In n (active_limit_orders e')).
  { intros n o Hin Ho.
    destruct (book_evolves_stays _ _ _ _ _ _ _ _ n (proj1 Hev1)) as [o1 Ho1]; [eauto|].
    eapply book_evolves_inactive; [exact (proj1 Hev') | exact Ho1 | now apply Hall1]. }
  assert (Hst : forall n so, In n (active_stop_orders e) ->
                             stop_orders e !! n = Some so ->
                             ~ In n (active_stop_orders e')).
  { intros n so Hin Hso.
    destruct (book_evolves_stays _ _ _ _ _ _ _ _ n (proj2 Hev1)) as [so1 Hso1]; [eauto|].
    destruct (in_dec N.eq_dec n (active_stop_orders e1)) as [Hin1|Hnin1].
    - now apply Hall'.
    - eapply book_evolves_inactive; [exact (proj2 Hev') | exact Hso1 | exact Hnin1]. }
  split; [|split; [|split]].
  - intros n o Hin Ho. split; [|eapply Hlim; eauto].
    eapply book_evolves_cancelled; [exact (proj1 Hev) | exact Ho | exact Hin |].
    eapply Hlim; eauto.
  - intros n so Hin Hso. split; [|eapply Hst; eauto].
    eapply book_evolves_cancelled; [exact (proj2 Hev) | exact Hso | exact Hin |].
    eapply Hst; eauto.
  - intros n Hin'.
    destruct (limit_orders e !! n) as [o|] eqn:Ho.
    + exfalso. destruct (proj1 Hev) as (_ & Hold & _).
      destruct (Hold n o Ho) as [[_ Hact]|(_ & _ & Hnin)]; [|contradiction].
      exact (Hlim n o (proj1 Hact Hin') Ho Hin').
    + destruct (proj1 (proj2 (proj1 Hwf')) n Hin') as [o' Ho'].
      destruct (proj1 Hev) as (_ & _ & Hnew). now destruct (Hnew n o' Ho Ho').
  - intros n Hin'.
    destruct (stop_orders e !! n) as [so|] eqn:Hso.
    + exfalso. destruct (proj2 Hev) as (_ & Hold & _).
      destruct (Hold n so Hso) as [[_ Hact]|(_ & _ & Hnin)]; [|contradiction].
      exact (Hst n so (proj1 Hact Hin') Hso Hin').
    + destruct (proj1 (proj2 (proj2 Hwf')) n Hin') as [so' Hso'].
      destruct (proj2 Hev) as (_ & _ & Hnew). now destruct (Hnew n so' Hso Hso').
Qed.

Lemma cancel_all_cancels_the_active_orders_witness :
  exists o,
    limit_orders (snd (cancel_all (call 3) engine_limit_and_stop)) !! 1%N = Some o /\
    status o = CANCELLED.
Proof.
  destruct (cancel_all_cancels_the_active_orders 3 engine_limit_and_stop
              (snd (cancel_all (call 3) engine_limit_and_stop))) as (H & _).
  - apply books_wf_after, books_wf_trading_engine.
  - vm_compute. reflexivity.
  - destruct (H 1%N order_S2) as [Ho _].
    + vm_compute. left. reflexivity.
    + vm_compute. reflexivity.
    + eexists. split; [exact Ho | reflexivity].
Defined.


(** ** The ledger and the position *)

(** X13. A data point of the run phase that is processed without an
    exception keeps the position of the strategy equal to the net signed
    volume of the ledger (long volumes less short volumes): every fill
    appends one trade and moves the position by the signed volume of that
    trade, and nothing else moves the position. *)
Theorem position_is_net_volume {T} (depth : nat) (data : HistoryData)
    (e e' : Engine T) :
  books_wf e ->
  pos e = sum_signed_volume (trades e) 0 ->
  new_data (call depth) (mode e) data e = (Ok tt, e') ->
  pos e' = sum_signed_volume (trades e') 0.
Proof.
  intros Hwf Hpos Hrun. unfold new_data in Hrun.
  assert (Hsteps : exists (e1 e2 : Engine T) limit_fills stop_fills,
             trades e1 = trades e ++ limit_fills /\
             trades e2 = trades e1 ++ stop_fills /\
             pos e2 = sum_signed_volume (limit_fills ++ stop_fills) (pos e) /\
             pos e' = pos e2 /\ trades e' = trades e2).
  { destruct (mode e) eqn:Hmode, data as [b|t]; try discriminate.
    - destruct (data_point_steps depth
                  (fun e => set_datetime (Some (bar_datetime b)) (set_bar (Some b) e))
                  (bar_callback (call depth) b) (bar_close_price b) e e')
        as (e1 & e2 & e3 & lf & sf & _ & _ & _ & _ & H1 & _ & H2 & _ & H3 & _ & _ & H4 & H5);
        [exact Hwf | intros e0; repeat split | apply bar_callback_frame | |
         exists e1, e2, lf, sf; auto].
      unfold new_bar in Hrun. revert Hrun. mstep. intros Hrun. mstep. exact Hrun.
    - destruct (data_point_steps depth
                  (fun e => set_datetime (Some (tick_datetime t)) (set_tick (Some t) e))
                  (s <- gets strategy ;; call depth (on_tick s t)) (last_price t) e e')
        as (e1 & e2 & e3 & lf & sf & _ & _ & _ & _ & H1 & _ & H2 & _ & H3 & _ & _ & H4 & H5);
        [exact Hwf | intros e0; repeat split
        | frame_step; apply call_frame_step | |
         exists e1, e2, lf, sf; auto].
      unfold new_tick in Hrun. revert Hrun. mstep. intros Hrun. mstep. exact Hrun. }
  destruct Hsteps as (e1 & e2 & lf & sf & H1 & H2 & H3 & H4 & H5).
  rewrite H4, H5, H2, H1, H3, Hpos, <- app_assoc.
  now rewrite <- sum_signed_volume_app.
Qed.

Lemma position_is_net_volume_witness :
  let e' := snd (new_data (call 3) BAR (BarItem bar_S3) engine_limit_and_stop) in
  pos e' = sum_signed_volume (trades e') 0.
Proof.
  intros e'.
  apply (position_is_net_volume 3 (BarItem bar_S3) engine_limit_and_stop).
  - apply books_wf_after, books_wf_trading_engine.
  - vm_compute. reflexivity.
  - vm_compute. reflexivity.
Defined.


(** ** The invariant of the ledger *)

Lemma step_of_triple {St A} (I : St -> Prop) (m : M St A) :
  triple I m (fun _ => I) I -> step I any_change m.
Proof.
  intros H s Hs. specialize (H s Hs). unfold any_change.
  destruct (m s) as [[a|ex] s']; cbn; auto.
Qed.

Lemma triple_of_any_step {St A} (I : St -> Prop) (m : M St A) :
  step I any_change m -> triple I m (fun _ => I) I.
Proof.
  intros H s Hs. destruct (H s Hs) as [HI _].
  destruct (m s) as [[a|ex] s']; exact HI.
Qed.

Lemma any_change_refl {St} (s : St) : any_change s s.
Proof. exact Logic.I. Qed.

Lemma any_change_trans {St} (s1 s2 s3 : St) :
  any_change s1 s2 -> any_change s2 s3 -> any_change s1 s3.
Proof. intros _ _. exact Logic.I. Qed.

Ltac inv_step :=
  match goal with
  | |- @step ?St _ _ _ _ => step_tac (@any_change_refl St) (@any_change_trans St)
  end.

(** A change that leaves the books and the ledger alone keeps the
    invariant. *)
Lemma run_inv_same {T} (e e' : Engine T) :
  limit_order_count e' = limit_order_count e ->
  limit_orders e' = limit_orders e ->
  active_limit_orders e' = active_limit_orders e ->
  stop_order_count e' = stop_order_count e ->
  stop_orders e' = stop_orders e ->
  active_stop_orders e' = active_stop_orders e ->
  trade_count e' = trade_count e -> trades e' = trades e ->
  run_inv e -> run_inv e'.
Proof.
  intros H1 H2 H3 H4 H5 H6 H7 H8 [Hwf Hl].
  split; [eapply books_same; eauto|].
  unfold ledger_wf. rewrite H1, H3, H7, H8. exact Hl.
Qed.

Lemma ledger_wf_evolve {T} (e e' : Engine T) :
  books_wf e' -> books_evolve e e' ->
  trade_count e' = trade_count e -> trades e' = trades e ->
  ledger_wf e -> ledger_wf e'.
Proof.
  intros Hwf' [(Hc & Hold & Hnew) _] Htc Htr (H1 & H2 & H3 & H4).
  unfold ledger_wf. rewrite Htc, Htr.
  split; [exact H1|]. split; [exact H2|]. split; [exact H3|].
  eapply List.Forall_impl; [|exact H4]. cbn. intros t [Hle Hnin].
  split; [lia|]. intros Hin'.
  destruct (proj1 (proj2 (proj1 Hwf')) _ Hin') as [o' Ho'].
  destruct (limit_orders e !! trade_orderid t) as [o|] eqn:Ho.
  - destruct (Hold _ o Ho) as [[_ Hact]|(_ & _ & Hnin')]; [|contradiction].
    apply Hnin, Hact, Hin'.
  - destruct (Hnew _ o' Ho Ho') as [Hlt _]. lia.
Qed.

Lemma call_run_inv {T} (depth : nat) (a : Action T) :
  triple run_inv (call depth a) (fun _ => run_inv) run_inv.
Proof.
  intros e [Hwf Hl].
  destruct (call depth a e) as [out e'] eqn:Hrun.
  destruct (call_books _ _ _ _ _ Hwf Hrun) as [Hwf' Hev].
  destruct (call_frame _ _ _ _ _ Hrun) as [? ? ? ? ? ? ? ? ? ? Htc Htr ?].
  assert (H : run_inv e').
  { split; [exact Hwf'|]. eapply ledger_wf_evolve; eauto. }
  destruct out; exact H.
Qed.

Lemma call_run_step {T} (depth : nat) (a : Action T) :
  step run_inv any_change (call depth a).
Proof. apply step_of_triple, call_run_inv. Qed.

Lemma modify_run_step {T} (f : Engine T -> Engine T) :
  (forall e,
     limit_order_count (f e) = limit_order_count e /\
     limit_orders (f e) = limit_orders e /\
     active_limit_orders (f e) = active_limit_orders e /\
     stop_order_count (f e) = stop_order_count e /\
     stop_orders (f e) = stop_orders e /\
     active_stop_orders (f e) = active_stop_orders e /\
     trade_count (f e) = trade_count e /\ trades (f e) = trades e) ->
  step run_inv any_change (modify f).
Proof.
  intros H. apply step_modify. intros e He. split; [|exact Logic.I].
  destruct (H e) as (? & ? & ? & ? & ? & ? & ? & ?).
  eapply run_inv_same; eauto.
Qed.


Lemma write_limit_run_inv {T} (e : Engine T) n o o' :
  run_inv e -> limit_orders e !! n = Some o -> orderid o' = orderid o ->
  run_inv (set_limit_orders (<[n := o']> (limit_orders e)) e).
Proof.
  intros [Hwf Hl] Ho Hid. split; [eapply write_limit_order_wf; eauto|exact Hl].
Qed.

Lemma ledger_wf_append {T} (e : Engine T) (t : TradeData) :
  trade_count e = (N.of_nat (length (trades e)) + 1)%N ->
  map tradeid (trades e) = map N.of_nat (seq 1 (length (trades e))) ->
  List.NoDup (map trade_orderid (trades e)) ->
  Forall (fun t => (trade_orderid t <= limit_order_count e)%N /\
                   ~ In (trade_orderid t) (active_limit_orders e)) (trades e) ->
  tradeid t = trade_count e ->
  ~ In (trade_orderid t) (map trade_orderid (trades e)) ->
  (trade_orderid t <= limit_order_count e)%N ->
  ~ In (trade_orderid t) (active_limit_orders e) ->
  ledger_wf (set_trades (trades e ++ [t]) e).
Proof.
  intros Hc Hids Hnd Hall Hid Hfresh Hle Hnin. unfold ledger_wf. esimpl.
  rewrite length_app, !map_app. cbn [length map].
  split; [rewrite Hc; lia|]. split; [|split].
  - rewrite Nat.add_1_r, seq_S, map_app, <- Hids. cbn [map]. f_equal. f_equal.
    rewrite Hid, Hc. lia.
  - apply List.NoDup_app;
      [exact Hnd | constructor; [intros []|constructor]
      | intros x Hx [<-|[]]; contradiction].
  - apply Forall_app. split; [exact Hall|]. constructor; [auto|constructor].
Qed.

Lemma cross_limit_notify_run {T} (depth : nat) (n : N) :
  triple (@run_inv T) (cross_limit_notify (call depth) n) (fun _ => run_inv) run_inv.
Proof.
  unfold cross_limit_notify.
  eapply triple_bind; [apply limit_order_of_triple; auto|]. intros o.
  destruct (Status_eqb (status o) SUBMITTING); cbn [when].
  - unfold write_limit_order.
    eapply triple_bind with (Q' := fun _ => run_inv).
    + apply triple_modify. intros e [Hinv Ho].
      eapply write_limit_run_inv; eauto.
    + intros ?. eapply triple_bind; [apply triple_gets|]. intros s.
      intros e [He _]. revert e He. apply call_run_inv.
  - apply triple_ret. tauto.
Qed.

Lemma cross_limit_match_run {T} (depth : nat) (p : CrossPrices) (n : N) :
  triple (@run_inv T) (cross_limit_match (call depth) p n) (fun _ => run_inv) run_inv.
Proof.
  unfold cross_limit_match.
  eapply triple_bind; [apply limit_order_of_triple; auto|].
  intros o. cbn beta.
  destruct (negb (limit_long_cross p o) && negb (limit_short_cross p o)).
  { apply triple_ret. tauto. }
  unfold write_limit_order, pop_active_limit_order.
  eapply triple_bind with (Q' := fun _ e => run_inv e /\ orderid o = n).
  { apply triple_modify. intros e [Hinv Ho]. split.
    - eapply write_limit_run_inv; eauto.
    - now destruct (proj1 (proj1 (proj1 Hinv)) n o Ho). }
  intros ?. eapply triple_bind; [apply triple_gets|]. intros s.
  eapply triple_bind with (Q' := fun _ e => run_inv e /\ orderid o = n).
  { intros e [[He Hid] _]. pose proof (call_run_inv depth (on_order s
      (set_status ALLTRADED (set_traded (volume o) o))) e He) as H.
    destruct (call depth _ e) as [[[]|ex] e1]; auto. }
  intros ?.
  eapply triple_bind with
    (Q' := fun _ e => run_inv e /\ orderid o = n /\
                      ~ In n (map trade_orderid (trades e)) /\
                      (n <= limit_order_count e)%N /\
                      ~ In n (active_limit_orders e)).
  { eapply triple_bind; [apply triple_get|]. intros e0. cbn beta.
    destruct (mem n (active_limit_orders e0)) eqn:Hmem.
    - apply triple_modify. intros e [[[Hwf Hl] Hid] ->]. apply mem_In in Hmem.
      destruct Hl as (H1 & H2 & H3 & H4).
      assert (Hfresh : ~ In n (map trade_orderid (trades e))).
      { intros Hin. apply in_map_iff in Hin as (t & <- & Ht).
        rewrite List.Forall_forall in H4. now destruct (H4 t Ht). }
      destruct (proj1 (proj2 (proj1 Hwf)) n Hmem) as [o' Ho'].
      destruct (proj1 (proj1 Hwf) n o' Ho') as [Hle _].
      split; [split; [now apply dict_pop_wf|]|]; esimpl.
      + unfold ledger_wf. esimpl. repeat split; try assumption.
        eapply List.Forall_impl; [|exact H4]. cbn. intros t [? Hn].
        split; [assumption|]. rewrite dict_pop_In. tauto.
      + repeat split; try assumption. rewrite dict_pop_In. tauto.
    - apply triple_raise. tauto. }
  intros ?.
  eapply triple_bind with
    (Q' := fun _ e => books_wf e /\ orderid o = n /\
                      trade_count e = (N.of_nat (length (trades e)) + 1)%N /\
                      map tradeid (trades e) = map N.of_nat (seq 1 (length (trades e))) /\
                      List.NoDup (map trade_orderid (trades e)) /\
                      Forall (fun t => (trade_orderid t <= limit_order_count e)%N /\
                                ~ In (trade_orderid t) (active_limit_orders e))
                        (trades e) /\
                      ~ In n (map trade_orderid (trades e)) /\
                      (n <= limit_order_count e)%N /\
                      ~ In n (active_limit_orders e)).
  { apply triple_modify.
    intros e ([Hwf (H1 & H2 & H3 & H4)] & Hid & Hfresh & Hle & Hnin). esimpl.
    split; [exact Hwf|]. repeat split; try assumption. now rewrite H1. }
  intros ?. eapply triple_bind; [apply triple_get|]. intros e0. cbn beta.
  eapply triple_bind with (Q' := fun _ => run_inv).
  { apply triple_modify.
    intros e [(Hwf & Hid & H1 & H2 & H3 & H4 & Hfresh & Hle & Hnin) ->].
    split; [exact Hwf|]. apply ledger_wf_append; cbn; auto; now rewrite Hid. }
  intros ?. eapply triple_bind with (Q' := fun _ => run_inv).
  { apply triple_modify. intros e H. exact H. }
  intros ?. apply call_run_inv.
Qed.


Lemma cross_stop_one_run {T} (depth : nat) (p : CrossPrices) (n : N) :
  triple (@run_inv T) (cross_stop_one (call depth) p n) (fun _ => run_inv) run_inv.
Proof.
  unfold cross_stop_one.
  eapply triple_bind; [apply stop_order_of_triple; auto|].
  intros so. cbn beta.
  destruct (negb (stop_long_cross p so) && negb (stop_short_cross p so)).
  { apply triple_ret. tauto. }
  unfold write_limit_order, write_stop_order.
  eapply triple_bind with
    (Q' := fun _ e => exists e0, run_inv e0 /\ stop_orders e0 !! n = Some so /\
                       e = set_limit_order_count (limit_order_count e0 + 1) e0).
  { apply triple_modify. intros e [He Hso]. eauto. }
  intros ?. eapply triple_bind; [apply triple_get|]. intros e1. cbn beta.
  eapply triple_bind with
    (Q' := fun _ e => run_inv e /\ stop_orders e !! n = Some so /\
                      limit_order_count e = limit_order_count e1 /\
                      ~ In (limit_order_count e1) (map trade_orderid (trades e)) /\
                      ~ In (limit_order_count e1) (active_limit_orders e)).
  { apply triple_modify.
    intros e [(e0 & [[Hl Hs] (H1 & H2 & H3 & H4)] & Hso & ->) ->]. esimpl.
    destruct (book_wf_fresh orderid _ _ _ (limit_order_count e0 + 1)%N Hl)
      as [Hnone Hnin]; [lia|].
    assert (Hfresh : ~ In (limit_order_count e0 + 1)%N (map trade_orderid (trades e0))).
    { intros Hin. apply in_map_iff in Hin as (t & Heq & Ht).
      rewrite List.Forall_forall in H4. destruct (H4 t Ht) as [Hle _]. lia. }
    split; [split; [split; [|exact Hs]|]|]; esimpl.
    - now apply book_new.
    - unfold ledger_wf. esimpl. repeat split; try assumption.
      eapply List.Forall_impl; [|exact H4]. cbn. intros t [Hle Hn]. split; [lia|exact Hn].
    - repeat split; assumption. }
  intros ?.
  eapply triple_bind with
    (Q' := fun _ e => books_wf e /\ stop_orders e !! n = Some so /\
                      limit_order_count e = limit_order_count e1 /\
                      trade_count e = (N.of_nat (length (trades e)) + 1)%N /\
                      map tradeid (trades e) = map N.of_nat (seq 1 (length (trades e))) /\
                      List.NoDup (map trade_orderid (trades e)) /\
                      Forall (fun t => (trade_orderid t <= limit_order_count e)%N /\
                                ~ In (trade_orderid t) (active_limit_orders e))
                        (trades e) /\
                      ~ In (limit_order_count e1) (map trade_orderid (trades e)) /\
                      ~ In (limit_order_count e1) (active_limit_orders e)).
  { apply triple_modify.
    intros e ([Hwf (H1 & H2 & H3 & H4)] & Hso & Hc & Hfresh & Hnin). esimpl.
    split; [exact Hwf|]. repeat split; try assumption. now rewrite H1. }
  intros ?. eapply triple_bind; [apply triple_get|]. intros e2. cbn beta.
  eapply triple_bind with
    (Q' := fun _ e => run_inv e /\ stop_orders e !! n = Some so).
  { apply triple_modify.
    intros e [(Hwf & Hso & Hc & H1 & H2 & H3 & H4 & Hfresh & Hnin) ->]. esimpl.
    split; [|exact Hso]. split; [exact Hwf|].
    apply ledger_wf_append; cbn; auto. rewrite Hc. lia. }
  intros ?. eapply triple_bind with (Q' := fun _ => run_inv).
  { apply triple_modify. intros e [[[Hl Hs] Hled] Hso].
    split; [split; [exact Hl|]|exact Hled]. esimpl.
    eapply book_write; eauto. }
  intros ?. eapply triple_bind with (Q' := fun _ => run_inv).
  { apply triple_modify. intros e [[Hl Hs] Hled].
    destruct (mem n (active_stop_orders e)); [|split; [split|]; assumption].
    split; [split; [exact Hl | now apply book_pop]|exact Hled]. }
  intros ?. eapply triple_bind; [apply triple_gets|]. intros s.
  eapply triple_bind with (Q' := fun _ => run_inv).
  { intros e [He _]. revert e He. apply call_run_inv. }
  intros ?. eapply triple_bind; [apply call_run_inv|].
  intros ?. eapply triple_bind with (Q' := fun _ => run_inv).
  { apply triple_modify. intros e H. exact H. }
  intros ?. apply call_run_inv.
Qed.

Lemma cross_prices_run_step {T} :
  step (@run_inv T) any_change limit_cross_prices /\
  step (@run_inv T) any_change stop_cross_prices.
Proof.
  split; intros e He.
  - destruct (limit_cross_prices e) as [out e'] eqn:H.
    apply limit_cross_prices_state in H. subst e'. split; [exact He | exact Logic.I].
  - destruct (stop_cross_prices e) as [out e'] eqn:H.
    apply stop_cross_prices_state in H. subst e'. split; [exact He | exact Logic.I].
Qed.

Ltac run_leaf :=
  match goal with
  | |- step _ _ (call _ _) => apply call_run_step
  | |- step _ _ (modify _) => apply modify_run_step; intros ?; repeat split
  | |- step _ _ (cross_limit_notify _ _) => apply step_of_triple, cross_limit_notify_run
  | |- step _ _ (cross_limit_match _ _ _) => apply step_of_triple, cross_limit_match_run
  | |- step _ _ (cross_stop_one _ _ _) => apply step_of_triple, cross_stop_one_run
  | |- step _ _ limit_cross_prices => apply (proj1 cross_prices_run_step)
  | |- step _ _ stop_cross_prices => apply (proj2 cross_prices_run_step)
  end.

(** A data point keeps the invariant, however it ends. *)
Lemma new_data_run_step {T} (depth : nat) (mode_ : BacktestingMode)
    (data : HistoryData) :
  step (@run_inv T) any_change (new_data (call depth) mode_ data).
Proof.
  unfold new_data, new_bar, new_tick, cross_limit_order, cross_limit_one,
    cross_stop_order, bar_callback, update_daily_close.
  inv_step; run_leaf.
Qed.

Lemma replay_run_step {T} (depth : nat) (mode_ : BacktestingMode)
    (history : list HistoryData) :
  step (@run_inv T) any_change (replay (call depth) mode_ history).
Proof.
  induction history as [|data history IH]; cbn [replay]; inv_step;
    [apply new_data_run_step | exact IH].
Qed.

Lemma warm_up_run_step {T} (depth : nat) (history : list HistoryData) :
  forall ix last_ix day_count,
    step (@run_inv T) any_change (warm_up (call depth) history ix last_ix day_count).
Proof.
  induction history as [|data history IH]; intros ix last_ix day_count;
    cbn [warm_up]; inv_step; try run_leaf; apply IH.
Qed.

Lemma run_backtesting_run_step {T} (depth : nat) :
  step (@run_inv T) any_change (run_backtesting depth).
Proof.
  unfold run_backtesting. inv_step;
    first [run_leaf | apply warm_up_run_step | apply replay_run_step].
Qed.

Lemma run_inv_new_engine {T} mode_ pricetick_ (s : Strategy T) init history :
  run_inv (new_engine mode_ pricetick_ s init history).
Proof.
  split; [apply books_wf_new_engine|].
  unfold ledger_wf. cbn. repeat split; constructor.
Qed.


(** X14. At the end of a run from a fresh engine, whichever way the run
    ends, the trades of the ledger are numbered 1, 2, 3, ... in the order in
    which they were made and [trade_count] is their number: no trade takes
    the place of another one in the dict [trades]. *)
Theorem trades_are_numbered {T} (depth : nat) (mode_ : BacktestingMode)
    (pricetick_ : Q) (s : Strategy T) (init : T) (history : list HistoryData) :
  let e' := snd (run_backtesting depth (new_engine mode_ pricetick_ s init history)) in
  map tradeid (trades e') = map N.of_nat (seq 1 (length (trades e'))) /\
  trade_count e' = N.of_nat (length (trades e')).
Proof.
  intros e'.
  destruct (run_backtesting_run_step depth _
              (run_inv_new_engine mode_ pricetick_ s init history))
    as [[_ (H1 & H2 & _)] _].
  split; assumption.
Qed.

(** X15. At the end of a run from a fresh engine, whichever way the run
    ends, no two trades of the ledger come from the same order: an order is
    filled at most once, as a whole, and the order of a trade is not in the
    active book any more. *)
Theorem an_order_is_filled_once {T} (depth : nat) (mode_ : BacktestingMode)
    (pricetick_ : Q) (s : Strategy T) (init : T) (history : list HistoryData) :
  let e' := snd (run_backtesting depth (new_engine mode_ pricetick_ s init history)) in
  List.NoDup (map trade_orderid (trades e')) /\
  Forall (fun t => (trade_orderid t <= limit_order_count e')%N /\
                   ~ In (trade_orderid t) (active_limit_orders e'))
         (trades e').
Proof.
  intros e'.
  destruct (run_backtesting_run_step depth _
              (run_inv_new_engine mode_ pricetick_ s init history))
    as [[_ (_ & _ & H3 & H4)] _].
  split; assumption.
Qed.


(** X16. A data point of the run phase that is processed without an
    exception leaves only waiting orders in the active limit book: if every
    active limit order was Submitting or NotTraded before, every active
    limit order is Submitting or NotTraded after; the orders filled or
    cancelled on the way have left the book. *)
Theorem active_orders_wait {T} (depth : nat) (data : HistoryData) (e e' : Engine T) :
  books_wf e ->
  (forall n o, In n (active_limit_orders e) -> limit_orders e !! n = Some o ->
     status o = SUBMITTING \/ status o = NOTTRADED) ->
  new_data (call depth) (mode e) data e = (Ok tt, e') ->
  forall n o, In n (active_limit_orders e') -> limit_orders e' !! n = Some o ->
    status o = SUBMITTING \/ status o = NOTTRADED.
Proof.
  intros Hwf Hp Hrun n o Hin Ho.
  assert (Hinv : engine_inv None e).
  { split; [exact Hwf|]. intros m a Hm _ Ha. exact (Hp m a Hm Ha). }
  pose proof (new_data_inv depth (mode e) data e Hinv) as H.
  rewrite Hrun in H. destruct H as [_ Hp'].
  apply (Hp' n o Hin); [discriminate | exact Ho].
Qed.

Lemma active_orders_wait_witness :
  let e' := snd (new_data (call 3) BAR (BarItem bar_S1) engine_limit_and_stop) in
  Forall (fun n => forall o, limit_orders e' !! n = Some o ->
            status o = SUBMITTING \/ status o = NOTTRADED)
    (active_limit_orders e').
Proof.
  intros e'. apply List.Forall_forall. intros n Hn o.
  revert n o Hn.
  apply (active_orders_wait 3 (BarItem bar_S1) engine_limit_and_stop).
  - apply books_wf_after, books_wf_trading_engine.
  - intros n o Hin Ho. vm_compute in Hin. destruct Hin as [<-|[]].
    vm_compute in Ho. injection Ho as <-. left. reflexivity.
  - vm_compute. reflexivity.
Defined.


(** ** The grid of [OptimizationSetting] *)

Lemma Qleb_false (a b : Q) : Qleb a b = false <-> b < a.
Proof.
  rewrite <- Qltb_true. unfold Qltb, Qleb.
  destruct (Qle_bool a b); cbn; split; congruence.
Qed.

Lemma steps_from_length n value step : length (steps_from n value step) = n.
Proof. revert value. induction n as [|n IH]; intros value; cbn; auto. Qed.

Lemma steps_from_snoc n value step :
  steps_from (S n) value step
  = value :: steps_from n (value + step) step.
Proof. reflexivity. Qed.

(** The values of the loop are [value + i * step]. *)
Lemma steps_from_nth n : forall value step i,
  (i < n)%nat ->
  nth i (steps_from n value step) 0 == value + inject_Z (Z.of_nat i) * step.
Proof.
  induction n as [|n IH]; intros value step i Hi; [lia|].
  destruct i as [|i]; cbn [steps_from nth].
  - cbn. ring.
  - rewrite IH by lia. rewrite Nat2Z.inj_succ, <- Z.add_1_r, inject_Z_plus. ring.
Qed.

Lemma value_loop_spec (end_ step : Q) (fuel : nat) : forall value value_list,
  exists m,
    (m <= fuel)%nat /\
    Forall (fun x => x <= end_) (steps_from m value step) /\
    ((m = fuel /\ value_loop Qplus fuel value end_ step value_list = None) \/
     (end_ < value + inject_Z (Z.of_nat m) * step /\
      value_loop Qplus fuel value end_ step value_list
      = Some (value_list ++ steps_from m value step))).
Proof.
  induction fuel as [|fuel IH]; intros value value_list.
  - exists 0%nat. cbn. repeat split; auto.
  - cbn [value_loop]. destruct (Qleb value end_) eqn:Hle.
    + destruct (IH (value + step) (value_list ++ [value])) as (m & Hm & Hall & Hend).
      exists (S m). split; [lia|]. split.
      * cbn. constructor; [now apply Qleb_true | exact Hall].
      * destruct Hend as [[-> Hrun]|[Hend Hrun]]; [left; split; [reflexivity | exact Hrun]|].
        right. split.
        -- rewrite Nat2Z.inj_succ, <- Z.add_1_r, inject_Z_plus.
           eapply Qlt_le_trans; [exact Hend|]. apply Qle_lteq. right. ring.
        -- rewrite Hrun, <- app_assoc. reflexivity.
    + exists 0%nat. split; [lia|]. split; [constructor|]. right. split.
      * apply Qleb_false in Hle.
        eapply Qlt_le_trans; [exact Hle|]. apply Qle_lteq. right. cbn. ring.
      * now rewrite app_nil_r.
Qed.

Lemma steps_from_last_le n : forall value step end_,
  Forall (fun x => x <= end_) (steps_from (S n) value step) ->
  value + inject_Z (Z.of_nat n) * step <= end_.
Proof.
  intros value step end_ H.
  rewrite <- (steps_from_nth (S n) value step n) by lia.
  rewrite List.Forall_forall in H. apply H. apply nth_In.
  rewrite steps_from_length. lia.
Qed.

(** With exact sums the loop of [add_parameter] ends, within [loop_bound]
    tests. *)
Lemma value_loop_stops (start end_ step : Q) :
  start < end_ -> 0 < step ->
  exists m,
    (1 <= m)%nat /\
    value_loop Qplus (loop_bound start end_ step) start end_ step []
    = Some (steps_from m start step) /\
    Forall (fun x => x <= end_) (steps_from m start step) /\
    end_ < start + inject_Z (Z.of_nat m) * step.
Proof.
  intros Hlt Hstep.
  destruct (value_loop_spec end_ step (loop_bound start end_ step) start [])
    as (m & Hm & Hall & Hend).
  assert (Hq : 0 <= (end_ - start) / step).
  { apply Qle_shift_div_l; [exact Hstep|]. lra. }
  assert (Hfloor : (0 <= Qfloor ((end_ - start) / step))%Z).
  { change 0%Z with (Qfloor 0). now apply Qfloor_resp_le. }
  assert (Hbig : end_ < start + (inject_Z (Qfloor ((end_ - start) / step)) + 1) * step).
  { pose proof (Qlt_floor ((end_ - start) / step)) as H.
    rewrite inject_Z_plus in H.
    assert (H' : (end_ - start) / step * step
                 < (inject_Z (Qfloor ((end_ - start) / step)) + inject_Z 1) * step).
    { apply Qmult_lt_compat_r; assumption. }
    rewrite Qmult_comm, Qmult_div_r in H' by lra.
    change (inject_Z 1) with 1 in H'. lra. }
  destruct Hend as [[-> _]|[Hend Hrun]].
  { exfalso. unfold loop_bound in Hall.
    apply steps_from_last_le in Hall.
    rewrite Nat2Z.inj_succ, Z2Nat.id, <- Z.add_1_r, inject_Z_plus in Hall by exact Hfloor.
    change (inject_Z 1) with 1 in Hall. lra. }
  exists m. split; [|split; [exact Hrun|split; assumption]].
  destruct m as [|m]; [|lia]. change (inject_Z (Z.of_nat 0)) with 0 in Hend. lra.
Qed.

(** With exact sums the values stored are the same whatever the fuel, once
    it suffices. *)
Lemma value_loop_exact (end_ step : Q) (m : nat) : forall fuel value value_list,
  Forall (fun x => x <= end_) (steps_from m value step) ->
  end_ < value + inject_Z (Z.of_nat m) * step ->
  (m < fuel)%nat ->
  value_loop Qplus fuel value end_ step value_list
  = Some (value_list ++ steps_from m value step).
Proof.
  induction m as [|m IH]; intros fuel value value_list Hall Hend Hfuel;
    (destruct fuel as [|fuel]; [lia|]); cbn [value_loop steps_from].
  - assert (Hle : Qleb value end_ = false).
    { apply Qleb_false. change (inject_Z (Z.of_nat 0)) with 0 in Hend. lra. }
    now rewrite Hle, app_nil_r.
  - cbn [steps_from] in Hall. apply Forall_cons_iff in Hall as [Hv Hall].
    apply Qleb_true in Hv. rewrite Hv.
    rewrite (IH fuel (value + step) (value_list ++ [value])); [| exact Hall | | lia].
    + now rewrite <- app_assoc.
    + rewrite Nat2Z.inj_succ, <- Z.add_1_r, inject_Z_plus in Hend.
      change (inject_Z 1) with 1 in Hend. lra.
Qed.

(** Whatever the sums, a loop that ends after a first value within the
    range has stored a value. *)
Lemma value_loop_nonempty (add : Q -> Q -> Q) (end_ step : Q) (fuel : nat) :
  forall value value_list value_list',
    value_loop add fuel value end_ step value_list = Some value_list' ->
    value_list <> [] \/ Qleb value end_ = true ->
    value_list' <> [].
Proof.
  induction fuel as [|fuel IH]; intros value value_list value_list' Hrun Hne;
    [discriminate|].
  cbn [value_loop] in Hrun. destruct (Qleb value end_) eqn:Hle.
  - apply IH in Hrun; [exact Hrun|]. left. now destruct value_list.
  - injection Hrun as <-. destruct Hne as [Hne|Hne]; [exact Hne | discriminate].
Qed.

(** A sum that leaves the value where it is keeps the loop running for
    ever. *)
Lemma value_loop_absorbed (add : Q -> Q -> Q) (end_ step value : Q) (fuel : nat) :
  add value step = value -> Qleb value end_ = true ->
  forall value_list, value_loop add fuel value end_ step value_list = None.
Proof.
  intros Hadd Hle. induction fuel as [|fuel IH]; intros value_list; [reflexivity|].
  cbn [value_loop]. rewrite Hle, Hadd. apply IH.
Qed.


Lemma dict_get_set {V} (key key' : string) (value : V) (d : list (string * V)) :
  dict_get key' (dict_set key value d)
  = if String.eqb key key' then Some value else dict_get key' d.
Proof.
  unfold dict_get. induction d as [|[k v] d IH]; cbn [dict_set].
  - cbn. destruct (String.eqb key key'); reflexivity.
  - destruct (String.eqb k key) eqn:E; cbn [List.find fst].
    + apply String.eqb_eq in E. subst k.
      destruct (String.eqb key key'); reflexivity.
    + destruct (String.eqb k key') eqn:E'; cbn.
      * apply String.eqb_eq in E'. subst k.
        rewrite String.eqb_sym, E. reflexivity.
      * exact IH.
Qed.

Lemma dict_set_keys {V} (key : string) (value : V) (d : list (string * V)) :
  map fst (dict_set key value d)
  = if existsb (fun k => String.eqb k key) (map fst d) then map fst d
    else map fst d ++ [key].
Proof.
  induction d as [|[k v] d IH]; cbn; [reflexivity|].
  destruct (String.eqb k key) eqn:E; cbn; [reflexivity|].
  rewrite IH. now destruct (existsb _ _).
Qed.

Lemma dict_set_NoDup {V} (key : string) (value : V) (d : list (string * V)) :
  List.NoDup (map fst d) -> List.NoDup (map fst (dict_set key value d)).
Proof.
  intros H. rewrite dict_set_keys.
  destruct (existsb (fun k => String.eqb k key) (map fst d)) eqn:E; [exact H|].
  apply List.NoDup_app; [exact H | constructor; [intros []|constructor] |].
  intros x Hx [<-|[]].
  assert (E' : existsb (fun k => String.eqb k key) (map fst d) = true).
  { apply existsb_exists. exists key. split; [exact Hx | apply String.eqb_refl]. }
  congruence.
Qed.

Lemma dict_set_Forall {V} (P : V -> Prop) (key : string) (value : V)
    (d : list (string * V)) :
  P value -> Forall (fun kv => P (snd kv)) d ->
  Forall (fun kv => P (snd kv)) (dict_set key value d).
Proof.
  intros Hv H. induction d as [|[k v] d IH]; cbn [dict_set].
  - repeat constructor. exact Hv.
  - apply Forall_cons_iff in H as [Hk H].
    destruct (String.eqb k key); constructor; auto.
Qed.

(** X17. With exact sums (arguments that are [int]s or [Fraction]s),
    [add_parameter(name, start, end, step)] with [start < end] and
    [0 < step] returns, and stores under [name] the values [start],
    [start + step], [start + 2 * step], ... up to the last one that does not
    exceed [end]: at least [start] itself, all at most [end], and the next
    value would exceed [end].  ([end] itself is among them when the steps
    reach it exactly.) *)
Theorem add_parameter_values (name : string) (start end_ step : Q)
    (os : OptimizationSetting) :
  start < end_ -> 0 < step ->
  exists m,
    (forall fuel, (m < fuel)%nat ->
       add_parameter Qplus fuel name start (Some end_) (Some step) os
       = Some (Ok tt,
               set_params (dict_set name (steps_from m start step) (params os)) os)) /\
    dict_get name (dict_set name (steps_from m start step) (params os))
    = Some (steps_from m start step) /\
    (1 <= m)%nat /\
    (forall i, (i < m)%nat ->
       nth i (steps_from m start step) 0 == start + inject_Z (Z.of_nat i) * step) /\
    Forall (fun x => x <= end_) (steps_from m start step) /\
    end_ < start + inject_Z (Z.of_nat m) * step.
Proof.
  intros Hlt Hstep.
  destruct (value_loop_stops start end_ step Hlt Hstep) as (m & Hm & _ & Hall & Hend).
  exists m. split.
  { intros fuel Hfuel. unfold add_parameter.
    assert (Htruthy : truthy_opt (Some step) = true).
    { cbn. unfold truthy. apply negb_true_iff, Qeqb_false. intros E. rewrite E in Hstep.
      exact (Qlt_irrefl _ Hstep). }
    rewrite Htruthy, andb_false_r.
    assert (H1 : Qleb end_ start = false) by now apply Qleb_false.
    assert (H2 : Qleb step 0 = false) by now apply Qleb_false.
    rewrite H1, H2.
    rewrite (value_loop_exact end_ step m fuel start [] Hall Hend Hfuel).
    reflexivity. }
  split; [now rewrite dict_get_set, String.eqb_refl|].
  split; [exact Hm|]. split; [intros i Hi; now apply steps_from_nth|].
  split; assumption.
Qed.

Lemma add_parameter_values_witness :
  exists m,
    add_parameter Qplus (S m) "window"%string 10 (Some 20) (Some 4) example_grid
    = Some (Ok tt,
            set_params (dict_set "window"%string (steps_from m 10 4)
                          (params example_grid)) example_grid) /\
    (1 <= m)%nat /\ 20 < 10 + inject_Z (Z.of_nat m) * 4.
Proof.
  destruct (add_parameter_values "window"%string 10 20 4 example_grid)
    as (m & Hrun & _ & Hm & _ & _ & Hend).
  - reflexivity.
  - reflexivity.
  - exists m. split; [apply Hrun; lia|]. split; assumption.
Defined.


Lemma product_In (values : list (list Q)) : forall p,
  In p (product values) <-> Forall2 (fun l x => In x l) values p.
Proof.
  induction values as [|l values IH]; intros p; cbn [product].
  - split.
    + intros [<-|[]]. constructor.
    + intros H. inversion H. now left.
  - rewrite in_flat_map. split.
    + intros (x & Hx & Hp). apply in_map_iff in Hp as (p' & <- & Hp').
      constructor; [exact Hx | now apply IH].
    + intros H. inversion H as [|? x ? p' Hx Hp']. subst.
      exists x. split; [exact Hx|]. apply in_map_iff. exists p'.
      split; [reflexivity | now apply IH].
Qed.

Lemma product_length (values : list (list Q)) :
  length (product values)
  = fold_right (fun l n => (length l * n)%nat) 1%nat values.
Proof.
  induction values as [|l values IH]; [reflexivity|].
  cbn [product fold_right]. rewrite <- IH. clear IH.
  induction l as [|x l IHl]; [reflexivity|].
  cbn [flat_map length]. rewrite length_app, length_map, IHl. lia.
Qed.

Lemma generate_setting_length (os : OptimizationSetting) :
  length (generate_setting os)
  = fold_right (fun kv n => (length (snd kv) * n)%nat) 1%nat (params os).
Proof.
  unfold generate_setting. rewrite length_map, product_length.
  induction (params os) as [|kv d IH]; [reflexivity|]. cbn. now rewrite IH.
Qed.

(** X18. [generate_setting] returns the grid of the parameters: as many
    settings as the product of the numbers of values (one empty setting
    for no parameter at all, none as soon as a parameter has no value), and
    a dict is among them exactly when it gives to every parameter name, in
    the order of [params], one of the values of that parameter. *)
Theorem generate_setting_grid (os : OptimizationSetting) :
  length (generate_setting os)
  = fold_right (fun kv n => (length (snd kv) * n)%nat) 1%nat (params os) /\
  forall setting : Setting,
    In setting (generate_setting os) <->
    Forall2 (fun kv item => fst item = fst kv /\ In (snd item) (snd kv))
      (params os) setting.
Proof.
  split; [apply generate_setting_length|]. unfold generate_setting.
  - intros setting. rewrite in_map_iff. split.
    + intros (p & <- & Hp). apply product_In in Hp.
      revert p Hp. induction (params os) as [|[k l] d IH]; intros p Hp.
      * inversion Hp. constructor.
      * cbn [map fst snd] in Hp. inversion Hp as [|? x ? p' Hx Hp']. subst.
        cbn [map fst combine]. constructor; [split; [reflexivity | exact Hx]|].
        now apply IH.
    + intros H. exists (map snd setting). split.
      * clear -H. induction H as [|[k l] [k' x] d s [Hk _] _ IH]; [reflexivity|].
        cbn in *. now rewrite IH, Hk.
      * apply product_In.
        clear -H. induction H as [|[k l] [k' x] d s [_ Hx] _ IH]; cbn; constructor; auto.
Qed.

Lemma generate_setting_nonempty (os : OptimizationSetting) :
  Forall (fun kv => snd kv <> []) (params os) -> generate_setting os <> [].
Proof.
  intros H Hnil.
  pose proof (generate_setting_length os) as Hlen. rewrite Hnil in Hlen.
  cbn [length] in Hlen.
  induction H as [|[k l] d Hl _ IH]; cbn in Hlen; [discriminate|].
  destruct l as [|x l]; [now apply Hl|]. cbn in Hlen.
  apply IH. lia.
Qed.

Lemma add_parameter_wf (add : Q -> Q -> Q) (fuel : nat) (name : string) (start : Q)
    (end_ step : option Q) (os os' : OptimizationSetting) (out : outcome unit) :
  params_wf os ->
  add_parameter add fuel name start end_ step os = Some (out, os') ->
  params_wf os'.
Proof.
  intros [Hnd Hne] Hrun. unfold add_parameter in Hrun.
  destruct (negb (truthy_opt end_) && negb (truthy_opt step)).
  { injection Hrun as _ <-. split; cbn; [now apply dict_set_NoDup|].
    apply (dict_set_Forall (fun l => l <> [])); [discriminate | exact Hne]. }
  destruct end_ as [end_|]; [|injection Hrun as _ <-; split; assumption].
  destruct (Qleb end_ start) eqn:Hlt; [injection Hrun as _ <-; split; assumption|].
  destruct step as [step|]; [|injection Hrun as _ <-; split; assumption].
  destruct (Qleb step 0) eqn:Hstep; [injection Hrun as _ <-; split; assumption|].
  destruct (value_loop add fuel start end_ step []) as [value_list|] eqn:Hloop;
    [|discriminate].
  injection Hrun as _ <-. split; cbn; [now apply dict_set_NoDup|].
  apply (dict_set_Forall (fun l => l <> [])); [|exact Hne].
  apply (value_loop_nonempty _ _ _ _ _ _ _ Hloop). right.
  apply Qleb_true. apply Qleb_false in Hlt. now apply Qlt_le_weak.
Qed.

Lemma add_parameter_ends (name : string) (start : Q) (end_ step : option Q)
    (os : OptimizationSetting) :
  exists fuel out os', add_parameter Qplus fuel name start end_ step os = Some (out, os').
Proof.
  unfold add_parameter.
  destruct (negb (truthy_opt end_) && negb (truthy_opt step)).
  { exists 0%nat. eexists. eexists. reflexivity. }
  destruct end_ as [end_|]; [|exists 0%nat; eexists; eexists; reflexivity].
  destruct (Qleb end_ start) eqn:Hlt; [exists 0%nat; eexists; eexists; reflexivity|].
  destruct step as [step|]; [|exists 0%nat; eexists; eexists; reflexivity].
  destruct (Qleb step 0) eqn:Hstep; [exists 0%nat; eexists; eexists; reflexivity|].
  apply Qleb_false in Hlt, Hstep.
  destruct (value_loop_stops start end_ step Hlt Hstep) as (m & _ & Hrun & _).
  exists (loop_bound start end_ step). rewrite Hrun. eexists. eexists. reflexivity.
Qed.

(** X19. Whatever its arguments, whatever their arithmetic and however it
    ends, a call of [add_parameter] that ends keeps the names of [params]
    distinct and every list of values non-empty.  So the grid of a setting
    built with [add_parameter] is never empty, and [run_optimization] does
    not take its exit for an empty grid.  With exact sums every call
    ends. *)
Theorem add_parameter_keeps_the_grid (name : string) (start : Q)
    (end_ step : option Q) (os : OptimizationSetting) :
  params_wf os ->
  (forall add fuel out os',
     add_parameter add fuel name start end_ step os = Some (out, os') ->
     params_wf os' /\ generate_setting os' <> []) /\
  (exists fuel out os',
     add_parameter Qplus fuel name start end_ step os = Some (out, os')).
Proof.
  intros Hwf. split; [|apply add_parameter_ends].
  intros add fuel out os' Hrun.
  pose proof (add_parameter_wf _ _ _ _ _ _ _ _ _ Hwf Hrun) as Hwf'.
  split; [exact Hwf' | apply generate_setting_nonempty, Hwf'].
Qed.

Lemma add_parameter_keeps_the_grid_witness :
  params_wf (set_params (dict_set "window"%string [5] (params example_grid))
               example_grid) /\
  generate_setting
    (set_params (dict_set "window"%string [5] (params example_grid)) example_grid)
  <> [].
Proof.
  destruct (add_parameter_keeps_the_grid "window"%string 5 (Some 0) None example_grid)
    as [H _].
  - split; cbn.
    + repeat constructor. intros [].
    + repeat constructor. discriminate.
  - apply (H Qplus 0%nat (Ok tt)). reflexivity.
Defined.


(** ** Settings of a strategy *)

Lemma update_setting_loop {V} (setting : list (string * V)) (names : list string) :
  forall obj : StrategyObject V,
  exists obj',
    for_each names (fun name =>
      match dict_get name setting with
      | Some value => setattr name value
      | None => ret tt
      end) obj = (Ok tt, obj') /\
    parameters obj' = parameters obj /\ variables obj' = variables obj /\
    forall name,
      dict_get name (attributes obj')
      = if name_in name names then
          match dict_get name setting with
          | Some value => Some value
          | None => dict_get name (attributes obj)
          end
        else dict_get name (attributes obj).
Proof.
  induction names as [|n names IH]; intros obj.
  - exists obj. repeat split.
  - cbn [for_each]. destruct (dict_get n setting) as [value|] eqn:Hn.
    + unfold setattr at 1. mstep.
      destruct (IH (mkStrategyObject (parameters obj) (variables obj)
                      (dict_set n value (attributes obj))))
        as (obj' & Hrun & Hp & Hv & Hattr).
      exists obj'. split; [exact Hrun|]. split; [exact Hp|]. split; [exact Hv|].
      intros name. rewrite Hattr. cbn [attributes name_in existsb].
      rewrite dict_get_set, (String.eqb_sym n name).
      destruct (String.eqb name n) eqn:E; cbn [orb].
      * apply String.eqb_eq in E. subst n. rewrite Hn.
        now destruct (name_in name names).
      * reflexivity.
    + mstep. destruct (IH obj) as (obj' & Hrun & Hp & Hv & Hattr).
      exists obj'. split; [exact Hrun|]. split; [exact Hp|]. split; [exact Hv|].
      intros name. rewrite Hattr. cbn [name_in existsb].
      destruct (String.eqb name n) eqn:E; cbn [orb]; [|reflexivity].
      apply String.eqb_eq in E. subst n. rewrite Hn.
      now destruct (name_in name names).
Qed.

Lemma collect_attributes_spec {V} (names : list string) :
  forall (obj : StrategyObject V) (d : list (string * V)),
    (forall name, In name names -> is_Some (dict_get name (attributes obj))) ->
    exists d',
      collect_attributes names d obj = (Ok d', obj) /\
      forall name,
        dict_get name d'
        = if name_in name names then dict_get name (attributes obj)
          else dict_get name d.
Proof.
  induction names as [|n names IH]; intros obj d Hall.
  - exists d. split; reflexivity.
  - cbn [collect_attributes]. unfold getattr. mstep.
    destruct (Hall n (or_introl eq_refl)) as [value Hn]. rewrite Hn. mstep.
    destruct (IH obj (dict_set n value d)) as (d' & Hrun & Hd').
    { intros name Hin. apply Hall. now right. }
    exists d'. split; [exact Hrun|]. intros name. rewrite Hd'.
    cbn [name_in existsb]. rewrite dict_get_set, (String.eqb_sym n name).
    destruct (String.eqb name n) eqn:E; cbn [orb]; [|reflexivity].
    apply String.eqb_eq in E. subst n. rewrite Hn.
    now destruct (name_in name names).
Qed.

Lemma collect_attributes_missing {V} (names1 names2 : list string) (n : string) :
  forall (obj : StrategyObject V) (d : list (string * V)),
    (forall name, In name names1 -> is_Some (dict_get name (attributes obj))) ->
    dict_get n (attributes obj) = None ->
    collect_attributes (names1 ++ n :: names2) d obj = (Raise AttributeError, obj).
Proof.
  induction names1 as [|n1 names1 IH]; intros obj d Hall Hn.
  - cbn [app collect_attributes]. unfold getattr. mstep. now rewrite Hn.
  - cbn [app collect_attributes]. unfold getattr. mstep.
    destruct (Hall n1 (or_introl eq_refl)) as [value Hn1]. rewrite Hn1. mstep.
    apply IH; [|exact Hn]. intros name Hin. apply Hall. now right.
Qed.

(** X20. [update_setting] takes from the dict [setting] the values of the
    declared parameters and nothing else: after it, the attribute of a
    declared parameter that is a key of [setting] is the value given there,
    and every other attribute is as before, also when [setting] has a key of
    its name.  [get_parameters] then returns a dict with exactly the
    declared parameters and these values; it raises [AttributeError] when a
    declared parameter is neither an attribute nor in [setting]. *)
Theorem update_setting_then_get_parameters {V} (setting : list (string * V))
    (obj : StrategyObject V) :
  exists obj',
    update_setting setting obj = (Ok tt, obj') /\
    parameters obj' = parameters obj /\
    (forall name,
       dict_get name (attributes obj')
       = if name_in name (parameters obj) then
           match dict_get name setting with
           | Some value => Some value
           | None => dict_get name (attributes obj)
           end
         else dict_get name (attributes obj)) /\
    ((forall name, In name (parameters obj) ->
        is_Some (dict_get name setting) \/ is_Some (dict_get name (attributes obj))) ->
     exists d,
       get_parameters obj' = (Ok d, obj') /\
       forall name,
         dict_get name d
         = if name_in name (parameters obj) then dict_get name (attributes obj')
           else None) /\
    (forall names1 n names2,
       parameters obj = names1 ++ n :: names2 ->
       (forall name, In name names1 -> is_Some (dict_get name (attributes obj'))) ->
       dict_get n setting = None -> dict_get n (attributes obj) = None ->
       get_parameters obj' = (Raise AttributeError, obj')).
Proof.
  unfold update_setting, get_parameters. mstep.
  destruct (update_setting_loop setting (parameters obj) obj)
    as (obj' & Hrun & Hp & Hv & Hattr).
  exists obj'. split; [exact Hrun|]. split; [exact Hp|]. split; [exact Hattr|].
  split.
  - intros Hall. mstep. rewrite Hp.
    destruct (collect_attributes_spec (parameters obj) obj' []) as (d & Hd & Hget).
    { intros name Hin. rewrite Hattr.
      assert (Hname : name_in name (parameters obj) = true).
      { apply existsb_exists. exists name. split; [exact Hin | apply String.eqb_refl]. }
      rewrite Hname. destruct (Hall name Hin) as [[v Hs]|Ha].
      - rewrite Hs. eauto.
      - destruct (dict_get name setting); eauto. }
    exists d. split; [exact Hd|]. intros name. rewrite Hget.
    now destruct (name_in name (parameters obj)).
  - intros names1 n names2 Hnames Hall Hs Ha. mstep. rewrite Hp, Hnames.
    apply collect_attributes_missing; [exact Hall|].
    rewrite Hattr, Hs, Ha. now destruct (name_in n (parameters obj)).
Qed.


(** ** Tracking of prices by a strategy *)

Lemma record_bars_long (steps : list (Q * BarData)) : forall s,
  Forall (fun step => 0 < fst step) steps ->
  exists s',
    record_bars steps s = (Ok tt, s') /\
    track_highest s'
    = fold_left (fun m step => py_max m (high_price (snd step))) steps (track_highest s) /\
    track_lowest s' = track_lowest s /\
    entry_minute s' = (entry_minute s + Z.of_nat (length steps))%Z /\
    (steps <> [] -> exit_minute s' = 0%Z).
Proof.
  unfold record_bars.
  induction steps as [|[p b] steps IH]; intros s Hall.
  - exists s. cbn. repeat split; [lia | congruence].
  - apply Forall_cons_iff in Hall as [Hp Hall]. cbn [fst snd] in Hp.
    cbn [for_each]. unfold record_price_and_status at 1. mstep. cbn [tr_pos fst snd].
    assert (H0 : Qeqb p 0 = false).
    { apply Qeqb_false. intros E. rewrite E in Hp. exact (Qlt_irrefl _ Hp). }
    assert (H1 : Qltb 0 p = true) by now apply Qltb_true.
    rewrite H0, H1. mstep. cbn [tr_pos track_highest track_lowest entry_minute exit_minute].
    match goal with |- context [for_each steps ?f ?s1] =>
      destruct (IH s1 Hall) as (s' & Hrun & Hh & Hl & He & Hx) end.
    exists s'. split; [exact Hrun|].
    cbn [track_highest track_lowest entry_minute exit_minute] in *.
    split; [exact Hh|]. split; [exact Hl|].
    split; [rewrite He; cbn [length]; lia|].
    intros _. destruct steps as [|step steps'].
    + cbn in Hrun. injection Hrun as <-. reflexivity.
    + apply Hx. discriminate.
Qed.

Lemma fold_py_max_spec (highs : list Q) : forall m,
  let top := fold_left py_max highs m in
  m <= top /\ Forall (fun h => h <= top) highs /\ In top (m :: highs).
Proof.
  induction highs as [|h highs IH]; intros m top.
  - subst top. cbn. split; [apply Qle_refl|]. split; [constructor | now left].
  - subst top. cbn [fold_left].
    destruct (IH (py_max m h)) as (Hm & Hall & Hin).
    assert (Hl : m <= py_max m h) by apply py_max_ge_l.
    assert (Hr : h <= py_max m h).
    { unfold py_max. destruct (Qltb m h) eqn:E; [apply Qle_refl|].
      now apply Qltb_false in E. }
    split; [eapply Qle_trans; eassumption|].
    split; [constructor; [eapply Qle_trans; eassumption | exact Hall]|].
    destruct Hin as [Hin|Hin]; [|right; now right].
    rewrite <- Hin. unfold py_max. destruct (Qltb m h); [right|]; now left.
Qed.

(** X21. [record_price_and_status], called on every bar: after a bar on
    which the strategy is flat and any number of bars on which it is long,
    [track_highest] is the highest high of these bars (the flat bar before
    the entry included), [track_lowest] is still the low of that flat bar,
    [entry_minute] is the number of bars held and [exit_minute] is 0. *)
Theorem track_highest_since_entry (s : Tracking) (b0 : BarData)
    (steps : list (Q * BarData)) :
  Forall (fun step => 0 < fst step) steps ->
  exists s',
    record_bars ((0, b0) :: steps) s = (Ok tt, s') /\
    Forall (fun b => high_price b <= track_highest s') (b0 :: map snd steps) /\
    In (track_highest s') (map high_price (b0 :: map snd steps)) /\
    track_lowest s' = low_price b0 /\
    entry_minute s' = Z.of_nat (length steps) /\
    (steps <> [] -> exit_minute s' = 0%Z).
Proof.
  intros Hall.
  set (s1 := mkTracking 0 (high_price b0) (low_price b0) 0 (exit_minute s + 1)).
  destruct (record_bars_long steps s1 Hall) as (s' & Hrun & Hh & Hl & He & Hx).
  exists s'. split.
  { unfold record_bars in *. cbn [for_each]. unfold record_price_and_status at 1.
    mstep. exact Hrun. }
  cbn [track_highest track_lowest entry_minute s1] in *.
  assert (Hfold : track_highest s'
                  = fold_left py_max (map high_price (map snd steps)) (high_price b0)).
  { rewrite Hh. clear. generalize (high_price b0).
    induction steps as [|step steps IH]; intros m; [reflexivity|]. cbn. apply IH. }
  destruct (fold_py_max_spec (map high_price (map snd steps)) (high_price b0))
    as (Hm & Htop & Hin).
  rewrite <- Hfold in *.
  split; [constructor; [exact Hm|]|].
  { rewrite Forall_map in Htop. exact Htop. }
  split; [exact Hin|]. split; [exact Hl|]. split; [rewrite He; lia | exact Hx].
Qed.

Lemma track_highest_since_entry_witness :
  exists s',
    record_bars [(0, bar_S2); (1, bar_S1); (1, bar_S3)] (mkTracking 0 0 0 0 0)
    = (Ok tt, s') /\
    entry_minute s' = 2%Z.
Proof.
  destruct (track_highest_since_entry (mkTracking 0 0 0 0 0) bar_S2
              [(1, bar_S1); (1, bar_S3)]) as (s' & Hrun & _ & _ & _ & He & _).
  - repeat constructor.
  - exists s'. split; [exact Hrun | exact He].
Defined.


(** X22. A strategy cannot warm up with [load_tick] in a backtest:
    [CtaTemplate.load_tick] hands four arguments to
    [BacktestingEngine.load_tick], which takes three, and [on_init] is
    called outside the [try] statements of [run_backtesting].  With an
    [on_init] that starts with [load_tick], [run_backtesting] raises
    [TypeError] and leaves the engine as it was: no data point is
    processed. *)
Theorem load_tick_stops_the_run {T} (depth : nat) (e : Engine T)
    (days_ : Z) (k : Action T) :
  on_init (strategy e) = LoadTick days_ k ->
  run_backtesting (S depth) e = (Raise TypeError, e).
Proof.
  intros Hinit. unfold run_backtesting. mstep. rewrite Hinit. reflexivity.
Qed.

Lemma load_tick_stops_the_run_witness :
  let e := new_engine TICK 1 tick_strategy tt [TickItem (mkTick (at_day 2020 1 2) 10 9 11)] in
  run_backtesting 3 e = (Raise TypeError, e).
Proof.
  intros e. apply (load_tick_stops_the_run 2 e 1 Done). reflexivity.
Defined.


(** ** From the run to the daily accounting *)

Lemma same_clock_refl {T} (e : Engine T) : same_clock e e.
Proof. split; reflexivity. Qed.

Lemma same_clock_trans {T} (e1 e2 e3 : Engine T) :
  same_clock e1 e2 -> same_clock e2 e3 -> same_clock e1 e3.
Proof. intros [H1 H2] [H3 H4]. split; congruence. Qed.

Lemma call_clock_step {T} (depth : nat) (a : Action T) :
  step always same_clock (call depth a).
Proof.
  intros e _. destruct (call_frame_step depth a e Logic.I) as [_ Hf].
  split; [exact Logic.I|]. destruct Hf. split; assumption.
Qed.

Ltac clock_leaf :=
  match goal with
  | |- step _ _ (call _ _) => apply call_clock_step
  | |- step _ _ (modify _) =>
      apply step_modify; intros ? _; split; [exact Logic.I | split; reflexivity]
  end.

Ltac clock_step :=
  match goal with
  | |- @step (Engine ?T) _ _ _ _ =>
      step_tac (@same_clock_refl T) (@same_clock_trans T)
  end;
  try clock_leaf.

Lemma cross_limit_one_clock {T} (depth : nat) (p : CrossPrices) (n : N) :
  step always (@same_clock T) (cross_limit_one (call depth) p n).
Proof.
  unfold cross_limit_one, cross_limit_notify, cross_limit_match, limit_order_of,
    write_limit_order, pop_active_limit_order.
  clock_step.
Qed.

Lemma cross_stop_one_clock {T} (depth : nat) (p : CrossPrices) (n : N) :
  step always (@same_clock T) (cross_stop_one (call depth) p n).
Proof.
  unfold cross_stop_one, stop_order_of, write_limit_order, write_stop_order.
  clock_step.
  apply step_modify. intros e _. split; [exact Logic.I|].
  destruct (mem n (active_stop_orders e)); split; reflexivity.
Qed.


Lemma cross_limit_one_dated {T} (depth : nat) (p : CrossPrices) (n : N)
    (dt : DateTime) :
  ok_step (fun e : Engine T => books_wf e /\ datetime e = Some dt)
    (ledger (fun t => trade_datetime t = Some dt))
    (cross_limit_one (call depth) p n).
Proof.
  intros e [] e' [Hwf Hdt] Hrun.
  destruct (step_run _ _ _ _ _ _ (cross_limit_one_clock depth p n) Logic.I Hrun)
    as [_ [Hclock _]].
  destruct (limit_orders e !! n) as [o|] eqn:Ho.
  2:{ unfold cross_limit_one, cross_limit_notify, limit_order_of in Hrun.
      revert Hrun. mstep. rewrite Ho. mstep. discriminate. }
  unfold cross_limit_one in Hrun.
  apply bind_inv_Ok in Hrun as ([] & e1 & Hnotify & Hmatch).
  destruct (cross_limit_notify_spec _ _ _ _ _ _ Hwf Ho Hnotify)
    as (Hwf1 & Hfr1 & Hc1 & _ & o1 & Ho1 & Hsame & _).
  pose proof (cross_limit_match_spec _ _ _ _ _ _ Hwf1 Ho1 Hmatch) as H.
  cbn zeta in H.
  destruct Hfr1 as [? ? ? ? ? Hpos1 ? ? Hdt1 ? ? Htr1 ?].
  destruct (limit_long_cross p o1 || limit_short_cross p o1) eqn:Hcross.
  - destruct H as (_ & Hwf' & Hc' & Htr & _ & Hpos & _ & _).
    split; [split; [exact Hwf' | congruence]|]. split; [lia|].
    eexists. split; [rewrite Htr, Htr1; reflexivity|]. split.
    + rewrite Hpos, Hpos1. unfold sum_signed_volume, signed_volume. cbn.
      destruct (limit_long_cross p o1) eqn:Hl.
      * apply limit_long_cross_iff in Hl as [-> _]. reflexivity.
      * cbn in Hcross. apply limit_short_cross_iff in Hcross as [-> _]. reflexivity.
    + constructor; [|constructor]. cbn. congruence.
  - subst e'. split; [split; [exact Hwf1 | congruence]|]. split; [exact Hc1|].
    exists []. rewrite app_nil_r. repeat split; auto.
Qed.

Lemma cross_stop_one_dated {T} (depth : nat) (p : CrossPrices) (n : N)
    (dt : DateTime) :
  ok_step (fun e : Engine T => books_wf e /\ datetime e = Some dt)
    (ledger (fun t => trade_datetime t = Some dt))
    (cross_stop_one (call depth) p n).
Proof.
  intros e [] e' [Hwf Hdt] Hrun.
  destruct (step_run _ _ _ _ _ _ (cross_stop_one_clock depth p n) Logic.I Hrun)
    as [_ [Hclock _]].
  destruct (stop_orders e !! n) as [so|] eqn:Hso.
  2:{ unfold cross_stop_one, stop_order_of in Hrun.
      revert Hrun. mstep. rewrite Hso. mstep. discriminate. }
  pose proof (cross_stop_one_spec _ _ _ _ _ _ Hwf Hso Hrun) as H.
  cbn zeta in H.
  destruct (stop_long_cross p so || stop_short_cross p so) eqn:Hcross.
  - destruct H as (Hwf' & Hc' & _ & _ & _ & Htr & _ & Hpos & _ & _).
    split; [split; [exact Hwf' | congruence]|]. split; [lia|].
    eexists. split; [exact Htr|]. split.
    + rewrite Hpos. unfold sum_signed_volume, signed_volume. cbn.
      destruct (stop_long_cross p so) eqn:Hl.
      * apply stop_long_cross_iff in Hl as [-> _]. reflexivity.
      * cbn in Hcross. apply stop_short_cross_iff in Hcross as [-> _]. reflexivity.
    + constructor; [|constructor]. exact Hdt.
  - subst e'. split; [split; assumption|]. apply ledger_refl.
Qed.

Lemma crossing_dated {T} (depth : nat) (dt : DateTime) (e e1 e2 : Engine T) :
  books_wf e -> datetime e = Some dt ->
  cross_limit_order (call depth) e = (Ok tt, e1) ->
  cross_stop_order (call depth) e1 = (Ok tt, e2) ->
  datetime e2 = Some dt /\ daily_results e2 = daily_results e /\
  exists fills, trades e2 = trades e ++ fills /\
                Forall (fun t => trade_datetime t = Some dt) fills.
Proof.
  intros Hwf Hdt Hlimit Hstop.
  unfold cross_limit_order in Hlimit.
  apply bind_inv_Ok in Hlimit as (p & e0 & Hp & Hlimit).
  apply limit_cross_prices_state in Hp. subst e0.
  revert Hlimit. mstep. intros Hlimit.
  destruct (ok_step_for_each _ (ledger (fun t => trade_datetime t = Some dt))
              (@ledger_refl T _) (@ledger_trans T _) _ _
              (fun n => cross_limit_one_dated depth p n dt) _ _ _ (conj Hwf Hdt) Hlimit)
    as [[Hwf1 Hdt1] (_ & f1 & Ht1 & _ & HP1)].
  assert (Hd1 : daily_results e1 = daily_results e).
  { destruct (step_run _ _ _ _ _ _
       (step_for_each always same_clock (@same_clock_refl T) (@same_clock_trans T)
          (active_limit_orders e) _ (cross_limit_one_clock depth p))
       Logic.I Hlimit) as [_ [_ H]]. exact H. }
  unfold cross_stop_order in Hstop.
  apply bind_inv_Ok in Hstop as (p' & e0 & Hp & Hstop).
  apply stop_cross_prices_state in Hp. subst e0.
  revert Hstop. mstep. intros Hstop.
  destruct (ok_step_for_each _ (ledger (fun t => trade_datetime t = Some dt))
              (@ledger_refl T _) (@ledger_trans T _) _ _
              (fun n => cross_stop_one_dated depth p' n dt) _ _ _ (conj Hwf1 Hdt1) Hstop)
    as [[Hwf2 Hdt2] (_ & f2 & Ht2 & _ & HP2)].
  assert (Hd2 : daily_results e2 = daily_results e1).
  { destruct (step_run _ _ _ _ _ _
       (step_for_each always same_clock (@same_clock_refl T) (@same_clock_trans T)
          (active_stop_orders e1) _ (cross_stop_one_clock depth p'))
       Logic.I Hstop) as [_ [_ H]]. exact H. }
  split; [exact Hdt2|]. split; [congruence|].
  exists (f1 ++ f2). split; [rewrite Ht2, Ht1, app_assoc; reflexivity|].
  apply Forall_app. split; assumption.
Qed.


Lemma update_close_unused d p results :
  Forall (fun dr => unused_result (snd dr)) results ->
  Forall (fun dr => unused_result (snd dr)) (update_close d p results).
Proof.
  intros H. induction results as [|[d' r] results IH]; cbn [update_close].
  - repeat constructor.
  - apply Forall_cons_iff in H as [Hr H]. cbn [snd] in Hr.
    destruct (Date_eqb d' d); constructor; auto.
Qed.

Lemma update_close_has_day d p results : In d (map fst (update_close d p results)).
Proof.
  rewrite update_close_keys.
  destruct (existsb (Date_eqb d) (map fst results)) eqn:E.
  - now apply existsb_Date_In.
  - apply in_or_app. right. now left.
Qed.

Lemma update_close_keeps_days d p results d' :
  In d' (map fst results) -> In d' (map fst (update_close d p results)).
Proof.
  intros H. rewrite update_close_keys.
  destruct (existsb (Date_eqb d) (map fst results)); [exact H|].
  apply in_or_app. now left.
Qed.

(** What a data point that returns does to the ledger and to the daily
    results. *)
Lemma data_point_accounts {T} (depth : nat) (setup : Engine T -> Engine T)
    (cb : M (Engine T) unit) (close : Q) (dt : DateTime) (e e' : Engine T) :
  books_wf e ->
  (forall e, limit_order_count (setup e) = limit_order_count e /\
             limit_orders (setup e) = limit_orders e /\
             active_limit_orders (setup e) = active_limit_orders e /\
             stop_order_count (setup e) = stop_order_count e /\
             stop_orders (setup e) = stop_orders e /\
             active_stop_orders (setup e) = active_stop_orders e /\
             trades (setup e) = trades e /\ pos (setup e) = pos e) ->
  datetime (setup e) = Some dt ->
  daily_results (setup e) = daily_results e ->
  step always frame cb ->
  (modify setup ;;;
   cross_limit_order (call depth) ;;;
   cross_stop_order (call depth) ;;;
   cb ;;;
   update_daily_close close) e = (Ok tt, e') ->
  daily_results e' = update_close (date_of dt) close (daily_results e) /\
  exists fills, trades e' = trades e ++ fills /\
                Forall (fun t => trade_datetime t = Some dt) fills.
Proof.
  intros Hwf Hsetup Hdt Hdaily Hcb Hrun.
  destruct (data_point_steps depth setup cb close e e' Hwf Hsetup Hcb Hrun)
    as (e1 & e2 & e3 & lf & sf & Hlimit & Hstop & Hcall & Hclose & _).
  destruct (Hsetup e) as (Hs1 & Hs2 & Hs3 & Hs4 & Hs5 & Hs6 & Hs7 & Hs8).
  assert (Hwf0 : books_wf (setup e)) by (eapply books_same; eauto).
  destruct (crossing_dated depth dt _ _ _ Hwf0 Hdt Hlimit Hstop)
    as (Hdt2 & Hd2 & fills & Htr2 & Hfills).
  pose proof (Hcb e2 Logic.I) as [_ Hfr]. rewrite Hcall in Hfr. cbn in Hfr.
  destruct Hfr as [? ? ? ? ? ? ? ? Hdt3 ? ? Htr3 Hd3].
  unfold update_daily_close in Hclose. revert Hclose. mstep.
  rewrite Hdt3, Hdt2. cbn. intros H. injection H as <-.
  cbn [daily_results trades set_daily_results].
  split; [congruence|]. exists fills. split; [congruence | exact Hfills].
Qed.

(** X23. A data point of the run phase that is processed without an
    exception keeps the engine ready for [calculate_result]: the dates of
    the daily results stay distinct, the daily results stay unused, and every
    trade of the ledger, the fills of this data point included, is dated on
    a day that has a daily result.  So [calculate_result] finds the day of
    every trade after a run in which no data point failed. *)
Theorem data_point_keeps_the_accounts {T} (depth : nat) (data : HistoryData)
    (e e' : Engine T) :
  books_wf e -> accounts_ready e ->
  new_data (call depth) (mode e) data e = (Ok tt, e') ->
  accounts_ready e'.
Proof.
  intros Hwf (Hnd & Hun & Hdated) Hrun. unfold new_data in Hrun.
  assert (H : daily_results e'
              = update_close (date_of (data_datetime data))
                  (match data with
                   | BarItem b => bar_close_price b
                   | TickItem t => last_price t
                   end) (daily_results e) /\
              exists fills, trades e' = trades e ++ fills /\
                Forall (fun t => trade_datetime t = Some (data_datetime data)) fills).
  { destruct (mode e) eqn:Hmode, data as [b|t]; try discriminate.
    - eapply (data_point_accounts depth
                (fun e => set_datetime (Some (bar_datetime b)) (set_bar (Some b) e))
                (bar_callback (call depth) b));
        [exact Hwf | intros e0; repeat split | reflexivity | reflexivity
        | apply bar_callback_frame |].
      unfold new_bar in Hrun. revert Hrun. mstep. intros Hrun. mstep. exact Hrun.
    - eapply (data_point_accounts depth
                (fun e => set_datetime (Some (tick_datetime t)) (set_tick (Some t) e))
                (s <- gets strategy ;; call depth (on_tick s t)));
        [exact Hwf | intros e0; repeat split | reflexivity | reflexivity
        | frame_step; apply call_frame_step |].
      unfold new_tick in Hrun. revert Hrun. mstep. intros Hrun. mstep. exact Hrun. }
  destruct H as (Hd & fills & Htr & Hfills).
  unfold accounts_ready. rewrite Hd, Htr.
  split; [now apply update_close_NoDup|]. split; [now apply update_close_unused|].
  apply Forall_app. split.
  - eapply List.Forall_impl; [|exact Hdated]. cbn.
    intros t (dt & Ht & Hin). exists dt. split; [exact Ht|].
    now apply update_close_keeps_days.
  - eapply List.Forall_impl; [|exact Hfills]. cbn.
    intros t Ht. eexists. split; [exact Ht|]. apply update_close_has_day.
Qed.

Lemma data_point_keeps_the_accounts_witness :
  accounts_ready (snd (new_data (call 3) BAR (BarItem bar_S2) engine_S2)).
Proof.
  apply (data_point_keeps_the_accounts 3 (BarItem bar_S2) engine_S2).
  - apply books_wf_after, books_wf_trading_engine.
  - vm_compute. repeat constructor.
  - vm_compute. reflexivity.
Defined.

(* ----------------------------------------------------------------- *)
(** ** Loading the history in windows *)

Lemma window_count_zero (start self_end interval_delta : Z) :
  (0 <= interval_delta)%Z -> (self_end <= start)%Z ->
  window_count start self_end interval_delta = O.
Proof.
  intros HI Hle. unfold window_count.
  assert (Hp : (0 < progress_delta + interval_delta)%Z)
    by (unfold progress_delta; lia).
  assert (((self_end - start + progress_delta + interval_delta - 1)
           / (progress_delta + interval_delta) < 1)%Z).
  { apply Z.div_lt_upper_bound; lia. }
  lia.
Qed.

Lemma window_count_one (start self_end interval_delta : Z) :
  (0 <= interval_delta)%Z -> (start < self_end)%Z ->
  (self_end <= start + progress_delta + interval_delta)%Z ->
  window_count start self_end interval_delta = 1%nat.
Proof.
  intros HI Hlt Hle. unfold window_count.
  assert (Hp : (0 < progress_delta + interval_delta)%Z)
    by (unfold progress_delta; lia).
  replace ((self_end - start + progress_delta + interval_delta - 1)
           / (progress_delta + interval_delta))%Z with 1%Z; [reflexivity|].
  apply Z.div_unique with (r := (self_end - start - 1)%Z); lia.
Qed.

Lemma window_count_succ (start self_end interval_delta : Z) :
  (0 <= interval_delta)%Z -> (start < self_end)%Z ->
  window_count start self_end interval_delta =
  S (window_count (start + progress_delta + interval_delta) self_end interval_delta).
Proof.
  intros HI Hlt.
  assert (Hp : (0 < progress_delta + interval_delta)%Z)
    by (unfold progress_delta; lia).
  destruct (Z_le_gt_dec self_end (start + progress_delta + interval_delta)) as [Hle|Hgt].
  - rewrite window_count_one, window_count_zero by lia. reflexivity.
  - unfold window_count.
    replace (self_end - start + progress_delta + interval_delta - 1)%Z
      with ((self_end - (start + progress_delta + interval_delta)
             + progress_delta + interval_delta - 1)
            + 1 * (progress_delta + interval_delta))%Z by ring.
    rewrite Z.div_add by lia.
    rewrite Z2Nat.inj_add; [| apply Z.div_pos; lia | lia].
    change (Z.to_nat 1) with 1%nat. lia.
Qed.

Lemma window_shift (start self_end interval_delta : Z) (k : nat) :
  window start self_end interval_delta (S k) =
  window (start + progress_delta + interval_delta) self_end interval_delta k.
Proof.
  unfold window. rewrite Nat2Z.inj_succ.
  replace (start + Z.succ (Z.of_nat k) * (progress_delta + interval_delta))%Z
    with (start + progress_delta + interval_delta
          + Z.of_nat k * (progress_delta + interval_delta))%Z by ring.
  reflexivity.
Qed.

Lemma windows_shift (start self_end interval_delta : Z) (m : nat) :
  map (window start self_end interval_delta) (seq 1 m) =
  map (window (start + progress_delta + interval_delta) self_end interval_delta)
    (seq 0 m).
Proof.
  rewrite <- List.seq_shift, List.map_map.
  apply List.map_ext. intros k. apply window_shift.
Qed.

Lemma window_first (start self_end interval_delta : Z) :
  window start self_end interval_delta 0 =
  (start, Z.min (start + progress_delta) self_end).
Proof.
  unfold window. change (Z.of_nat 0) with 0%Z.
  replace (start + 0 * (progress_delta + interval_delta))%Z with start by ring.
  reflexivity.
Qed.

(** The loop of [load_data] asks for the windows one after the other and
    ends by its test. *)
Lemma load_loop_spec {D} (mode : BacktestingMode)
    (load_bar_data load_tick_data : Instant -> Instant -> list D)
    (self_end interval_delta : Z) (bound : nat) :
  (0 <= interval_delta)%Z ->
  forall (start : Instant) (history_data : list D),
    (window_count start self_end interval_delta < bound)%nat ->
    load_loop bound mode load_bar_data load_tick_data self_end interval_delta
      start (start + progress_delta)%Z history_data =
    history_data ++
    flat_map (query mode load_bar_data load_tick_data)
      (map (window start self_end interval_delta)
         (seq 0 (window_count start self_end interval_delta))).
Proof.
  intros HI. induction bound as [|bound IH]; intros start history_data Hb; [lia|].
  cbn [load_loop].
  destruct (Z.ltb_spec start self_end) as [Hlt|Hge].
  - destruct (Z_le_gt_dec (start + progress_delta) self_end) as [Hle|Hgt].
    + rewrite (Z.min_l _ _ Hle).
      replace (start + progress_delta + (progress_delta + interval_delta))%Z
        with (start + progress_delta + interval_delta + progress_delta)%Z by ring.
      rewrite (window_count_succ start) in * by assumption.
      rewrite IH by lia.
      cbn [seq map flat_map]. rewrite windows_shift, window_first.
      rewrite (Z.min_l _ _ Hle). rewrite <- app_assoc.
      destruct mode; reflexivity.
    + assert (Hmin : Z.min (start + progress_delta) self_end = self_end) by lia.
      rewrite Hmin.
      replace (self_end + (progress_delta + interval_delta))%Z
        with (self_end + interval_delta + progress_delta)%Z by ring.
      rewrite (window_count_one start) in * by lia.
      rewrite IH by (rewrite window_count_zero by lia; lia).
      rewrite window_count_zero by lia.
      cbn [seq map flat_map]. rewrite window_first, Hmin.
      rewrite <- app_assoc.
      destruct mode; reflexivity.
  - rewrite window_count_zero by lia. cbn [seq map flat_map].
    symmetry. apply app_nil_r.
Qed.

Lemma load_bound_enough (start self_end interval_delta : Z) :
  (0 <= interval_delta)%Z -> (start < self_end)%Z ->
  (window_count start self_end interval_delta
   < load_bound start self_end interval_delta)%nat.
Proof.
  intros HI Hlt. unfold window_count, load_bound.
  assert (Hp : (0 < progress_delta + interval_delta)%Z)
    by (unfold progress_delta; lia).
  replace (self_end - start + progress_delta + interval_delta - 1)%Z
    with ((self_end - start - 1)
          + 1 * (progress_delta + interval_delta))%Z by ring.
  rewrite Z.div_add by lia.
  assert (((self_end - start - 1) / (progress_delta + interval_delta)
           <= (self_end - start) / (progress_delta + interval_delta))%Z)
    by (apply Z.div_le_mono; lia).
  assert ((0 <= (self_end - start - 1) / (progress_delta + interval_delta))%Z)
    by (apply Z.div_pos; lia).
  lia.
Qed.

Lemma load_data_history {D} (now : Instant) (interval_delta : Z)
    (load_bar_data load_tick_data : Instant -> Instant -> list D)
    (self : Loading D) :
  (0 <= interval_delta)%Z ->
  (ld_start self < default now (ld_end self))%Z ->
  ld_history_data (load_data now interval_delta load_bar_data load_tick_data self) =
  flat_map (query (ld_mode self) load_bar_data load_tick_data)
    (map (window (ld_start self) (default now (ld_end self)) interval_delta)
       (seq 0 (window_count (ld_start self) (default now (ld_end self))
                 interval_delta))).
Proof.
  intros HI Hlt. unfold load_data.
  destruct (Z.leb_spec (default now (ld_end self)) (ld_start self)) as [Hle|_]; [lia|].
  cbn [ld_history_data].
  rewrite load_loop_spec by (try apply load_bound_enough; assumption).
  reflexivity.
Qed.

Lemma load_data_In {D} (now : Instant) (interval_delta : Z)
    (load_bar_data load_tick_data : Instant -> Instant -> list D)
    (self : Loading D) (x : D) :
  (0 <= interval_delta)%Z ->
  (ld_start self < default now (ld_end self))%Z ->
  In x (ld_history_data
          (load_data now interval_delta load_bar_data load_tick_data self)) <->
  exists k : nat,
    (k < window_count (ld_start self) (default now (ld_end self)) interval_delta)%nat /\
    In x (query (ld_mode self) load_bar_data load_tick_data
            (window (ld_start self) (default now (ld_end self)) interval_delta k)).
Proof.
  intros HI Hlt. rewrite load_data_history by assumption.
  rewrite in_flat_map. split.
  - intros (w & Hw & Hx). apply in_map_iff in Hw as (k & <- & Hk).
    apply in_seq in Hk. exists k. split; [lia | exact Hx].
  - intros (k & Hk & Hx). eexists. split; [| exact Hx].
    apply in_map_iff. exists k. split; [reflexivity|]. apply in_seq. lia.
Qed.

Lemma stored_between_spec (store : list Instant) (s e t : Instant) :
  In t (stored_between store s e) <-> In t store /\ (s <= t <= e)%Z.
Proof.
  unfold stored_between. rewrite List.filter_In, andb_true_iff.
  rewrite Z.leb_le, Z.leb_le. tauto.
Qed.

(** X24.  When the start lies before the end (the present time when no end
    was set) and the interval is not negative, [load_data] replaces the
    history by the answers to the queries for the windows
    [start + k(30 days + interval), min(that + 30 days, end)], in the order
    of [k], for every [k] whose window starts before the end: earlier
    history is dropped and the loop ends. *)
Theorem load_data_windows {D} (now : Instant) (interval_delta : Z)
    (load_bar_data load_tick_data : Instant -> Instant -> list D)
    (self : Loading D) :
  (0 <= interval_delta)%Z ->
  (ld_start self < default now (ld_end self))%Z ->
  ld_history_data (load_data now interval_delta load_bar_data load_tick_data self) =
  flat_map (query (ld_mode self) load_bar_data load_tick_data)
    (map (window (ld_start self) (default now (ld_end self)) interval_delta)
       (seq 0 (window_count (ld_start self) (default now (ld_end self))
                 interval_delta))).
Proof. apply load_data_history. Qed.

Lemma load_data_windows_witness :
  ld_history_data
    (load_data 0%Z one_minute (stored_between example_store)
       (stored_between example_store) example_loading) =
  flat_map (query TICK (stored_between example_store) (stored_between example_store))
    (map (window 0%Z (3 * progress_delta)%Z one_minute) (seq 0 3)).
Proof.
  apply (load_data_windows 0%Z one_minute (stored_between example_store)
           (stored_between example_store) example_loading).
  - vm_compute. discriminate.
  - vm_compute. reflexivity.
Defined.

(** X25.  Between one window of [load_data] and the next lies a gap of the
    length of the interval: when the queries answer with data of the window
    they are asked for, no loaded item has its time strictly between the
    end of the [k]-th full window and the start of the next one, whatever
    the database holds there. *)
Theorem load_data_skips_between_windows {D} (time : D -> Instant)
    (now : Instant) (interval_delta : Z)
    (load_bar_data load_tick_data : Instant -> Instant -> list D)
    (self : Loading D) (x : D) (k : nat) :
  (0 <= interval_delta)%Z ->
  (ld_start self < default now (ld_end self))%Z ->
  (forall s e y, In y (load_bar_data s e) -> (s <= time y <= e)%Z) ->
  (forall s e y, In y (load_tick_data s e) -> (s <= time y <= e)%Z) ->
  In x (ld_history_data
          (load_data now interval_delta load_bar_data load_tick_data self)) ->
  ~ (ld_start self + Z.of_nat k * (progress_delta + interval_delta) + progress_delta
     < time x
     < ld_start self + Z.of_nat (S k) * (progress_delta + interval_delta))%Z.
Proof.
  intros HI Hlt Hbar Htick Hin [Hlo Hhi].
  apply load_data_In in Hin as (j & _ & Hx); [| assumption ..].
  assert (Hw : (fst (window (ld_start self) (default now (ld_end self))
                       interval_delta j) <= time x
                <= snd (window (ld_start self) (default now (ld_end self))
                          interval_delta j))%Z).
  { unfold query in Hx. destruct (ld_mode self); [apply Hbar | apply Htick]; exact Hx. }
  unfold window in Hw. cbn [fst snd] in Hw.
  assert (Hp : (0 < progress_delta + interval_delta)%Z)
    by (unfold progress_delta; lia).
  destruct (Nat.le_gt_cases j k) as [Hjk|Hjk].
  - assert ((Z.of_nat j * (progress_delta + interval_delta)
             <= Z.of_nat k * (progress_delta + interval_delta))%Z)
      by (apply Z.mul_le_mono_nonneg_r; lia).
    lia.
  - assert ((Z.of_nat (S k) * (progress_delta + interval_delta)
             <= Z.of_nat j * (progress_delta + interval_delta))%Z)
      by (apply Z.mul_le_mono_nonneg_r; lia).
    lia.
Qed.

Lemma load_data_skips_between_windows_witness :
  In (progress_delta + one_minute)%Z
    (ld_history_data
       (load_data 0%Z one_minute (stored_between example_store)
          (stored_between example_store) example_loading)) /\
  ~ (0 + Z.of_nat 0 * (progress_delta + one_minute) + progress_delta
     < progress_delta + one_minute
     < 0 + Z.of_nat 1 * (progress_delta + one_minute))%Z.
Proof.
  split; [vm_compute; tauto |].
  apply (load_data_skips_between_windows (fun t => t) 0%Z one_minute
           (stored_between example_store) (stored_between example_store)
           example_loading (progress_delta + one_minute)%Z 0).
  - vm_compute. discriminate.
  - vm_compute. reflexivity.
  - intros s e y Hy. apply stored_between_spec in Hy. tauto.
  - intros s e y Hy. apply stored_between_spec in Hy. tauto.
  - vm_compute. tauto.
Defined.

(** X26.  What lies in a window is asked for: when the queries answer with
    every stored item of the window they are asked for, a stored item whose
    time is at or after the start, before the end and in no gap between two
    windows is in the history after [load_data]. *)
Theorem load_data_loads_the_windows {D} (time : D -> Instant)
    (now : Instant) (interval_delta : Z)
    (load_bar_data load_tick_data : Instant -> Instant -> list D)
    (self : Loading D) (x : D) :
  (0 <= interval_delta)%Z ->
  (forall s e, (s <= time x <= e)%Z ->
     In x (load_bar_data s e) /\ In x (load_tick_data s e)) ->
  (ld_start self <= time x < default now (ld_end self))%Z ->
  (forall k : nat,
     ~ (ld_start self + Z.of_nat k * (progress_delta + interval_delta)
        + progress_delta
        < time x
        < ld_start self + Z.of_nat (S k) * (progress_delta + interval_delta))%Z) ->
  In x (ld_history_data
          (load_data now interval_delta load_bar_data load_tick_data self)).
Proof.
  intros HI Hload [Hlo Hhi] Hgap.
  assert (Hp : (0 < progress_delta + interval_delta)%Z)
    by (unfold progress_delta; lia).
  apply load_data_In; [assumption | lia |].
  set (S0 := ld_start self) in *. set (E := default now (ld_end self)) in *.
  set (PI := (progress_delta + interval_delta)%Z) in *.
  set (q := ((time x - S0) / PI)%Z).
  assert (Hq0 : (0 <= q)%Z) by (apply Z.div_pos; lia).
  assert (Hdiv : (time x - S0 = PI * q + (time x - S0) mod PI)%Z)
    by (apply Z.div_mod; lia).
  assert (Hmod : (0 <= (time x - S0) mod PI < PI)%Z)
    by (apply Z.mod_pos_bound; lia).
  exists (Z.to_nat q).
  assert (Hk : Z.of_nat (Z.to_nat q) = q) by lia.
  split.
  - unfold window_count. fold S0 E PI.
    assert ((q + 1 <= (E - S0 + progress_delta + interval_delta - 1) / PI)%Z).
    { apply Z.div_le_lower_bound; [lia|]. unfold PI in *. lia. }
    lia.
  - specialize (Hgap (Z.to_nat q)).
    rewrite Nat2Z.inj_succ, Hk in Hgap.
    assert (Hw : (fst (window S0 E interval_delta (Z.to_nat q)) <= time x
                  <= snd (window S0 E interval_delta (Z.to_nat q)))%Z).
    { unfold window. cbn [fst snd]. rewrite Hk. fold PI. lia. }
    destruct (Hload _ _ Hw) as [Hb Ht].
    unfold query. destruct (ld_mode self); assumption.
Qed.

Lemma load_data_loads_the_windows_witness :
  In (progress_delta + one_minute)%Z
    (ld_history_data
       (load_data 0%Z one_minute (stored_between example_store)
          (stored_between example_store) example_loading)).
Proof.
  apply (load_data_loads_the_windows (fun t => t) 0%Z one_minute
           (stored_between example_store) (stored_between example_store)
           example_loading (progress_delta + one_minute)%Z).
  - vm_compute. discriminate.
  - intros s e H. split; apply stored_between_spec;
      (split; [vm_compute; tauto | exact H]).
  - vm_compute. split; [discriminate | reflexivity].
  - intros k. unfold example_loading, one_minute, progress_delta.
    cbn [ld_start]. lia.
Defined.

(** X27.  At the end of a run from a fresh engine, whichever way the run
    ends, the order books are consistent: every limit order and every stop
    order is filed under its own number, a number that its counter has
    handed out; every identifier of an active book has its order in the
    dict of all orders; and no identifier is twice in an active book. *)
Theorem books_are_consistent_after_a_run {T} (depth : nat) (mode_ : BacktestingMode)
    (pricetick_ : Q) (s : Strategy T) (init : T) (history : list HistoryData) :
  books_wf (snd (run_backtesting depth (new_engine mode_ pricetick_ s init history))).
Proof.
  pose proof (run_backtesting_inv depth _
                (engine_inv_new_engine mode_ pricetick_ s init history)) as H.
  destruct (run_backtesting depth _) as [[[]|ex] e']; exact H.
Qed.
